(* ===== verification/_CoqProject ===== *)
-Q . S2P
Prelude.v
Text.v
Layout.v
Proto.v
Outbound.v
Producers.v
Stream.v
Scanner.v
Host.v
Hub.v
Ledger.v
Durable.v
Wire.v
Frames.v
Framing.v
Client.v
World.v
Table.v
Sessions.v
Dispatch.v
TableSpecs.v
TableInv.v
Layouts.v
Records.v
Kills.v
Clients.v
Creation.v
Status.v
Restart.v
Lifecycle.v
Legacy.v
Server.v
Interleave.v
Sample.v
WireSample.v
Witnesses.v
ServerWitnesses.v
Float32.v
Panes.v
Sync.v
Attach.v
Shell.v
Words.v
Deploy.v
Platform.v
Ssh.v
Link.v
Events.v
Registry.v
Paths.v
Service.v
Hosts.v
HostSpecs.v
Workspaces.v
WorkspaceSpecs.v
Windows.v
Control.v
ControlSpecs.v
