(* ===== verification/Prelude.v ===== *)
(** * ZOrca sessions: root of the development

    ZOrca keeps coding sessions alive in a daemon ([zorca-agent]) that owns their
    ptys, their workspaces and the layouts of their tabs, while editors and attached
    terminals connect to it and leave. This library models that daemon, the protocol it
    speaks, and the client's side of it: the terminal that attaches, the window that
    keeps its layout in step, the link that deploys, starts and upgrades a daemon on
    another host, and the client's own record of the workspaces it uses on many hosts,
    with everything it decides about them. Everything else in the repository (the editor it
    is forked from, its views) is out of its scope.

    ** How the program is put together

    A connection is a byte stream of length-prefixed JSON envelopes
    ([crates/ade_session/src/framing.rs]) holding frames
    ([crates/ade_session/src/proto.rs]). It opens with a handshake, then
    [serve_connection] ([crates/ade_session_daemon/src/server.rs]) hands each frame to
    [handle_frame], which calls one operation of [SessionTable]
    ([crates/ade_session_daemon/src/sessions.rs]) and answers on the connection's
    bounded outbound queue. The table keeps the rows of sessions and workspaces,
    writes them to [sessions.json] ([crates/ade_session_daemon/src/state.rs]), and
    owns per session the pty, the scrollback ring, the emulated screen
    ([crates/ade_session_daemon/src/grid.rs]) and the fan-out of output; an event hub
    tells every subscriber what changed. Drain, reaper and sweeper threads report
    output, exits and statuses into the same table.

    On the other end, [ade-daemon attach] ([crates/ade_session_daemon/src/attach.rs])
    copies a terminal to and from one session over transports that come and go. A
    window ([crates/ade_workspaces/src/layout.rs]) builds its tree of panes from the
    stored document, captures it back, pushes what the user changes and applies what
    other clients stored. For a session on another host
    ([crates/ade_workspaces/src/daemon_backend.rs]) [HostLink] runs commands over ssh
    ([crates/ade_session/src/ssh.rs]), puts a daemon binary of the right platform there
    ([source.rs], [deploy.rs]) and forwards its socket.

    Above the hosts, [WorkspaceLifecycleService]
    ([crates/ade_workspaces/src/lifecycle.rs]) keeps a registry of the workspaces this
    client uses ([registry.rs], a table of sqlite), asks each host's [SessionBackend]
    what it holds, reconciles the two, and creates, adopts, renames, moves and kills.
    Each backend follows its daemon's events ([stream_status] of daemon_backend.rs), and
    the service merges them into one stream for the sidebar. What the service asks of a
    host goes over the backend's control connection ([request_seen]), one request at a
    time, to the daemon that introduced itself there.

    ** Files

    - Prelude: results, the state monad [st] with the source's [?] as [←?], loops, and
      [wp], the rule-based reasoning every table operation is proved with. Text: Rust
      strings as bytes, [bounded] cuts on character boundaries, [op_is_valid].
    - Layout: [LayoutDoc], [LayoutNode], [Tab] (proto.rs), their session ids, pruning
      ([retain_sessions]) and canonical form, [append_terminal].
      Proto: every message type, error code, subject accessor and negotiation function
      of proto.rs.
    - Wire, Frames: serde's derived rendering of those types as JSON values and back.
      Framing: framing.rs, the two-stage codec, its error taxonomy, the rejection reply,
      frames on a stream. Client: client.rs, the client's half of the handshake.
    - Outbound, Producers: [Outbound] and [OutboundQueue] of sessions.rs, once with each
      call as one step, once with its atomic operations apart under any interleaving.
    - Stream: [Ring], [BellScan], [Activity]. Scanner: [Scanner], [osc_title],
      [parse_escape] of grid.rs. Hub: [EventHub], [OutputHub].
    - Host: [resolve_shell], the spawned command, [foreground_is_shell],
      [StatusConfig], [collect_process_groups] and the signals of a kill.
    - Ledger: [StateStore]. Durable: [write_atomic] one system call at a time.
    - World: the fields of [SessionTable], [Session] and [Live] as the record [world],
      with every call to the operating system recorded ([w_ptys], [w_signals]).
      Table, Sessions: the operations of [SessionTable], method by method, each the
      sequence of critical sections the source has.
    - Dispatch: [handshake], [combined_create], [handle_frame] of server.rs. Server:
      [DaemonControl], [ConnectionGuard], [serve_connection], the shutdown gate and the
      idle watcher as steps of many concurrent connections over one world.
    - TableSpecs, TableInv (the invariant [table_wf]), Layouts, Records, Kills, Clients,
      Creation, Status, Restart, Lifecycle, Legacy, Interleave: the theorems about the
      table and the dispatcher, by subject.
    - Sample, WireSample, Witnesses, ServerWitnesses: one concrete operating system,
      screen, ledger codec, envelope text and build, on which every property with a
      hypothesis is evaluated.
    - Attach: attach.rs, the attached terminal's handshake, pump and input queue.
      Float32, Panes: the arithmetic of flexes and the unfolding, building and capturing
      of a window's tree of panes. Sync: [LayoutSync], alone and as a system with the
      daemon and the messages in flight, and the closing of tabs.
    - Shell, Words: quoting for a posix shell, Rust's splitting and trimming of text.
      Deploy: deploy.rs over whatever a host answers ([HostExec]). Platform: source.rs.
      Ssh: ssh.rs. Link: [HostLink]. Each opens with its own witnesses' samples.
    - Events: the event stream of a daemon ([stream_status], [SessionJoin],
      [accept_workspace_event]). Registry: registry.rs, its statements over a table with
      its unique index, and the migration that made the index. Paths: std's path
      components, and the project names made of them. Service: the data of lifecycle.rs
      and session_backend.rs, the state of [WorkspaceLifecycleService], its connections
      and what it remembers of a daemon. Hosts: listing and reconciling hosts.
      Workspaces: every other operation of the service and the fan-out of its events.
      HostSpecs, WorkspaceSpecs: the theorems about them and their samples.
    - Windows: [AdeLayouts] of layout.rs, one [LayoutSync] per window and the merged
      stream routed to them, and the claims of connect.rs.
    - Control: [DaemonBackend] of daemon_backend.rs, its connection, its requests and the
      operations of [SessionBackend] made of them, as an instance [daemon_backends] of
      the interface that Service is written against. ControlSpecs: its theorems, and the
      service composed with it.

    A [HashMap] is a [gmap]; where the source iterates one, the model takes
    [map_to_list]'s order, and where the outcome could depend on it the theorem says
    "in some order". Integers are [Z] with their width in the invariant, or in
    [frame_ok] and [value_ok] on the wire; counters the source bumps unchecked wrap. Instants are
    arguments. An operation reads the operating system through [OS], whose answers are
    indexed by the moment they are asked ([w_tick]), so every outcome the system allows
    is some instance.

    ** What the theorems show

    - The table. From any ledger, over any sequence of operations and thread reports,
      [table_wf] holds ([every_reachable_table_is_wf]). Creates, kills, layout writes,
      renames and project-scope writes each happen whole and durably or not at all, and
      a refusal names its reason. A resize, a focus and a departure leave the pty at the
      size the remaining asks determine. A restart reports each persisted session once.
      A ledger this build does not understand is never overwritten. One interleaving
      breaks this: a layout write whose persist fails during a kill restores a tab of
      the killed session ([failed_layout_write_resurrects_a_killed_tab]).
    - Bytes and queues. The ring is the newest bytes of the stream, the bell and the
      scanner do not depend on how reads split it, a publish loses nothing to a kept
      connection, and a replay joins the live stream without gap or repeat. A queue's
      frames stay within its bound under every interleaving of producers. A crash during
      [write_atomic] leaves the old file or the new one.
    - The wire. Frames written are the frames read; the envelope alone decides how a
      frame that does not decode is answered; one bad frame costs one request; a
      rejection is bounded. The two halves of the handshake agree.
    - The server. Every request has at most one reply, of its kind and with its
      correlation id; a polite shutdown waits for state requests; the counters are exact
      in every run; a frame that touches no state changes none; a connection whose
      client left is removed within three of its steps. Generation 2's combined creates
      are one outcome, compensation included.
    - The attached terminal. Its handshake is fenced to the expected daemon; typed bytes
      are handed over once each and in order, whatever transports are lost; the screen
      shows the replay and then the session's output.
    - The window. A document rendered and captured again is the document. A window with
      one write in flight agrees with the daemon and overwrites nothing it did not hold;
      with two it can ([pipelined_pushes_lose_a_race_unnoticed]). Of what the service
      hands on, a window hears what its own daemon says of its own workspace
      ([windows_hear_their_own_daemon]). Closing a tab kills
      only what no item of the window shows.
    - Another host. A deployment writes over nothing runnable or over an older binary
      whose socket is gone, and follows the version policy; a shipped binary fits its
      host; a command over ssh is that command on the host; connecting ends no process;
      an upgrade replaces the binary of a stopped daemon only. The sidebar's verdict is
      of the daemon met last while connects do not overlap, and can be of another when
      they do ([the_verdict_can_be_of_another_daemon]).
    - A daemon's events. After a subscription, what a client was told of workspaces is
      what the daemon holds, and the last status told of a workspace is that of all its
      sessions; retries back off and start over.
    - The client's registry. Under any statements there is one row per record of a
      daemon; scopes settle in any order; a rebind that collides keeps the better row;
      the migration keeps the best row of each host, and cannot make its index when one
      daemon is known under two names ([two_names_of_a_host_block_the_index]).
    - The client's workspaces. Looking at hosts uses nothing and changes nothing on them;
      a state shown was heard from the workspace's own host in that pass; opening a
      record makes one row of it; a workspace is created only where its host answered
      that there is none; rows change after the daemon did; a cleanup kills only the
      dead. Recording a project ends, but for one revision, at which it never does
      ([a_last_revision_never_settles]).
    - The control connection. Every operation writes only its own requests, to a daemon
      that introduced itself and is the expected one; a wait for an answer ends, and an
      answer in time is taken; only sessions that a daemon listed are ended, and none is
      created beside a living one. Composed with the service: a cleanup takes away only
      what was confirmed and what a daemon just listed as ended, on the right daemon
      ([a_cleanup_reaches_only_the_dead]).

    ** Bounds and fuel

    [read_all] and [scan_loop] take the length of what is left as fuel, and each round
    consumes at least one byte ([stream_reads_every_payload],
    [scanner_ignores_read_boundaries] hold for every length). [install_legacy_layout]
    tries [ATTEMPTS] times as the source does. [nesting] against [BODY_NESTING] is
    serde_json's recursion limit; [publish_loop] and the text routines take the length of what they consume.
    [wait_until_ready] takes its rounds as fuel, and 24 are enough for the five seconds
    it waits ([waiting_for_the_forward_ends]). [settle_project] and [settle_repository]
    are the source's unbounded loops: two rounds are enough for every revision but one
    ([recording_a_project_ends]), and without fuel they answer [Unfinished], which no
    operation of the source does. [await] counts its reads: each takes an arrival or ends
    the wait, so one more than what is to arrive is enough ([await_says]). The other
    recursions are structural.

    ** Parameters

    Code outside the repository is an interface with the laws its documentation gives:
    [serde_json]'s text ([EnvelopeText], [StateCodec]) and its messages ([BodyErrors]),
    the conversions between [f32] and [f64] ([Floats]), Unicode's printable characters
    ([Unicode]), the derived [Debug] of a frame ([FrameDebug]), the operating system
    ([OS], [host]), the terminal emulator ([ScreenGrid]), and the build's identity
    ([Identity]). A host's answers ([HostExec]) may depend on everything it was asked; a
    documented host ([HonestHost]), a posix shell ([PosixShell]) and ssh
    ([SshTransport]) are laws on top. A client's hosts ([SessionBackends]) answer each
    request anything of its type, by everything asked before; the clock and the source
    of uuids answer by how often they were asked. What arrives on a connection, and when,
    is its [Wire]; whether connecting succeeds is the [Endpoint]'s. The cargo build, the ssh child and the shutdown
    channel are arguments of the definitions that use them. Sample instances prove the
    laws of every one of them.

    ** Not modelled, and why

    - Binding the socket, the lock on it, hashing the executable, logging, argument
      parsing ([main.rs]) and the byte copying of [proxy.rs]: input and output only.
    - The writer task of a connection and [Outbound]'s notification: the queue's [recv]
      is modelled, its wake-up is tokio's.
    - Rendering a repaint from the emulator's cells ([SessionGrid] past its scanner):
      the emulator's grid is a third-party type.
    - Interleavings inside [handle_frame]: Server lets anything happen between a
      request's admission and its completion, but runs its operation as one step;
      Producers and Interleave take the two cases where the source's locks are finer.
    - The upload scripts and [LocalHost] of deploy.rs, the cargo build of source.rs, ssh
      as a process: input and output. An [anyhow] error is its innermost sentence, with
      the contexts that name the step left out.
    - The terminal's raw mode, signals and console calls (attach.rs), and the moving of
      live items when a window re-renders its tree (layout.rs): the editor's types.
    - The service of a client's workspaces runs one call at a time: the source lets calls
      on different daemons overlap, under one lock per route and per daemon, which the
      model takes as given. [upgrade_host_daemon] and the freshness watchers only pass on
      what Link models.
    - sqlite: a statement is its documented effect on the rows, and the index is checked
      row by row. The migrations of columns are the record's fields.
    - A control connection is used by one call at a time, as its lock has it, but other
      calls between the requests of one operation are left out. A read is whole: the
      bytes of a frame cut off by a deadline are given up with the connection.
    - [AdeWorkspaceStore] (store.rs), the connection dialog (connect.rs but for its
      claims) and the views: entities of the editor's framework.

    ** What is left

    Calls of the service, and requests of one backend, interleaved under their locks;
    more pairs of table operations with their critical sections interleaved. *)

From stdpp Require Export base tactics list gmap strings sorting pretty.
From stdpp Require Import options.
From Stdlib Require Export ZArith Lia.

#[export] Set Default Goal Selector "!".

Declare Scope daemon_scope.
Delimit Scope daemon_scope with daemon.
#[global] Open Scope daemon_scope.

(** ** Results

    [Result<T, E>] of the source. *)
Inductive result (E A : Type) : Type :=
| Ok (a : A)
| Err (e : E).
Arguments Ok {E A} _.
Arguments Err {E A} _.

#[export] Instance result_eq_dec {E A} `{EqDecision E, EqDecision A} : EqDecision (result E A).
Proof. solve_decision. Defined.

Definition is_ok {E A} (r : result E A) : bool := match r with Ok _ => true | Err _ => false end.

(** [Result::map_err] and [Result::map]. *)
Definition map_err {E F A} (f : E → F) (r : result E A) : result F A :=
  match r with Ok a => Ok a | Err e => Err (f e) end.

Definition map_ok {E A B} (f : A → B) (r : result E A) : result E B :=
  match r with Ok a => Ok (f a) | Err e => Err e end.

(** ** State passing

    [st S A] is a computation over the shared state [S]; [x ← m; k] is stdpp's
    bind, and [x ←? m; k] is the source's [?]: it continues on [Ok] and returns
    an [Err] at once. *)
Definition st (S A : Type) : Type := S → A * S.

#[export] Instance st_ret {S} : MRet (st S) := λ A a s, (a, s).
#[export] Instance st_bind {S} : MBind (st S) := λ A B f m s, let '(a, s') := m s in f a s'.

Definition st_get {S} : st S S := λ s, (s, s).
Definition st_put {S} (s : S) : st S () := λ _, ((), s).
Definition st_modify {S} (f : S → S) : st S () := λ s, ((), f s).
Definition st_gets {S A} (f : S → A) : st S A := λ s, (f s, s).

(** Run a computation for its final state. *)
Definition st_exec {S A} (m : st S A) (s : S) : S := (m s).2.
Definition st_eval {S A} (m : st S A) (s : S) : A := (m s).1.

Definition bind_ok {S E A B} (m : st S (result E A)) (k : A → st S (result E B)) :
    st S (result E B) :=
  λ s, match m s with
       | (Ok a, s') => k a s'
       | (Err e, s') => (Err e, s')
       end.

Notation "x '←?' y ; z" := (bind_ok y (λ x : _, z))
  (at level 20, y at level 100, z at level 200, only parsing) : daemon_scope.
Notation "' x '←?' y ; z" := (bind_ok y (λ x : _, z))
  (at level 20, x pattern, y at level 100, z at level 200, only parsing) : daemon_scope.

Lemma st_bind_unfold {S A B} (f : A → st S B) (m : st S A) s :
  (m ≫= f) s = f (m s).1 (m s).2.
Proof. unfold mbind, st_bind. by destruct (m s). Qed.

(** [Vec::retain] with a predicate that works on shared state: elements are
    visited in order and the ones refused are dropped. *)
Fixpoint retain_st {S A} (p : A → st S bool) (l : list A) : st S (list A) :=
  match l with
  | [] => mret []
  | x :: l =>
      keep ← p x;
      l' ← retain_st p l;
      mret (if keep : bool then x :: l' else l')
  end.

(** A [for] loop over shared state. *)
Fixpoint for_st {S A} (l : list A) (f : A → st S ()) : st S () :=
  match l with
  | [] => mret ()
  | x :: l => f x ;; for_st l f
  end.

Section StateLemmas.
Context {S A : Type}.

Lemma retain_st_sublist (p : A → st S bool) l s :
  (retain_st p l s).1 `sublist_of` l.
Proof.
  revert s. induction l as [|x l IH]; intros s; simpl; [done|].
  unfold mbind, st_bind. destruct (p x s) as [keep s1].
  specialize (IH s1). destruct (retain_st p l s1) as [l' s2]; simpl in *.
  destruct keep; simpl; [by apply sublist_skip|by apply sublist_cons].
Qed.

(** An invariant of the state that every visit preserves holds after the
    whole pass. *)
Lemma retain_st_inv (P : S → Prop) (p : A → st S bool) l s :
  (∀ x s, x ∈ l → P s → P (p x s).2) → P s → P (retain_st p l s).2.
Proof.
  revert s. induction l as [|x l IH]; intros s Hp Hs; simpl; [done|].
  unfold mbind, st_bind. pose proof (Hp x s ltac:(left) Hs) as Hx.
  destruct (p x s) as [keep s1]. simpl in Hx.
  pose proof (IH s1 (λ y t Hy, Hp y t ltac:(by right)) Hx) as Hl.
  by destruct (retain_st p l s1).
Qed.

Lemma for_st_inv (P : S → Prop) (f : A → st S ()) l s :
  (∀ x s, x ∈ l → P s → P (f x s).2) → P s → P (for_st l f s).2.
Proof.
  revert s. induction l as [|x l IH]; intros s Hf Hs; simpl; [done|].
  unfold mbind, st_bind. pose proof (Hf x s ltac:(left) Hs) as Hx.
  destruct (f x s) as [[] s1]. apply IH; [|done]. intros y t ? ?. apply Hf; [by right|done].
Qed.
End StateLemmas.

(** ** Weakest preconditions

    [wp m Q w]: running [m] from [w] ends with an answer and a state in [Q]. The
    rules below run a computation symbolically, one step at a time. *)
Definition wp {S A} (m : st S A) (Q : A → S → Prop) (s : S) : Prop := Q (m s).1 (m s).2.

Section Wp.
Context {S : Type}.

Lemma wp_bind {A B} (m : st S A) (k : A → st S B) Q s :
  wp m (λ a s', wp (k a) Q s') s → wp (m ≫= k) Q s.
Proof. unfold wp. by rewrite st_bind_unfold. Qed.

Lemma wp_ret {A} (a : A) (Q : A → S → Prop) s : Q a s → wp (mret a) Q s.
Proof. done. Qed.

Lemma wp_get (Q : S → S → Prop) s : Q s s → wp st_get Q s.
Proof. done. Qed.

Lemma wp_gets {A} (f : S → A) (Q : A → S → Prop) s : Q (f s) s → wp (st_gets f) Q s.
Proof. done. Qed.

Lemma wp_modify (f : S → S) (Q : () → S → Prop) s : Q () (f s) → wp (st_modify f) Q s.
Proof. done. Qed.

Lemma wp_bind_ok {E A B} (m : st S (result E A)) (k : A → st S (result E B)) Q s :
  wp m (λ r s', match r with Ok a => wp (k a) Q s' | Err e => Q (Err e) s' end) s →
  wp (bind_ok m k) Q s.
Proof. unfold wp, bind_ok. by destruct (m s) as [[a|e] s']. Qed.

Lemma wp_mono {A} (m : st S A) (Q R : A → S → Prop) s :
  wp m Q s → (∀ a s', Q a s' → R a s') → wp m R s.
Proof. unfold wp. eauto. Qed.

(** An invariant of a loop. *)
Lemma wp_for {A} (P : S → Prop) (l : list A) (f : A → st S ()) (Q : () → S → Prop) s :
  P s → (∀ x s, x ∈ l → P s → wp (f x) (λ _, P) s) → (∀ s, P s → Q () s) →
  wp (for_st l f) Q s.
Proof.
  intros Hs Hf HQ. unfold wp. destruct (for_st l f s).1. apply HQ. apply for_st_inv; [|done]. intros x t Hx Ht. by apply (Hf x t).
Qed.
End Wp.

(** ** Machine integers

    Unsigned integers are [Z]; where the source can leave the width, the wrap is
    written out. *)
Definition u16_max : Z := 65535.
Definition u32_max : Z := 4294967295.
Definition u64_max : Z := 18446744073709551615.

Definition wrap64 (z : Z) : Z := z `mod` 18446744073709551616.

Definition saturating_sub (a b : Z) : Z := Z.max 0 (a - b).

Lemma wrap64_small z : (0 ≤ z ≤ u64_max)%Z → wrap64 z = z.
Proof. unfold wrap64, u64_max. intros. rewrite Z.mod_small; lia. Qed.

Lemma wrap64_range z : (0 ≤ wrap64 z ≤ u64_max)%Z.
Proof.
  unfold wrap64, u64_max.
  pose proof (Z.mod_pos_bound z 18446744073709551616 ltac:(lia)). lia.
Qed.

(** ** Sorting by a key pair

    The source sorts rows by [created_at] and then by id
    ([sort_by(|a, b| a.created_at.cmp(&b.created_at).then(a.id.cmp(&b.id)))]). *)
Definition row_le (a b : Z * string) : Prop :=
  (a.1 < b.1)%Z ∨ (a.1 = b.1 ∧ String.le a.2 b.2).

#[export] Instance row_le_dec : RelDecision row_le.
Proof. intros a b. unfold row_le. apply _. Defined.

Definition sort_rows {A} (key : A → Z * string) (l : list A) : list A :=
  merge_sort (λ x y, row_le (key x) (key y)) l.

Lemma sort_rows_Permutation {A} (key : A → Z * string) l : sort_rows key l ≡ₚ l.
Proof. apply merge_sort_Permutation. Qed.

Lemma elem_of_sort_rows {A} (key : A → Z * string) l x : x ∈ sort_rows key l ↔ x ∈ l.
Proof. by rewrite sort_rows_Permutation. Qed.

#[export] Instance row_le_total {A} (key : A → Z * string) :
  Total (λ x y, row_le (key x) (key y)).
Proof.
  intros x y. unfold row_le.
  destruct (Z.lt_trichotomy (key x).1 (key y).1) as [?|[?|?]]; [by auto| |by auto].
  destruct (total String.le (key x).2 (key y).2); auto.
Qed.

Lemma sort_rows_Sorted {A} (key : A → Z * string) l :
  Sorted (λ x y, row_le (key x) (key y)) (sort_rows key l).
Proof. apply Sorted_merge_sort, _. Qed.

(** ** Vectors *)

(** The last [n] elements, oldest first. *)
Definition last_n {A} (n : nat) (l : list A) : list A := drop (length l - n) l.

Lemma length_last_n {A} n (l : list A) : length (last_n n l) = n `min` length l.
Proof. unfold last_n. rewrite length_drop. lia. Qed.

Lemma last_n_all {A} n (l : list A) : length l ≤ n → last_n n l = l.
Proof. unfold last_n. intros. by replace (length l - n) with 0 by lia. Qed.

Lemma last_n_app_l {A} n (l k : list A) :
  last_n n (last_n n l ++ k) = last_n n (l ++ k).
Proof.
  unfold last_n. rewrite !length_app, !drop_app, length_drop, drop_drop.
  f_equal; f_equal; lia.
Qed.

(** [Vec::swap_remove]: the last element takes the removed one's place. *)
Definition swap_remove {A} (i : nat) (l : list A) : list A :=
  match last l with
  | Some x => take (length l - 1) (<[i := x]> l)
  | None => l
  end.

Lemma swap_remove_delete {A} i (l : list A) :
  i < length l → swap_remove i l ≡ₚ delete i l.
Proof.
  intros Hi. unfold swap_remove. destruct l as [|x l _] using rev_ind; [simpl in Hi; lia|].
  rewrite last_snoc, length_app. rewrite length_app in Hi. simpl in *.
  replace (length l + 1 - 1) with (length l) by lia.
  rewrite insert_take_drop by (rewrite length_app; simpl; lia).
  destruct (decide (i = length l)) as [->|Hne].
  - by rewrite delete_middle, app_nil_r, !take_app_length.
  - destruct (lookup_lt_is_Some_2 l i ltac:(lia)) as [y Hy].
    apply list_elem_of_split_length in Hy as (l1 & l2 & -> & ->).
    rewrite <- app_assoc. simpl. rewrite delete_middle, take_app_length.
    replace (drop (S (length l1)) (l1 ++ y :: l2 ++ [x])) with (l2 ++ [x]) by
      (by rewrite (cons_middle y), app_assoc, drop_app_length' by (rewrite length_app; simpl; lia)).
    replace (length (l1 ++ y :: l2)) with (length (l1 ++ x :: l2)) by (rewrite !length_app; done).
    rewrite (app_comm_cons l2 [x] x), app_assoc, take_app_length.
    rewrite app_assoc. by rewrite <- Permutation_cons_append, <- Permutation_middle.
Qed.

(** [Iterator::position]. *)
Fixpoint position {A} (p : A → bool) (l : list A) : option nat :=
  match l with
  | [] => None
  | x :: l => if p x then Some 0 else S <$> position p l
  end.

(** [Iterator::find]. *)
Fixpoint find_first {A} (p : A → bool) (l : list A) : option A :=
  match l with
  | [] => None
  | x :: l => if p x then Some x else find_first p l
  end.

Lemma find_first_Some {A} (p : A → bool) l x :
  find_first p l = Some x → x ∈ l ∧ p x = true.
Proof.
  induction l as [|y l IH]; simpl; [done|]. destruct (p y) eqn:?; intros; simplify_eq.
  - split; [left|done].
  - destruct IH; [done|]. split; [by right|done].
Qed.

Lemma find_first_None {A} (p : A → bool) l :
  find_first p l = None ↔ ∀ x, x ∈ l → p x = false.
Proof.
  induction l as [|y l IH]; simpl; [split; [by inversion 2|done]|].
  destruct (p y) eqn:Hy.
  - split; [done|]. intros H. specialize (H y ltac:(left)). congruence.
  - rewrite IH. split.
    + intros H x [->|Hx]%elem_of_cons; auto.
    + intros H x Hx. apply H. by right.
Qed.

(** [Vec::retain] and [Iterator::filter] with a pure predicate. *)
Lemma filter_all {A} (f : A → bool) (l : list A) :
  (∀ x, x ∈ l → f x = true) → List.filter f l = l.
Proof.
  induction l as [|x l IH]; simpl; intros Hf; [done|].
  rewrite (Hf x) by left. f_equal. apply IH. intros y Hy. apply Hf. by right.
Qed.

Lemma elem_of_filter_bool {A} (f : A → bool) (l : list A) x :
  x ∈ List.filter f l ↔ x ∈ l ∧ f x = true.
Proof. by rewrite !list_elem_of_In, List.filter_In. Qed.

(** Sums of integer weights. *)
Definition zsum {A} (f : A → Z) (l : list A) : Z := foldr (λ x acc, (f x + acc)%Z) 0%Z l.

Lemma zsum_app {A} (f : A → Z) l k : zsum f (l ++ k) = (zsum f l + zsum f k)%Z.
Proof. induction l as [|x l IH]; simpl; [done|]. rewrite IH. lia. Qed.

Lemma zsum_insert {A} (f : A → Z) l i x y :
  l !! i = Some x → zsum f (<[i := y]> l) = (zsum f l - f x + f y)%Z.
Proof.
  revert i. induction l as [|z l IH]; intros [|i] Hi; simplify_eq/=; [lia|].
  rewrite (IH i) by done. lia.
Qed.

Lemma zsum_nonneg {A} (f : A → Z) l : (∀ x, 0 ≤ f x)%Z → (0 ≤ zsum f l)%Z.
Proof. intros Hf. induction l as [|x l IH]; simpl; [done|]. specialize (Hf x). lia. Qed.

Lemma zsum_lookup_le {A} (f : A → Z) l i x :
  (∀ x, 0 ≤ f x)%Z → l !! i = Some x → (f x ≤ zsum f l)%Z.
Proof.
  intros Hf. revert i. induction l as [|z l IH]; intros [|i] Hi; simplify_eq/=.
  - pose proof (zsum_nonneg f l Hf). lia.
  - specialize (IH i Hi). specialize (Hf z). lia.
Qed.

(** ** Automation shared by the components *)

Create HintDb daemon discriminated.
Create Rewrite HintDb daemon.
#[export] Hint Resolve sort_rows_Permutation sort_rows_Sorted retain_st_sublist : daemon.
#[export] Hint Rewrite @elem_of_sort_rows @length_last_n : daemon.

(** Split the next [match] or [let] on a pair of a goal or hypothesis. *)
Ltac split_match :=
  match goal with
  | |- context [match ?x with _ => _ end] =>
      lazymatch x with
      | context [match _ with _ => _ end] => fail
      | _ => destruct x eqn:?
      end
  | H : context [match ?x with _ => _ end] |- _ =>
      lazymatch x with
      | context [match _ with _ => _ end] => fail
      | _ => destruct x eqn:?
      end
  end.

(** One symbolic step of a computation. *)
Ltac wp_step :=
  lazymatch goal with
  | |- wp (_ ≫= _) _ _ => apply wp_bind
  | |- wp (bind_ok _ _) _ _ => apply wp_bind_ok
  | |- wp (mret _) _ _ => apply wp_ret
  | |- wp st_get _ _ => apply wp_get
  | |- wp (st_gets _) _ _ => apply wp_gets
  | |- wp (st_modify _) _ _ => apply wp_modify
  end; cbv beta.

(** Turn boolean tests of the source into propositions. *)
Ltac boolify :=
  repeat match goal with
  | H : (_ && _) = true |- _ => apply andb_true_iff in H as [? ?]
  | H : (_ && _) = false |- _ => apply andb_false_iff in H as [?|?]
  | H : (_ || _) = false |- _ => apply orb_false_iff in H as [? ?]
  | H : negb _ = true |- _ => apply negb_true_iff in H
  | H : negb _ = false |- _ => apply negb_false_iff in H
  | H : (_ <? _)%Z = true |- _ => apply Z.ltb_lt in H
  | H : (_ <? _)%Z = false |- _ => apply Z.ltb_ge in H
  | H : (_ <=? _)%Z = true |- _ => apply Z.leb_le in H
  | H : (_ <=? _)%Z = false |- _ => apply Z.leb_gt in H
  | H : (_ =? _)%Z = true |- _ => apply Z.eqb_eq in H
  | H : (_ =? _)%Z = false |- _ => apply Z.eqb_neq in H
  | H : bool_decide _ = true |- _ => apply bool_decide_eq_true in H
  | H : bool_decide _ = false |- _ => apply bool_decide_eq_false in H
  end.
