(* ===== verification/Text.v ===== *)
(** * Rust strings

    A Rust [String] is modelled as the Rocq [string] of its UTF-8 bytes, so
    [len()] is [String.length] and slicing is by byte. This file models what the
    daemon does with text: cutting a quotation on a character boundary
    ([framing::bounded], [framing::bounded_debug]), [str::trim], splitting, and
    the grammar of operation names. *)

From S2P Require Import Prelude.
From stdpp Require Import options.
From Stdlib Require Import NArith Ascii.


(** The bytes of a string, and back. *)
Abbreviation to_bytes := Stdlib.Strings.String.list_ascii_of_string.
Abbreviation of_bytes := Stdlib.Strings.String.string_of_list_ascii.

(** ** Slicing *)

Fixpoint str_take (n : nat) (s : string) : string :=
  match n, s with
  | S n, String c s => String c (str_take n s)
  | _, _ => ""
  end.

Fixpoint str_drop (n : nat) (s : string) : string :=
  match n, s with
  | S n, String _ s => str_drop n s
  | _, s => s
  end.

Lemma str_take_drop n s : str_take n s +:+ str_drop n s = s.
Proof.
  revert s. induction n as [|n IH]; intros [|c s]; simpl; [done..|].
  change (String c (str_take n s +:+ str_drop n s) = String c s). by rewrite IH.
Qed.

Lemma length_str_take n s : String.length (str_take n s) = n `min` String.length s.
Proof. revert s. induction n as [|n IH]; intros [|c s]; simpl; [done..|]. by rewrite IH. Qed.

Lemma length_str_app s t : String.length (s +:+ t) = String.length s + String.length t.
Proof.
  induction s as [|c s IH]; [done|].
  change (S (String.length (s +:+ t)) = S (String.length s + String.length t)). by rewrite IH.
Qed.

Lemma str_take_app_length s t : str_take (String.length s) (s +:+ t) = s.
Proof.
  induction s as [|c s IH]; [by destruct t|].
  change (String c (str_take (String.length s) (s +:+ t)) = String c s). by rewrite IH.
Qed.

Lemma str_take_ge n s : (String.length s ≤ n)%nat → str_take n s = s.
Proof.
  revert s. induction n as [|n IH]; intros [|c s]; simpl; intros; [done|lia|done|].
  rewrite IH; [done|lia].
Qed.

(** ** Character boundaries *)

(** A UTF-8 continuation byte, [0x80..=0xBF]. *)
Definition is_continuation (c : ascii) : bool :=
  ((128 <=? N_of_ascii c) && (N_of_ascii c <? 192))%N.

(** [str::is_char_boundary]. *)
Definition is_char_boundary (s : string) (i : nat) : bool :=
  match i with
  | O => true
  | _ => match String.get i s with
         | Some c => negb (is_continuation c)
         | None => i =? String.length s
         end
  end.

(** [while !text.is_char_boundary(cut) { cut -= 1; }]: it stops at 0 at the
    latest, which is always a boundary. *)
Fixpoint floor_char_boundary (s : string) (cut : nat) : nat :=
  if is_char_boundary s cut then cut
  else match cut with O => O | S cut => floor_char_boundary s cut end.

Lemma floor_char_boundary_le s cut : floor_char_boundary s cut ≤ cut.
Proof. induction cut as [|cut IH]; simpl; repeat case_match; lia. Qed.

Lemma floor_char_boundary_ok s cut :
  is_char_boundary s (floor_char_boundary s cut) = true.
Proof. induction cut as [|cut IH]; cbn -[is_char_boundary]; [done|]. by case_match. Qed.

Lemma floor_char_boundary_greatest s cut i :
  i ≤ cut → is_char_boundary s i = true → i ≤ floor_char_boundary s cut.
Proof.
  induction cut as [|cut IH]; cbn -[is_char_boundary]; intros Hi Hb; [lia|].
  case_match; [lia|]. destruct (decide (i = S cut)) as [->|]; [congruence|].
  apply IH; [lia|done].
Qed.

(** ** Quoting text a peer chose *)

Definition MAX_QUOTED_BYTES : nat := 128.

(** The ellipsis U+2026, three bytes. *)
Definition ellipsis : string := "…".

Definition bounded (text : string) : string :=
  if String.length text <=? MAX_QUOTED_BYTES then text
  else str_take (floor_char_boundary text MAX_QUOTED_BYTES) text +:+ ellipsis.

Lemma bounded_length text : String.length (bounded text) ≤ MAX_QUOTED_BYTES + 3.
Proof.
  unfold bounded. case_match eqn:Hlen; [apply Nat.leb_le in Hlen; lia|].
  rewrite length_str_app, length_str_take. simpl (String.length ellipsis).
  pose proof (floor_char_boundary_le text MAX_QUOTED_BYTES). lia.
Qed.

(** What a formatter does to the bounded sink: the [write_str] calls of a derived
    [Debug] arrive in order, and the first one that returns an error ends the
    rendering. [None] is that error. *)
Definition sink_write_str (out text : string) : string * bool :=
  let room := MAX_QUOTED_BYTES - String.length out in
  if String.length text <=? room then (out +:+ text, true)
  else (out +:+ str_take (floor_char_boundary text room) text, false).

Fixpoint sink_write_all (out : string) (pieces : list string) : string * bool :=
  match pieces with
  | [] => (out, true)
  | p :: ps =>
      match sink_write_str out p with
      | (out, true) => sink_write_all out ps
      | (out, false) => (out, false)
      end
  end.

(** [bounded_debug(value)], given the pieces the value's [Debug] writes. *)
Definition bounded_debug (pieces : list string) : string :=
  match sink_write_all "" pieces with
  | (out, true) => out
  | (out, false) => out +:+ ellipsis
  end.

Lemma sink_write_all_bound out ps :
  String.length out ≤ MAX_QUOTED_BYTES →
  String.length (sink_write_all out ps).1 ≤ MAX_QUOTED_BYTES.
Proof.
  revert out. induction ps as [|p ps IH]; intros out Hout; simpl; [done|].
  unfold sink_write_str. destruct (_ <=? _) eqn:Hfit.
  - apply Nat.leb_le in Hfit. apply IH. rewrite length_str_app. lia.
  - simpl. rewrite length_str_app, length_str_take.
    pose proof (floor_char_boundary_le p (MAX_QUOTED_BYTES - String.length out)). lia.
Qed.

Lemma bounded_debug_length ps : String.length (bounded_debug ps) ≤ MAX_QUOTED_BYTES + 3.
Proof.
  unfold bounded_debug. pose proof (sink_write_all_bound "" ps ltac:(simpl; lia)) as H.
  destruct (sink_write_all "" ps) as [out []]; simpl in H; [lia|].
  rewrite length_str_app. simpl (String.length ellipsis). lia.
Qed.

(** ** Operation names *)

Definition MAX_OP_BYTES : nat := 64.

Definition is_ascii_lowercase (c : ascii) : bool :=
  ((97 <=? N_of_ascii c) && (N_of_ascii c <=? 122))%N.
Definition is_ascii_digit (c : ascii) : bool :=
  ((48 <=? N_of_ascii c) && (N_of_ascii c <=? 57))%N.

Fixpoint str_all (p : ascii → bool) (s : string) : bool :=
  match s with EmptyString => true | String c s => p c && str_all p s end.

Definition op_is_well_formed (op : string) : bool :=
  negb (bool_decide (op = ""))
  && (String.length op <=? MAX_OP_BYTES)
  && str_all (λ c, is_ascii_lowercase c || is_ascii_digit c || bool_decide (c = "_"%char)) op.

(** ** Trimming

    [str::trim] strips Unicode [White_Space] from both ends. The encodings of
    those characters, as byte strings. *)
Definition byte (n : N) : ascii := ascii_of_N n.

Definition whitespace : list (list ascii) :=
  map (λ n, [byte n]) [9; 10; 11; 12; 13; 32]%N
  ++ [[byte 194; byte 133]; [byte 194; byte 160]; [byte 225; byte 154; byte 128]]
  ++ map (λ n, [byte 226; byte 128; byte n])
       [128; 129; 130; 131; 132; 133; 134; 135; 136; 137; 138; 168; 169; 175]%N
  ++ [[byte 226; byte 129; byte 159]; [byte 227; byte 128; byte 128]].

Fixpoint strip_prefix (p l : list ascii) : option (list ascii) :=
  match p, l with
  | [], l => Some l
  | x :: p, y :: l => if decide (x = y) then strip_prefix p l else None
  | _ :: _, [] => None
  end.

Fixpoint strip_one (ps : list (list ascii)) (l : list ascii) : option (list ascii) :=
  match ps with
  | [] => None
  | p :: ps => match strip_prefix p l with Some l' => Some l' | None => strip_one ps l end
  end.

(** Strip characters while one is there; every strip removes at least one byte,
    so the length is fuel enough. *)
Fixpoint strip_while (fuel : nat) (ps : list (list ascii)) (l : list ascii) : list ascii :=
  match fuel with
  | O => l
  | S fuel => match strip_one ps l with Some l' => strip_while fuel ps l' | None => l end
  end.

Definition trim_start_bytes (l : list ascii) : list ascii :=
  strip_while (length l) whitespace l.
Definition trim_end_bytes (l : list ascii) : list ascii :=
  rev (strip_while (length l) (map (@rev ascii) whitespace) (rev l)).

Definition trim (s : string) : string :=
  of_bytes (trim_end_bytes (trim_start_bytes (to_bytes s))).

Example trim_spaces : trim "  a b  " = "a b".
Proof. reflexivity. Qed.
Example trim_blank : trim "   " = "".
Proof. reflexivity. Qed.

(** ** Splitting *)

(** [str::split(c)]: always at least one part. *)
Fixpoint split_on (c : ascii) (s : string) : list string :=
  match s with
  | EmptyString => [""]
  | String x s =>
      if decide (x = c) then "" :: split_on c s
      else match split_on c s with
           | p :: ps => String x p :: ps
           | [] => [String x ""]
           end
  end.

Definition LF : ascii := byte 10.
Definition CR : ascii := byte 13.

(** A line without the carriage return before its line feed. *)
Definition strip_cr (s : string) : string :=
  match rev (to_bytes s) with
  | c :: l => if decide (c = CR) then of_bytes (rev l) else s
  | [] => s
  end.

(** [str::lines]: [\n] ends a line, a final empty line is not one, and the last
    line keeps a bare trailing carriage return. *)
Fixpoint end_lines (parts : list string) : list string :=
  match parts with
  | [] => []
  | [last] => if decide (last = "") then [] else [last]
  | p :: ps => strip_cr p :: end_lines ps
  end.

Definition lines (s : string) : list string := end_lines (split_on LF s).

(** Join, the inverse of [split_on]. *)
Fixpoint join (c : ascii) (parts : list string) : string :=
  match parts with
  | [] => ""
  | [p] => p
  | p :: ps => p +:+ String c (join c ps)
  end.

Lemma split_on_not_nil c s : split_on c s ≠ [].
Proof. destruct s; simpl; repeat case_match; done. Qed.

Lemma join_split_on c s : join c (split_on c s) = s.
Proof.
  induction s as [|x s IH]; simpl; [done|]. case_decide as Hx.
  - subst. destruct (split_on c s) eqn:Hs; [by apply split_on_not_nil in Hs|].
    change (String c (join c (s0 :: l)) = String c s). by rewrite IH.
  - destruct (split_on c s) as [|p ps] eqn:Hs; [by apply split_on_not_nil in Hs|].
    rewrite <- IH. by destruct ps.
Qed.

(** ** Decimal parsing

    [str::parse] for an unsigned integer: digits only, at least one, an optional
    leading [+], and no value past [max]. *)
Fixpoint digits_value (acc : Z) (s : string) : option Z :=
  match s with
  | EmptyString => Some acc
  | String c s =>
      if is_ascii_digit c then digits_value (10 * acc + (Z.of_N (N_of_ascii c) - 48)) s
      else None
  end.

Definition parse_unsigned (max : Z) (s : string) : option Z :=
  let body := match s with String "+" rest => rest | _ => s end in
  match body with
  | EmptyString => None
  | _ => v ← digits_value 0 body; if (v <=? max)%Z then Some v else None
  end.

Example parse_u32_ok : parse_unsigned u32_max "42" = Some 42%Z.
Proof. reflexivity. Qed.
Example parse_u32_over : parse_unsigned u32_max "4294967296" = None.
Proof. reflexivity. Qed.

#[export] Hint Resolve bounded_length bounded_debug_length floor_char_boundary_le : daemon.
