(* ===== verification/Layout.v ===== *)
(** * Layout documents

    The layout tree of a workspace ([crates/ade_session/src/proto.rs]): splits
    down to leaves of tabs, the terminal tabs it names, and the pruning a daemon
    does when a session behind a tab is gone. [append_terminal] is the session
    table's ([crates/ade_session_daemon/src/sessions.rs]). *)

From S2P Require Import Prelude Text.
From stdpp Require Import options.

(** ** Data *)

(** An [f32] by its bit pattern: the daemon stores and forwards a ratio and
    computes nothing with it. *)
Record f32 : Type := F32 { f32_bits : Z }.

#[export] Instance f32_eq_dec : EqDecision f32.
Proof. solve_decision. Defined.

(** [SessionId(pub String)]. *)
Abbreviation SessionId := string.

Inductive SplitDir : Type := Horizontal | Vertical.

Inductive Tab : Type :=
| Terminal (session_id : SessionId)
| Editor (path : string).

Inductive LayoutNode : Type :=
| Split (dir : SplitDir) (ratio : f32) (first second : LayoutNode)
| Leaf (tabs : list Tab) (active : Z) (focused : bool).

#[export] Instance SplitDir_eq_dec : EqDecision SplitDir.
Proof. solve_decision. Defined.
#[export] Instance Tab_eq_dec : EqDecision Tab.
Proof. solve_decision. Defined.
#[export] Instance LayoutNode_eq_dec : EqDecision LayoutNode.
Proof. solve_decision. Defined.

Definition LAYOUT_SCHEMA_VERSION : Z := 1.

Record LayoutDoc : Type := mkLayoutDoc {
  schema_version : Z;
  root : LayoutNode
}.

#[export] Instance LayoutDoc_eq_dec : EqDecision LayoutDoc.
Proof. solve_decision. Defined.

(** ** Operations *)

Definition leaf (tabs : list Tab) : LayoutNode := Leaf tabs 0 false.

Definition tab_session (tab : Tab) : option SessionId :=
  match tab with Terminal session_id => Some session_id | Editor _ => None end.

(** [LayoutNode::append_terminals]: extends [out] in tree order. *)
Fixpoint append_terminals (node : LayoutNode) (out : list SessionId) : list SessionId :=
  match node with
  | Leaf tabs _ _ => out ++ omap tab_session tabs
  | Split _ _ first second => append_terminals second (append_terminals first out)
  end.

Definition keep_tab (keep : SessionId → bool) (tab : Tab) : bool :=
  match tab with Terminal session_id => keep session_id | Editor _ => true end.

(** [LayoutNode::pruned]; [None] when the node disappeared entirely. *)
Fixpoint pruned (keep : SessionId → bool) (node : LayoutNode) : option LayoutNode :=
  match node with
  | Leaf tabs active focused =>
      let tabs := List.filter (keep_tab keep) tabs in
      match tabs with
      | [] => None
      | _ => Some (Leaf tabs (Z.min active (Z.of_nat (length tabs) - 1)) focused)
      end
  | Split dir ratio first second =>
      match pruned keep first, pruned keep second with
      | Some first, Some second => Some (Split dir ratio first second)
      | Some only, None | None, Some only => Some only
      | None, None => None
      end
  end.

Definition layout_new (root : LayoutNode) : LayoutDoc :=
  {| schema_version := LAYOUT_SCHEMA_VERSION; root := root |}.

Definition layout_empty : LayoutDoc := layout_new (leaf []).

Definition single_terminal (session_id : SessionId) : LayoutDoc :=
  layout_new (leaf [Terminal session_id]).

Definition terminal_sessions (doc : LayoutDoc) : list SessionId :=
  append_terminals (root doc) [].

(** [LayoutDoc::retain_sessions]: whether any terminal tab went, and the document
    after. *)
Definition retain_sessions (keep : SessionId → bool) (doc : LayoutDoc) : bool * LayoutDoc :=
  let before := terminal_sessions doc in
  let doc' := {| schema_version := schema_version doc;
                 root := default (leaf []) (pruned keep (root doc)) |} in
  (bool_decide (before ≠ terminal_sessions doc'), doc').

(** [append_terminal] of the session table: the tab goes to the first leaf in
    tree order. *)
Fixpoint append_terminal (node : LayoutNode) (session : SessionId) : LayoutNode :=
  match node with
  | Leaf tabs active focused => Leaf (tabs ++ [Terminal session]) active focused
  | Split dir ratio first second => Split dir ratio (append_terminal first session) second
  end.

(** ** Reading a layout *)

(** The terminal tabs of a node, without the accumulator. *)
Fixpoint terminals (node : LayoutNode) : list SessionId :=
  match node with
  | Leaf tabs _ _ => omap tab_session tabs
  | Split _ _ first second => terminals first ++ terminals second
  end.

(** The editor tabs, in tree order. *)
Definition tab_path (tab : Tab) : option string :=
  match tab with Editor path => Some path | Terminal _ => None end.

Fixpoint editors (node : LayoutNode) : list string :=
  match node with
  | Leaf tabs _ _ => omap tab_path tabs
  | Split _ _ first second => editors first ++ editors second
  end.

(** Every leaf holds a tab and its active index is one of them. *)
Fixpoint canonical (node : LayoutNode) : Prop :=
  match node with
  | Leaf tabs active _ => (0 ≤ active < Z.of_nat (length tabs))%Z
  | Split _ _ first second => canonical first ∧ canonical second
  end.

(** ... except that a document may be one empty leaf. *)
Definition canonical_doc (doc : LayoutDoc) : Prop :=
  canonical (root doc) ∨ root doc = leaf [].

(** An [active] index is a [usize]. *)
Fixpoint active_usize (node : LayoutNode) : Prop :=
  match node with
  | Leaf _ active _ => (0 ≤ active)%Z
  | Split _ _ first second => active_usize first ∧ active_usize second
  end.

Lemma append_terminals_spec node out : append_terminals node out = out ++ terminals node.
Proof.
  revert out. induction node as [dir ratio n1 IH1 n2 IH2|]; intros out; simpl; [|done].
  by rewrite IH2, IH1, app_assoc.
Qed.

Lemma terminal_sessions_spec doc : terminal_sessions doc = terminals (root doc).
Proof. unfold terminal_sessions. by rewrite append_terminals_spec. Qed.

Lemma omap_filter_terminals keep tabs :
  omap tab_session (List.filter (keep_tab keep) tabs) =
  List.filter keep (omap tab_session tabs).
Proof.
  induction tabs as [|[s|p] tabs IH]; simpl; [done| |done].
  destruct (keep s); simpl; [f_equal|]; apply IH.
Qed.

Lemma omap_filter_editors keep tabs :
  omap tab_path (List.filter (keep_tab keep) tabs) = omap tab_path tabs.
Proof.
  induction tabs as [|[s|p] tabs IH]; simpl; [done| |f_equal; apply IH].
  destruct (keep s); simpl; apply IH.
Qed.

Lemma terminals_pruned keep node :
  from_option terminals [] (pruned keep node) = List.filter keep (terminals node).
Proof.
  induction node as [dir ratio n1 IH1 n2 IH2|tabs active focused]; simpl.
  - rewrite List.filter_app, <- IH1, <- IH2.
    destruct (pruned keep n1), (pruned keep n2); simpl; by rewrite ?app_nil_r.
  - rewrite <- omap_filter_terminals. by destruct (List.filter _ tabs).
Qed.

Lemma editors_pruned keep node :
  from_option editors [] (pruned keep node) = editors node.
Proof.
  induction node as [dir ratio n1 IH1 n2 IH2|tabs active focused]; simpl.
  - rewrite <- IH1, <- IH2.
    destruct (pruned keep n1), (pruned keep n2); simpl; by rewrite ?app_nil_r.
  - rewrite <- (omap_filter_editors keep). by destruct (List.filter _ tabs).
Qed.

Lemma pruned_canonical keep node node' :
  active_usize node → pruned keep node = Some node' → canonical node'.
Proof.
  revert node'. induction node as [dir ratio n1 IH1 n2 IH2|tabs active focused]; simpl;
    intros node' Hu Hp.
  - destruct Hu, (pruned keep n1), (pruned keep n2); simplify_eq; simpl; auto.
  - destruct (List.filter _ tabs) as [|t ts]; simplify_eq; simpl. lia.
Qed.

(** Pruning that rejects nothing leaves a canonical node as it is. *)
Lemma pruned_all keep node :
  canonical node → (∀ s, s ∈ terminals node → keep s = true) → pruned keep node = Some node.
Proof.
  induction node as [dir ratio n1 IH1 n2 IH2|tabs active focused]; simpl; intros Hc Hk.
  - destruct Hc. rewrite IH1, IH2; try done; intros; apply Hk, elem_of_app; auto.
  - assert (List.filter (keep_tab keep) tabs = tabs) as ->.
    { apply filter_all. intros [s|p] Hin; simpl; [|done].
      apply Hk, list_elem_of_omap. by exists (Terminal s). }
    destruct tabs as [|t ts]; simpl in *; [lia|]. do 2 f_equal. lia.
Qed.

Lemma terminals_retained keep doc :
  terminal_sessions (retain_sessions keep doc).2 = List.filter keep (terminal_sessions doc).
Proof.
  rewrite !terminal_sessions_spec. simpl. rewrite <- terminals_pruned.
  by destruct (pruned keep (root doc)).
Qed.

Lemma filter_neq_iff (keep : SessionId → bool) l :
  l ≠ List.filter keep l ↔ ∃ s, s ∈ l ∧ keep s = false.
Proof.
  split.
  - induction l as [|x l IH]; simpl; [done|]. destruct (keep x) eqn:Hx; intros Hne.
    + destruct IH as (s & ? & ?); [congruence|]. exists s. split; [by right|done].
    + exists x. split; [left|done].
  - intros (s & Hin & Hs) Heq. rewrite Heq, elem_of_filter_bool in Hin.
    destruct Hin. congruence.
Qed.

Lemma retain_sessions_went keep doc :
  (retain_sessions keep doc).1 = true ↔ ∃ s, s ∈ terminal_sessions doc ∧ keep s = false.
Proof.
  rewrite <- filter_neq_iff, <- terminals_retained. apply bool_decide_eq_true.
Qed.

Lemma active_usize_canonical doc keep :
  active_usize (root doc) → canonical_doc (retain_sessions keep doc).2.
Proof.
  intros Hu. unfold canonical_doc. simpl.
  destruct (pruned keep (root doc)) eqn:Hp; [left|by right].
  by eapply pruned_canonical.
Qed.

Lemma terminals_append_terminal node s :
  terminals (append_terminal node s) ≡ₚ s :: terminals node.
Proof.
  induction node as [dir ratio n1 IH1 n2 IH2|tabs active focused]; simpl.
  - by rewrite IH1.
  - rewrite omap_app. simpl. rewrite Permutation_app_comm. done.
Qed.

Lemma editors_append_terminal node s : editors (append_terminal node s) = editors node.
Proof.
  induction node as [dir ratio n1 IH1 n2 IH2|tabs active focused]; simpl.
  - by rewrite IH1.
  - rewrite omap_app. apply app_nil_r.
Qed.

#[export] Hint Resolve active_usize_canonical : daemon.
#[export] Hint Rewrite terminal_sessions_spec terminals_retained terminals_append_terminal
  editors_append_terminal : daemon.

(** ** Properties *)

(** Pruning a layout removes exactly the rejected terminal tabs: the terminal
    tabs left are the kept ones in their order, every editor tab survives in its
    order, the answer says whether a terminal tab went, and whatever document a
    client had stored, the result has no empty leaf, no split with a hole and no
    active index past its leaf's tabs (one empty leaf stands for "nothing left"). *)
Theorem retain_sessions_spec keep doc :
  active_usize (root doc) →
  let '(went, doc') := retain_sessions keep doc in
  terminal_sessions doc' = List.filter keep (terminal_sessions doc) ∧
  editors (root doc') = editors (root doc) ∧
  schema_version doc' = schema_version doc ∧
  canonical_doc doc' ∧
  (went = true ↔ ∃ s, s ∈ terminal_sessions doc ∧ keep s = false).
Proof.
  intros Hu. destruct (retain_sessions keep doc) as [went doc'] eqn:Hr.
  assert (doc' = (retain_sessions keep doc).2) as -> by by rewrite Hr.
  assert (went = (retain_sessions keep doc).1) as -> by by rewrite Hr.
  clear Hr. repeat split_and!; auto with daemon.
  - apply terminals_retained.
  - simpl. rewrite <- (editors_pruned keep (root doc)). by destruct (pruned keep (root doc)).
  - apply retain_sessions_went.
  - apply retain_sessions_went.
Qed.

Lemma retain_sessions_spec_witness :
  let keep := λ s, bool_decide (s ≠ "gone") in
  let doc := layout_new (Split Horizontal (F32 1056964608)
    (Leaf [Terminal "gone"] 0 true) (Leaf [Terminal "here"; Editor "a.rs"; Terminal "gone"] 2 false)) in
  (retain_sessions keep doc).2 = layout_new (Leaf [Terminal "here"; Editor "a.rs"] 1 false) ∧
  canonical_doc (retain_sessions keep doc).2.
Proof.
  intros keep doc. split; [reflexivity|].
  pose proof (retain_sessions_spec keep doc ltac:(simpl; lia)) as H.
  destruct (retain_sessions keep doc). apply H.
Defined.

(** Pruning again with the same predicate changes nothing, and on a canonical
    document an answer of "nothing went" means the very same document. *)
Lemma retain_sessions_false_id keep doc :
  canonical (root doc) → (retain_sessions keep doc).1 = false →
  (retain_sessions keep doc).2 = doc.
Proof.
  intros Hc Hf.
  assert (∀ s, s ∈ terminals (root doc) → keep s = true) as Hk.
  { intros s Hs. destruct (keep s) eqn:Hks; [done|].
    assert ((retain_sessions keep doc).1 = true) as Ht; [|congruence].
    apply retain_sessions_went. exists s. by rewrite terminal_sessions_spec. }
  simpl. rewrite (pruned_all _ _ Hc Hk). by destruct doc.
Qed.
