(* ===== verification/Proto.v ===== *)
(** * The wire protocol

    The message types of [crates/ade_session/src/proto.rs]: sessions, workspaces,
    the handshake, the frame enumeration with the subject and correlation id each
    variant carries, the error codes, and the negotiation functions. *)

From S2P Require Import Prelude Text Layout.
From stdpp Require Import options.
From Stdlib Require Import Ascii.

(** ** Generations and error codes *)

Definition MIN_GENERATION : Z := 2.
Definition MAX_GENERATION : Z := 3.

Definition KNOWN_OPS : list string := [
  "hello"; "create_workspace"; "open_workspace"; "list_workspaces"; "update_layout";
  "rename_workspace"; "update_workspace_project"; "kill_workspace"; "create_session";
  "list_sessions"; "attach"; "detach"; "write"; "resize"; "focus_session"; "kill";
  "subscribe"; "shutdown";
  "hello_ack"; "session_list"; "created"; "workspace"; "workspace_list"; "layout_changed";
  "workspace_removed"; "removed"; "replay"; "output"; "status"; "exited"; "shutdown_ack";
  "error" ].

Module error_code.
Definition MALFORMED_FRAME : string := "malformed_frame".
Definition MALFORMED_BODY : string := "malformed_body".
Definition UNKNOWN_OP : string := "unknown_op".
Definition UNSUPPORTED_GENERATION : string := "unsupported_generation".
Definition UNCAPABLE_PEER : string := "uncapable_peer".
Definition NOT_FOUND : string := "not_found".
Definition STALE_REV : string := "stale_rev".
Definition INVALID_ARGUMENT : string := "invalid_argument".
Definition PERSIST_FAILED : string := "persist_failed".
Definition DECLINED : string := "declined".
Definition INTERNAL : string := "internal".

Definition is_request_scoped (code : string) : bool :=
  bool_decide (code = MALFORMED_BODY) || bool_decide (code = UNKNOWN_OP)
  || bool_decide (code = UNCAPABLE_PEER).
End error_code.

(** The generation two peers will speak. *)
Definition select_generation (client_min client_max daemon_min daemon_max : Z) : option Z :=
  let selected := Z.min client_max daemon_max in
  if (Z.max client_min daemon_min <=? selected)%Z then Some selected else None.

(** ** Capabilities *)

Definition MAX_CAPABILITIES : nat := 256.
Definition MAX_CAPABILITY_BYTES : nat := 64.

(** The refusals of [validate_capabilities]; the source renders each as a
    sentence. *)
Inductive capability_error : Type :=
| TooManyCapabilities (advertised : nat)
| EmptyCapability
| CapabilityTooLong (quoted : string) (bytes : nat)
| CapabilityBadCharacter (capability : string).

#[export] Instance capability_error_eq_dec : EqDecision capability_error.
Proof. solve_decision. Defined.

Definition capability_char (c : ascii) : bool :=
  is_ascii_lowercase c || is_ascii_digit c || bool_decide (c = "_"%char)
  || bool_decide (c = "."%char) || bool_decide (c = "-"%char).

Fixpoint validate_each (capabilities : list string) : result capability_error () :=
  match capabilities with
  | [] => Ok ()
  | capability :: rest =>
      if decide (capability = "") then Err EmptyCapability
      else if MAX_CAPABILITY_BYTES <? String.length capability then
        Err (CapabilityTooLong (bounded capability) (String.length capability))
      else if negb (str_all capability_char capability) then
        Err (CapabilityBadCharacter capability)
      else validate_each rest
  end.

Definition validate_capabilities (capabilities : list string) : result capability_error () :=
  if MAX_CAPABILITIES <? length capabilities then
    Err (TooManyCapabilities (length capabilities))
  else validate_each capabilities.

(** A [BTreeSet]: the set of the identifiers both sides advertise. *)
Definition effective_capabilities (mine theirs : list string) : gset string :=
  let theirs : gset string := list_to_set theirs in
  list_to_set (List.filter (λ capability, bool_decide (capability ∈ theirs)) mine).

(** ** Sessions and workspaces *)

Inductive SessionStatus : Type := Working | NeedsInput | Idle | Exited.

#[export] Instance SessionStatus_eq_dec : EqDecision SessionStatus.
Proof. solve_decision. Defined.

Record SessionInfo : Type := mkSessionInfo {
  si_id : SessionId;
  si_workspace_id : string;
  si_agent_kind : string;
  si_instance_label : string;
  si_cwd : string;
  si_created_at : Z;
  si_status : SessionStatus
}.

Record WorkspaceInfo : Type := mkWorkspaceInfo {
  wi_id : string;
  wi_name : string;
  wi_project_id : option string;
  wi_project_identity : option string;
  wi_project_root : string;
  wi_project_scope_rev : Z;
  wi_created_at : Z;
  wi_layout_rev : Z;
  wi_layout : LayoutDoc
}.

#[export] Instance SessionInfo_eq_dec : EqDecision SessionInfo.
Proof. solve_decision. Defined.
#[export] Instance WorkspaceInfo_eq_dec : EqDecision WorkspaceInfo.
Proof. solve_decision. Defined.

(** ** Handshake *)

Record Hello : Type := mkHello {
  h_min_generation : Z;
  h_max_generation : Z;
  h_capabilities : list string;
  h_request_id : option Z
}.

Definition hello_current : Hello :=
  {| h_min_generation := MIN_GENERATION; h_max_generation := MAX_GENERATION;
     h_capabilities := []; h_request_id := None |}.

Record HelloAck : Type := mkHelloAck {
  ack_daemon_version : string;
  ack_protocol_version : Z;
  ack_host_os : string;
  ack_min_generation : Z;
  ack_max_generation : Z;
  ack_generation : Z;
  ack_capabilities : list string;
  ack_degraded : bool;
  ack_binary_hash : option string;
  ack_upgrade_ready : option bool;
  ack_instance_id : option string;
  ack_request_id : option Z
}.

#[export] Instance Hello_eq_dec : EqDecision Hello.
Proof. solve_decision. Defined.
#[export] Instance HelloAck_eq_dec : EqDecision HelloAck.
Proof. solve_decision. Defined.

(** ** Frames *)

Inductive Frame : Type :=
(* client to daemon *)
| Frame_Hello (hello : Hello)
| Frame_CreateWorkspace (root : string) (name project_id project_identity : option string)
    (env : list (string * string)) (cols rows : option Z) (request_id : option Z)
| Frame_OpenWorkspace (workspace_id : string) (request_id : option Z)
| Frame_ListWorkspaces (request_id : option Z)
| Frame_UpdateLayout (workspace_id : string) (layout : LayoutDoc) (rev : Z)
    (request_id : option Z)
| Frame_RenameWorkspace (workspace_id name : string) (request_id : option Z)
| Frame_UpdateWorkspaceProject (workspace_id project_id project_identity : string)
    (project_root : option string) (minimum_scope_rev : option Z) (request_id : option Z)
| Frame_KillWorkspace (workspace_id : string) (request_id : option Z)
| Frame_CreateSession (workspace_id cwd : string) (project_id project_identity : option string)
    (command : string) (env : list (string * string)) (cols rows : Z)
    (agent_kind instance_label : string) (scrollback_bytes : option Z) (request_id : option Z)
| Frame_ListSessions (request_id : option Z)
| Frame_Attach (session_id : SessionId) (view_id : option string) (request_id : option Z)
| Frame_Detach (session_id : SessionId) (request_id : option Z)
| Frame_Write (session_id : SessionId) (bytes : list Z)
| Frame_Resize (session_id : SessionId) (cols rows : Z)
| Frame_FocusSession (session_id : SessionId) (view_id : string) (hover : bool)
| Frame_Kill (session_id : SessionId) (request_id : option Z)
| Frame_Subscribe (request_id : option Z)
| Frame_Shutdown (force : bool) (request_id : option Z)
(* daemon to client *)
| Frame_HelloAck (ack : HelloAck)
| Frame_SessionList (sessions : list SessionInfo) (request_id : option Z)
| Frame_Created (session : SessionInfo) (persisted : bool) (request_id : option Z)
| Frame_Workspace (workspace : WorkspaceInfo) (sessions : list SessionInfo)
    (persisted : bool) (request_id : option Z)
| Frame_WorkspaceList (workspaces : list WorkspaceInfo) (request_id : option Z)
| Frame_LayoutChanged (workspace_id : string) (layout : LayoutDoc) (rev : Z)
    (persisted : bool) (request_id : option Z)
| Frame_WorkspaceRemoved (workspace_id : string) (persisted : bool) (request_id : option Z)
| Frame_Removed (session_id : SessionId)
| Frame_Replay (session_id : SessionId) (bytes : list Z) (truncated : bool)
| Frame_Output (session_id : SessionId) (bytes : list Z)
| Frame_Status (session_id : SessionId) (status : SessionStatus) (since : Z)
| Frame_Exited (session_id : SessionId) (exit_code : option Z)
| Frame_ShutdownAck (request_id : option Z)
| Frame_Error (session_id : option SessionId) (workspace_id : option string)
    (code message : string) (request_id : option Z).

#[export] Instance Frame_eq_dec : EqDecision Frame.
Proof. solve_decision. Defined.

(** The permanent operation identifier of a frame: the snake-case variant name. *)
Definition frame_op (f : Frame) : string :=
  match f with
  | Frame_Hello _ => "hello"
  | Frame_CreateWorkspace _ _ _ _ _ _ _ _ => "create_workspace"
  | Frame_OpenWorkspace _ _ => "open_workspace"
  | Frame_ListWorkspaces _ => "list_workspaces"
  | Frame_UpdateLayout _ _ _ _ => "update_layout"
  | Frame_RenameWorkspace _ _ _ => "rename_workspace"
  | Frame_UpdateWorkspaceProject _ _ _ _ _ _ => "update_workspace_project"
  | Frame_KillWorkspace _ _ => "kill_workspace"
  | Frame_CreateSession _ _ _ _ _ _ _ _ _ _ _ _ => "create_session"
  | Frame_ListSessions _ => "list_sessions"
  | Frame_Attach _ _ _ => "attach"
  | Frame_Detach _ _ => "detach"
  | Frame_Write _ _ => "write"
  | Frame_Resize _ _ _ => "resize"
  | Frame_FocusSession _ _ _ => "focus_session"
  | Frame_Kill _ _ => "kill"
  | Frame_Subscribe _ => "subscribe"
  | Frame_Shutdown _ _ => "shutdown"
  | Frame_HelloAck _ => "hello_ack"
  | Frame_SessionList _ _ => "session_list"
  | Frame_Created _ _ _ => "created"
  | Frame_Workspace _ _ _ _ => "workspace"
  | Frame_WorkspaceList _ _ => "workspace_list"
  | Frame_LayoutChanged _ _ _ _ _ => "layout_changed"
  | Frame_WorkspaceRemoved _ _ _ => "workspace_removed"
  | Frame_Removed _ => "removed"
  | Frame_Replay _ _ _ => "replay"
  | Frame_Output _ _ => "output"
  | Frame_Status _ _ _ => "status"
  | Frame_Exited _ _ => "exited"
  | Frame_ShutdownAck _ => "shutdown_ack"
  | Frame_Error _ _ _ _ _ => "error"
  end.

(** [Frame::session_id]. *)
Definition frame_session_id (f : Frame) : option SessionId :=
  match f with
  | Frame_Attach session_id _ _ | Frame_Detach session_id _ | Frame_Write session_id _
  | Frame_Resize session_id _ _ | Frame_FocusSession session_id _ _ | Frame_Kill session_id _
  | Frame_Removed session_id | Frame_Replay session_id _ _ | Frame_Output session_id _
  | Frame_Status session_id _ _ | Frame_Exited session_id _ => Some session_id
  | Frame_Created session _ _ => Some (si_id session)
  | Frame_Error session_id _ _ _ _ => session_id
  | _ => None
  end.

(** [Frame::workspace_id]. *)
Definition frame_workspace_id (f : Frame) : option string :=
  match f with
  | Frame_CreateSession workspace_id _ _ _ _ _ _ _ _ _ _ _
  | Frame_OpenWorkspace workspace_id _ | Frame_UpdateLayout workspace_id _ _ _
  | Frame_RenameWorkspace workspace_id _ _
  | Frame_UpdateWorkspaceProject workspace_id _ _ _ _ _
  | Frame_KillWorkspace workspace_id _ | Frame_LayoutChanged workspace_id _ _ _ _
  | Frame_WorkspaceRemoved workspace_id _ _ => Some workspace_id
  | Frame_Workspace workspace _ _ _ => Some (wi_id workspace)
  | Frame_Error _ workspace_id _ _ _ => workspace_id
  | _ => None
  end.

(** [Frame::request_id]. *)
Definition frame_request_id (f : Frame) : option Z :=
  match f with
  | Frame_Hello hello => h_request_id hello
  | Frame_HelloAck ack => ack_request_id ack
  | Frame_CreateSession _ _ _ _ _ _ _ _ _ _ _ request_id
  | Frame_ListSessions request_id | Frame_Attach _ _ request_id | Frame_Detach _ request_id
  | Frame_Kill _ request_id | Frame_Subscribe request_id | Frame_Shutdown _ request_id
  | Frame_ShutdownAck request_id | Frame_SessionList _ request_id
  | Frame_Created _ _ request_id | Frame_CreateWorkspace _ _ _ _ _ _ _ request_id
  | Frame_OpenWorkspace _ request_id | Frame_ListWorkspaces request_id
  | Frame_UpdateLayout _ _ _ request_id | Frame_RenameWorkspace _ _ request_id
  | Frame_UpdateWorkspaceProject _ _ _ _ _ request_id | Frame_KillWorkspace _ request_id
  | Frame_Workspace _ _ _ request_id | Frame_WorkspaceList _ request_id
  | Frame_LayoutChanged _ _ _ _ request_id | Frame_WorkspaceRemoved _ _ request_id
  | Frame_Error _ _ _ _ request_id => request_id
  | Frame_Write _ _ | Frame_Resize _ _ _ | Frame_FocusSession _ _ _ | Frame_Removed _
  | Frame_Replay _ _ _ | Frame_Output _ _ | Frame_Status _ _ _ | Frame_Exited _ _ => None
  end.

(** A frame that is an error with this code. *)
Definition frame_error_code (f : Frame) : option string :=
  match f with Frame_Error _ _ code _ _ => Some code | _ => None end.

(** ** Lemmas *)

Lemma frame_op_known f : frame_op f ∈ KNOWN_OPS.
Proof. apply list_elem_of_In. destruct f; simpl; tauto. Qed.

Lemma select_generation_Some cmin cmax dmin dmax g :
  select_generation cmin cmax dmin dmax = Some g ↔
  g = Z.min cmax dmax ∧ (cmin ≤ g)%Z ∧ (dmin ≤ g)%Z.
Proof.
  unfold select_generation. destruct (_ <=? _)%Z eqn:Hle; boolify.
  - split; [intros [= <-]; lia|intros (-> & _); done].
  - split; [done|lia].
Qed.

Lemma select_generation_None cmin cmax dmin dmax :
  select_generation cmin cmax dmin dmax = None ↔ (Z.min cmax dmax < Z.max cmin dmin)%Z.
Proof.
  unfold select_generation. destruct (_ <=? _)%Z eqn:Hle; boolify; split; (done || lia).
Qed.

Lemma elem_of_effective_capabilities mine theirs c :
  c ∈ effective_capabilities mine theirs ↔ c ∈ mine ∧ c ∈ theirs.
Proof.
  unfold effective_capabilities.
  rewrite elem_of_list_to_set, elem_of_filter_bool, bool_decide_eq_true, elem_of_list_to_set.
  done.
Qed.

#[export] Hint Resolve frame_op_known : daemon.

(** ** Properties *)

(** Negotiation: the selected generation, when there is one, lies in both
    ranges and no generation of both ranges is higher; there is none exactly when
    the ranges share no generation. The effective capability set is the
    intersection of the two lists, and both peers compute the same set. *)
Theorem negotiation_agrees cmin cmax dmin dmax mine theirs :
  (cmin ≤ cmax)%Z → (dmin ≤ dmax)%Z →
  match select_generation cmin cmax dmin dmax with
  | Some g => (cmin ≤ g ≤ cmax)%Z ∧ (dmin ≤ g ≤ dmax)%Z ∧
      ∀ g', (cmin ≤ g' ≤ cmax)%Z → (dmin ≤ g' ≤ dmax)%Z → (g' ≤ g)%Z
  | None => ∀ g', ¬ ((cmin ≤ g' ≤ cmax)%Z ∧ (dmin ≤ g' ≤ dmax)%Z)
  end ∧
  effective_capabilities mine theirs = effective_capabilities theirs mine ∧
  (∀ c, c ∈ effective_capabilities mine theirs ↔ c ∈ mine ∧ c ∈ theirs).
Proof.
  intros ??. split_and!.
  - destruct (select_generation _ _ _ _) eqn:Hs.
    + apply select_generation_Some in Hs. split_and!; [lia..|intros; lia].
    + apply select_generation_None in Hs. intros g'. lia.
  - apply set_eq. intros c. rewrite !elem_of_effective_capabilities. tauto.
  - apply elem_of_effective_capabilities.
Qed.

Lemma negotiation_agrees_witness :
  (2 ≤ 3)%Z ∧ select_generation 2 9 MIN_GENERATION MAX_GENERATION = Some 3%Z ∧
  (∀ c, c ∈ effective_capabilities ["a"; "b"] ["b"; "c"] ↔ c ∈ ["a"; "b"] ∧ c ∈ ["b"; "c"]).
Proof.
  split; [lia|]. split; [reflexivity|].
  refine (proj2 (proj2 (negotiation_agrees 2 3 MIN_GENERATION MAX_GENERATION
    ["a"; "b"] ["b"; "c"] _ _))); unfold MIN_GENERATION, MAX_GENERATION; lia.
Defined.

Lemma known_ops_NoDup : NoDup KNOWN_OPS.
Proof. apply (bool_decide_unpack _). vm_compute. done. Qed.

(** One sample of every variant, in declaration order: the list the source's test
    keeps [KNOWN_OPS] honest with. *)
Definition sample_info : SessionInfo := mkSessionInfo "" "" "" "" "" 0 Idle.
Definition sample_workspace : WorkspaceInfo :=
  mkWorkspaceInfo "" "" None None "" 0 0 0 layout_empty.
Definition sample_ack : HelloAck := mkHelloAck "" 0 "" 0 0 0 [] false None None None None.
Definition every_frame : list Frame := [
  Frame_Hello hello_current; Frame_CreateWorkspace "" None None None [] None None None;
  Frame_OpenWorkspace "" None; Frame_ListWorkspaces None; Frame_UpdateLayout "" layout_empty 0 None;
  Frame_RenameWorkspace "" "" None; Frame_UpdateWorkspaceProject "" "" "" None None None;
  Frame_KillWorkspace "" None; Frame_CreateSession "" "" None None "" [] 0 0 "" "" None None;
  Frame_ListSessions None; Frame_Attach "" None None; Frame_Detach "" None; Frame_Write "" [];
  Frame_Resize "" 0 0; Frame_FocusSession "" "" false; Frame_Kill "" None; Frame_Subscribe None;
  Frame_Shutdown false None; Frame_HelloAck sample_ack; Frame_SessionList [] None;
  Frame_Created sample_info true None; Frame_Workspace sample_workspace [] true None;
  Frame_WorkspaceList [] None; Frame_LayoutChanged "" layout_empty 0 true None;
  Frame_WorkspaceRemoved "" true None; Frame_Removed ""; Frame_Replay "" [] false;
  Frame_Output "" []; Frame_Status "" Idle 0; Frame_Exited "" None; Frame_ShutdownAck None;
  Frame_Error None None "" "" None ].

Lemma every_frame_ops : map frame_op every_frame = KNOWN_OPS.
Proof. reflexivity. Qed.
