(* ===== verification/Outbound.v ===== *)
(** * Outbound queues

    One connection's outbound queue ([Outbound] and [OutboundQueue] of
    [crates/ade_session_daemon/src/sessions.rs]). An [Outbound] is a handle: its
    clones in the event hub, in the output hubs and in the request loop all name
    one queue, so the queues live in a store and a handle is an index into it.

    Here every operation is one step; Producers has the same code with its atomic
    operations apart. *)

From S2P Require Import Prelude Text Layout Proto.
From stdpp Require Import options.
Open Scope Z_scope.

(** ** The queue and its handle *)

Record queue : Type := mkQueue {
  q_frames : list Frame;
  q_queued : Z;
  q_closed : bool
}.

Abbreviation queues := (gmap N queue).

Record Outbound : Type := mkOutbound {
  ob_frames : N;
  ob_max_bytes : Z
}.

#[export] Instance queue_eq_dec : EqDecision queue.
Proof. solve_decision. Defined.
#[export] Instance Outbound_eq_dec : EqDecision Outbound.
Proof. solve_decision. Defined.

(** A handle whose queue is gone behaves as one that was closed. *)
Definition queue_at (qs : queues) (o : Outbound) : queue :=
  default (mkQueue [] 0 true) (qs !! ob_frames o).

Definition OVERHEAD : Z := 256.

(** What one queued frame costs the bound. *)
Definition frame_bytes (frame : Frame) : Z :=
  let payload := match frame with
                 | Frame_Output _ bytes | Frame_Replay _ bytes _ => Z.of_nat (length bytes)
                 | _ => 0
                 end in
  payload + OVERHEAD.

Definition ATTACH_RESERVE_BYTES : Z := 64 * 1024.

(** [Outbound::new]: a fresh, open, empty queue. *)
Definition outbound_new (max_bytes : Z) : st queues Outbound := λ qs,
  let id := fresh (dom qs) in
  (mkOutbound id max_bytes, <[id := mkQueue [] 0 false]> qs).

(** [Outbound::push]: whether that connection is still worth keeping. *)
Definition push (o : Outbound) (frame : Frame) : st queues bool := λ qs,
  let q := queue_at qs o in
  let cost := frame_bytes frame in
  let before := q_queued q in
  if ob_max_bytes o <? before + cost then
    (false, <[ob_frames o := mkQueue (q_frames q) before true]> qs)
  else if q_closed q then (false, qs)
  else (true, <[ob_frames o := mkQueue (q_frames q ++ [frame]) (before + cost) false]> qs).

(** [Outbound::try_push]: only if [reserve] bytes stay free behind it. *)
Definition try_push (o : Outbound) (frame : Frame) (reserve : Z) : st queues bool := λ qs,
  let q := queue_at qs o in
  let cost := frame_bytes frame in
  if q_queued q + cost + reserve <=? ob_max_bytes o then
    if q_closed q then (false, qs)
    else (true, <[ob_frames o := mkQueue (q_frames q ++ [frame]) (q_queued q + cost) false]> qs)
  else (false, qs).

Definition free_bytes (o : Outbound) (qs : queues) : Z :=
  saturating_sub (ob_max_bytes o) (q_queued (queue_at qs o)).

Definition is_closed (o : Outbound) (qs : queues) : bool := q_closed (queue_at qs o).

(** [OutboundQueue::recv] when a frame is there; [None] when there is nothing to
    take. A closed queue still hands out what was queued before the close. *)
Definition recv (o : Outbound) : st queues (option Frame) := λ qs,
  let q := queue_at qs o in
  match q_frames q with
  | [] => (None, qs)
  | f :: fs => (Some f, <[ob_frames o := mkQueue fs (q_queued q - frame_bytes f) (q_closed q)]> qs)
  end.

(** ** The accounting invariant *)

Definition frames_bytes (fs : list Frame) : Z := zsum frame_bytes fs.

(** The counter is what the queued frames cost, and that is within the bound. *)
Definition queue_ok (max : Z) (q : queue) : Prop :=
  q_queued q = frames_bytes (q_frames q) ∧ 0 ≤ q_queued q ≤ max.

Definition queues_ok (max : Z) (qs : queues) : Prop :=
  ∀ id q, qs !! id = Some q → queue_ok max q.

Lemma frame_bytes_ge f : OVERHEAD ≤ frame_bytes f.
Proof. unfold frame_bytes, OVERHEAD. destruct f; lia. Qed.

Lemma frame_bytes_pos f : 0 ≤ frame_bytes f.
Proof. pose proof (frame_bytes_ge f). unfold OVERHEAD in *. lia. Qed.

Lemma frames_bytes_app fs gs : frames_bytes (fs ++ gs) = frames_bytes fs + frames_bytes gs.
Proof. apply zsum_app. Qed.

Lemma frames_bytes_cons f fs : frames_bytes (f :: fs) = frame_bytes f + frames_bytes fs.
Proof. done. Qed.

Lemma frames_bytes_nonneg fs : 0 ≤ frames_bytes fs.
Proof. apply zsum_nonneg, frame_bytes_pos. Qed.

Lemma queue_at_ok max qs o : 0 ≤ max → queues_ok max qs → queue_ok max (queue_at qs o).
Proof.
  intros Hmax Hok. unfold queue_at. destruct (qs !! ob_frames o) eqn:Hq; simpl.
  - by eapply Hok.
  - unfold queue_ok, frames_bytes. simpl. lia.
Qed.

Lemma queue_at_insert qs o q : queue_at (<[ob_frames o := q]> qs) o = q.
Proof. unfold queue_at. by rewrite lookup_insert_eq. Qed.

Lemma queues_ok_insert max qs id q :
  queues_ok max qs → queue_ok max q → queues_ok max (<[id := q]> qs).
Proof. intros Hqs Hq i q' [[<- <-]|[? ?]]%lookup_insert_Some; eauto. Qed.

#[export] Hint Resolve frame_bytes_pos frames_bytes_nonneg queue_at_ok queues_ok_insert : daemon.

Section Accounting.
Context (max : Z) (o : Outbound) (Hmax : ob_max_bytes o = max) (Hpos : 0 ≤ max).

Lemma push_ok f qs : queues_ok max qs → queues_ok max (push o f qs).2.
Proof using Hmax Hpos.
  intros Hok. pose proof (queue_at_ok max qs o Hpos Hok) as [Heq Hle].
  pose proof (frame_bytes_pos f). unfold push.
  repeat case_match; simpl; boolify; [| done |]; apply queues_ok_insert; try done;
    split; simpl; rewrite ?frames_bytes_app; unfold frames_bytes in *; simpl; lia.
Qed.

Lemma try_push_ok f r qs : 0 ≤ r → queues_ok max qs → queues_ok max (try_push o f r qs).2.
Proof using Hmax Hpos.
  intros Hr Hok. pose proof (queue_at_ok max qs o Hpos Hok) as [Heq Hle].
  pose proof (frame_bytes_pos f). unfold try_push.
  repeat case_match; simpl; boolify; [done| |done]; apply queues_ok_insert; try done;
    split; simpl; rewrite ?frames_bytes_app; unfold frames_bytes in *; simpl; lia.
Qed.

Lemma recv_ok qs : queues_ok max qs → queues_ok max (recv o qs).2.
Proof using Hmax Hpos.
  intros Hok. pose proof (queue_at_ok max qs o Hpos Hok) as [Heq Hle].
  unfold recv. destruct (q_frames (queue_at qs o)) as [|f fs] eqn:Hfs; simpl; [done|].
  apply queues_ok_insert; [done|]. pose proof (frames_bytes_nonneg fs).
  pose proof (frame_bytes_pos f). rewrite frames_bytes_cons in Heq. split; simpl; lia.
Qed.
End Accounting.

(** What a push did, read off its answer: kept means open, within the bound and
    the frame is last in line; refused means the frame is not queued and the queue
    is closed for good. Other queues are untouched either way. *)
Lemma push_true o f qs qs' :
  push o f qs = (true, qs') →
  q_closed (queue_at qs o) = false ∧
  q_queued (queue_at qs o) + frame_bytes f ≤ ob_max_bytes o ∧
  qs' = <[ob_frames o := mkQueue (q_frames (queue_at qs o) ++ [f])
            (q_queued (queue_at qs o) + frame_bytes f) false]> qs.
Proof. unfold push. intros. repeat case_match; simplify_eq. boolify. auto. Qed.

Lemma push_false o f qs qs' :
  push o f qs = (false, qs') →
  q_closed (queue_at qs' o) = true ∧ q_frames (queue_at qs' o) = q_frames (queue_at qs o).
Proof.
  unfold push. intros. repeat case_match; simplify_eq; [|auto]. by rewrite queue_at_insert.
Qed.

Lemma push_other o f qs id : id ≠ ob_frames o → (push o f qs).2 !! id = qs !! id.
Proof. intros. unfold push. repeat case_match; simpl; by rewrite ?lookup_insert_ne. Qed.

Lemma try_push_true o f r qs qs' :
  try_push o f r qs = (true, qs') →
  q_closed (queue_at qs o) = false ∧
  q_queued (queue_at qs o) + frame_bytes f + r ≤ ob_max_bytes o ∧
  qs' = <[ob_frames o := mkQueue (q_frames (queue_at qs o) ++ [f])
            (q_queued (queue_at qs o) + frame_bytes f) false]> qs.
Proof. unfold try_push. intros. repeat case_match; simplify_eq. boolify. auto. Qed.

(** A refused [try_push] costs the connection nothing. *)
Lemma try_push_false o f r qs qs' : try_push o f r qs = (false, qs') → qs' = qs.
Proof. unfold try_push. intros. by repeat case_match; simplify_eq. Qed.

Lemma push_room o f qs :
  q_closed (queue_at qs o) = false →
  q_queued (queue_at qs o) + frame_bytes f ≤ ob_max_bytes o →
  (push o f qs).1 = true.
Proof. intros Hc Hr. unfold push. case_match; boolify; [lia|]. by rewrite Hc. Qed.

(** ** An operation seen from its own queue *)

Definition push_step (f : Frame) (o : Outbound) (q : queue) : bool * queue :=
  if ob_max_bytes o <? q_queued q + frame_bytes f then
    (false, mkQueue (q_frames q) (q_queued q) true)
  else if q_closed q then (false, q)
  else (true, mkQueue (q_frames q ++ [f]) (q_queued q + frame_bytes f) false).

Definition try_step (f : Frame) (reserve : Z) (o : Outbound) (q : queue) : bool * queue :=
  if (q_queued q + frame_bytes f + reserve <=? ob_max_bytes o) && negb (q_closed q)
  then (true, mkQueue (q_frames q ++ [f]) (q_queued q + frame_bytes f) false)
  else (false, q).

(** Operation [m] does [step] to the queue of [o] and nothing to any other. *)
Definition acts_as (o : Outbound) (step : queue → bool * queue) (m : st queues bool) : Prop :=
  ∀ qs, (m qs).1 = (step (queue_at qs o)).1 ∧
        queue_at (m qs).2 o = (step (queue_at qs o)).2 ∧
        ∀ o', ob_frames o' ≠ ob_frames o → queue_at (m qs).2 o' = queue_at qs o'.

Lemma queue_at_insert_ne qs o o' q :
  ob_frames o' ≠ ob_frames o → queue_at (<[ob_frames o := q]> qs) o' = queue_at qs o'.
Proof. intros. unfold queue_at. by rewrite lookup_insert_ne by congruence. Qed.

Lemma push_acts f o : acts_as o (push_step f o) (push o f).
Proof.
  intros qs. unfold push, push_step.
  repeat case_match; simpl; rewrite ?queue_at_insert; split_and!; try done;
    intros; by rewrite queue_at_insert_ne.
Qed.

Lemma try_push_acts f r o : acts_as o (try_step f r o) (try_push o f r).
Proof.
  intros qs. unfold try_push, try_step.
  repeat case_match; boolify; simplify_eq/=; rewrite ?queue_at_insert; split_and!;
    try done; try congruence; intros; by rewrite queue_at_insert_ne.
Qed.
