(* ===== verification/Producers.v ===== *)
(** * Concurrent producers of one outbound queue

    [Outbound::push], [Outbound::try_push] and [OutboundQueue::recv] with their
    atomic operations apart: the [fetch_add] that reserves, the decision, the
    [close], the [try_send] and the [fetch_sub] that gives back are separate
    steps, and any number of producers and the one writer task take them in any
    order. *)

From S2P Require Import Prelude Text Layout Proto Outbound.
From stdpp Require Import options.
Open Scope Z_scope.

(** Where one producer stands inside a call. *)
Inductive producer : Type :=
| PIdle
| PReserved (frame : Frame)   (* reserved within the bound, about to [try_send] *)
| POverran (frame : Frame)    (* [before + cost > max_bytes], about to give back *)
| PClosing                    (* gave back, about to [close] *)
| PUndo (frame : Frame).      (* the queue was closed, about to give back *)

(** The writer task: between frames, or holding one it has not yet given back. *)
Inductive writer : Type :=
| WIdle
| WTook (frame : Frame).

Record channel : Type := mkChannel {
  ch_queued : Z;
  ch_frames : list Frame;
  ch_closed : bool;
  ch_producers : list producer;
  ch_writer : writer
}.

Inductive event : Type :=
| EPush (i : nat) (frame : Frame)
| ETryPush (i : nat) (frame : Frame) (reserve : Z)
| EAdvance (i : nat)
| ERecv
| EGiveBack.

Definition set_producer (i : nat) (p : producer) (c : channel) : channel :=
  mkChannel (ch_queued c) (ch_frames c) (ch_closed c) (<[i := p]> (ch_producers c)) (ch_writer c).

Definition set_queued (z : Z) (c : channel) : channel :=
  mkChannel z (ch_frames c) (ch_closed c) (ch_producers c) (ch_writer c).

(** The next atomic operation of a producer inside a call. *)
Definition advance (i : nat) (c : channel) : option channel :=
  match ch_producers c !! i with
  | Some (PReserved f) =>
      if ch_closed c then Some (set_producer i (PUndo f) c)
      else Some (set_producer i PIdle
             (mkChannel (ch_queued c) (ch_frames c ++ [f]) false (ch_producers c) (ch_writer c)))
  | Some (POverran f) =>
      Some (set_producer i PClosing (set_queued (ch_queued c - frame_bytes f) c))
  | Some PClosing =>
      Some (set_producer i PIdle
        (mkChannel (ch_queued c) (ch_frames c) true (ch_producers c) (ch_writer c)))
  | Some (PUndo f) => Some (set_producer i PIdle (set_queued (ch_queued c - frame_bytes f) c))
  | Some PIdle | None => None
  end.

(** One atomic step; [None] when the event cannot happen in this state. *)
Definition channel_step (max_bytes : Z) (e : event) (c : channel) : option channel :=
  match e with
  | EPush i f =>
      match ch_producers c !! i with
      | Some PIdle =>
          let before := ch_queued c in
          let c' := set_queued (before + frame_bytes f) c in
          if max_bytes <? before + frame_bytes f then Some (set_producer i (POverran f) c')
          else Some (set_producer i (PReserved f) c')
      | _ => None
      end
  | ETryPush i f reserve =>
      match ch_producers c !! i with
      | Some PIdle =>
          if ch_queued c + frame_bytes f + reserve <=? max_bytes then
            Some (set_producer i (PReserved f) (set_queued (ch_queued c + frame_bytes f) c))
          else Some c
      | _ => None
      end
  | EAdvance i => advance i c
  | ERecv =>
      match ch_writer c, ch_frames c with
      | WIdle, f :: fs =>
          Some (mkChannel (ch_queued c) fs (ch_closed c) (ch_producers c) (WTook f))
      | _, _ => None
      end
  | EGiveBack =>
      match ch_writer c with
      | WTook f =>
          Some (mkChannel (ch_queued c - frame_bytes f) (ch_frames c) (ch_closed c)
                 (ch_producers c) WIdle)
      | WIdle => None
      end
  end.

(** [n] idle producers over an empty queue, and everything they can reach. *)
Definition channel_new (n : nat) : channel := mkChannel 0 [] false (replicate n PIdle) WIdle.

(** A [reserve] is a [u64]. *)
Definition event_ok (e : event) : Prop :=
  match e with ETryPush _ _ reserve => 0 ≤ reserve | _ => True end.

Inductive channel_reachable (max_bytes : Z) (n : nat) : channel → Prop :=
| channel_start : channel_reachable max_bytes n (channel_new n)
| channel_next e c c' :
    channel_reachable max_bytes n c → event_ok e →
    channel_step max_bytes e c = Some c' → channel_reachable max_bytes n c'.

(** Run a schedule. *)
Fixpoint channel_run (max_bytes : Z) (es : list event) (c : channel) : option channel :=
  match es with
  | [] => Some c
  | e :: es => c ← channel_step max_bytes e c; channel_run max_bytes es c
  end.

(** ** The invariant *)

(** What a producer has added to the counter, and the part of it that was
    admitted. *)
Definition reserved (p : producer) : Z :=
  match p with PReserved f | POverran f | PUndo f => frame_bytes f | PIdle | PClosing => 0 end.
Definition admitted (p : producer) : Z :=
  match p with PReserved f | PUndo f => frame_bytes f | POverran _ | PIdle | PClosing => 0 end.
Definition taken (w : writer) : Z := match w with WTook f => frame_bytes f | WIdle => 0 end.

Definition channel_inv (max_bytes : Z) (c : channel) : Prop :=
  ch_queued c = frames_bytes (ch_frames c) + zsum reserved (ch_producers c) + taken (ch_writer c) ∧
  frames_bytes (ch_frames c) + zsum admitted (ch_producers c) + taken (ch_writer c) ≤ max_bytes.

Lemma reserved_nonneg p : 0 ≤ reserved p.
Proof. destruct p; simpl; auto with daemon lia. Qed.

Lemma admitted_nonneg p : 0 ≤ admitted p.
Proof. destruct p; simpl; auto with daemon lia. Qed.

Lemma admitted_le_reserved l : zsum admitted l ≤ zsum reserved l.
Proof.
  induction l as [|p l IH]; simpl; [done|]. destruct p; simpl; try lia.
  pose proof (frame_bytes_pos frame). lia.
Qed.

(** The two sums after one producer moves. *)
Lemma set_producer_sums i p q c :
  ch_producers c !! i = Some p →
  zsum reserved (ch_producers (set_producer i q c)) =
    zsum reserved (ch_producers c) - reserved p + reserved q ∧
  zsum admitted (ch_producers (set_producer i q c)) =
    zsum admitted (ch_producers c) - admitted p + admitted q.
Proof. intros Hp. split; apply zsum_insert, Hp. Qed.

Ltac channel_case i c :=
  match goal with
  | H : _ = Some ?p |- channel_inv _ (set_producer i ?q ?c') =>
      destruct (set_producer_sums i p q c H) as [? ?];
      pose proof (admitted_nonneg p); pose proof (reserved_nonneg p);
      unfold channel_inv, set_producer, set_queued in *; simpl in *;
      rewrite ?frames_bytes_app; unfold frames_bytes in *; simpl in *; lia
  end.

Lemma advance_inv max_bytes i c c' :
  advance i c = Some c' → channel_inv max_bytes c → channel_inv max_bytes c'.
Proof.
  unfold advance. intros Ha [Hq Hb].
  destruct (ch_producers c !! i) as [[|f|f| |f]|] eqn:Hp; simplify_eq;
    [destruct (ch_closed c); simplify_eq| | |]; try channel_case i c.
Qed.

Lemma channel_step_inv max_bytes e c c' :
  event_ok e →
  channel_step max_bytes e c = Some c' → channel_inv max_bytes c → channel_inv max_bytes c'.
Proof.
  intros Hr Hs Hinv. pose proof (admitted_le_reserved (ch_producers c)).
  destruct e as [i f|i f r|i| |]; simpl in Hs; [| |by eapply advance_inv| |].
  all: destruct Hinv as [Hq Hb].
  - repeat case_match; simplify_eq; boolify; channel_case i c.
  - simpl in Hr. repeat case_match; simplify_eq; boolify; [channel_case i c|done].
  - destruct (ch_writer c) eqn:Hw, (ch_frames c) as [|f fs] eqn:Hf; simplify_eq.
    unfold channel_inv, frames_bytes in *. simpl in *. lia.
  - destruct (ch_writer c) as [|f] eqn:Hw; simplify_eq. unfold channel_inv in *. simpl in *.
    pose proof (frame_bytes_pos f). lia.
Qed.

Lemma channel_reachable_inv max_bytes n c :
  0 ≤ max_bytes → channel_reachable max_bytes n c → channel_inv max_bytes c.
Proof.
  intros Hmax. induction 1 as [|e c c' Hreach IH Hr Hs].
  - unfold channel_inv, channel_new, frames_bytes. simpl.
    induction n as [|n IHn]; simpl in *; lia.
  - by eapply channel_step_inv.
Qed.

Lemma channel_run_reachable max_bytes n es c c' :
  channel_reachable max_bytes n c → Forall event_ok es →
  channel_run max_bytes es c = Some c' → channel_reachable max_bytes n c'.
Proof.
  intros Hc Hes. revert c Hc. induction Hes as [|e es He Hes IH]; simpl; intros c Hc Hr.
  { by simplify_eq. }
  destruct (channel_step max_bytes e c) as [c1|] eqn:Hs; simplify_eq/=.
  apply (IH c1); [|done]. by eapply channel_next.
Qed.

(** A producer that runs alone through a whole call. *)
Definition run_alone (max_bytes : Z) (i : nat) (f : Frame) (c : channel) : option channel :=
  c1 ← channel_step max_bytes (EPush i f) c;
  c2 ← advance i c1;
  match ch_producers c2 !! i with
  | Some PIdle => Some c2
  | _ => advance i c2
  end.

(** The view of a channel as a queue of the store. *)
Definition as_queue (c : channel) : queue := mkQueue (ch_frames c) (ch_queued c) (ch_closed c).

(** Three producers at once: two fit, the third is over and gives back later. *)
Definition sample_schedule : list event :=
  [EPush 0 (Frame_Removed "a"); EPush 1 (Frame_Removed "b"); EPush 2 (Frame_Removed "c");
   EAdvance 1; EAdvance 0].

(** ** Properties *)

(** C39. However many producers push to one connection's queue at once, and
    however their atomic operations interleave with the writer's, the frames
    queued never cost more than [max_bytes], and neither does the counter except
    by reservations that are already being given back. *)
Theorem outbound_bounded_under_interleaving max_bytes n c :
  0 ≤ max_bytes → channel_reachable max_bytes n c →
  frames_bytes (ch_frames c) ≤ max_bytes ∧
  ch_queued c ≤ max_bytes + (zsum reserved (ch_producers c) - zsum admitted (ch_producers c)) ∧
  frames_bytes (ch_frames c) ≤ ch_queued c.
Proof.
  intros Hmax Hreach. destruct (channel_reachable_inv _ _ _ Hmax Hreach) as [Hq Hb].
  pose proof (zsum_nonneg _ (ch_producers c) admitted_nonneg).
  pose proof (zsum_nonneg _ (ch_producers c) reserved_nonneg).
  assert (0 ≤ taken (ch_writer c)) by (destruct (ch_writer c); simpl; auto with daemon lia).
  lia.
Qed.

Lemma outbound_bounded_under_interleaving_witness :
  (ch_queued <$> channel_run 600 sample_schedule (channel_new 3)) = Some 768 ∧
  frames_bytes (ch_frames (default (channel_new 3)
    (channel_run 600 sample_schedule (channel_new 3)))) ≤ 600.
Proof.
  split; [vm_compute; reflexivity|].
  destruct (channel_run 600 sample_schedule (channel_new 3)) as [c|] eqn:Hr.
  - refine (proj1 (outbound_bounded_under_interleaving 600 3 c _ _)); [lia|].
    apply (channel_run_reachable 600 3 sample_schedule (channel_new 3));
      [apply channel_start|repeat constructor|exact Hr].
  - vm_compute. discriminate.
Defined.

(** A [push] that runs alone is the queue operation of the session table. *)
Lemma run_alone_push max_bytes i f c id qs :
  ch_producers c !! i = Some PIdle → qs !! id = Some (as_queue c) →
  ∃ c', run_alone max_bytes i f c = Some c' ∧ ch_producers c' !! i = Some PIdle ∧
        (push (mkOutbound id max_bytes) f qs).2 !! id = Some (as_queue c').
Proof.
  intros Hi Hq. assert (i < length (ch_producers c))%nat as Hlt by by eapply lookup_lt_Some.
  unfold run_alone, push, queue_at. simpl. rewrite Hi, Hq. simpl.
  destruct (max_bytes <? ch_queued c + frame_bytes f) eqn:Hover; simpl;
    unfold advance; simpl; rewrite list_lookup_insert_eq by done;
    [|destruct (ch_closed c) eqn:Hclosed]; simpl;
    rewrite ?list_insert_insert_eq, ?list_lookup_insert_eq by done; simpl;
    rewrite ?list_insert_insert_eq, ?list_lookup_insert_eq by done; simpl.
  all: eexists; split; [done|]; simpl; rewrite ?list_lookup_insert_eq by (by rewrite ?length_insert);
    rewrite ?lookup_insert_eq; split; [done|]; unfold as_queue; simpl; rewrite ?Hclosed.
  - do 2 f_equal. lia.
  - rewrite Hq. unfold as_queue. rewrite Hclosed. do 2 f_equal. lia.
  - done.
Qed.
