(* ===== verification/Stream.v ===== *)
(** * A session's byte stream: scrollback ring, bell scan, activity facts

    [Ring], [BellScan] and [Activity] of
    [crates/ade_session_daemon/src/sessions.rs]. *)

From S2P Require Import Prelude Text.
From stdpp Require Import options.
Open Scope Z_scope.

(** ** The scrollback ring *)

Record Ring : Type := mkRing {
  ring_bytes : list Z;
  ring_capacity : Z;
  ring_truncated : bool
}.

Definition ring_new (capacity : Z) : Ring := mkRing [] (Z.max capacity 1) false.

Definition ring_len (r : Ring) : Z := Z.of_nat (length (ring_bytes r)).

Definition ring_push (chunk : list Z) (r : Ring) : Ring :=
  let bytes := ring_bytes r ++ chunk in
  let len := Z.of_nat (length bytes) in
  if ring_capacity r <? len then
    mkRing (drop (Z.to_nat (len - ring_capacity r)) bytes) (ring_capacity r) true
  else mkRing bytes (ring_capacity r) (ring_truncated r).

(** [Ring::newest] over the two slices a [VecDeque] may hold its bytes in. *)
Definition newest_slices (limit : Z) (head tail : list Z) : list Z :=
  let skip := saturating_sub (Z.of_nat (length head + length tail)) limit in
  if skip <? Z.of_nat (length head) then drop (Z.to_nat skip) head ++ tail
  else drop (Z.to_nat (skip - Z.of_nat (length head))) tail.

(** The deque is contiguous in the model; [newest_slices_split] shows the split
    is of no consequence. *)
Definition newest (limit : Z) (r : Ring) : list Z := newest_slices limit (ring_bytes r) [].

Lemma newest_slices_split limit head tail :
  0 ≤ limit → newest_slices limit head tail = last_n (Z.to_nat limit) (head ++ tail).
Proof.
  intros Hl. unfold newest_slices, last_n, saturating_sub. rewrite length_app, drop_app.
  case_match; boolify.
  - f_equal; [f_equal; lia|].
    replace (_ - length head)%nat with 0%nat by lia. done.
  - rewrite (drop_ge head) by lia. simpl. f_equal. lia.
Qed.

Lemma newest_last_n limit r : 0 ≤ limit → newest limit r = last_n (Z.to_nat limit) (ring_bytes r).
Proof. intros. unfold newest. by rewrite newest_slices_split, app_nil_r. Qed.

Lemma newest_length limit r :
  0 ≤ limit → Z.of_nat (length (newest limit r)) = Z.min limit (ring_len r).
Proof. intros. rewrite newest_last_n, length_last_n by done. unfold ring_len. lia. Qed.

Lemma newest_nil r : newest 0 r = [].
Proof. apply nil_length_inv. pose proof (newest_length 0 r). unfold ring_len in *. lia. Qed.

(** The state of a ring that has been fed a stream. *)
Definition ring_holds (r : Ring) (stream : list Z) : Prop :=
  1 ≤ ring_capacity r ∧
  ring_bytes r = last_n (Z.to_nat (ring_capacity r)) stream ∧
  ring_truncated r = bool_decide (ring_capacity r < Z.of_nat (length stream)).

Lemma ring_new_holds capacity : ring_holds (ring_new capacity) [].
Proof.
  unfold ring_holds, ring_new. simpl. split; [lia|]. split; [done|].
  symmetry. apply bool_decide_eq_false. lia.
Qed.

Lemma ring_push_holds r stream chunk :
  ring_holds r stream → ring_holds (ring_push chunk r) (stream ++ chunk).
Proof.
  intros (Hc & Hb & Ht). unfold ring_holds, ring_push. rewrite Hb.
  set (cap := ring_capacity r) in *.
  assert (∀ l : list Z, drop (Z.to_nat (Z.of_nat (length l) - cap)) l = last_n (Z.to_nat cap) l)
    as Hdrop by (intros; unfold last_n; f_equal; lia).
  assert (length (last_n (Z.to_nat cap) stream) = Nat.min (Z.to_nat cap) (length stream)) as Hl
    by apply length_last_n.
  pose proof (length_app (last_n (Z.to_nat cap) stream) chunk) as Happ. rewrite Hl in Happ.
  pose proof (length_app stream chunk) as Hsc.
  case_match; boolify; simpl; (split; [done|]).
  - rewrite <- last_n_app_l, <- Hdrop. split; [done|].
    symmetry. apply bool_decide_eq_true. lia.
  - rewrite <- last_n_app_l, (last_n_all _ (_ ++ _)) by lia.
    split; [done|]. rewrite Ht. apply bool_decide_ext. lia.
Qed.

Lemma ring_pushes_holds r stream chunks :
  ring_holds r stream → ring_holds (foldl (λ r c, ring_push c r) r chunks) (stream ++ concat chunks).
Proof.
  revert r stream. induction chunks as [|c cs IH]; intros r stream H; simpl.
  { by rewrite app_nil_r. }
  rewrite app_assoc. by apply IH, ring_push_holds.
Qed.

(** ** The bell *)

Definition BELL : Z := 7.
Definition ESC : Z := 27.
Definition CAN : Z := 24.
Definition SUB : Z := 26.

Inductive BellScan : Type := Ground | Escape | InString | StringEscape.

#[export] Instance BellScan_eq_dec : EqDecision BellScan.
Proof. solve_decision. Defined.

(** [b']' | b'P' | b'_' | b'^' | b'X']. *)
Definition opens_string (byte : Z) : bool :=
  (byte =? 93) || (byte =? 80) || (byte =? 95) || (byte =? 94) || (byte =? 88).

(** One byte: the next state, and whether it rang. The arms are in the source's
    order. *)
Definition bell_step (s : BellScan) (byte : Z) : BellScan * bool :=
  match s with
  | Ground => if byte =? BELL then (Ground, true)
              else if byte =? ESC then (Escape, false) else (Ground, false)
  | Escape => if byte =? ESC then (Escape, false)
              else if opens_string byte then (InString, false) else (Ground, false)
  | InString => if byte =? ESC then (StringEscape, false)
                else if (byte =? CAN) || (byte =? SUB) then (Ground, false)
                else if byte =? BELL then (Ground, false) else (InString, false)
  | StringEscape => if byte =? ESC then (StringEscape, false)
                    else if byte =? 92 then (Ground, false)
                    else if (byte =? CAN) || (byte =? SUB) then (Ground, false)
                    else (InString, false)
  end.

(** [BellScan::feed]. *)
Fixpoint bell_feed (chunk : list Z) (s : BellScan) : bool * BellScan :=
  match chunk with
  | [] => (false, s)
  | byte :: chunk =>
      let '(s1, rang) := bell_step s byte in
      let '(rest, s2) := bell_feed chunk s1 in
      (rang || rest, s2)
  end.

Lemma bell_feed_app a b s :
  bell_feed (a ++ b) s =
    ((bell_feed a s).1 || (bell_feed b (bell_feed a s).2).1, (bell_feed b (bell_feed a s).2).2).
Proof.
  revert s. induction a as [|x a IH]; intros s; simpl; [by destruct (bell_feed b s)|].
  destruct (bell_step s x) as [s1 r]. rewrite IH. destruct (bell_feed a s1) as [ra s2]. simpl.
  destruct (bell_feed b s2). simpl. by rewrite orb_assoc.
Qed.

(** Feeding a stream read by read. *)
Fixpoint bell_feed_chunks (chunks : list (list Z)) (s : BellScan) : bool * BellScan :=
  match chunks with
  | [] => (false, s)
  | c :: cs => let '(r, s1) := bell_feed c s in
               let '(rs, s2) := bell_feed_chunks cs s1 in (r || rs, s2)
  end.

Lemma bell_feed_chunks_concat chunks s : bell_feed_chunks chunks s = bell_feed (concat chunks) s.
Proof.
  revert s. induction chunks as [|c cs IH]; intros s; simpl; [done|].
  rewrite bell_feed_app. destruct (bell_feed c s) as [r s1]. rewrite IH. simpl.
  by destruct (bell_feed (concat cs) s1).
Qed.

(** Bytes that leave an open control string open. *)
Definition string_body (byte : Z) : bool :=
  negb ((byte =? BELL) || (byte =? CAN) || (byte =? SUB) || (byte =? ESC)).

(** How a control string ends: BEL, ST, or an abort. *)
Definition string_end (ending : list Z) : Prop :=
  ending = [BELL] ∨ ending = [ESC; 92] ∨ ending = [CAN] ∨ ending = [SUB].

Lemma bell_feed_body body :
  Forall (λ b, string_body b = true) body → bell_feed body InString = (false, InString).
Proof.
  induction 1 as [|b body Hb _ IH]; simpl; [done|]. unfold string_body in Hb. boolify.
  unfold bell_step. replace (b =? ESC) with false by (symmetry; lia).
  replace (b =? CAN) with false by (symmetry; lia).
  replace (b =? SUB) with false by (symmetry; lia).
  replace (b =? BELL) with false by (symmetry; lia). simpl. by rewrite IH.
Qed.

Lemma bell_feed_control_string intro body ending s :
  s = Ground ∨ s = Escape → opens_string intro = true →
  Forall (λ b, string_body b = true) body → string_end ending →
  bell_feed (ESC :: intro :: body ++ ending) s = (false, Ground).
Proof.
  intros Hs Hi Hb He.
  assert (intro ≠ ESC) as Hne by (intros ->; discriminate).
  assert (bell_feed (ESC :: intro :: body ++ ending) s = bell_feed (body ++ ending) InString) as ->.
  { simpl. destruct Hs as [-> | ->]; simpl; rewrite Hi, (proj2 (Z.eqb_neq intro ESC) Hne);
      by destruct (bell_feed (body ++ ending) InString). }
  rewrite bell_feed_app, bell_feed_body by done. simpl.
  by destruct He as [->|[->|[->| ->]]].
Qed.

(** ** Activity *)

(** Instants are [Z] on a monotonic clock. *)
Record Activity : Type := mkActivity {
  last_output : Z;
  bell : bool;
  bell_scan : BellScan;
  dead : bool
}.

#[export] Instance Activity_eq_dec : EqDecision Activity.
Proof. solve_decision. Defined.

Definition activity_new (now : Z) : Activity := mkActivity now false Ground false.

Definition record_output (now : Z) (chunk : list Z) (a : Activity) : Activity :=
  let '(rang, scan) := bell_feed chunk (bell_scan a) in
  mkActivity now rang scan (dead a).

Definition mark_dead (a : Activity) : Activity :=
  mkActivity (last_output a) (bell a) (bell_scan a) true.

(** ** Properties *)

(** Whatever chunks a pty's output arrives in, the scrollback ring holds
    exactly the newest [capacity] bytes of the whole stream, in order, and reports
    truncation exactly when something was dropped; the history an attach asks for
    is the newest [limit] of the stream the ring still has, wherever the deque's
    storage wraps. *)
Theorem ring_holds_newest (capacity : Z) (chunks : list (list Z)) (limit : Z) (head tail : list Z)
    (Hcap : 0 ≤ capacity) (Hlimit : 0 ≤ limit) :
  let r := foldl (λ r c, ring_push c r) (ring_new capacity) chunks in
  let cap := Z.max capacity 1 in
  (head ++ tail = ring_bytes r) →
  ring_bytes r = last_n (Z.to_nat cap) (concat chunks) ∧
  ring_truncated r = bool_decide (cap < Z.of_nat (length (concat chunks))) ∧
  newest_slices limit head tail = last_n (Z.to_nat (Z.min limit cap)) (concat chunks).
Proof.
  intros r cap Hsplit.
  destruct (ring_pushes_holds _ [] chunks (ring_new_holds capacity)) as (_ & Hb & Ht).
  fold r in Hb, Ht. simpl in Hb, Ht.
  assert (ring_capacity r = cap) as Hr.
  { subst r. clear. induction chunks as [|c cs IH] using rev_ind; [done|].
    rewrite foldl_app. simpl. unfold ring_push. by case_match. }
  rewrite Hr in Hb, Ht. split_and!; [done|done|].
  rewrite newest_slices_split, Hsplit, Hb by done. unfold last_n. rewrite drop_drop, length_drop.
  f_equal. lia.
Qed.

Lemma ring_holds_newest_witness :
  newest_slices 2 [3] [4; 5] = [4; 5] ∧
  ring_bytes (foldl (λ r c, ring_push c r) (ring_new 3) [[1; 2]; [3; 4]; [5]]) = [3; 4; 5].
Proof.
  destruct (ring_holds_newest 3 [[1; 2]; [3; 4]; [5]] 2 [3] [4; 5]
              ltac:(lia) ltac:(lia) ltac:(reflexivity)) as (Hb & _ & Hn).
  split; [exact Hn | exact Hb].
Defined.

(** A control string — a title, a DCS, APC, PM or SOS, ended by BEL, ST or an
    abort — never rings the bell and never hides one: wherever the reads split
    the stream, it rings exactly when what follows the string rings on its own. *)
Theorem control_string_is_silent (intro : Z) (body ending rest : list Z) (chunks : list (list Z))
    (Hintro : opens_string intro = true)
    (Hbody : Forall (λ b, string_body b = true) body)
    (Hend : string_end ending)
    (Hchunks : concat chunks = (ESC :: intro :: body ++ ending) ++ rest) :
  bell_feed_chunks chunks Ground = bell_feed rest Ground.
Proof.
  rewrite bell_feed_chunks_concat, Hchunks, bell_feed_app.
  rewrite bell_feed_control_string by auto. simpl. by destruct (bell_feed rest Ground).
Qed.

Lemma control_string_is_silent_witness :
  bell_feed_chunks [[ESC; 93; 48]; [59; 120]; [BELL; 36; BELL]] Ground = (true, Ground).
Proof.
  rewrite (control_string_is_silent 93 [48; 59; 120] [BELL] [36; BELL]);
    [reflexivity|reflexivity|repeat constructor|left; reflexivity|reflexivity].
Defined.
