(* ===== verification/Scanner.v ===== *)
(** * The repaint's escape-sequence scanner

    [Scanner], [osc_title] and [parse_escape] of
    [crates/ade_session_daemon/src/grid.rs]: what the daemon tracks of a session's
    output beside the terminal emulator, across reads that split sequences anywhere. *)

From S2P Require Import Prelude Stream.
From stdpp Require Import options.
Open Scope Z_scope.

Definition MAX_PENDING : nat := 128.
Definition SCANNED_MODES : list Z := [5; 9; 1001; 1015; 1016].

(** ** Titles *)

Definition in_range (lo hi b : Z) : bool := (lo <=? b) && (b <=? hi).
Definition is_cont (b : Z) : bool := in_range 128 191 b.

(** The second byte a three- or four-byte character may have after its first. *)
Definition second_ok (first b : Z) : bool :=
  if first =? 224 then in_range 160 191 b
  else if first =? 237 then in_range 128 159 b
  else if first =? 240 then in_range 144 191 b
  else if first =? 244 then in_range 128 143 b
  else is_cont b.

Definition byte_at (n : nat) (l : list Z) : Z := default 0 (l !! n).

(** One step of [String::from_utf8_lossy]: how many bytes, and whether they are a
    character; a broken character is its longest prefix that could begin one. *)
Definition lossy_step (l : list Z) : nat * bool :=
  let b := byte_at 0 l in
  if b <? 128 then (1%nat, true)
  else if in_range 194 223 b then
    if is_cont (byte_at 1 l) then (2%nat, true) else (1%nat, false)
  else if in_range 224 239 b then
    if negb (second_ok b (byte_at 1 l)) then (1%nat, false)
    else if is_cont (byte_at 2 l) then (3%nat, true) else (2%nat, false)
  else if in_range 240 244 b then
    if negb (second_ok b (byte_at 1 l)) then (1%nat, false)
    else if negb (is_cont (byte_at 2 l)) then (2%nat, false)
    else if is_cont (byte_at 3 l) then (4%nat, true) else (3%nat, false)
  else (1%nat, false).

(** U+FFFD. *)
Definition REPLACEMENT : list Z := [239; 191; 189].

(** [char::is_control] of a well-formed character's bytes. *)
Definition is_control (c : list Z) : bool :=
  match c with
  | [b] => (b <? 32) || (b =? 127)
  | [194; b] => b <? 160
  | _ => false
  end.

(** The characters of a byte string, lossily, without the control characters; every
    step takes a byte, so the length is fuel enough. *)
Fixpoint title_chars (fuel : nat) (l : list Z) : list Z :=
  match fuel, l with
  | O, _ | _, [] => []
  | S fuel, l =>
      let '(n, valid) := lossy_step l in
      let c := if valid then take n l else REPLACEMENT in
      (if is_control c then [] else c) ++ title_chars fuel (drop n l)
  end.

Fixpoint position_from (p : Z → bool) (at_ : nat) (l : list Z) : option nat :=
  match l with
  | [] => None
  | b :: l => if p b then Some at_ else position_from p (S at_) l
  end.

Definition osc_title (payload : list Z) : option (list Z) :=
  match position_from (λ b, b =? 59) 0 payload with
  | None => None
  | Some split =>
      let code := take split payload in
      let title := drop (S split) payload in
      if bool_decide (code = [48]) || bool_decide (code = [50])
      then Some (title_chars (length title) title) else None
  end.

(** ** Sequences *)

Inductive escape : Type :=
| Incomplete
| Skip (len : nat)
| Title (title : list Z) (len : nat)
| PrivateMode (params : list Z) (on : bool) (len : nat)
| ScrollRegion (top bottom : option Z) (len : nat)
| Reset (len : nat).

#[export] Instance escape_eq_dec : EqDecision escape.
Proof. solve_decision. Defined.

Definition is_digit (b : Z) : bool := in_range 48 57 b.

(** [str::parse::<u16>] of digits. *)
Fixpoint digits (acc : Z) (l : list Z) : option Z :=
  match l with
  | [] => Some acc
  | b :: l => if is_digit b then digits (10 * acc + (b - 48)) l else None
  end.
Definition parse_u16 (l : list Z) : option Z :=
  match l with
  | [] => None
  | _ => v ← digits 0 l; if v <=? 65535 then Some v else None
  end.

(** [slice::split] on [;]: always at least one part. *)
Fixpoint split_params (l : list Z) : list (list Z) :=
  match l with
  | [] => [[]]
  | b :: l =>
      if b =? 59 then [] :: split_params l
      else match split_params l with p :: ps => (b :: p) :: ps | [] => [[b]] end
  end.

(** The end of an OSC string at or after [at_]: where its payload stops, and its length
    with the terminator, BEL or ST. *)
Fixpoint osc_end (at_ : nat) (l : list Z) : option (nat * nat) :=
  match l with
  | [] => None
  | b :: rest =>
      if b =? BELL then Some (at_, at_ + 1)%nat
      else if (b =? ESC) && bool_decide (head rest = Some 92) then Some (at_, at_ + 2)%nat
      else osc_end (S at_) rest
  end.

(** The parameters of a control sequence: digits and semicolons. *)
Definition is_param (b : Z) : bool := is_digit b || (b =? 59).
Fixpoint param_end (l : list Z) : nat :=
  match l with b :: l => if is_param b then S (param_end l) else O | [] => O end.

(** A control sequence whose parameters start at [start]. *)
Definition parse_csi (private : bool) (start : nat) (data : list Z) : escape :=
  let rest := drop start data in
  let n := param_end rest in
  match rest !! n with
  | None => Incomplete
  | Some final =>
      let params := take n rest in
      let len := (start + n + 1)%nat in
      if private && ((final =? 104) || (final =? 108)) then
        PrivateMode (omap parse_u16 (split_params params)) (final =? 104) len
      else if negb private && (final =? 114) then
        let parts := map parse_u16 (split_params params) in
        ScrollRegion (mjoin (head parts)) (mjoin (head (tail parts))) len
      else Skip len
  end.

Definition parse_escape (data : list Z) : escape :=
  match data !! 1%nat with
  | None => Incomplete
  | Some second =>
      if second =? 99 then Reset 2
      else if second =? 93 then
        match osc_end 2 (drop 2 data) with
        | Some (at_, len) =>
            match osc_title (drop 2 (take at_ data)) with
            | Some title => Title title len
            | None => Skip len
            end
        | None => Incomplete
        end
      else if second =? 91 then
        let private := bool_decide (data !! 2%nat = Some 63) in
        parse_csi private (if private then 3 else 2) data
      else Skip 2
  end.

(** ** The scanner *)

Record Scanner : Type := mkScanner {
  modes : list (Z * bool);
  scroll_region : option (Z * Z);
  title : option (list Z);
  pending : list Z
}.

Definition scanner_default : Scanner := mkScanner [] None None [].

Definition is_on (code : Z) (s : Scanner) : bool :=
  match find_first (λ m, m.1 =? code) (modes s) with Some m => m.2 | None => false end.

Fixpoint set_mode (code : Z) (on : bool) (l : list (Z * bool)) : list (Z * bool) :=
  match l with
  | [] => [(code, on)]
  | (m, v) :: l => if m =? code then (m, on) :: l else (m, v) :: set_mode code on l
  end.

Definition with_modes (l : list (Z * bool)) (s : Scanner) : Scanner :=
  mkScanner l (scroll_region s) (title s) (pending s).
Definition set_pending_bytes (l : list Z) (s : Scanner) : Scanner :=
  mkScanner (modes s) (scroll_region s) (title s) l.

(** What a whole sequence does to the scanner, and how long it is. *)
Definition apply_escape (e : escape) (s : Scanner) : Scanner * nat :=
  match e with
  | Incomplete => (s, O)
  | Skip len => (s, len)
  | Title t len => (mkScanner (modes s) (scroll_region s) (Some t) (pending s), len)
  | PrivateMode params on len =>
      (with_modes (foldl (λ l code, if bool_decide (code ∈ SCANNED_MODES) then set_mode code on l else l)
                     (modes s) params) s, len)
  | ScrollRegion top bottom len =>
      let region := match top, bottom with
                    | Some top, Some bottom => if (1 <=? top) && (top <? bottom) then Some (top, bottom) else None
                    | _, _ => None
                    end in
      (mkScanner (modes s) region (title s) (pending s), len)
  | Reset len => (mkScanner [] None None (pending s), len)
  end.

(** The loop over a buffer, with what is left of it; [true] when an unfinished tail was
    too long to carry. Every round takes a byte, so the length is fuel enough. *)
Fixpoint scan_loop (fuel : nat) (buffer : list Z) (s : Scanner) : Scanner * bool :=
  match fuel, buffer with
  | O, _ | _, [] => (s, false)
  | S fuel, b :: rest =>
      if negb (b =? ESC) then scan_loop fuel rest s
      else match parse_escape buffer with
      | Incomplete =>
          if (length buffer <=? MAX_PENDING)%nat then (set_pending_bytes buffer s, false)
          else ((scan_loop fuel rest s).1, true)
      | e => let '(s, len) := apply_escape e s in scan_loop fuel (drop len buffer) s
      end
  end.

Definition scan_report (data : list Z) (s : Scanner) : Scanner * bool :=
  let buffer := pending s ++ data in
  scan_loop (length buffer) buffer (set_pending_bytes [] s).

Definition scan (data : list Z) (s : Scanner) : Scanner := (scan_report data s).1.

Example scan_title : title (scan [27; 93; 48; 59; 104; 105; 7] scanner_default) = Some [104; 105].
Proof. reflexivity. Qed.
Example scan_split :
  is_on 1015 (scan [49; 53; 104] (scan [27; 91; 63; 49; 48] scanner_default)) = true.
Proof. reflexivity. Qed.

(** ** A whole sequence is recognised as soon as it is whole *)

Definition escape_len (e : escape) : nat :=
  match e with
  | Incomplete => 0
  | Skip len | Title _ len | PrivateMode _ _ len | ScrollRegion _ _ len | Reset len => len
  end.

Lemma osc_end_bounds at_ l stop len :
  osc_end at_ l = Some (stop, len) →
  (at_ ≤ stop ∧ stop < len ∧ len ≤ at_ + length l)%nat.
Proof.
  revert at_. induction l as [|b rest IH]; intros at_; simpl; [done|].
  destruct (b =? BELL); [intros [= <- <-]; lia|].
  destruct (_ && _) eqn:Hst; [|intros Hr; apply IH in Hr; lia].
  intros [= <- <-]. apply andb_true_iff in Hst as [_ Hh]. apply bool_decide_eq_true in Hh.
  destruct rest; simpl in *; [done|lia].
Qed.

Lemma osc_end_app at_ l more r : osc_end at_ l = Some r → osc_end at_ (l ++ more) = Some r.
Proof.
  revert at_. induction l as [|b rest IH]; intros at_; simpl; [done|].
  destruct (b =? BELL); [done|].
  destruct (b =? ESC); cbn [andb]; [|apply IH].
  destruct rest as [|c rest]; [done|]. cbn [head app]. case_bool_decide; [done|apply IH].
Qed.

Lemma param_end_le l : (param_end l ≤ length l)%nat.
Proof. induction l as [|b l IH]; simpl; [done|]. destruct (is_param b); lia. Qed.

Lemma param_end_app l more :
  is_Some (l !! param_end l) → param_end (l ++ more) = param_end l.
Proof.
  induction l as [|b l IH]; simpl; [by intros []|].
  destruct (is_param b); simpl; [|done]. intros Hs. by rewrite IH.
Qed.

(** What a complete parse is, and stays when more bytes follow. *)
Definition settled (data more : list Z) : Prop :=
  parse_escape data = Incomplete ∨
  parse_escape (data ++ more) = parse_escape data ∧
  (2 ≤ escape_len (parse_escape data) ≤ length data)%nat.

Lemma parse_csi_settled private start data more :
  (2 ≤ start ≤ length data)%nat →
  parse_csi private start data = Incomplete ∨
  parse_csi private start (data ++ more) = parse_csi private start data ∧
  (2 ≤ escape_len (parse_csi private start data) ≤ length data)%nat.
Proof.
  intros Hst. unfold parse_csi. rewrite drop_app_le by lia.
  set (rest := drop start data). assert (Hrest : length rest = (length data - start)%nat) by apply length_drop.
  pose proof (param_end_le rest) as Hn.
  destruct (rest !! param_end rest) as [final|] eqn:Hf; [|by left]. right.
  rewrite param_end_app by (by rewrite Hf). rewrite lookup_app_l by (by eapply lookup_lt_Some).
  rewrite Hf, take_app_le by lia. apply lookup_lt_Some in Hf.
  split; [done|]. repeat case_match; simpl; lia.
Qed.

Lemma parse_escape_settled data more : settled data more.
Proof.
  unfold settled, parse_escape. destruct (data !! 1%nat) as [second|] eqn:H1; [|by left].
  assert (Hlen := lookup_lt_Some _ _ _ H1).
  rewrite (lookup_app_l_Some _ _ _ _ H1).
  destruct (second =? 99); [right; cbn [escape_len]; split; [done|lia]|].
  destruct (second =? 93).
  - rewrite drop_app_le by lia. destruct (osc_end 2 (drop 2 data)) as [[stop len]|] eqn:He; [|by left].
    right. rewrite (osc_end_app _ _ _ _ He). apply osc_end_bounds in He as (Ha & Hb & Hc).
    rewrite length_drop in Hc. rewrite take_app_le by lia. split; [done|].
    destruct (osc_title _); simpl; lia.
  - destruct (second =? 91); [|right; cbn [escape_len]; split; [done|lia]]. cbv zeta.
    destruct (data !! 2%nat) as [third|] eqn:H2.
    + rewrite (lookup_app_l_Some _ _ _ _ H2). apply lookup_lt_Some in H2.
      apply parse_csi_settled. case_bool_decide; lia.
    + left. apply lookup_ge_None in H2. rewrite bool_decide_eq_false_2 by done.
      unfold parse_csi. rewrite drop_ge by lia. done.
Qed.

Lemma apply_escape_len e s : (apply_escape e s).2 = escape_len e.
Proof. by destruct e. Qed.

Lemma apply_escape_pending e s : pending (apply_escape e s).1 = pending s.
Proof. by destruct e. Qed.

(** One round of the loop, when a whole sequence is at the front. *)
Lemma scan_loop_escape fuel buffer s :
  head buffer = Some ESC → parse_escape buffer ≠ Incomplete →
  scan_loop (S fuel) buffer s =
    scan_loop fuel (drop (escape_len (parse_escape buffer)) buffer) (apply_escape (parse_escape buffer) s).1.
Proof.
  destruct buffer as [|b rest]; [done|]. intros [= ->] Hp. cbn [scan_loop].
  rewrite Z.eqb_refl. cbn [negb].
  destruct (parse_escape (ESC :: rest)) eqn:He; [done|..]; reflexivity.
Qed.

(** Fuel beyond the length of the buffer changes nothing. *)
Lemma scan_loop_fuel n fuel buffer s :
  (length buffer ≤ n)%nat → (length buffer ≤ fuel)%nat →
  scan_loop fuel buffer s = scan_loop (length buffer) buffer s.
Proof.
  revert fuel buffer s. induction n as [|n IH]; intros fuel [|b rest] s Hn Hf;
    cbn [length] in *; try lia; try (by destruct fuel).
  destruct fuel as [|fuel]; [lia|]. destruct (Z.eqb_spec b ESC) as [->|Hb].
  2: { cbn [scan_loop length]. rewrite (proj2 (Z.eqb_neq _ _)) by done. apply IH; lia. }
  destruct (parse_escape (ESC :: rest)) eqn:He.
  { cbn [scan_loop length]. rewrite Z.eqb_refl, He. cbn [negb]. case_match; [done|].
    by rewrite (IH fuel rest) by lia. }
  all: assert (parse_escape (ESC :: rest) ≠ Incomplete) as Hp by (by rewrite He);
    rewrite !scan_loop_escape by done;
    destruct (parse_escape_settled (ESC :: rest) []) as [|[_ Hlen]]; [done|]; rewrite He in *;
    cbn [length] in Hlen;
    match goal with |- context [drop ?k _] => set (taken := k) in * end;
    assert (length (drop taken (ESC :: rest)) ≤ length rest)%nat as Hd
      by (rewrite length_drop; cbn [length]; lia);
    by rewrite (IH fuel), (IH (length rest)) by lia.
Qed.

(** ** Reads that split sequences anywhere *)

Lemma scan_loop_app n buffer more s s1 :
  (length buffer ≤ n)%nat → pending s = [] → scan_loop (length buffer) buffer s = (s1, false) →
  scan_loop (length (buffer ++ more)) (buffer ++ more) s = scan_report more s1.
Proof.
  revert buffer s. induction n as [|n IH]; intros [|b rest] s Hn Hp; cbn [length] in Hn; try lia.
  1,2: cbn [length scan_loop app]; intros [= <-]; unfold scan_report; rewrite Hp; cbn [app];
    destruct s; simpl in Hp; subst; reflexivity.
  destruct (Z.eqb_spec b ESC) as [->|Hb].
  2: { cbn [app length scan_loop]. rewrite (proj2 (Z.eqb_neq _ _)) by done. apply IH; [lia|done]. }
  destruct (decide (parse_escape (ESC :: rest) = Incomplete)) as [He|He].
  - cbn [length scan_loop]. rewrite Z.eqb_refl, He. cbn [negb].
    destruct (_ <=? MAX_PENDING)%nat; [|by intros [= _ ?]]. intros [= <-].
    unfold scan_report. destruct s. simpl in Hp. subst. reflexivity.
  - destruct (parse_escape_settled (ESC :: rest) more) as [|[Happ Hlen]]; [done|].
    cbn [length] in Hlen |- *. rewrite scan_loop_escape by done. intros Hs1.
    change (length ((ESC :: rest) ++ more)) with (S (length (rest ++ more))).
    rewrite scan_loop_escape; [|done|by rewrite Happ]. rewrite Happ.
    set (len := escape_len _) in *. rewrite drop_app_le by (cbn [length]; lia).
    assert (length (drop len (ESC :: rest)) ≤ length rest)%nat as Hd
      by (rewrite length_drop; cbn [length]; lia).
    rewrite (scan_loop_fuel n) in Hs1 by lia.
    rewrite (scan_loop_fuel (n + length more)) by (rewrite !length_app; lia).
    apply IH; [lia|by rewrite apply_escape_pending|exact Hs1].
Qed.

Lemma scan_report_app a b s :
  (scan_report a s).2 = false → scan_report (a ++ b) s = scan_report b (scan a s).
Proof.
  intros Hd. unfold scan. destruct (scan_report a s) as [s1 d] eqn:Hr. simpl in Hd. subst d.
  unfold scan_report at 1. cbv zeta. rewrite app_assoc. by eapply scan_loop_app.
Qed.

(** A scanner fed read by read; [true] when some read dropped an unfinished tail. *)
Fixpoint scan_reads (reads : list (list Z)) (s : Scanner) : Scanner * bool :=
  match reads with
  | [] => (s, false)
  | r :: reads =>
      let '(s, dropped) := scan_report r s in
      let '(s, later) := scan_reads reads s in (s, dropped || later)
  end.

(** Where the reads of a session's output split does not matter: fed a stream read
    by read, the scanner ends in the same state — modes, scrolling region, title and
    carried tail — as fed the stream at once, unless a read ended inside a sequence that
    had outgrown what is carried. *)
Theorem scanner_ignores_read_boundaries reads s :
  reads ≠ [] → (scan_reads reads s).2 = false → (scan_reads reads s).1 = scan (concat reads) s.
Proof.
  intros Hne. destruct reads as [|r reads]; [done|]. clear Hne. revert r s.
  induction reads as [|r' reads IH]; intros r s; cbn [scan_reads concat].
  - rewrite app_nil_r. unfold scan. by destruct (scan_report r s).
  - intros Hd. destruct (scan_report r s) as [s1 dropped] eqn:Hr.
    specialize (IH r' s1). cbn [scan_reads concat] in IH.
    destruct (scan_report r' s1) as [s2 dropped2]. destruct (scan_reads reads s2) as [s3 later].
    cbn [fst snd] in *. apply orb_false_iff in Hd as [-> Hd].
    rewrite IH by done. unfold scan at 2. rewrite scan_report_app by by rewrite Hr.
    unfold scan at 2. by rewrite Hr.
Qed.

Lemma scan_loop_pending fuel buffer s :
  (length (pending s) ≤ MAX_PENDING)%nat → (length (pending (scan_loop fuel buffer s).1) ≤ MAX_PENDING)%nat.
Proof.
  revert buffer s. induction fuel as [|fuel IH]; intros [|b rest] s Hs; try done.
  destruct (Z.eqb_spec b ESC) as [->|Hb].
  2: { cbn [scan_loop]. rewrite (proj2 (Z.eqb_neq _ _)) by done. by apply IH. }
  destruct (decide (parse_escape (ESC :: rest) = Incomplete)) as [He|He].
  - cbn [scan_loop]. rewrite Z.eqb_refl, He. cbn [negb].
    destruct (_ <=? MAX_PENDING)%nat eqn:Hl; [by apply Nat.leb_le in Hl|by apply IH].
  - rewrite scan_loop_escape by done. apply IH. by rewrite apply_escape_pending.
Qed.

(** The scanner carries at most 128 bytes between reads, whatever it was fed. *)
Theorem scanner_carries_a_bounded_tail reads s :
  (length (pending s) ≤ MAX_PENDING)%nat →
  (length (pending (scan_reads reads s).1) ≤ MAX_PENDING)%nat.
Proof.
  revert s. induction reads as [|r reads IH]; intros s Hs; cbn [scan_reads]; [done|].
  assert (length (pending (scan_report r s).1) ≤ MAX_PENDING)%nat as Hr.
  { apply scan_loop_pending. simpl. lia. }
  destruct (scan_report r s) as [s1 d]. specialize (IH s1 Hr). by destruct (scan_reads reads s1).
Qed.
