(* ===== verification/Host.v ===== *)
(** * The host a session runs on

    What [crates/ade_session_daemon/src/sessions.rs] decides from the operating
    system's answers: which shell to launch and with what environment, whether a
    pty's foreground process is a shell, and which process groups a kill signals.
    The answers themselves (environment variables, [/proc], [tcgetpgrp]) are
    arguments. *)

From S2P Require Import Prelude Text Stream.
From stdpp Require Import options.
From Stdlib Require Import Ascii.
Open Scope Z_scope.

(** ** Foreground process and status tuning *)

(** Durations and instants are milliseconds on the monotonic clock. *)
Record StatusConfig : Type := mkStatusConfig {
  needs_input_after : Z;
  sweep_interval : Z
}.

Definition status_config_default : StatusConfig := mkStatusConfig 5000 500.

Definition SHELL_NAMES : list string := ["sh"; "bash"; "zsh"; "fish"; "dash"; "ksh"].

(** [str::trim_start_matches('-')]. *)
Fixpoint trim_start_dashes (s : string) : string :=
  match s with
  | String c rest => if decide (c = "-"%char) then trim_start_dashes rest else s
  | EmptyString => EmptyString
  end.

Definition is_shell_name (comm : string) : bool :=
  let name := trim_start_dashes (trim comm) in
  let name := default name (last (split_on "/"%char name)) in
  bool_decide (name ∈ SHELL_NAMES).

(** [foreground_is_shell] on Linux: [leader] is [process_group_leader()] and
    [comm pgid] the text of [/proc/<pgid>/comm]. *)
Definition foreground_is_shell (leader : option Z) (comm : Z → option string) : option bool :=
  pgid ← leader;
  if pgid <=? 0 then None else is_shell_name <$> comm pgid.

(** ** Launching *)

Definition shell (windows : bool) : string := if windows then "sh" else "/bin/sh".

Definition terminal_defaults : list (string * string) :=
  [("TERM", "xterm-256color"); ("COLORTERM", "truecolor")].

Definition terminal_env (request_env : list (string * string)) : list (string * string) :=
  List.filter (λ kv, negb (existsb (λ nv, bool_decide (nv.1 = kv.1)) request_env))
    terminal_defaults ++ request_env.

(** What [CommandBuilder::env] leaves a variable at after the pairs are applied in
    order: the last assignment wins. *)
Fixpoint env_value (key : string) (env : list (string * string)) : option string :=
  match env with
  | [] => None
  | (k, v) :: env =>
      match env_value key env with
      | Some later => Some later
      | None => if decide (k = key) then Some v else None
      end
  end.

Definition nonempty (s : string) : bool := negb (bool_decide (s = "")).

Definition keep_nonempty (o : option string) : option string :=
  s ← o; if nonempty s then Some s else None.

(** One line of [/etc/passwd]: the shell if the line is [user]'s and has one. *)
Definition passwd_line_shell (user line : string) : option string :=
  let fields := split_on ":"%char line in
  name ← head fields;
  if decide (name = user) then keep_nonempty (fields !! 6%nat) else None.

(** [Iterator::find_map]. *)
Fixpoint find_map {A B} (f : A → option B) (l : list A) : option B :=
  match l with
  | [] => None
  | x :: l => match f x with Some b => Some b | None => find_map f l end
  end.

Definition passwd_shell (passwd user : string) : option string :=
  find_map (passwd_line_shell user) (lines passwd).

(** [passwd_login_shell] from [$USER], [$LOGNAME] and the passwd file. [or_else]
    looks at [$LOGNAME] only when [$USER] is unset: a set but empty [$USER] is no
    answer. *)
Definition passwd_login_shell (env_user env_logname file : option string) : option string :=
  user ← keep_nonempty (match env_user with Some u => Some u | None => env_logname end);
  passwd ← file;
  passwd_shell passwd user.

Definition login_shell_from (windows : bool) (env_shell passwd_lookup : option string) : string :=
  match keep_nonempty env_shell with
  | Some s => s
  | None => default (shell windows) passwd_lookup
  end.

(** The host as [create] sees it when it launches something. *)
Record host : Type := mkHost {
  host_windows : bool;
  host_shell : option string;     (* [$SHELL] *)
  host_user : option string;      (* [$USER] *)
  host_logname : option string;   (* [$LOGNAME] *)
  host_passwd : option string;    (* the text of [/etc/passwd] *)
  own_group : Z                   (* [getpgrp()] *)
}.

Definition resolve_login_shell (h : host) : string :=
  login_shell_from (host_windows h) (host_shell h)
    (if host_windows h then None else passwd_login_shell (host_user h) (host_logname h) (host_passwd h)).

Record spawn_command : Type := mkSpawn {
  sp_program : string;
  sp_args : list string;
  sp_cwd : string;
  sp_env : list (string * string)
}.

(** The command [create] builds: the login shell for an empty command, [sh -lc
    'exec ...'] for anything else. *)
Definition launch (h : host) (command cwd : string) (env : list (string * string)) :
    spawn_command :=
  if decide (command = "") then mkSpawn (resolve_login_shell h) ["-l"] cwd (terminal_env env)
  else mkSpawn (shell (host_windows h)) ["-lc"; "exec " +:+ command] cwd (terminal_env env).

(** ** Killing *)

Inductive signal : Type := SIGHUP | SIGKILL.

(** One system call that signals: [kill(target, signal)], or the pty library's
    direct kill of a child. *)
Inductive kill_call : Type :=
| KillCall (target : Z) (s : signal)
| DirectKill (session : string).

#[export] Instance signal_eq_dec : EqDecision signal.
Proof. solve_decision. Defined.
#[export] Instance kill_call_eq_dec : EqDecision kill_call.
Proof. solve_decision. Defined.

Definition i32_max : Z := 2147483647.

(** [signal_group]: [kill(-pid, signal)]. *)
Definition signal_group (s : signal) (pid : Z) : kill_call := KillCall (- pid) s.

(** [Vec::dedup]. *)
Fixpoint dedup (l : list Z) : list Z :=
  match l with
  | [] => []
  | x :: l => match dedup l with
              | y :: l' => if x =? y then y :: l' else x :: y :: l'
              | [] => [x]
              end
  end.

(** The groups [terminate_groups] goes for: positive [pid_t]s other than the
    daemon's own group, sorted and without duplicates. *)
Definition kill_groups (own : Z) (pids : list (option Z)) : list Z :=
  dedup (merge_sort Z.le
    (List.filter (λ pid, (pid <=? i32_max) && (0 <? pid) && negb (pid =? own))
       (omap id pids))).

(** [terminate_groups] on unix: the signals it sends, in order, and whether there
    is an escalation thread to wait for ([spawned] is whether that thread could be
    started; if not, the SIGKILLs are sent at once). *)
Definition terminate_groups (own : Z) (pids : list (option Z)) (is_dead spawned : bool) :
    list kill_call * bool :=
  let groups := kill_groups own pids in
  match groups with
  | [] => ([], false)
  | _ => if is_dead then ([], false)
         else (map (signal_group SIGHUP) groups ++ map (signal_group SIGKILL) groups, spawned)
  end.

(** [u32::try_from] of what [tcgetpgrp] answered. *)
Definition as_u32 (z : Z) : option Z := if (0 <=? z) && (z <=? u32_max) then Some z else None.

(** [kill_session_process]: the group signals first, then the direct kill unless
    the child was reaped. [dead_after] is the second read of the activity. *)
Definition kill_session_process (own : Z) (session : string) (live : bool) (pid leader : option Z)
    (dead_before dead_after spawned : bool) : list kill_call * bool :=
  let pids := if live then [pid; leader ≫= as_u32] else [None; None] in
  let '(calls, wait) := terminate_groups own pids dead_before spawned in
  (calls ++ (if dead_after then [] else if live then [DirectKill session] else []), wait).

(** [abandon]: a child that never reached the table is signalled the same way, and
    killed directly. *)
Definition abandon (own : Z) (session : string) (pid : option Z) (spawned : bool) :
    list kill_call * bool :=
  let '(calls, wait) := terminate_groups own [pid; None] false spawned in
  (calls ++ [DirectKill session], wait).

(** ** Lemmas *)

Lemma elem_of_dedup x l : x ∈ dedup l ↔ x ∈ l.
Proof.
  induction l as [|y l IH]; simpl; [done|]. rewrite elem_of_cons, <- IH. clear IH.
  destruct (dedup l) as [|z l']; [rewrite elem_of_cons; tauto|].
  case_match; boolify; subst; rewrite !elem_of_cons; tauto.
Qed.

Lemma dedup_hd y l z l' : Sorted Z.le (y :: l) → dedup l = z :: l' → y ≤ z.
Proof.
  intros Hs Hd. apply Sorted_StronglySorted in Hs; [|intros ???; lia].
  apply StronglySorted_inv in Hs as [_ Hf]. rewrite Forall_forall in Hf. apply Hf.
  rewrite <- elem_of_dedup, Hd. left.
Qed.

Lemma dedup_strict l : Sorted Z.le l → StronglySorted Z.lt (dedup l).
Proof.
  intros Hs. apply Sorted_StronglySorted; [intros ???; lia|].
  induction l as [|y l IH]; simpl; [constructor|].
  pose proof (Sorted_inv Hs) as [Hl _]. specialize (IH Hl).
  destruct (dedup l) as [|z l'] eqn:Hd; [repeat constructor|].
  case_match; boolify; [done|]. constructor; [done|]. constructor.
  pose proof (dedup_hd y l z l' Hs Hd). lia.
Qed.

Lemma elem_of_kill_groups own pids g :
  g ∈ kill_groups own pids ↔ Some g ∈ pids ∧ 0 < g ≤ i32_max ∧ g ≠ own.
Proof.
  unfold kill_groups. rewrite elem_of_dedup, merge_sort_Permutation, elem_of_filter_bool.
  rewrite list_elem_of_omap, !andb_true_iff, negb_true_iff. split.
  - intros [(o & Ho & Hid) ?]. unfold id in Hid. subst o. split; [done|]. lia.
  - intros (? & ? & ?). split; [by exists (Some g)|]. lia.
Qed.

Lemma kill_groups_strict own pids : StronglySorted Z.lt (kill_groups own pids).
Proof. apply dedup_strict, Sorted_merge_sort, _. Qed.

Lemma find_map_Some {A B} (f : A → option B) l b :
  find_map f l = Some b ↔
  ∃ i x, l !! i = Some x ∧ f x = Some b ∧ ∀ j y, (j < i)%nat → l !! j = Some y → f y = None.
Proof.
  induction l as [|x l IH]; simpl.
  - split; [done|]. by intros (i & y & ? & _).
  - destruct (f x) as [b'|] eqn:Hf.
    + split.
      * intros [= <-]. exists 0%nat, x. split_and!; [done|done|]. intros; lia.
      * intros ([|i] & y & Hy & Hb & Hj); simplify_eq/=; [congruence|].
        specialize (Hj 0%nat x ltac:(lia) eq_refl). congruence.
    + rewrite IH. split; intros (i & y & Hy & Hb & Hj).
      * exists (S i), y. split_and!; [done|done|]. intros [|j] z ? ?; simplify_eq/=; [done|].
        eapply Hj; [|done]. lia.
      * destruct i as [|i]; simplify_eq/=. exists i, y. split_and!; [done|done|].
        intros j z ? ?. apply (Hj (S j) z); [lia|done].
Qed.

Lemma env_value_app key a b :
  env_value key (a ++ b) = match env_value key b with Some v => Some v | None => env_value key a end.
Proof.
  induction a as [|[k v] a IH]; simpl; [by destruct (env_value key b)|].
  rewrite IH. by destruct (env_value key b), (env_value key a).
Qed.

Lemma env_value_None key env : env_value key env = None ↔ ∀ v, (key, v) ∉ env.
Proof.
  induction env as [|[k v] env IH]; simpl; [split; [intros ? ? H; inversion H|done]|].
  destruct (env_value key env) as [w|] eqn:He.
  - split; [done|]. intros H. apply (proj2 IH). intros u Hu. apply (H u). by right.
  - destruct IH as [IH _]. specialize (IH eq_refl). case_decide; subst.
    + split; [done|]. intros H. exfalso. apply (H v). left.
    + split; [|done]. intros _ u [?|?]%elem_of_cons; [congruence|]. by eapply IH.
Qed.

(** ** Properties *)

(** A kill reaches exactly the groups it may: each positive group of the
    session other than the daemon's own, once, hung up first and killed after —
    and a session whose child has been reaped gets no signal at all, because its
    pid may belong to someone else by then. *)
Theorem kill_reaches_exactly_its_groups (own : Z) (session : string) (live : bool)
    (pid leader : option Z) (dead_before dead_after spawned : bool)
    (Hdead : dead_before = true → dead_after = true) :
  let calls := (kill_session_process own session live pid leader dead_before dead_after spawned).1 in
  (dead_before = true → calls = []) ∧
  (dead_before = false → ∃ groups,
     (∀ g, g ∈ groups ↔ live = true ∧ (pid = Some g ∨ leader = Some g) ∧ 0 < g ≤ i32_max ∧ g ≠ own) ∧
     StronglySorted Z.lt groups ∧
     calls = map (signal_group SIGHUP) groups ++ map (signal_group SIGKILL) groups
             ++ (if live && negb dead_after then [DirectKill session] else [])).
Proof.
  unfold kill_session_process, terminate_groups. set (pids := if live then _ else _). split.
  - intros Hd. rewrite (Hdead Hd), Hd. by destruct (kill_groups own pids).
  - intros ->. exists (kill_groups own pids). split_and!.
    + intros g. rewrite elem_of_kill_groups. subst pids. unfold as_u32, u32_max, i32_max.
      destruct live; [|set_solver]. rewrite !elem_of_cons, elem_of_nil. split.
      * intros ([<-|[Hg|[]]] & ? & ?); split_and!; auto; try lia.
        destruct leader as [z|]; simpl in Hg; [|done]. case_match; simplify_eq. auto.
      * intros (_ & [-> | ->] & ? & ?); split_and!; auto; try lia.
        right; left. simpl. rewrite (proj2 (andb_true_iff _ _)); [done|lia].
    + apply kill_groups_strict.
    + destruct (kill_groups own pids) as [|g gs]; cbn -[pids]; destruct live, dead_after;
        cbn -[pids]; rewrite ?app_nil_r, <- ?app_assoc; done.
Qed.

Lemma kill_reaches_exactly_its_groups_witness :
  (kill_session_process 100 "s" true (Some 42) (Some 77) true true true).1 = [].
Proof.
  exact (proj1 (kill_reaches_exactly_its_groups 100 "s" true (Some 42) (Some 77) true true true
                  (λ H, H)) eq_refl).
Defined.

(** A launched session always has a terminal type, and the request's own
    variables win over the daemon's: every variable the request sets has the
    request's last value for it, and [TERM] and [COLORTERM] fall back to the
    daemon's only when the request does not set them. *)
Theorem request_environment_wins (h : host) (command cwd : string) (env : list (string * string))
    (key : string) :
  env_value key (sp_env (launch h command cwd env)) =
    match env_value key env with
    | Some v => Some v
    | None => if decide (key = "TERM") then Some "xterm-256color"
              else if decide (key = "COLORTERM") then Some "truecolor" else None
    end.
Proof.
  assert (sp_env (launch h command cwd env) = terminal_env env) as -> by (unfold launch; by case_decide).
  unfold terminal_env. rewrite env_value_app.
  destruct (env_value key env) as [v|] eqn:He; [done|].
  assert (∀ k, k = key → existsb (λ nv, bool_decide (nv.1 = k)) env = false) as Hex.
  { intros k ->. apply not_true_is_false. intros ([k v] & Hin & Hk)%existsb_exists.
    apply bool_decide_eq_true in Hk. simpl in Hk. subst k. apply list_elem_of_In in Hin.
    by apply (proj1 (env_value_None key env) He v). }
  unfold terminal_defaults. cbn [List.filter fst].
  pose proof (Hex "TERM") as Ht. pose proof (Hex "COLORTERM") as Hct.
  destruct (existsb _ env), (existsb _ env); simpl;
    repeat (case_decide; subst; simpl); naive_solver.
Qed.

(** The passwd lookup answers with the seventh field of the first line that is
    the user's and has a non-empty one; malformed lines and other users' lines are
    never an answer. *)
Theorem passwd_shell_first_usable_line (passwd user sh : string) :
  passwd_shell passwd user = Some sh ↔
  ∃ i line, lines passwd !! i = Some line ∧
    head (split_on ":"%char line) = Some user ∧ split_on ":"%char line !! 6%nat = Some sh ∧
    sh ≠ "" ∧
    ∀ j earlier, (j < i)%nat → lines passwd !! j = Some earlier →
      head (split_on ":"%char earlier) = Some user →
      split_on ":"%char earlier !! 6%nat = None ∨ split_on ":"%char earlier !! 6%nat = Some "".
Proof.
  assert (∀ line b, passwd_line_shell user line = Some b ↔
    head (split_on ":"%char line) = Some user ∧ split_on ":"%char line !! 6%nat = Some b ∧ b ≠ "") as Hl.
  { intros line b. unfold passwd_line_shell, keep_nonempty, nonempty. simpl.
    destruct (head (split_on ":"%char line)) as [n|]; simpl; [|naive_solver].
    destruct (split_on ":"%char line !! 6%nat) as [s|]; simpl; repeat case_decide; subst;
      repeat (case_match; boolify); naive_solver. }
  unfold passwd_shell. rewrite find_map_Some. setoid_rewrite Hl.
  split; intros (i & line & Hi & Hrest).
  - destruct Hrest as ((Hh & H6 & Hne) & Hj). exists i, line. split_and!; try done.
    intros j e Hlt He Hu. specialize (Hj j e Hlt He).
    destruct (split_on ":"%char e !! 6%nat) as [s|] eqn:H6e; [|by left]. right. f_equal.
    destruct (decide (s = "")); [done|]. exfalso.
    rewrite (proj2 (Hl e s)) in Hj; [done|]. by split_and!.
  - destruct Hrest as (Hh & H6 & Hne & Hj). exists i, line. split_and!; try done.
    intros j e Hlt He. destruct (passwd_line_shell user e) as [b|] eqn:Hb; [|done].
    apply Hl in Hb as (Hhe & H6e & Hbe). destruct (Hj j e Hlt He Hhe); congruence.
Qed.
