(* ===== verification/Hub.v ===== *)
(** * Fan-out: the event hub and a session's output hub

    [EventHub] and [OutputHub] of [crates/ade_session_daemon/src/sessions.rs],
    over the interface a screen grid ([crates/ade_session_daemon/src/grid.rs])
    gives the hub. *)

From S2P Require Import Prelude Text Layout Proto Outbound Stream.
From stdpp Require Import options.
Open Scope Z_scope.

(** ** The screen a hub works with *)

(** [SessionGrid] as its hub uses it. Instants are arguments; [feed_until_primary]
    answers with the bytes consumed up to a splice point, or [None] when all were.
    The one law is what makes the hub's loop end: a splice point lies inside the
    chunk and past its start. *)
Class ScreenGrid (G : Type) : Type := {
  grid_new : Z → Z → G;
  grid_resize : Z → Z → G → G;
  feed_until_primary : Z → list Z → G → option nat * G;
  grid_repaint : G → list Z;
  flush_expired_sync : Z → G → G;
  take_pending_repair : G → bool * G;
  defer_repair : G → G;
  feed_progress : ∀ now data g n,
    (feed_until_primary now data g).1 = Some n → (0 < n ≤ length data)%nat
}.

(** ** Subscribers *)

Abbreviation SubscriberId := N.
Abbreviation subscriber := (SubscriberId * Outbound)%type.

Definition other_than (who : SubscriberId) (s : subscriber) : bool := negb (N.eqb s.1 who).

(** A [retain] closure that pushes one frame. *)
Definition push_to (f : Frame) (s : subscriber) : st queues bool := push s.2 f.

(** A [retain] whose closure touches only its own subscriber's queue: every queue
    takes its own step, and the subscribers kept are those whose step said so.
    [view] finds the queues in the state. *)
Section RetainLocal.
Context {S : Type} (view : S → queues) (step : Outbound → queue → bool * queue)
        (p : subscriber → st S bool).
Hypothesis p_local : ∀ s x,
  (p s x).1 = (step s.2 (queue_at (view x) s.2)).1 ∧
  queue_at (view (p s x).2) s.2 = (step s.2 (queue_at (view x) s.2)).2 ∧
  ∀ o, ob_frames o ≠ ob_frames s.2 → queue_at (view (p s x).2) o = queue_at (view x) o.

Definition queue_ids (subs : list subscriber) : list N := map (λ s, ob_frames s.2) subs.

Lemma retain_local subs x :
  NoDup (queue_ids subs) →
  (retain_st p subs x).1 =
    List.filter (λ s, (step s.2 (queue_at (view x) s.2)).1) subs ∧
  (∀ s, s ∈ subs →
     queue_at (view (retain_st p subs x).2) s.2 = (step s.2 (queue_at (view x) s.2)).2) ∧
  (∀ o, ob_frames o ∉ queue_ids subs →
     queue_at (view (retain_st p subs x).2) o = queue_at (view x) o).
Proof using p_local.
  revert x. induction subs as [|s subs IH]; intros x Hnd.
  { split_and!; [done| |done]. intros s Hs. inversion Hs. }
  unfold queue_ids in *. simpl in Hnd. apply NoDup_cons in Hnd as [Hni Hnd].
  destruct (p_local s x) as (Hk & Hq & Ho). simpl. unfold mbind, st_bind.
  destruct (p s x) as [keep x1]. simpl in Hk, Hq, Ho. specialize (IH x1 Hnd).
  destruct (retain_st p subs x1) as [kept x2]. simpl in IH. destruct IH as (IHf & IHq & IHo).
  assert (∀ t, t ∈ subs → queue_at (view x1) t.2 = queue_at (view x) t.2) as Hsame.
  { intros t Ht. apply Ho. intros Heq. apply Hni. rewrite <- Heq.
    apply list_elem_of_fmap. by exists t. }
  simpl. split_and!.
  - rewrite <- Hk. rewrite IHf.
    assert (List.filter (λ t, (step t.2 (queue_at (view x1) t.2)).1) subs =
            List.filter (λ t, (step t.2 (queue_at (view x) t.2)).1) subs) as ->.
    { apply List.filter_ext_in. intros t Ht%list_elem_of_In. by rewrite Hsame. }
    by destruct keep.
  - intros t [->|Ht]%elem_of_cons.
    + rewrite IHo by done. done.
    + rewrite IHq, Hsame by done. done.
  - intros o Hnin. rewrite not_elem_of_cons in Hnin. destruct Hnin.
    rewrite IHo, Ho by done. done.
Qed.
End RetainLocal.

(** *** The event hub *)

Abbreviation EventHub := (list subscriber).

Definition events_publish (frame : Frame) (hub : EventHub) : st queues EventHub :=
  retain_st (push_to frame) hub.

Definition events_subscribe (who : SubscriberId) (outbound : Outbound) (hub : EventHub) : EventHub :=
  List.filter (other_than who) hub ++ [(who, outbound)].

Definition events_publish_except (except : SubscriberId) (frame : Frame) (hub : EventHub) :
    st queues EventHub :=
  retain_st (λ s, if N.eqb s.1 except then mret true else push_to frame s) hub.

Definition events_unsubscribe (who : SubscriberId) (hub : EventHub) : EventHub :=
  List.filter (other_than who) hub.

(** *** The output hub *)

Record OutputHub (G : Type) : Type := mkHub {
  hub_ring : Ring;
  hub_grid : option G;
  hub_ending : option Frame;
  hub_subscribers : list subscriber
}.
Arguments mkHub {G} _ _ _ _.
Arguments hub_ring {G} _.
Arguments hub_grid {G} _.
Arguments hub_ending {G} _.
Arguments hub_subscribers {G} _.

Section OutputHub.
Context {G : Type} `{ScreenGrid G}.

Definition hub_new (capacity : Z) (grid : option G) (ending : option Frame) : OutputHub G :=
  mkHub (ring_new capacity) grid ending [].

Definition set_grid (grid : option G) (hub : OutputHub G) : OutputHub G :=
  mkHub (hub_ring hub) grid (hub_ending hub) (hub_subscribers hub).

Definition set_subscribers (subs : list subscriber) (hub : OutputHub G) : OutputHub G :=
  mkHub (hub_ring hub) (hub_grid hub) (hub_ending hub) subs.

Definition resize_grid (cols rows : Z) (hub : OutputHub G) : OutputHub G :=
  set_grid (grid_resize cols rows <$> hub_grid hub) hub.

(** One subscriber's share of a segment: the prefix with the repaint if that fits
    beside the reserve, else the prefix alone. The flag is [deferred]. *)
Definition deliver_segment (sid : SessionId) (prefix : list Z) (spliced : option (list Z))
    (s : subscriber) : st (bool * queues) bool := λ '(deferred, qs),
  let '(repaired, qs) :=
    match spliced with
    | Some bytes => try_push s.2 (Frame_Output sid bytes) ATTACH_RESERVE_BYTES qs
    | None => (false, qs)
    end in
  if repaired then (true, (deferred, qs))
  else let '(kept, qs) := push s.2 (Frame_Output sid prefix) qs in
       (kept, (deferred || bool_decide (is_Some spliced), qs)).

(** The [while] loop of [OutputHub::publish]; [clock i] is the time at its [i]th
    turn. Each turn consumes at least a byte, so a fuel of the chunk's length is
    enough ([publish_loop_fuel]). *)
Fixpoint publish_loop (fuel : nat) (clock : nat → Z) (turn : nat) (sid : SessionId)
    (chunk : list Z) (synthesized deferred : bool) (hub : OutputHub G) :
    st queues (bool * OutputHub G) := λ qs,
  match fuel, chunk with
  | _, [] | O, _ => ((deferred, hub), qs)
  | S fuel, _ =>
      let '(boundary, grid) :=
        match hub_grid hub with
        | Some g => let '(b, g') := feed_until_primary (clock turn) chunk g in (b, Some g')
        | None => (None, None)
        end in
      let cut := match boundary with Some n => n | None => length chunk end in
      let prefix := take cut chunk in
      let suffix := drop cut chunk in
      let attached := negb (bool_decide (hub_subscribers hub = [])) in
      let '(spliced, synthesized, deferred) :=
        match boundary, grid with
        | Some _, Some g =>
            if attached && negb synthesized then (Some (prefix ++ grid_repaint g), true, deferred)
            else (None, synthesized, deferred || attached)
        | _, _ => (None, synthesized, deferred)
        end in
      let '(subs, (deferred, qs)) :=
        retain_st (deliver_segment sid prefix spliced) (hub_subscribers hub) (deferred, qs) in
      let hub := set_subscribers subs (set_grid grid hub) in
      match boundary with
      | None => ((deferred, hub), qs)
      | Some _ => publish_loop fuel clock (S turn) sid suffix synthesized deferred hub qs
      end
  end.

Definition hub_publish (clock : nat → Z) (sid : SessionId) (chunk : list Z) (hub : OutputHub G) :
    st queues (OutputHub G) := λ qs,
  let hub := mkHub (ring_push chunk (hub_ring hub)) (hub_grid hub) (hub_ending hub)
               (hub_subscribers hub) in
  let '((deferred, hub), qs) := publish_loop (length chunk) clock 0 sid chunk false false hub qs in
  (if deferred : bool then set_grid (defer_repair <$> hub_grid hub) hub else hub, qs).

(** The grid as [attach] finds it before it builds the replay. *)
Definition attach_grid (now : Z) (alone : bool) (g : G) : G :=
  let g := flush_expired_sync now g in
  if alone then (take_pending_repair g).2 else g.

(** The replay of an attach and the bytes it was budgeted. *)
Definition attach_replay (sid : SessionId) (outbound : Outbound) (hub : OutputHub G) (qs : queues) :
    Frame :=
  let repaint := match hub_grid hub with Some g => grid_repaint g | None => [] end in
  let free := free_bytes outbound qs in
  let dropped_repaint := free <? Z.of_nat (length repaint) + ATTACH_RESERVE_BYTES in
  let repaint := if dropped_repaint then [] else repaint in
  let budget := Z.min (ob_max_bytes outbound `div` 2)
                  (saturating_sub free (Z.of_nat (length repaint) + ATTACH_RESERVE_BYTES)) in
  let history := newest budget (hub_ring hub) in
  let capped := Z.of_nat (length history) <? ring_len (hub_ring hub) in
  Frame_Replay sid (history ++ repaint)
    (ring_truncated (hub_ring hub) || capped || dropped_repaint).

Definition hub_attach (now : Z) (sid : SessionId) (who : SubscriberId) (outbound : Outbound)
    (hub : OutputHub G) : st queues (OutputHub G) := λ qs,
  let subs := List.filter (other_than who) (hub_subscribers hub) in
  let hub := set_subscribers subs
               (set_grid (attach_grid now (bool_decide (subs = [])) <$> hub_grid hub) hub) in
  let '(sent, qs) := push outbound (attach_replay sid outbound hub qs) qs in
  if negb sent then (hub, qs)
  else match hub_ending hub with
       | Some ending => (hub, (push outbound ending qs).2)
       | None => (set_subscribers (hub_subscribers hub ++ [(who, outbound)]) hub, qs)
       end.

Definition hub_repaint (now : Z) (sid : SessionId) (hub : OutputHub G) : st queues (OutputHub G) :=
  λ qs,
  if decide (hub_subscribers hub = []) then (hub, qs)
  else match hub_grid hub with
       | None => (hub, qs)
       | Some g =>
           let g := flush_expired_sync now g in
           let '(subs, qs) :=
             retain_st (push_to (Frame_Output sid (grid_repaint g))) (hub_subscribers hub) qs in
           (set_subscribers subs (set_grid (Some g) hub), qs)
       end.

(** One subscriber's share of a stalled repair; the flag is [skipped]. *)
Definition deliver_stalled (sid : SessionId) (bytes : list Z) (s : subscriber) :
    st (bool * queues) bool := λ '(skipped, qs),
  if is_closed s.2 qs then (false, (skipped, qs))
  else let '(sent, qs) := try_push s.2 (Frame_Output sid bytes) ATTACH_RESERVE_BYTES qs in
       (true, (skipped || negb sent, qs)).

Definition flush_stalled (now : Z) (sid : SessionId) (hub : OutputHub G) : st queues (OutputHub G) :=
  λ qs,
  match hub_grid hub with
  | None => (hub, qs)
  | Some g =>
      let '(ready, g) := take_pending_repair (flush_expired_sync now g) in
      let hub := set_grid (Some g) hub in
      if negb ready then (hub, qs)
      else if decide (hub_subscribers hub = []) then (hub, qs)
      else
        let '(subs, (skipped, qs)) :=
          retain_st (deliver_stalled sid (grid_repaint g)) (hub_subscribers hub) (false, qs) in
        let hub := set_subscribers subs hub in
        (if skipped : bool then set_grid (Some (defer_repair g)) hub else hub, qs)
  end.

(** Whether the subscriber was attached, and the hub without it. *)
Definition hub_detach (who : SubscriberId) (hub : OutputHub G) : bool * OutputHub G :=
  let subs := List.filter (other_than who) (hub_subscribers hub) in
  (bool_decide (length subs ≠ length (hub_subscribers hub)), set_subscribers subs hub).

Definition hub_publish_event (frame : Frame) (hub : OutputHub G) : st queues (OutputHub G) := λ qs,
  let '(subs, qs) := retain_st (push_to frame) (hub_subscribers hub) qs in
  (mkHub (hub_ring hub) (hub_grid hub) (Some frame) subs, qs).

(** ** What a publish delivers *)

(** [carries sid fs c]: the output frames [fs], each a piece of [c] with nothing or
    a synthesized screen behind it, carry exactly the bytes [c] in order. *)
Inductive carries (sid : SessionId) : list Frame → list Z → Prop :=
| carries_nil : carries sid [] []
| carries_cons piece extra fs c :
    extra = [] ∨ (∃ g : G, extra = grid_repaint g) →
    carries sid fs c →
    carries sid (Frame_Output sid (piece ++ extra) :: fs) (piece ++ c).

Lemma carries_app sid fs gs c d :
  carries sid fs c → carries sid gs d → carries sid (fs ++ gs) (c ++ d).
Proof.
  intros Hf Hg. induction Hf as [|piece extra fs c He Hf IH]; simpl; [done|].
  rewrite <- app_assoc. by constructor.
Qed.

Lemma carries_whole sid c : carries sid [Frame_Output sid c] c.
Proof.
  pose proof (carries_cons sid c [] [] [] (or_introl eq_refl) (carries_nil sid)) as Hc.
  by rewrite !app_nil_r in Hc.
Qed.

Definition hub_ids (hub : OutputHub G) : list N := queue_ids (hub_subscribers hub).

(** Every subscriber has a queue of its own. *)
Definition hub_ok (hub : OutputHub G) : Prop := NoDup (hub_ids hub).

Lemma queue_ids_sublist (a b : list subscriber) :
  a `sublist_of` b → NoDup (queue_ids b) → NoDup (queue_ids a).
Proof. intros Hs Hnd. eapply sublist_NoDup; [exact Hnd|]. by apply fmap_sublist. Qed.

Lemma queue_ids_unique (subs : list subscriber) s t :
  NoDup (queue_ids subs) → s ∈ subs → t ∈ subs → ob_frames s.2 = ob_frames t.2 → s = t.
Proof.
  induction subs as [|u subs IH]; [by inversion 2|].
  unfold queue_ids in *. simpl. intros [Hni Hnd]%NoDup_cons [->|Hs]%elem_of_cons
    [->|Ht]%elem_of_cons Heq; [done| | |by apply IH].
  - destruct Hni. apply list_elem_of_fmap. by exists t.
  - destruct Hni. apply list_elem_of_fmap. by exists s.
Qed.

Definition segment_step (sid : SessionId) (prefix : list Z) (spliced : option (list Z))
    (o : Outbound) (q : queue) : bool * queue :=
  match spliced with
  | Some bytes =>
      if (try_step (Frame_Output sid bytes) ATTACH_RESERVE_BYTES o q).1
      then try_step (Frame_Output sid bytes) ATTACH_RESERVE_BYTES o q
      else push_step (Frame_Output sid prefix) o q
  | None => push_step (Frame_Output sid prefix) o q
  end.

Lemma deliver_segment_local sid prefix spliced s (x : bool * queues) :
  (deliver_segment sid prefix spliced s x).1 =
    (segment_step sid prefix spliced s.2 (queue_at x.2 s.2)).1 ∧
  queue_at (deliver_segment sid prefix spliced s x).2.2 s.2 =
    (segment_step sid prefix spliced s.2 (queue_at x.2 s.2)).2 ∧
  ∀ o, ob_frames o ≠ ob_frames s.2 →
    queue_at (deliver_segment sid prefix spliced s x).2.2 o = queue_at x.2 o.
Proof.
  destruct x as [d qs]. unfold deliver_segment, segment_step. simpl.
  destruct spliced as [bytes|].
  - destruct (try_push_acts (Frame_Output sid bytes) ATTACH_RESERVE_BYTES s.2 qs) as (H1 & H2 & H3).
    destruct (try_push s.2 (Frame_Output sid bytes) ATTACH_RESERVE_BYTES qs) as [r qs1] eqn:Ht.
    simpl in *. rewrite <- H1. destruct r; simpl; [by split_and!|].
    apply try_push_false in Ht as ->.
    destruct (push_acts (Frame_Output sid prefix) s.2 qs) as (P1 & P2 & P3).
    by destruct (push s.2 (Frame_Output sid prefix) qs).
  - destruct (push_acts (Frame_Output sid prefix) s.2 qs) as (P1 & P2 & P3).
    by destruct (push s.2 (Frame_Output sid prefix) qs).
Qed.

Lemma push_step_result f o q :
  if (push_step f o q).1 then q_frames (push_step f o q).2 = q_frames q ++ [f]
  else q_closed (push_step f o q).2 = true.
Proof. unfold push_step. by repeat case_match; simplify_eq/=. Qed.

Lemma segment_step_result sid prefix spliced o q :
  (∀ bytes, spliced = Some bytes → ∃ g, bytes = prefix ++ grid_repaint g) →
  if (segment_step sid prefix spliced o q).1
  then ∃ fs, q_frames (segment_step sid prefix spliced o q).2 = q_frames q ++ fs ∧
             carries sid fs prefix
  else q_closed (segment_step sid prefix spliced o q).2 = true.
Proof.
  intros Hsp.
  assert (if (push_step (Frame_Output sid prefix) o q).1
          then ∃ fs, q_frames (push_step (Frame_Output sid prefix) o q).2 = q_frames q ++ fs ∧
                     carries sid fs prefix
          else q_closed (push_step (Frame_Output sid prefix) o q).2 = true) as Hpush.
  { pose proof (push_step_result (Frame_Output sid prefix) o q) as Hr. case_match; [|done].
    eexists. split; [exact Hr|apply carries_whole]. }
  unfold segment_step. destruct spliced as [bytes|]; [|done].
  destruct (Hsp bytes eq_refl) as [g ->].
  destruct (try_step _ _ o q) as [[] q'] eqn:Hfit; simpl; [|done].
  unfold try_step in Hfit. case_match; simplify_eq/=. eexists. split; [done|].
  rewrite <- (app_nil_r prefix) at 2. constructor; [right; by eexists|constructor].
Qed.

(** What a fan-out of the bytes [c] does to the subscribers and the queues: each
    one kept has been sent exactly [c] behind what it had, each one dropped has
    its queue closed, and no other queue is touched. *)
Record delivered (sid : SessionId) (c : list Z) (subs : list subscriber) (qs : queues)
    (subs' : list subscriber) (qs' : queues) : Prop := {
  dl_sublist : subs' `sublist_of` subs;
  dl_kept : ∀ s, s ∈ subs' → ∃ fs,
    q_frames (queue_at qs' s.2) = q_frames (queue_at qs s.2) ++ fs ∧ carries sid fs c;
  dl_dropped : ∀ s, s ∈ subs → s ∉ subs' → q_closed (queue_at qs' s.2) = true;
  dl_others : ∀ o, ob_frames o ∉ queue_ids subs → queue_at qs' o = queue_at qs o
}.

Lemma delivered_nil sid subs qs : delivered sid [] subs qs subs qs.
Proof.
  split; [done| |done|done]. intros s Hs. exists []. split; [by rewrite app_nil_r|constructor].
Qed.

Lemma not_in_queue_ids (subs subs' : list subscriber) s :
  NoDup (queue_ids subs) → subs' `sublist_of` subs → s ∈ subs → s ∉ subs' →
  ob_frames s.2 ∉ queue_ids subs'.
Proof.
  intros Hnd Hsub Hs Hn (t & Heq & Ht)%list_elem_of_fmap. apply Hn.
  rewrite (queue_ids_unique subs s t); [done|done|done| |done]. by eapply elem_of_sublist.
Qed.

Lemma delivered_app sid c d subs qs subs1 qs1 subs2 qs2 :
  NoDup (queue_ids subs) →
  delivered sid c subs qs subs1 qs1 → delivered sid d subs1 qs1 subs2 qs2 →
  delivered sid (c ++ d) subs qs subs2 qs2.
Proof.
  intros Hnd [S1 K1 D1 O1] [S2 K2 D2 O2]. split.
  - by etrans.
  - intros s Hs. destruct (K2 s Hs) as (gs & Hg & Hcg).
    destruct (K1 s ltac:(by eapply elem_of_sublist)) as (fs & Hf & Hcf).
    exists (fs ++ gs). rewrite Hg, Hf, <- app_assoc. split; [done|]. by apply carries_app.
  - intros s Hs Hn. destruct (decide (s ∈ subs1)); [by apply D2|].
    rewrite O2 by by eapply not_in_queue_ids. by apply D1.
  - intros o Ho. rewrite O2, O1; [done|done|]. intros Hin. apply Ho.
    eapply elem_of_sublist; [exact Hin|]. by apply fmap_sublist.
Qed.

Lemma deliver_segment_all sid prefix spliced subs d qs :
  NoDup (queue_ids subs) →
  (∀ bytes, spliced = Some bytes → ∃ g, bytes = prefix ++ grid_repaint g) →
  delivered sid prefix subs qs
    (retain_st (deliver_segment sid prefix spliced) subs (d, qs)).1
    (retain_st (deliver_segment sid prefix spliced) subs (d, qs)).2.2.
Proof.
  intros Hnd Hsp.
  destruct (retain_local snd (segment_step sid prefix spliced) (deliver_segment sid prefix spliced)
              (deliver_segment_local sid prefix spliced) subs (d, qs) Hnd) as (Hf & Hq & Ho).
  pose proof (retain_st_sublist (deliver_segment sid prefix spliced) subs (d, qs)) as Hs.
  destruct (retain_st _ subs (d, qs)) as [subs' [d' qs']]. simpl in *.
  assert (∀ s, s ∈ subs → _) as Hres
    by (intros s _; exact (segment_step_result sid prefix spliced s.2 (queue_at qs s.2) Hsp)).
  split; [done| | |done].
  - intros s Hin. rewrite Hf in Hin. apply elem_of_filter_bool in Hin as [Hin Hk].
    specialize (Hres s Hin). rewrite Hk in Hres. by rewrite Hq.
  - intros s Hin Hn. rewrite Hq by done. specialize (Hres s Hin).
    destruct (segment_step sid prefix spliced s.2 (queue_at qs s.2)) as [[] q'] eqn:Hk; [|done].
    destruct Hn. rewrite Hf. apply elem_of_filter_bool. by rewrite Hk.
Qed.

Lemma publish_loop_delivered fuel clock turn sid chunk synthesized deferred hub qs :
  (length chunk ≤ fuel)%nat → hub_ok hub →
  let '((_, hub'), qs') :=
    publish_loop fuel clock turn sid chunk synthesized deferred hub qs in
  delivered sid chunk (hub_subscribers hub) qs (hub_subscribers hub') qs' ∧
  hub_ring hub' = hub_ring hub ∧ hub_ending hub' = hub_ending hub.
Proof.
  revert turn chunk synthesized deferred hub qs.
  induction fuel as [|fuel IH]; intros turn chunk synthesized deferred hub qs Hfuel Hok;
    (destruct chunk as [|b chunk]; [simpl; split_and!; [apply delivered_nil|done|done]|]);
    [simpl in Hfuel; lia|].
  cbn [publish_loop]. set (data := b :: chunk) in *.
  destruct (match hub_grid hub with Some _ => _ | None => _ end) as [boundary grid] eqn:Hg.
  assert (∀ n, boundary = Some n → (0 < n ≤ length data)%nat) as Hcut.
  { intros n ->. destruct (hub_grid hub) as [g|]; [|done].
    destruct (feed_until_primary (clock turn) data g) as [b' g'] eqn:Hfeed. simplify_eq.
    apply (feed_progress (clock turn) data g). by rewrite Hfeed. }
  destruct (match boundary with Some _ => _ | None => _ end) as [[spliced syn] def] eqn:Hspl.
  set (prefix := take _ data) in *.
  assert (∀ bytes, spliced = Some bytes → ∃ g, bytes = prefix ++ grid_repaint g) as Hsp.
  { intros bytes ->. destruct boundary as [n|], grid as [g|]; try done.
    destruct (_ && _); [|done]. injection Hspl as <- _ _. by exists g. }
  pose proof (deliver_segment_all sid prefix spliced (hub_subscribers hub) def qs Hok Hsp) as Hd.
  destruct (retain_st _ (hub_subscribers hub) (def, qs)) as [subs [def1 qs1]]. simpl in Hd.
  destruct boundary as [n|].
  - destruct (Hcut n eq_refl) as [Hn0 Hn].
    specialize (IH (S turn) (drop n data) syn def1 (set_subscribers subs (set_grid grid hub)) qs1).
    destruct (publish_loop fuel clock (S turn) sid (drop n data) syn def1 _ qs1) as [[d' hub'] qs'].
    destruct IH as (IHd & IHr & IHe); [rewrite length_drop; lia| |].
    { unfold hub_ok, hub_ids. simpl. eapply queue_ids_sublist; [by eapply dl_sublist|done]. }
    split_and!; [|done|done]. rewrite <- (take_drop n data).
    by eapply delivered_app; [exact Hok|exact Hd|].
  - split_and!; [|done|done]. simpl. subst prefix.
    by rewrite firstn_all in Hd.
Qed.

(** The reads of a pty, published one after another; each comes with its clock. *)
Fixpoint hub_publish_all (sid : SessionId) (reads : list ((nat → Z) * list Z)) (hub : OutputHub G) :
    st queues (OutputHub G) :=
  match reads with
  | [] => mret hub
  | (clock, chunk) :: reads => hub ← hub_publish clock sid chunk hub; hub_publish_all sid reads hub
  end.

Lemma delivered_ok sid c hub qs hub' qs' :
  hub_ok hub → delivered sid c (hub_subscribers hub) qs (hub_subscribers hub') qs' → hub_ok hub'.
Proof. intros Hok [Hs _ _ _]. by eapply queue_ids_sublist. Qed.

Lemma hub_publish_delivered clock sid chunk hub qs :
  hub_ok hub →
  let '(hub', qs') := hub_publish clock sid chunk hub qs in
  delivered sid chunk (hub_subscribers hub) qs (hub_subscribers hub') qs' ∧
  hub_ring hub' = ring_push chunk (hub_ring hub) ∧ hub_ending hub' = hub_ending hub.
Proof.
  intros Hok. unfold hub_publish.
  set (hub0 := mkHub _ _ _ _).
  pose proof (publish_loop_delivered (length chunk) clock 0 sid chunk false false hub0 qs
                ltac:(done) Hok) as Hp.
  destruct (publish_loop _ clock 0 sid chunk false false hub0 qs) as [[d hub'] qs'].
  by destruct d.
Qed.

Lemma hub_publish_all_delivered sid reads hub qs :
  hub_ok hub →
  let '(hub', qs') := hub_publish_all sid reads hub qs in
  delivered sid (concat (map snd reads)) (hub_subscribers hub) qs (hub_subscribers hub') qs' ∧
  hub_ring hub' = foldl (λ r c, ring_push c r) (hub_ring hub) (map snd reads) ∧
  hub_ending hub' = hub_ending hub.
Proof.
  revert hub qs. induction reads as [|[clock chunk] reads IH]; intros hub qs Hok; simpl.
  { split_and!; [apply delivered_nil|done|done]. }
  rewrite st_bind_unfold. pose proof (hub_publish_delivered clock sid chunk hub qs Hok) as Hp.
  destruct (hub_publish clock sid chunk hub qs) as [hub1 qs1]. destruct Hp as (Hd & Hr & He).
  pose proof (delivered_ok _ _ _ _ _ _ Hok Hd) as Hok1. specialize (IH hub1 qs1 Hok1). simpl.
  destruct (hub_publish_all sid reads hub1 qs1) as [hub2 qs2]. destruct IH as (Hd2 & Hr2 & He2).
  split_and!; [by eapply delivered_app|by rewrite Hr2, Hr|by rewrite He2].
Qed.

(** *** The replay *)

(** The hub an attach builds its replay from. *)
Definition attach_hub (now : Z) (who : SubscriberId) (hub : OutputHub G) : OutputHub G :=
  let subs := List.filter (other_than who) (hub_subscribers hub) in
  set_subscribers subs (set_grid (attach_grid now (bool_decide (subs = [])) <$> hub_grid hub) hub).

(** The screen a replay ends with when there is room for it. *)
Definition hub_screen (hub : OutputHub G) : list Z :=
  match hub_grid hub with Some g => grid_repaint g | None => [] end.

(** A replay of [history] and [screen], with its truncation flag, is true to the
    hub: the newest of the ring, the current screen or nothing, and the flag is
    raised exactly when something is left out. *)
Definition replay_of (hub : OutputHub G) (history screen : list Z) (truncated : bool) : Prop :=
  history = last_n (length history) (ring_bytes (hub_ring hub)) ∧
  (screen = [] ∨ screen = hub_screen hub) ∧
  (truncated = false ↔
     ring_truncated (hub_ring hub) = false ∧ history = ring_bytes (hub_ring hub) ∧
     screen = hub_screen hub).

Lemma saturating_sub_nonneg a b : 0 ≤ saturating_sub a b.
Proof. unfold saturating_sub. lia. Qed.

Lemma attach_replay_fits_free sid o hub qs :
  0 ≤ ob_max_bytes o →
  frame_bytes (attach_replay sid o hub qs) ≤
    Z.max OVERHEAD (free_bytes o qs - ATTACH_RESERVE_BYTES + OVERHEAD).
Proof.
  intros Hmax. pose proof (Z.div_pos (ob_max_bytes o) 2 Hmax ltac:(lia)).
  unfold attach_replay. set (free := free_bytes o qs).
  set (screen := match hub_grid hub with Some g => grid_repaint g | None => [] end).
  destruct (free <? Z.of_nat (length screen) + ATTACH_RESERVE_BYTES) eqn:Hd; boolify;
    unfold frame_bytes; rewrite length_app, Nat2Z.inj_add, newest_length;
    unfold saturating_sub, ring_len in *; simpl (length []); unfold ATTACH_RESERVE_BYTES in *; lia.
Qed.

Lemma last_n_self {A} n (l : list A) : last_n (length (last_n n l)) l = last_n n l.
Proof. rewrite length_last_n. unfold last_n. f_equal. lia. Qed.

(** The replay is true to the hub whenever the queue has the reserve free. *)
Lemma attach_replay_true sid o hub qs :
  0 ≤ ob_max_bytes o → ATTACH_RESERVE_BYTES ≤ free_bytes o qs →
  ∃ history screen truncated,
    attach_replay sid o hub qs = Frame_Replay sid (history ++ screen) truncated ∧
    replay_of hub history screen truncated.
Proof.
  intros Hmax Hfree. pose proof (Z.div_pos (ob_max_bytes o) 2 Hmax ltac:(lia)).
  unfold attach_replay. fold (hub_screen hub). set (free := free_bytes o qs) in *.
  destruct (free <? Z.of_nat (length (hub_screen hub)) + ATTACH_RESERVE_BYTES) eqn:Hd; boolify;
    set (budget := Z.min _ _); set (ring := ring_bytes (hub_ring hub));
    (assert (0 ≤ budget) as Hb by (unfold budget, saturating_sub; lia));
    eexists (newest budget (hub_ring hub)), _, _; (split; [done|]); unfold replay_of;
    rewrite newest_last_n by done; (split; [by rewrite last_n_self|]); (split; [by auto|]).
  - rewrite orb_true_r. split; [done|]. intros (_ & _ & Hs). exfalso.
    rewrite <- Hs in Hd. simpl in Hd. lia.
  - rewrite orb_false_r, orb_false_iff, Z.ltb_ge. unfold ring_len. fold ring.
    split.
    + intros [Ht Hh].
      split_and!; [done| |done]. rewrite last_n_all; [done|]. rewrite length_last_n in Hh. lia.
    + intros (Ht & Hh & _). split; [done|]. rewrite Hh. lia.
Qed.

Lemma free_bytes_room o qs f :
  ATTACH_RESERVE_BYTES ≤ free_bytes o qs → frame_bytes f ≤ free_bytes o qs →
  q_queued (queue_at qs o) + frame_bytes f ≤ ob_max_bytes o.
Proof. unfold free_bytes, saturating_sub, ATTACH_RESERVE_BYTES. lia. Qed.

Lemma push_open o f qs :
  q_closed (queue_at qs o) = false →
  q_queued (queue_at qs o) + frame_bytes f ≤ ob_max_bytes o →
  (push o f qs).1 = true ∧
  queue_at (push o f qs).2 o =
    mkQueue (q_frames (queue_at qs o) ++ [f]) (q_queued (queue_at qs o) + frame_bytes f) false.
Proof.
  intros Hc Hr. destruct (push_acts f o qs) as (H1 & H2 & _). rewrite H1, H2.
  unfold push_step. rewrite (proj2 (Z.ltb_ge _ _)), Hc by lia. done.
Qed.

(** An attach that finds its queue open with the reserve free always gets its
    replay through. *)
Lemma hub_attach_sends now sid who o hub qs :
  0 ≤ ob_max_bytes o → is_closed o qs = false → ATTACH_RESERVE_BYTES ≤ free_bytes o qs →
  let replay := attach_replay sid o (attach_hub now who hub) qs in
  let qs1 := (push o replay qs).2 in
  q_queued (queue_at qs1 o) + OVERHEAD ≤ ob_max_bytes o ∧
  q_frames (queue_at qs1 o) = q_frames (queue_at qs o) ++ [replay] ∧
  q_closed (queue_at qs1 o) = false ∧
  hub_attach now sid who o hub qs =
    match hub_ending hub with
    | Some ending => (attach_hub now who hub, (push o ending qs1).2)
    | None => (set_subscribers (hub_subscribers (attach_hub now who hub) ++ [(who, o)])
                 (attach_hub now who hub), qs1)
    end.
Proof.
  intros Hmax Hopen Hfree replay qs1.
  pose proof (attach_replay_fits_free sid o (attach_hub now who hub) qs Hmax) as Hfit.
  fold replay in Hfit.
  assert (frame_bytes replay ≤ free_bytes o qs - ATTACH_RESERVE_BYTES + OVERHEAD) as Hle
    by (unfold ATTACH_RESERVE_BYTES, OVERHEAD in *; lia).
  destruct (push_open o replay qs Hopen) as [Hp Hq].
  { apply free_bytes_room; [done|]. unfold ATTACH_RESERVE_BYTES, OVERHEAD in *. lia. }
  fold qs1 in Hq. rewrite Hq. simpl. split_and!; [|done|done|].
  - unfold free_bytes, saturating_sub, ATTACH_RESERVE_BYTES, OVERHEAD in *. lia.
  - unfold hub_attach. fold (attach_hub now who hub). fold replay. subst qs1.
    destruct (push o replay qs) as [sent qs1]. simpl in Hp. subst sent. simpl.
    by destruct (hub_ending hub).
Qed.

(** ** Properties *)

(** C37. However the screen splits a read at its splice points, a publish hands
    every attached connection it keeps exactly the bytes read, in order and each
    once, with at most a synthesized screen behind a piece; a connection it drops
    has its queue closed; and the ring records the same bytes. *)
Theorem publish_is_lossless (clock : nat → Z) (sid : SessionId) (chunk : list Z)
    (hub : OutputHub G) (qs : queues) (Hok : hub_ok hub) :
  let '(hub', qs') := hub_publish clock sid chunk hub qs in
  delivered sid chunk (hub_subscribers hub) qs (hub_subscribers hub') qs' ∧
  hub_ring hub' = ring_push chunk (hub_ring hub) ∧ hub_ending hub' = hub_ending hub ∧
  hub_ok hub'.
Proof.
  pose proof (hub_publish_delivered clock sid chunk hub qs Hok) as Hp.
  destruct (hub_publish clock sid chunk hub qs) as [hub' qs']. destruct Hp as (Hd & Hr & He).
  split_and!; [done..|by eapply delivered_ok].
Qed.

(** No output slips between an attach's replay and its live stream: whatever
    is published after the attach, a connection still attached has been sent one
    replay true to the hub and then live frames, and the replayed history followed
    by the live bytes is the newest stretch of the session's whole stream; a
    connection no longer attached has its queue closed. *)
Theorem attach_then_stream_is_contiguous (now : Z) (sid : SessionId) (who : SubscriberId)
    (o : Outbound) (hub : OutputHub G) (qs : queues) (stream : list Z)
    (reads : list ((nat → Z) * list Z))
    (Hmax : 0 ≤ ob_max_bytes o) (Hopen : is_closed o qs = false)
    (Hfree : ATTACH_RESERVE_BYTES ≤ free_bytes o qs)
    (Hlive : hub_ending hub = None)
    (Hok : hub_ok (set_subscribers (hub_subscribers (attach_hub now who hub) ++ [(who, o)]) hub))
    (Hring : ring_holds (hub_ring hub) stream) :
  let '(hub1, qs1) := hub_attach now sid who o hub qs in
  let '(hub2, qs2) := hub_publish_all sid reads hub1 qs1 in
  let bytes := concat (map snd reads) in
  if bool_decide ((who, o) ∈ hub_subscribers hub2) then
    ∃ history screen truncated live,
      replay_of (attach_hub now who hub) history screen truncated ∧
      q_frames (queue_at qs2 o) =
        q_frames (queue_at qs o) ++ Frame_Replay sid (history ++ screen) truncated :: live ∧
      carries sid live bytes ∧
      history ++ bytes = last_n (length history + length bytes) (stream ++ bytes)
  else q_closed (queue_at qs2 o) = true.
Proof.
  destruct (hub_attach_sends now sid who o hub qs Hmax Hopen Hfree) as (_ & Hsent & _ & ->).
  rewrite Hlive. set (qs1 := (push _ _ qs).2) in *.
  destruct (attach_replay_true sid o (attach_hub now who hub) qs Hmax Hfree)
    as (history & screen & truncated & Hreplay & Htrue).
  match goal with |- context [hub_publish_all sid reads ?h qs1] => set (hub1 := h) end.
  assert (hub_ok hub1) as Hok1 by exact Hok.
  pose proof (hub_publish_all_delivered sid reads hub1 qs1 Hok1) as Hd.
  destruct (hub_publish_all sid reads hub1 qs1) as [hub2 qs2]. destruct Hd as ([_ Hk Hdr _] & _).
  case_bool_decide as Hin.
  - destruct (Hk _ Hin) as (live & Hl & Hc). simpl in Hl.
    exists history, screen, truncated, live. split_and!; [done| |done|].
    + rewrite Hl, Hsent, Hreplay, <- app_assoc. done.
    + destruct Htrue as (Hh & _). destruct Hring as (_ & Hb & _). simpl in Hh.
      set (bytes := concat _). rewrite Hh at 1. rewrite Hb.
      assert (length history ≤ length (ring_bytes (hub_ring hub)))%nat as Hlen
        by (rewrite Hh, length_last_n; lia).
      rewrite Hb, length_last_n in Hlen. unfold last_n.
      rewrite !length_app, !length_drop, drop_drop, drop_app.
      rewrite <- (drop_0 bytes) at 1. f_equal; f_equal; lia.
  - apply (Hdr (who, o)); [|done]. unfold hub1. simpl. apply elem_of_app. right. left.
Qed.

(** A session's ending reaches everyone: publishing it closes or notifies every
    attached connection, and any later attach with room is sent its replay and then
    the ending, and is not left waiting on a dead stream. *)
Theorem ending_reaches_late_attachers (now : Z) (sid : SessionId) (who : SubscriberId)
    (o : Outbound) (hub : OutputHub G) (qs : queues) (ending : Frame)
    (Hok : hub_ok hub) (Hsmall : frame_bytes ending = OVERHEAD) :
  let '(hub1, qs1) := hub_publish_event ending hub qs in
  (∀ s, s ∈ hub_subscribers hub →
     if bool_decide (s ∈ hub_subscribers hub1)
     then q_frames (queue_at qs1 s.2) = q_frames (queue_at qs s.2) ++ [ending]
     else q_closed (queue_at qs1 s.2) = true) ∧
  ∀ qs2, 0 ≤ ob_max_bytes o → is_closed o qs2 = false →
    ATTACH_RESERVE_BYTES ≤ free_bytes o qs2 →
    let '(hub2, qs3) := hub_attach now sid who o hub1 qs2 in
    ∃ history screen truncated,
      replay_of (attach_hub now who hub1) history screen truncated ∧
      q_frames (queue_at qs3 o) =
        q_frames (queue_at qs2 o) ++ [Frame_Replay sid (history ++ screen) truncated; ending] ∧
      ∀ s, s ∈ hub_subscribers hub2 → s.1 ≠ who.
Proof.
  unfold hub_publish_event.
  destruct (retain_local (λ q : queues, q) (push_step ending) (push_to ending)
              (λ s q, push_acts ending s.2 q) (hub_subscribers hub) qs Hok) as (Hf & Hq & _).
  destruct (retain_st (push_to ending) (hub_subscribers hub) qs) as [subs qs1].
  simpl in Hf, Hq. set (hub1 := mkHub _ _ _ _). split.
  - intros s Hs. rewrite Hq by done. pose proof (push_step_result ending s.2 (queue_at qs s.2)) as Hr.
    simpl. rewrite Hf. destruct (push_step ending s.2 (queue_at qs s.2)) as [[] q] eqn:Hp.
    + rewrite bool_decide_eq_true_2; [done|]. apply elem_of_filter_bool. by rewrite Hp.
    + rewrite bool_decide_eq_false_2; [done|]. rewrite elem_of_filter_bool, Hp. by intros [_ ?].
  - intros qs2 Hmax Hopen Hfree.
    destruct (hub_attach_sends now sid who o hub1 qs2 Hmax Hopen Hfree) as (Hroom & Hsent & Hc & ->).
    simpl. destruct (attach_replay_true sid o (attach_hub now who hub1) qs2 Hmax Hfree)
      as (history & screen & truncated & Hreplay & Htrue).
    exists history, screen, truncated. rewrite <- Hsmall in Hroom.
    destruct (push_open o ending _ Hc Hroom) as [_ ->]. split_and!; [done| |].
    + simpl. by rewrite Hsent, Hreplay, <- app_assoc.
    + intros s. unfold attach_hub. simpl. rewrite elem_of_filter_bool. unfold other_than.
      intros [_ Hw] Heq. by rewrite Heq, N.eqb_refl in Hw.
Qed.
End OutputHub.

(** ** A concrete screen for the witnesses

    It splices after every line feed and paints one byte. *)
Definition line_feed (data : list Z) : option nat := S <$> position (λ b, b =? 10) data.

Lemma position_lt {A} (p : A → bool) l n : position p l = Some n → (n < length l)%nat.
Proof.
  revert n. induction l as [|x l IH]; simpl; intros n Hn; [done|].
  destruct (p x); simplify_eq/=; [lia|].
  destruct (position p l) as [m|] eqn:Hp; simplify_eq/=. specialize (IH m eq_refl). lia.
Qed.

Lemma line_feed_progress (now : Z) data (g : bool) n :
  (line_feed data, g).1 = Some n → (0 < n ≤ length data)%nat.
Proof.
  unfold line_feed. simpl. intros (m & Hm & ->)%fmap_Some. apply position_lt in Hm. lia.
Qed.

Definition line_grid : ScreenGrid bool := {|
  grid_new _ _ := false;
  grid_resize _ _ g := g;
  feed_until_primary _ data g := (line_feed data, g);
  grid_repaint _ := [42];
  flush_expired_sync _ g := g;
  take_pending_repair g := (g, false);
  defer_repair _ := true;
  feed_progress := line_feed_progress
|}.

Definition sample_outbound (id : N) : Outbound := mkOutbound id 200000.
Definition sample_queues : queues := {[ 1%N := mkQueue [] 0 false; 2%N := mkQueue [] 0 false ]}.
Definition sample_hub : OutputHub bool :=
  mkHub (ring_new 4) (Some false) None [(7%N, sample_outbound 1)].

Lemma sample_hub_ok : hub_ok sample_hub.
Proof. unfold hub_ok, hub_ids, queue_ids, sample_hub. simpl. apply NoDup_singleton. Qed.

Lemma publish_is_lossless_witness :
  let r := @hub_publish bool line_grid (λ _, 0) "s" [1; 10; 2; 10; 3] sample_hub sample_queues in
  q_frames (queue_at r.2 (sample_outbound 1)) =
    [Frame_Output "s" [1; 10; 42]; Frame_Output "s" [2; 10]; Frame_Output "s" [3]] ∧
  hub_grid r.1 = Some true ∧ @hub_ok bool r.1.
Proof.
  split; [vm_compute; reflexivity|]. split; [vm_compute; reflexivity|].
  pose proof (@publish_is_lossless bool line_grid (λ _, 0) "s" [1; 10; 2; 10; 3] sample_hub
                sample_queues sample_hub_ok) as Hp.
  destruct (hub_publish _ _ _ _ _) as [hub' qs']. apply Hp.
Defined.

Lemma attach_then_stream_is_contiguous_witness :
  let r := @hub_attach bool line_grid 0 "s" 9%N (sample_outbound 2) sample_hub sample_queues in
  let t := @hub_publish_all bool line_grid "s" [(λ _, 0, [5; 6])] r.1 r.2 in
  (9%N, sample_outbound 2) ∈ hub_subscribers t.1 ∧
  ∃ history screen truncated live,
    q_frames (queue_at t.2 (sample_outbound 2)) =
      Frame_Replay "s" (history ++ screen) truncated :: live ∧
    @carries bool line_grid "s" live [5; 6].
Proof.
  cbv zeta.
  pose proof (@attach_then_stream_is_contiguous bool line_grid 0 "s" 9%N (sample_outbound 2)
    sample_hub sample_queues [] [(λ _, 0, [5; 6])] ltac:(vm_compute; discriminate)
    ltac:(vm_compute; reflexivity) ltac:(vm_compute; discriminate) ltac:(reflexivity)
    ltac:(unfold hub_ok, hub_ids, queue_ids; simpl; repeat constructor; set_solver)
    (ring_new_holds 4)) as Hp.
  assert ((9%N, sample_outbound 2) ∈ hub_subscribers
    (@hub_publish_all bool line_grid "s" [(λ _, 0, [5; 6])]
      (@hub_attach bool line_grid 0 "s" 9%N (sample_outbound 2) sample_hub sample_queues).1
      (@hub_attach bool line_grid 0 "s" 9%N (sample_outbound 2) sample_hub sample_queues).2).1) as Hin
    by (refine (proj1 (bool_decide_eq_true _) _); vm_compute; reflexivity).
  split; [exact Hin|].
  destruct (hub_attach _ _ _ _ _ _) as [hub1 qs1]. cbn [fst snd] in Hp, Hin |- *.
  destruct (hub_publish_all _ _ hub1 qs1) as [hub2 qs2]. cbn [fst snd] in Hp, Hin |- *.
  rewrite bool_decide_eq_true_2 in Hp by exact Hin.
  destruct Hp as (history & screen & truncated & live & _ & Hf & Hc & _).
  exists history, screen, truncated, live. split; [exact Hf|exact Hc].
Defined.

Lemma ending_reaches_late_attachers_witness :
  let r := @hub_publish_event bool (Frame_Exited "s" None) sample_hub sample_queues in
  q_frames (queue_at r.2 (sample_outbound 1)) = [Frame_Exited "s" None].
Proof.
  pose proof (@ending_reaches_late_attachers bool line_grid 0 "s" 9%N (sample_outbound 2)
    sample_hub sample_queues (Frame_Exited "s" None) sample_hub_ok ltac:(reflexivity)) as Hp.
  simpl in Hp. destruct Hp as [Hp _]. exact (Hp (7%N, sample_outbound 1) ltac:(left)).
Defined.
