(* ===== verification/Ledger.v ===== *)
(** * The ledger: [sessions.json] and the instance id

    [crates/ade_session_daemon/src/state.rs]. What [serde_json] makes of the
    file's bytes is an interface with a round-trip law; everything the store
    decides from it is a definition. The second half is [write_atomic] step by
    step against a disk that may lose what was not synced. *)

From S2P Require Import Prelude Text Layout Proto.
From stdpp Require Import options.
From Stdlib Require Import Ascii.
Open Scope Z_scope.

(** ** Records *)

Definition STATE_VERSION : Z := 1.

Record PersistedSession : Type := mkPersisted {
  ps_id : SessionId;
  ps_workspace_id : string;
  ps_agent_kind : string;
  ps_instance_label : string;
  ps_cwd : string;
  ps_created_at : Z
}.

#[export] Instance PersistedSession_eq_dec : EqDecision PersistedSession.
Proof. solve_decision. Defined.

Definition from_info (info : SessionInfo) : PersistedSession :=
  mkPersisted (si_id info) (si_workspace_id info) (si_agent_kind info) (si_instance_label info)
    (si_cwd info) (si_created_at info).

Record StateFile : Type := mkStateFile {
  sf_version : Z;
  sf_sessions : list PersistedSession;
  sf_workspaces : list WorkspaceInfo
}.

#[export] Instance StateFile_eq_dec : EqDecision StateFile.
Proof. solve_decision. Defined.

Record PersistedState : Type := mkPersistedState {
  pst_sessions : list PersistedSession;
  pst_workspaces : list WorkspaceInfo;
  pst_authoritative : bool
}.

Definition persisted_default : PersistedState := mkPersistedState [] [] true.

(** What JSON can carry of a layout: finite ratios, indices and versions of their
    width, and no more nesting than [serde_json]'s default limit of 128 levels
    leaves below [sessions.json]'s own four. *)
Definition finite_f32 (r : f32) : bool :=
  (0 <=? f32_bits r) && (f32_bits r <=? u32_max) &&
  negb (Z.land (Z.shiftr (f32_bits r) 23) 255 =? 255).

Fixpoint node_ok (n : LayoutNode) : bool :=
  match n with
  | Leaf _ active _ => (0 <=? active) && (active <=? u64_max)
  | Split _ ratio a b => finite_f32 ratio && node_ok a && node_ok b
  end.

Fixpoint node_nesting (n : LayoutNode) : Z :=
  match n with
  | Leaf _ _ _ => 3
  | Split _ _ a b => 2 + Z.max (node_nesting a) (node_nesting b)
  end.

Definition u64_ok (z : Z) : bool := (0 <=? z) && (z <=? u64_max).

Definition workspace_ok (i : WorkspaceInfo) : bool :=
  u64_ok (wi_created_at i) && u64_ok (wi_layout_rev i) && u64_ok (wi_project_scope_rev i) &&
  (0 <=? schema_version (wi_layout i)) && (schema_version (wi_layout i) <=? u32_max) &&
  node_ok (root (wi_layout i)) && (4 + node_nesting (root (wi_layout i)) <=? 127).

Definition file_ok (f : StateFile) : bool :=
  (0 <=? sf_version f) && (sf_version f <=? u32_max) &&
  forallb (λ p, u64_ok (ps_created_at p)) (sf_sessions f) &&
  forallb workspace_ok (sf_workspaces f).

(** [serde_json] on a [StateFile]: parsing gives back what rendering wrote. *)
Class StateCodec : Type := {
  parse_state : string → option StateFile;
  render_state : StateFile → string;
  parse_render : ∀ f, file_ok f = true → parse_state (render_state f) = Some f;
  parse_ok : ∀ bytes f, parse_state bytes = Some f →
    Forall (λ i, 0 ≤ wi_layout_rev i ≤ u64_max ∧ 0 ≤ wi_project_scope_rev i ≤ u64_max)
      (sf_workspaces f)
}.

(** What [fs::read] finds at the ledger's path. *)
Inductive ledger_file : Type :=
| Absent
| Unreadable
| Contents (bytes : string).

#[export] Instance ledger_file_eq_dec : EqDecision ledger_file.
Proof. solve_decision. Defined.

Record StateStore : Type := mkStore {
  sto_file : ledger_file;
  sto_degraded : bool;
  sto_unreadable : bool
}.

Definition store_new (file : ledger_file) : StateStore := mkStore file false false.

Definition read_only (s : StateStore) : bool := sto_degraded s || sto_unreadable s.

Definition degrade (s : StateStore) : StateStore := mkStore (sto_file s) true (sto_unreadable s).
Definition mark_unreadable (s : StateStore) : StateStore := mkStore (sto_file s) (sto_degraded s) true.

(** ** Digging the version out of a file that does not parse *)

Definition in_range (lo hi : N) (c : ascii) : bool :=
  ((lo <=? N_of_ascii c) && (N_of_ascii c <=? hi))%N.

(** The length of the UTF-8 sequence at the front of [l], or [None]. *)
Definition utf8_step (l : list ascii) : option nat :=
  match l with
  | [] => None
  | a :: l =>
      if in_range 0 127 a then Some 1%nat
      else match l with
      | b :: l =>
          if in_range 194 223 a && is_continuation b then Some 2%nat
          else match l with
          | c :: l =>
              if is_continuation c &&
                 (in_range 224 224 a && in_range 160 191 b
                  || (in_range 225 236 a || in_range 238 239 a) && is_continuation b
                  || in_range 237 237 a && in_range 128 159 b) then Some 3%nat
              else match l with
              | d :: _ =>
                  if is_continuation c && is_continuation d &&
                     (in_range 240 240 a && in_range 144 191 b
                      || in_range 241 243 a && is_continuation b
                      || in_range 244 244 a && in_range 128 143 b) then Some 4%nat
                  else None
              | [] => None
              end
          | [] => None
          end
      | [] => None
      end
  end.

(** [std::str::from_utf8(..).is_ok()]; each turn drops at least a byte. *)
Fixpoint utf8_valid_fuel (fuel : nat) (l : list ascii) : bool :=
  match l, fuel with
  | [], _ => true
  | _, O => false
  | _, S fuel => match utf8_step l with
                 | Some n => utf8_valid_fuel fuel (drop n l)
                 | None => false
                 end
  end.

Definition utf8_valid (s : string) : bool :=
  utf8_valid_fuel (String.length s) (to_bytes s).

Definition version_key : string := of_bytes ([byte 34] ++ to_bytes "version" ++ [byte 34]).

(** [str::split_once(pat)]'s second half. *)
Fixpoint after_first (pat l : list ascii) : option (list ascii) :=
  match strip_prefix pat l with
  | Some rest => Some rest
  | None => match l with [] => None | _ :: l => after_first pat l end
  end.

Fixpoint take_digits (l : list ascii) : list ascii :=
  match l with
  | c :: l => if is_ascii_digit c then c :: take_digits l else []
  | [] => []
  end.

Definition sniff_version (bytes : string) : option Z :=
  if utf8_valid bytes then
    after_key ← after_first (to_bytes version_key) (to_bytes bytes);
    after_colon ← strip_prefix [":"%char] (trim_start_bytes after_key);
    parse_unsigned u32_max (of_bytes (take_digits (trim_start_bytes after_colon)))
  else None.

(** ** Load and save *)

Section Store.
Context `{StateCodec}.

Definition store_load (s : StateStore) : PersistedState * StateStore :=
  match sto_file s with
  | Absent => (persisted_default, s)
  | Unreadable => (mkPersistedState [] [] false, mark_unreadable s)
  | Contents bytes =>
      match parse_state bytes with
      | Some f =>
          (mkPersistedState (sf_sessions f) (sf_workspaces f) true,
           if STATE_VERSION <? sf_version f then degrade s else s)
      | None =>
          (mkPersistedState [] [] false,
           match sniff_version bytes with
           | Some version => if STATE_VERSION <? version then degrade s else mark_unreadable s
           | None => mark_unreadable s
           end)
      end
  end.

(** [StateStore::save]. [dir] and [write] are what [create_private_dir] and
    [write_atomic] answered: [Some] is an error. A write that fails leaves the old
    file ([write_atomic_result]). *)
Definition store_save (dir write : option string) (sessions : list PersistedSession)
    (workspaces : list WorkspaceInfo) (s : StateStore) : result string () * StateStore :=
  if read_only s then (Ok (), s)
  else match dir, write with
       | Some err, _ | None, Some err => (Err err, s)
       | None, None =>
           (Ok (), mkStore (Contents (render_state (mkStateFile STATE_VERSION sessions workspaces)))
                     (sto_degraded s) (sto_unreadable s))
       end.

Lemma store_save_file dir write sessions workspaces s :
  (store_save dir write sessions workspaces s).1 = Ok () →
  read_only s = false →
  sto_file (store_save dir write sessions workspaces s).2 =
    Contents (render_state (mkStateFile STATE_VERSION sessions workspaces)).
Proof. unfold store_save. intros Hok Hr. rewrite Hr in *. by destruct dir, write. Qed.

Lemma store_save_flags dir write sessions workspaces s :
  read_only (store_save dir write sessions workspaces s).2 = read_only s.
Proof. unfold store_save. destruct (read_only s) eqn:Hr; [exact Hr|]. by destruct dir, write. Qed.

Lemma store_save_err dir write sessions workspaces s e :
  (store_save dir write sessions workspaces s).1 = Err e →
  (store_save dir write sessions workspaces s).2 = s ∧ read_only s = false.
Proof. unfold store_save. destruct (read_only s); [done|]. by destruct dir, write. Qed.
End Store.

(** [StateStore::instance_id]: [recorded] is what [instance.id] reads as,
    [minted] a fresh uuid, [writable] whether the minted one could be written.
    Answers the id and the file afterwards. *)
Definition instance_id (recorded : option string) (minted : string) (writable : bool) :
    string * option string :=
  match recorded with
  | Some text =>
      if decide (trim text = "") then
        (minted, if writable then Some (minted +:+ String LF "") else recorded)
      else (trim text, recorded)
  | None => (minted, if writable then Some (minted +:+ String LF "") else recorded)
  end.

(** [StateStore::read_pid]. *)
Definition read_pid (file : option string) : option Z :=
  text ← file; parse_unsigned u32_max (trim text).
