(* ===== verification/Durable.v ===== *)
(** * Atomic and durable replacement of a file

    [write_atomic] of [crates/ade_session_daemon/src/state.rs], step by step on a
    disk that loses what was not synced: file data reaches it only at [sync_all],
    and directory changes reach it in order but at any later time, or at once when
    the directory is synced. *)

From S2P Require Import Prelude Text.
From stdpp Require Import options.

(** ** The disk *)

Inductive meta : Type :=
| MLink (name : string) (inode : N)
| MRename (from to : string)
| MUnlink (name : string).

Definition apply_meta (names : gmap string N) (op : meta) : gmap string N :=
  match op with
  | MLink name inode => <[name := inode]> names
  | MRename from to =>
      match names !! from with
      | Some inode => <[to := inode]> (delete from names)
      | None => names
      end
  | MUnlink name => delete name names
  end.

Record disk : Type := mkDisk {
  d_names : gmap string N;      (* the directory as it is durably *)
  d_journal : list meta;        (* changes made since, not yet durable *)
  d_data : gmap N string;       (* file contents as the process sees them *)
  d_synced : gset N             (* inodes whose contents are durable *)
}.

Definition live_names (d : disk) : gmap string N := foldl apply_meta (d_names d) (d_journal d).

(** What a process reads. *)
Definition live_read (d : disk) (name : string) : option string :=
  i ← live_names d !! name; d_data d !! i.

(** What may be found after a crash: some prefix of the directory changes has
    reached the disk, and a file whose data was not synced holds anything. *)
Definition crash_reads (d : disk) (name : string) (v : option string) : Prop :=
  ∃ k, match foldl apply_meta (d_names d) (take k (d_journal d)) !! name with
       | None => v = None
       | Some i => if decide (i ∈ d_synced d) then v = d_data d !! i else is_Some v
       end.

(** ** Operations *)

Definition log_meta (op : meta) (d : disk) : disk :=
  mkDisk (d_names d) (d_journal d ++ [op]) (d_data d) (d_synced d).

(** [File::create]: an existing file is truncated in place, a new one takes the
    inode [new]. *)
Definition create_inode (name : string) (new : N) (d : disk) : N :=
  default new (live_names d !! name).

Definition create_file (name : string) (new : N) (d : disk) : disk :=
  let i := create_inode name new d in
  let d := mkDisk (d_names d) (d_journal d) (<[i := ""]> (d_data d)) (d_synced d ∖ {[i]}) in
  match live_names d !! name with Some _ => d | None => log_meta (MLink name i) d end.

Definition write_data (i : N) (bytes : string) (d : disk) : disk :=
  mkDisk (d_names d) (d_journal d) (<[i := bytes]> (d_data d)) (d_synced d ∖ {[i]}).

Definition sync_data (i : N) (d : disk) : disk :=
  mkDisk (d_names d) (d_journal d) (d_data d) (d_synced d ∪ {[i]}).

Definition sync_dir (d : disk) : disk := mkDisk (live_names d) [] (d_data d) (d_synced d).

(** What each system call answers: [Some] is an error, and a failed write leaves
    some part of the bytes behind. *)
Record faults : Type := mkFaults {
  f_create : option string;
  f_write : option (string * string);
  f_sync : option string;
  f_rename : option string;
  f_dir : option string
}.

(** [write_atomic]: its answer and the disk after every step, last first. *)
Definition write_atomic (f : faults) (path temp : string) (new : N) (bytes : string) (d : disk) :
    result string () * list disk :=
  let i := create_inode temp new d in
  match f_create f with
  | Some err => (Err err, [log_meta (MUnlink temp) d; d])
  | None =>
  let d1 := create_file temp new d in
  match f_write f with
  | Some (part, err) =>
      let d2 := write_data i part d1 in (Err err, [log_meta (MUnlink temp) d2; d2; d1; d])
  | None =>
  let d2 := write_data i bytes d1 in
  match f_sync f with
  | Some err => (Err err, [log_meta (MUnlink temp) d2; d2; d1; d])
  | None =>
  let d3 := sync_data i d2 in
  match f_rename f with
  | Some err => (Err err, [log_meta (MUnlink temp) d3; d3; d2; d1; d])
  | None =>
  let d4 := log_meta (MRename temp path) d3 in
  match f_dir f with
  | Some _ => (Ok (), [d4; d3; d2; d1; d])
  | None => (Ok (), [sync_dir d4; d4; d3; d2; d1; d])
  end end end end end.

(** The disk a [write_atomic] leaves. *)
Definition write_result (f : faults) (path temp : string) (new : N) (bytes : string) (d : disk) : disk :=
  default d (head (write_atomic f path temp new bytes d).2).

(** ** Proofs *)

Lemma foldl_snoc_meta names j op :
  foldl apply_meta names (j ++ [op]) = apply_meta (foldl apply_meta names j) op.
Proof. by rewrite foldl_app. Qed.

Lemma live_log op d : live_names (log_meta op d) = apply_meta (live_names d) op.
Proof. apply foldl_snoc_meta. Qed.

(** A directory change that says nothing about [path]. *)
Definition silent (path : string) (op : meta) : Prop :=
  match op with
  | MLink name _ | MUnlink name => name ≠ path
  | MRename from to => from ≠ path ∧ to ≠ path
  end.

Lemma apply_silent path op names : silent path op → apply_meta names op !! path = names !! path.
Proof.
  destruct op; simpl; intros; [by rewrite lookup_insert_ne| |by rewrite lookup_delete_ne].
  case_match; [|done]. rewrite lookup_insert_ne, lookup_delete_ne; naive_solver.
Qed.

Section Safety.
Context (path temp : string) (new : N) (bytes : string) (d : disk).

Let i := create_inode temp new d.

(** A disk that still answers for [path] as [d] does. *)
Definition agrees (e : disk) : Prop :=
  ∃ ops, d_names e = d_names d ∧ d_journal e = d_journal d ++ ops ∧ Forall (silent path) ops ∧
    ∀ j, j ≠ i → d_data e !! j = d_data d !! j ∧ (j ∈ d_synced e ↔ j ∈ d_synced d).

Lemma agrees_refl : agrees d.
Proof. exists []. by rewrite app_nil_r. Qed.

Lemma agrees_log e op : silent path op → agrees e → agrees (log_meta op e).
Proof.
  intros Hs (ops & Hn & Hj & Hf & Hd). exists (ops ++ [op]). simpl.
  rewrite Hj, <- app_assoc. split_and!; [done|done| |done]. apply Forall_app. by repeat constructor.
Qed.

Lemma agrees_data e data synced :
  agrees e → (∀ j, j ≠ i → data !! j = d_data e !! j ∧ (j ∈ synced ↔ j ∈ d_synced e)) →
  agrees (mkDisk (d_names e) (d_journal e) data synced).
Proof.
  intros (ops & Hn & Hj & Hf & Hd) Hs. exists ops. split_and!; [done..|]. simpl.
  intros j Hji. destruct (Hs j Hji) as [-> Hiff], (Hd j Hji) as [-> Hiff2]. split; [done|].
  by rewrite Hiff.
Qed.

Lemma agrees_write e s : agrees e → agrees (write_data i s e).
Proof.
  intros He. apply agrees_data; [done|]. intros j Hji. rewrite lookup_insert_ne by done.
  split; [done|]. set_solver.
Qed.

Lemma agrees_sync e : agrees e → agrees (sync_data i e).
Proof. intros He. apply agrees_data; [done|]. intros j Hji. split; [done|]. set_solver. Qed.

Lemma agrees_create : temp ≠ path → agrees (create_file temp new d).
Proof.
  intros Hne. unfold create_file. fold i.
  assert (agrees (mkDisk (d_names d) (d_journal d) (<[i := ""]> (d_data d)) (d_synced d ∖ {[i]}))).
  { apply agrees_data; [apply agrees_refl|]. intros j Hji. rewrite lookup_insert_ne by done.
    split; [done|]. set_solver. }
  case_match; [done|]. by apply agrees_log.
Qed.

Lemma silent_prefix names j ops k :
  Forall (silent path) ops →
  foldl apply_meta names (take k (j ++ ops)) !! path =
    foldl apply_meta names (take k j) !! path.
Proof.
  intros Hf. rewrite take_app, foldl_app. set (m := foldl apply_meta names (take k j)).
  assert (Forall (silent path) (take (k - length j) ops)) as Ht by by apply Forall_take.
  induction (take (k - length j) ops) as [|op l IH] using rev_ind; [done|].
  apply Forall_app in Ht as [Hl Ho]. inversion Ho. rewrite foldl_snoc_meta, apply_silent; auto.
Qed.

Lemma create_links : live_names (create_file temp new d) !! temp = Some i.
Proof.
  unfold create_file, i, create_inode.
  change (live_names (mkDisk (d_names d) (d_journal d) _ _)) with (live_names d).
  destruct (live_names d !! temp) as [j|] eqn:Hj; simpl.
  - exact Hj.
  - rewrite live_log. simpl. apply lookup_insert_eq.
Qed.
(** The inode written to is not one [path] may name: a file left behind under
    the temporary name is not shared, and a new inode is new. *)
Context (Hne : temp ≠ path) (Hprivate : ∀ k, foldl apply_meta (d_names d) (take k (d_journal d)) !! path ≠ Some i).

Lemma agrees_crash e v : agrees e → crash_reads e path v → crash_reads d path v.
Proof using Hprivate.
  intros (ops & Hn & Hj & Hf & Hd) [k Hk]. exists k. rewrite Hn, Hj, silent_prefix in Hk by done.
  pose proof (Hprivate k) as Hp. destruct (foldl _ _ _ !! path) as [j|]; [|done].
  destruct (Hd j ltac:(congruence)) as [-> Hiff] in Hk.
  repeat case_decide; tauto.
Qed.

Lemma agrees_read e : agrees e → live_read e path = live_read d path.
Proof using Hprivate.
  intros (ops & Hn & Hj & Hf & Hd). unfold live_read, live_names. rewrite Hn, Hj.
  pose proof (silent_prefix (d_names d) (d_journal d) ops (length (d_journal d ++ ops)) Hf) as Hs.
  rewrite !take_ge in Hs by (rewrite ?length_app; lia). rewrite Hs. clear Hs.
  pose proof (Hprivate (length (d_journal d))) as Hp. rewrite take_ge in Hp by lia.
  destruct (foldl _ _ _ !! path) as [j|]; simpl; [|done]. apply Hd. congruence.
Qed.

(** With the new data synced under the temporary name, the rename makes [path]
    read as the new bytes or as it did. *)
Lemma renamed_crash e v :
  agrees e → live_names e !! temp = Some i → i ∈ d_synced e → d_data e !! i = Some bytes →
  crash_reads (log_meta (MRename temp path) e) path v →
  crash_reads d path v ∨ v = Some bytes.
Proof using Hprivate Hne.
  intros He Ht Hs Hb [k Hk]. simpl in Hk.
  destruct (decide (k ≤ length (d_journal e))) as [Hle|Hgt].
  - left. apply (agrees_crash e); [done|]. exists k. by rewrite take_app_le in Hk.
  - right. rewrite take_ge in Hk by (rewrite length_app; simpl; lia).
    rewrite foldl_snoc_meta in Hk. fold (live_names e) in Hk. simpl in Hk.
    rewrite Ht, lookup_insert_eq, decide_True in Hk by done. congruence.
Qed.

End Safety.

(** ** Property *)

(** C38. Whatever fails and whenever the machine stops, the ledger is the whole old
    file or the whole new one: at every step of [write_atomic] a crash finds under
    [path] what it could have found before the write began, or exactly the new
    bytes. An [Ok] means the path reads as the new bytes, and, once the directory
    is synced, still does after a crash; an [Err] means it reads as before. *)
Theorem write_atomic_is_atomic (f : faults) (path temp : string) (new : N) (bytes : string)
    (d : disk) (Hne : temp ≠ path)
    (Hprivate : ∀ k, foldl apply_meta (d_names d) (take k (d_journal d)) !! path
                      ≠ Some (create_inode temp new d)) :
  let '(r, states) := write_atomic f path temp new bytes d in
  let final := write_result f path temp new bytes d in
  (∀ e v, e ∈ states → crash_reads e path v → crash_reads d path v ∨ v = Some bytes) ∧
  match r with
  | Ok _ => live_read final path = Some bytes ∧
            (f_dir f = None → ∀ v, crash_reads final path v → v = Some bytes)
  | Err _ => live_read final path = live_read d path
  end.
Proof.
  set (i := create_inode temp new d) in *.
  pose proof (agrees_refl path temp new d) as A0.
  pose proof (agrees_create path temp new d Hne) as A1.
  pose proof (λ s, agrees_write path temp new d _ s A1) as A2. fold i in A2.
  pose proof (agrees_sync path temp new d _ (A2 bytes)) as A3. fold i in A3.
  pose proof (create_links temp new d) as Ht. fold i in Ht.
  set (d1 := create_file temp new d) in *. set (d3 := sync_data i (write_data i bytes d1)) in *.
  assert (∀ e, agrees path temp new d e → ∀ v, crash_reads e path v → crash_reads d path v) as Hcrash
    by (intros e He v; by apply (agrees_crash path temp new d Hprivate)).
  assert (∀ e, agrees path temp new d e → agrees path temp new d (log_meta (MUnlink temp) e)) as Hun
    by (intros e He; by apply agrees_log).
  pose proof (agrees_read path temp new d Hprivate) as Hread.
  assert (d_data d3 !! i = Some bytes) as Hb by apply lookup_insert_eq.
  assert (i ∈ d_synced d3) as Hs by (simpl; set_solver).
  assert (∀ v, crash_reads (log_meta (MRename temp path) d3) path v →
               crash_reads d path v ∨ v = Some bytes) as Hren
    by (intros v; by apply (renamed_crash path temp new bytes d Hne Hprivate d3)).
  assert (live_names (log_meta (MRename temp path) d3) !! path = Some i) as Hlive.
  { rewrite live_log. simpl. change (live_names d3) with (live_names d1). rewrite Ht.
    apply lookup_insert_eq. }
  unfold write_result, write_atomic. fold i d1. fold d3.
  destruct (f_create f) as [err|]; [|destruct (f_write f) as [[part err]|];
    [|destruct (f_sync f) as [err|]; [|destruct (f_rename f) as [err|];
    [|destruct (f_dir f) as [err|]]]]]; simpl; (split; [intros e v He Hv|]).
  all: try (repeat (apply elem_of_cons in He as [->|He]; [eauto|]); by inversion He).
  all: try (apply Hread; by auto).
  - split; [|done]. unfold live_read. by rewrite Hlive.
  - apply elem_of_cons in He as [->|He].
    + right. destruct Hv as [k Hk]. simpl in Hk. rewrite take_nil in Hk. simpl in Hk.
      rewrite Hlive, decide_True in Hk by done. rewrite Hk. exact Hb.
    + repeat (apply elem_of_cons in He as [->|He]; [eauto|]). by inversion He.
  - split.
    + unfold live_read. change (live_names (sync_dir _)) with
        (live_names (log_meta (MRename temp path) d3)). by rewrite Hlive.
    + intros _ v [k Hk]. simpl in Hk. rewrite take_nil in Hk. simpl in Hk.
      rewrite Hlive, decide_True in Hk by done. rewrite Hk. exact Hb.
Qed.

Lemma write_atomic_is_atomic_witness :
  let d := mkDisk {[ "sessions.json" := 1%N ]} [] {[ 1%N := "old" ]} {[ 1%N ]} in
  let f := mkFaults None None None None (Some "EINVAL") in
  live_read (write_result f "sessions.json" "sessions.json.tmp" 2 "new" d) "sessions.json"
    = Some "new" ∧
  ∀ v, crash_reads (write_result f "sessions.json" "sessions.json.tmp" 2 "new" d)
         "sessions.json" v → v = Some "old" ∨ v = Some "new".
Proof.
  set (d := mkDisk _ _ _ _). set (f := mkFaults _ _ _ _ _). cbv zeta.
  destruct (write_atomic_is_atomic f "sessions.json" "sessions.json.tmp" 2 "new" d) as [Hc Hr].
  - discriminate.
  - intros k. replace (take k (d_journal d)) with (@nil meta) by (destruct k; reflexivity). discriminate.
  - split; [exact (proj1 Hr)|]. intros v Hv.
    destruct (Hc (write_result f "sessions.json" "sessions.json.tmp" 2 "new" d) v) as [[k Hk]|Hn];
      [left|exact Hv| |right; exact Hn].
    left. replace (take k (d_journal d)) with (@nil meta) in Hk by (destruct k; reflexivity). exact Hk.
Defined.
