(* ===== verification/Wire.v ===== *)
(** * Frames as JSON values

    What serde makes of the attributes on the types of
    [crates/ade_session/src/proto.rs]: the internally tagged [Frame] with
    snake-case variant names, defaulted and skipped fields, nested records. A
    [serde_json::Value] object keeps insertion order ([preserve_order]). *)

From S2P Require Import Prelude Text Layout Proto Ledger.
From stdpp Require Import options.
From Stdlib Require Import Ascii.
Open Scope Z_scope.

(** ** Values *)

#[warnings="-register-all"]
Inductive json : Type :=
| JNull
| JBool (b : bool)
| JNumber (n : Z)
| JFloat (bits : Z)
| JString (s : string)
| JArray (l : list json)
| JObject (o : list (string * json)).

(** An [f32] in an [f64] number and back, as [serde_json] converts them. *)
Class Floats : Type := {
  f64_of_f32 : f32 → Z;
  f32_of_f64 : Z → f32;
  f32_of_int : Z → f32;
  f32_through_f64 : ∀ r, finite_f32 r = true → f32_of_f64 (f64_of_f32 r) = r
}.

(** ** Reading fields *)

Fixpoint jget (k : string) (o : list (string * json)) : option json :=
  match o with
  | [] => None
  | (k', v) :: o => if String.eqb k k' then Some v else jget k o
  end.

Definition as_string (v : json) : option string :=
  match v with JString s => Some s | _ => None end.
Definition as_bool (v : json) : option bool :=
  match v with JBool b => Some b | _ => None end.
Definition as_int (lo hi : Z) (v : json) : option Z :=
  match v with JNumber n => if (lo <=? n) && (n <=? hi) then Some n else None | _ => None end.
(** A derived record reads an object by name, or an array in declaration order. *)
Definition as_record (names : list string) (v : json) : option (list (string * json)) :=
  match v with
  | JObject o => Some o
  | JArray l => if (length l <=? length names)%nat then Some (zip names l) else None
  | _ => None
  end.
Definition as_list {A} (dec : json → option A) (v : json) : option (list A) :=
  match v with JArray l => mapM dec l | _ => None end.

Definition i32_min : Z := -2147483648.
Definition i32_top : Z := 2147483647.
Abbreviation as_u8 := (as_int 0 255).
Abbreviation as_u16 := (as_int 0 u16_max).
Abbreviation as_u32 := (as_int 0 u32_max).
Abbreviation as_u64 := (as_int 0 u64_max).
Abbreviation as_i32 := (as_int i32_min i32_top).

(** A required field, an [Option] field and a [#[serde(default)]] field. *)
Definition required {A} (dec : json → option A) (k : string) (o : list (string * json)) : option A :=
  v ← jget k o; dec v.
Definition optional {A} (dec : json → option A) (k : string) (o : list (string * json)) :
    option (option A) :=
  match jget k o with
  | None | Some JNull => Some None
  | Some v => Some <$> dec v
  end.
Definition defaulted {A} (d : A) (dec : json → option A) (k : string) (o : list (string * json)) :
    option A :=
  match jget k o with None => Some d | Some v => dec v end.

(** The tag of an internally tagged enum and the fields behind it; [names] are the
    field names of each variant. *)
Definition as_tagged (names : string → list string) (v : json) :
    option (string * list (string * json)) :=
  match v with
  | JObject o => tag ← required as_string "type" o; Some (tag, o)
  | JArray (JString tag :: l) => o ← as_record (names tag) (JArray l); Some (tag, o)
  | _ => None
  end.

(** ** Writing fields *)

(** [skip_serializing_if = "Option::is_none"] and the other two skips. *)
Definition put_some {A} (k : string) (enc : A → json) (o : option A) : list (string * json) :=
  match o with Some a => [(k, enc a)] | None => [] end.
Definition put_nonempty {A} (k : string) (enc : A → json) (l : list A) : list (string * json) :=
  match l with [] => [] | _ => [(k, JArray (map enc l))] end.
Definition put_unless_true (k : string) (b : bool) : list (string * json) :=
  if b then [] else [(k, JBool b)].

(** ** Layouts *)

Section Wire.
Context `{Floats}.

Definition dir_value (d : SplitDir) : json :=
  JString match d with Horizontal => "horizontal" | Vertical => "vertical" end.
Definition as_dir (v : json) : option SplitDir :=
  s ← as_string v;
  if String.eqb s "horizontal" then Some Horizontal
  else if String.eqb s "vertical" then Some Vertical else None.

Definition f32_value (r : f32) : json := if finite_f32 r then JFloat (f64_of_f32 r) else JNull.
Definition as_f32 (v : json) : option f32 :=
  match v with JFloat b => Some (f32_of_f64 b) | JNumber n => Some (f32_of_int n) | _ => None end.

Definition tab_value (t : Tab) : json :=
  match t with
  | Terminal s => JObject [("type", JString "Terminal"); ("session_id", JString s)]
  | Editor p => JObject [("type", JString "Editor"); ("path", JString p)]
  end.
Definition as_tab (v : json) : option Tab :=
  '(tag, o) ← as_tagged (λ tag, if String.eqb tag "Terminal" then ["session_id"] else ["path"]) v;
  if String.eqb tag "Terminal" then Terminal <$> required as_string "session_id" o
  else if String.eqb tag "Editor" then Editor <$> required as_string "path" o else None.

Fixpoint node_value (n : LayoutNode) : json :=
  match n with
  | Split dir ratio a b =>
      JObject [("type", JString "Split"); ("dir", dir_value dir); ("ratio", f32_value ratio);
               ("children", JArray [node_value a; node_value b])]
  | Leaf tabs active focused =>
      JObject [("type", JString "Leaf"); ("tabs", JArray (map tab_value tabs));
               ("active", JNumber active); ("focused", JBool focused)]
  end.

(** A value's nesting: enough fuel to read a layout node out of it. *)
Fixpoint json_depth (v : json) : nat :=
  match v with
  | JArray l => S (foldr (λ v n, json_depth v `max` n)%nat O l)
  | JObject o => S (foldr (λ kv n, json_depth kv.2 `max` n)%nat O o)
  | _ => 1
  end.

Definition node_names (tag : string) : list string :=
  if String.eqb tag "Split" then ["dir"; "ratio"; "children"] else ["tabs"; "active"; "focused"].

Fixpoint as_node_fuel (fuel : nat) (v : json) : option LayoutNode :=
  match fuel with
  | O => None
  | S fuel =>
      '(tag, o) ← as_tagged node_names v;
      if String.eqb tag "Split" then
        dir ← required as_dir "dir" o;
        ratio ← required as_f32 "ratio" o;
        children ← required (as_list (as_node_fuel fuel)) "children" o;
        match children with [a; b] => Some (Split dir ratio a b) | _ => None end
      else if String.eqb tag "Leaf" then
        tabs ← required (as_list as_tab) "tabs" o;
        active ← defaulted 0 as_u64 "active" o;
        focused ← defaulted false as_bool "focused" o;
        Some (Leaf tabs active focused)
      else None
  end.

Definition as_node (v : json) : option LayoutNode := as_node_fuel (json_depth v) v.

Definition doc_value (d : LayoutDoc) : json :=
  JObject [("schema_version", JNumber (schema_version d)); ("root", node_value (root d))].
Definition as_doc (v : json) : option LayoutDoc :=
  o ← as_record ["schema_version"; "root"] v;
  version ← defaulted LAYOUT_SCHEMA_VERSION as_u32 "schema_version" o;
  root ← required as_node "root" o;
  Some (mkLayoutDoc version root).

(** ** Records *)

Definition status_value (s : SessionStatus) : json :=
  JString match s with
          | Working => "working" | NeedsInput => "needs_input" | Idle => "idle" | Exited => "exited"
          end.
Definition as_status (v : json) : option SessionStatus :=
  s ← as_string v;
  if String.eqb s "working" then Some Working
  else if String.eqb s "needs_input" then Some NeedsInput
  else if String.eqb s "idle" then Some Idle
  else if String.eqb s "exited" then Some Exited else None.

Definition info_value (i : SessionInfo) : json :=
  JObject [("id", JString (si_id i)); ("workspace_id", JString (si_workspace_id i));
           ("agent_kind", JString (si_agent_kind i));
           ("instance_label", JString (si_instance_label i)); ("cwd", JString (si_cwd i));
           ("created_at", JNumber (si_created_at i)); ("status", status_value (si_status i))].
Definition as_info (v : json) : option SessionInfo :=
  o ← as_record ["id"; "workspace_id"; "agent_kind"; "instance_label"; "cwd"; "created_at"; "status"] v;
  id ← required as_string "id" o;
  workspace_id ← required as_string "workspace_id" o;
  agent_kind ← required as_string "agent_kind" o;
  instance_label ← required as_string "instance_label" o;
  cwd ← required as_string "cwd" o;
  created_at ← required as_u64 "created_at" o;
  status ← required as_status "status" o;
  Some (mkSessionInfo id workspace_id agent_kind instance_label cwd created_at status).

Definition workspace_value (i : WorkspaceInfo) : json :=
  JObject ([("id", JString (wi_id i)); ("name", JString (wi_name i))] ++
    put_some "project_id" JString (wi_project_id i) ++
    put_some "project_identity" JString (wi_project_identity i) ++
    [("project_root", JString (wi_project_root i));
     ("project_scope_rev", JNumber (wi_project_scope_rev i));
     ("created_at", JNumber (wi_created_at i)); ("layout_rev", JNumber (wi_layout_rev i));
     ("layout", doc_value (wi_layout i))]).
Definition as_workspace (v : json) : option WorkspaceInfo :=
  o ← as_record ["id"; "name"; "project_id"; "project_identity"; "project_root";
                 "project_scope_rev"; "created_at"; "layout_rev"; "layout"] v;
  id ← required as_string "id" o;
  name ← required as_string "name" o;
  project_id ← optional as_string "project_id" o;
  project_identity ← optional as_string "project_identity" o;
  project_root ← required as_string "project_root" o;
  project_scope_rev ← defaulted 0 as_u64 "project_scope_rev" o;
  created_at ← required as_u64 "created_at" o;
  layout_rev ← required as_u64 "layout_rev" o;
  layout ← required as_doc "layout" o;
  Some (mkWorkspaceInfo id name project_id project_identity project_root project_scope_rev
          created_at layout_rev layout).

Definition pair_value (p : string * string) : json := JArray [JString p.1; JString p.2].
Definition as_pair (v : json) : option (string * string) :=
  match v with JArray [a; b] => x ← as_string a; y ← as_string b; Some (x, y) | _ => None end.

Definition bytes_value (l : list Z) : json := JArray (map JNumber l).

(** ** What the value carries is read back *)

Definition doc_ok (d : LayoutDoc) : bool :=
  (0 <=? schema_version d) && (schema_version d <=? u32_max) && node_ok (root d).

Lemma as_int_number lo hi n : (lo <=? n) && (n <=? hi) = true → as_int lo hi (JNumber n) = Some n.
Proof. unfold as_int. by intros ->. Qed.

Lemma as_list_map {A} (dec : json → option A) (enc : A → json) l :
  (∀ x, x ∈ l → dec (enc x) = Some x) → as_list dec (JArray (map enc l)) = Some l.
Proof.
  intros Hd. simpl. induction l as [|x l IH]; simpl; [done|].
  rewrite (Hd x) by left. simpl. rewrite IH; [done|]. intros y Hy. apply Hd. by right.
Qed.

Lemma as_list_checked {A} (ok : A → bool) (dec : json → option A) (enc : A → json) l :
  (∀ x, ok x = true → dec (enc x) = Some x) → forallb ok l = true →
  as_list dec (JArray (map enc l)) = Some l.
Proof.
  intros Hd Hl. apply as_list_map. intros x Hx. apply Hd.
  rewrite forallb_forall in Hl. by apply Hl, list_elem_of_In.
Qed.

Lemma as_string_list l : as_list as_string (JArray (map JString l)) = Some l.
Proof. by apply as_list_map. Qed.

Lemma as_pair_list l : as_list as_pair (JArray (map pair_value l)) = Some l.
Proof. apply as_list_map. by intros []. Qed.

Lemma as_byte_list l :
  forallb (λ b, (0 <=? b) && (b <=? 255)) l = true → as_list as_u8 (bytes_value l) = Some l.
Proof. apply as_list_checked. apply as_int_number. Qed.

Lemma as_tab_value t : as_tab (tab_value t) = Some t.
Proof. by destruct t. Qed.

Lemma as_f32_value r : finite_f32 r = true → as_f32 (f32_value r) = Some r.
Proof. unfold f32_value. intros Hr. rewrite Hr. simpl. by rewrite f32_through_f64. Qed.

Lemma as_node_value n fuel :
  node_ok n = true → (json_depth (node_value n) ≤ fuel)%nat → as_node_fuel fuel (node_value n) = Some n.
Proof.
  revert fuel. induction n as [dir ratio a IHa b IHb|tabs active focused]; intros fuel Hok Hf.
  - simpl in Hok. apply andb_true_iff in Hok as [Hok Hb]. apply andb_true_iff in Hok as [Hr Ha].
    destruct fuel as [|fuel]; [simpl in Hf; lia|].
    assert (json_depth (node_value a) ≤ fuel ∧ json_depth (node_value b) ≤ fuel)%nat as [Hfa Hfb].
    { cbn [node_value json_depth foldr snd] in Hf. lia. }
    cbn [as_node_fuel node_value as_tagged required jget String.eqb Ascii.eqb Bool.eqb mbind option_bind
      as_string as_list].
    assert (as_dir (dir_value dir) = Some dir) as -> by by destruct dir.
    rewrite as_f32_value by done. cbn [mbind option_bind mapM]. rewrite IHa, IHb by done. done.
  - destruct fuel as [|fuel]; [simpl in Hf; lia|].
    cbn [as_node_fuel node_value as_tagged required defaulted jget String.eqb Ascii.eqb Bool.eqb mbind
      option_bind as_string].
    rewrite (as_list_map as_tab tab_value) by (intros; apply as_tab_value).
    cbn [mbind option_bind]. rewrite as_int_number by exact Hok. done.
Qed.

Lemma as_doc_value d : doc_ok d = true → as_doc (doc_value d) = Some d.
Proof.
  destruct d as [v n]. unfold doc_ok. cbn [schema_version root]. intros Hok.
  apply andb_true_iff in Hok as [Hv Hn].
  unfold as_doc, doc_value. cbn [as_record schema_version root mbind option_bind defaulted required
    jget String.eqb Ascii.eqb Bool.eqb].
  rewrite as_int_number by done. cbn [mbind option_bind].
  unfold as_node. by rewrite as_node_value.
Qed.

Lemma as_status_value s : as_status (status_value s) = Some s.
Proof. by destruct s. Qed.

Definition info_ok (i : SessionInfo) : bool := u64_ok (si_created_at i).

Lemma as_info_value i : info_ok i = true → as_info (info_value i) = Some i.
Proof.
  destruct i as [id w k l c t s]. intros Hok. unfold as_info, info_value.
  cbn [as_record mbind option_bind required jget String.eqb Ascii.eqb Bool.eqb as_string
    si_id si_workspace_id si_agent_kind si_instance_label si_cwd si_created_at si_status].
  rewrite as_int_number by exact Hok. cbn [mbind option_bind]. by rewrite as_status_value.
Qed.

Definition workspace_value_ok (i : WorkspaceInfo) : bool :=
  u64_ok (wi_project_scope_rev i) && u64_ok (wi_created_at i) && u64_ok (wi_layout_rev i) &&
  doc_ok (wi_layout i).

Lemma as_workspace_value i : workspace_value_ok i = true → as_workspace (workspace_value i) = Some i.
Proof.
  destruct i as [id name p pi r rev t lrev doc]. unfold workspace_value_ok.
  cbn [wi_project_scope_rev wi_created_at wi_layout_rev wi_layout]. intros Hok.
  apply andb_true_iff in Hok as [Hok Hd]. apply andb_true_iff in Hok as [Hok Hl].
  apply andb_true_iff in Hok as [Hr Ht]. unfold as_workspace, workspace_value.
  destruct p, pi;
    cbn [as_record mbind option_bind required optional defaulted jget String.eqb Ascii.eqb Bool.eqb
      as_string put_some app fmap option_fmap option_map wi_id wi_name wi_project_id wi_project_identity
      wi_project_root wi_project_scope_rev wi_created_at wi_layout_rev wi_layout];
    rewrite (as_int_number _ _ rev) by exact Hr; cbn [mbind option_bind];
    rewrite (as_int_number _ _ t) by exact Ht; cbn [mbind option_bind];
    rewrite (as_int_number _ _ lrev) by exact Hl; cbn [mbind option_bind];
    by rewrite as_doc_value.
Qed.

(** ** The spelling of a float

    A finite number read as an [f32] only matters up to the [f32] it rounds to:
    [canon] replaces it by that [f32] written out. Reading a typed value does not
    distinguish values that agree after [canon]. *)
Fixpoint canon (v : json) : json :=
  match v with
  | JFloat b => if finite_f32 (f32_of_f64 b) then JFloat (f64_of_f32 (f32_of_f64 b)) else JFloat b
  | JArray l => JArray (map canon l)
  | JObject o => JObject (map (λ kv, (kv.1, canon kv.2)) o)
  | v => v
  end.
Definition canon_fields (o : list (string * json)) : list (string * json) :=
  map (λ kv, (kv.1, canon kv.2)) o.

#[global] Instance json_equiv : Equiv json := λ a b, canon a = canon b.
#[global] Instance json_equivalence : Equivalence (≡@{json}).
Proof. split; unfold equiv, json_equiv; repeat intro; congruence. Qed.

Lemma jget_canon k o : jget k (canon_fields o) = canon <$> jget k o.
Proof. induction o as [|[k' v] o IH]; simpl; [done|]. by destruct (String.eqb k k'). Qed.

Definition blind {A} (dec : json → option A) : Prop := ∀ v, dec (canon v) = dec v.

Lemma blind_string : blind as_string. Proof. intros []; simpl; repeat case_match; done. Qed.
Lemma blind_bool : blind as_bool. Proof. intros []; simpl; repeat case_match; done. Qed.
Lemma blind_int lo hi : blind (as_int lo hi). Proof. intros []; simpl; repeat case_match; done. Qed.

Lemma blind_list {A} (dec : json → option A) : blind dec → blind (as_list dec).
Proof.
  intros Hd []; simpl; repeat case_match; try done.
  induction l as [|x l IH]; simpl; [done|]. by rewrite Hd, IH.
Qed.

Lemma required_canon {A} (dec : json → option A) k o :
  blind dec → required dec k (canon_fields o) = required dec k o.
Proof. intros Hd. unfold required. rewrite jget_canon. destruct (jget k o); simpl; [apply Hd|done]. Qed.

Lemma optional_canon {A} (dec : json → option A) k o :
  blind dec → optional dec k (canon_fields o) = optional dec k o.
Proof.
  intros Hd. unfold optional. rewrite jget_canon.
  destruct (jget k o) as [v|]; simpl; [|done]. specialize (Hd v).
  destruct v; simpl in *; repeat case_match; try done; exact (f_equal (fmap Some) Hd).
Qed.

Lemma defaulted_canon {A} (d : A) (dec : json → option A) k o :
  blind dec → defaulted d dec k (canon_fields o) = defaulted d dec k o.
Proof. intros Hd. unfold defaulted. rewrite jget_canon. destruct (jget k o); simpl; [apply Hd|done]. Qed.

Lemma zip_canon (names : list string) l :
  zip names (map canon l) = canon_fields (zip names l).
Proof. revert l. induction names as [|n names IH]; intros [|x l]; simpl; [done..|]. by rewrite <- IH. Qed.

Lemma as_record_canon names v : as_record names (canon v) = canon_fields <$> as_record names v.
Proof.
  destruct v; cbn [as_record canon]; try done; [by case_match|].
  rewrite length_map. case_match; [|done]. by rewrite zip_canon.
Qed.

Lemma as_tagged_canon names v :
  as_tagged names (canon v) = prod_map id canon_fields <$> as_tagged names v.
Proof.
  destruct v as [| | |b| |l|o]; try done.
  - simpl. by case_match.
  - destruct l as [|[| | |b|tag|l'|o'] l]; try done;
      [simpl; by destruct (finite_f32 (f32_of_f64 b))|].
    cbn [as_tagged canon map]. change (JArray (map canon l)) with (canon (JArray l)).
    rewrite as_record_canon. by destruct (as_record (names tag) (JArray l)).
  - change (canon (JObject o)) with (JObject (canon_fields o)). cbn [as_tagged].
    rewrite (required_canon as_string "type" o) by apply blind_string.
    by destruct (required as_string "type" o).
Qed.

Lemma blind_f32 : blind as_f32.
Proof.
  intros []; try done. simpl. destruct (finite_f32 (f32_of_f64 bits)) eqn:Hf; [|done].
  simpl. by rewrite f32_through_f64.
Qed.

Lemma blind_dir : blind as_dir.
Proof. intros v. unfold as_dir. by rewrite blind_string. Qed.

Lemma blind_status : blind as_status.
Proof. intros v. unfold as_status. by rewrite blind_string. Qed.

Lemma blind_pair : blind as_pair.
Proof.
  intros [| | |b| |[|x [|y [|z l]]]|]; try done; [simpl; by case_match|].
  simpl. by rewrite !blind_string.
Qed.

Lemma json_depth_canon v : json_depth (canon v) = json_depth v.
Proof.
  revert v. fix IH 1. intros [| | |b| |l|o]; try reflexivity.
  - simpl. by case_match.
  - cbn [canon json_depth]. f_equal. induction l as [|x l IHl]; [reflexivity|].
    cbn [map foldr]. by rewrite IH, IHl.
  - cbn [canon json_depth]. f_equal. induction o as [|[k x] o IHo]; [reflexivity|].
    cbn [map foldr fst snd]. by rewrite IH, IHo.
Qed.
End Wire.

Create HintDb blind discriminated.
#[export] Hint Resolve blind_string blind_bool blind_int blind_list blind_f32 blind_dir blind_status
  blind_pair : blind.

(** Push [canon] through the fields a record or a variant reads. *)
Ltac blind_fields :=
  repeat first
    [ rewrite required_canon by eauto with blind
    | rewrite optional_canon by eauto with blind
    | rewrite defaulted_canon by eauto with blind ].

Section BlindRecords.
Context `{Floats}.

Lemma blind_tab : blind as_tab.
Proof.
  intros v. unfold as_tab. rewrite as_tagged_canon. destruct (as_tagged _ v) as [[tag o]|]; [|done].
  simpl. by blind_fields.
Qed.
Hint Resolve blind_tab : blind.

Lemma blind_node_fuel fuel : blind (as_node_fuel fuel).
Proof.
  induction fuel as [|fuel IH]; intros v; [done|].
  cbn [as_node_fuel]. rewrite as_tagged_canon. destruct (as_tagged _ v) as [[tag o]|]; [|done].
  simpl. by blind_fields.
Qed.

Lemma blind_node : blind as_node.
Proof. intros v. unfold as_node. rewrite json_depth_canon. apply blind_node_fuel. Qed.
Hint Resolve blind_node : blind.

Ltac blind_record :=
  intros v; unfold as_doc, as_info, as_workspace; rewrite as_record_canon;
  destruct (as_record _ v); [|done]; simpl; by blind_fields.

Lemma blind_doc : blind as_doc.
Proof. blind_record. Qed.
Hint Resolve blind_doc : blind.

Lemma blind_info : blind as_info.
Proof. blind_record. Qed.

Lemma blind_workspace : blind as_workspace.
Proof. blind_record. Qed.
End BlindRecords.

#[export] Hint Resolve blind_doc blind_info blind_workspace : blind.
