(* ===== verification/Frames.v ===== *)
(** * The frame enumeration as JSON

    [#[serde(tag = "type", rename_all = "snake_case")]] on [Frame]
    ([crates/ade_session/src/proto.rs]): each variant's fields in declaration order
    with their [skip_serializing_if], and reading them back with their defaults. *)

From S2P Require Import Prelude Text Layout Proto Ledger Wire.
From stdpp Require Import options.
From Stdlib Require Import Ascii.
Open Scope Z_scope.

Section Frames.
Context `{Floats}.

Abbreviation rid_field := (put_some "request_id" JNumber).

Definition hello_fields (h : Hello) : list (string * json) :=
  [("min_generation", JNumber (h_min_generation h)); ("max_generation", JNumber (h_max_generation h));
   ("capabilities", JArray (map JString (h_capabilities h)))] ++ rid_field (h_request_id h).

Definition ack_fields (a : HelloAck) : list (string * json) :=
  [("daemon_version", JString (ack_daemon_version a));
   ("protocol_version", JNumber (ack_protocol_version a)); ("host_os", JString (ack_host_os a));
   ("min_generation", JNumber (ack_min_generation a));
   ("max_generation", JNumber (ack_max_generation a)); ("generation", JNumber (ack_generation a));
   ("capabilities", JArray (map JString (ack_capabilities a)));
   ("degraded", JBool (ack_degraded a))] ++
  put_some "binary_hash" JString (ack_binary_hash a) ++
  put_some "upgrade_ready" JBool (ack_upgrade_ready a) ++
  put_some "instance_id" JString (ack_instance_id a) ++ rid_field (ack_request_id a).

(** The fields of a frame besides its tag. *)
Definition frame_fields (f : Frame) : list (string * json) :=
  match f with
  | Frame_Hello hello => hello_fields hello
  | Frame_CreateWorkspace root name project_id project_identity env cols rows rid =>
      [("root", JString root)] ++ put_some "name" JString name ++
      put_some "project_id" JString project_id ++
      put_some "project_identity" JString project_identity ++
      put_nonempty "env" pair_value env ++ put_some "cols" JNumber cols ++
      put_some "rows" JNumber rows ++ rid_field rid
  | Frame_OpenWorkspace workspace_id rid =>
      [("workspace_id", JString workspace_id)] ++ rid_field rid
  | Frame_ListWorkspaces rid => rid_field rid
  | Frame_UpdateLayout workspace_id layout rev rid =>
      [("workspace_id", JString workspace_id); ("layout", doc_value layout); ("rev", JNumber rev)] ++
      rid_field rid
  | Frame_RenameWorkspace workspace_id name rid =>
      [("workspace_id", JString workspace_id); ("name", JString name)] ++ rid_field rid
  | Frame_UpdateWorkspaceProject workspace_id project_id project_identity project_root minimum rid =>
      [("workspace_id", JString workspace_id); ("project_id", JString project_id);
       ("project_identity", JString project_identity)] ++
      put_some "project_root" JString project_root ++
      put_some "minimum_scope_rev" JNumber minimum ++ rid_field rid
  | Frame_KillWorkspace workspace_id rid =>
      [("workspace_id", JString workspace_id)] ++ rid_field rid
  | Frame_CreateSession workspace_id cwd project_id project_identity command env cols rows
      agent_kind instance_label scrollback rid =>
      [("workspace_id", JString workspace_id); ("cwd", JString cwd)] ++
      put_some "project_id" JString project_id ++
      put_some "project_identity" JString project_identity ++
      [("command", JString command); ("env", JArray (map pair_value env));
       ("cols", JNumber cols); ("rows", JNumber rows); ("agent_kind", JString agent_kind);
       ("instance_label", JString instance_label)] ++
      put_some "scrollback_bytes" JNumber scrollback ++ rid_field rid
  | Frame_ListSessions rid => rid_field rid
  | Frame_Attach session_id view_id rid =>
      [("session_id", JString session_id)] ++ put_some "view_id" JString view_id ++ rid_field rid
  | Frame_Detach session_id rid => [("session_id", JString session_id)] ++ rid_field rid
  | Frame_Write session_id bytes =>
      [("session_id", JString session_id); ("bytes", bytes_value bytes)]
  | Frame_Resize session_id cols rows =>
      [("session_id", JString session_id); ("cols", JNumber cols); ("rows", JNumber rows)]
  | Frame_FocusSession session_id view_id hover =>
      [("session_id", JString session_id); ("view_id", JString view_id); ("hover", JBool hover)]
  | Frame_Kill session_id rid => [("session_id", JString session_id)] ++ rid_field rid
  | Frame_Subscribe rid => rid_field rid
  | Frame_Shutdown force rid => [("force", JBool force)] ++ rid_field rid
  | Frame_HelloAck ack => ack_fields ack
  | Frame_SessionList sessions rid =>
      [("sessions", JArray (map info_value sessions))] ++ rid_field rid
  | Frame_Created session persisted rid =>
      [("session", info_value session)] ++ put_unless_true "persisted" persisted ++ rid_field rid
  | Frame_Workspace workspace sessions persisted rid =>
      [("workspace", workspace_value workspace); ("sessions", JArray (map info_value sessions))] ++
      put_unless_true "persisted" persisted ++ rid_field rid
  | Frame_WorkspaceList workspaces rid =>
      [("workspaces", JArray (map workspace_value workspaces))] ++ rid_field rid
  | Frame_LayoutChanged workspace_id layout rev persisted rid =>
      [("workspace_id", JString workspace_id); ("layout", doc_value layout); ("rev", JNumber rev)] ++
      put_unless_true "persisted" persisted ++ rid_field rid
  | Frame_WorkspaceRemoved workspace_id persisted rid =>
      [("workspace_id", JString workspace_id)] ++ put_unless_true "persisted" persisted ++ rid_field rid
  | Frame_Removed session_id => [("session_id", JString session_id)]
  | Frame_Replay session_id bytes truncated =>
      [("session_id", JString session_id); ("bytes", bytes_value bytes);
       ("truncated", JBool truncated)]
  | Frame_Output session_id bytes =>
      [("session_id", JString session_id); ("bytes", bytes_value bytes)]
  | Frame_Status session_id status since =>
      [("session_id", JString session_id); ("status", status_value status); ("since", JNumber since)]
  | Frame_Exited session_id exit_code =>
      [("session_id", JString session_id)] ++ put_some "exit_code" JNumber exit_code
  | Frame_ShutdownAck rid => rid_field rid
  | Frame_Error session_id workspace_id code message rid =>
      put_some "session_id" JString session_id ++ put_some "workspace_id" JString workspace_id ++
      [("code", JString code); ("message", JString message)] ++ rid_field rid
  end.

(** [serde_json::to_value(frame)]'s object. *)
Definition frame_object (f : Frame) : list (string * json) :=
  ("type", JString (frame_op f)) :: frame_fields f.

(** ** Reading *)

Abbreviation fields := (list (string * json)).
Definition rid_of : fields → option (option Z) := optional as_u64 "request_id".

Definition read_hello (o : fields) : option Frame :=
  min ← required as_u32 "min_generation" o;
  max ← required as_u32 "max_generation" o;
  capabilities ← defaulted [] (as_list as_string) "capabilities" o;
  rid ← rid_of o;
  Some (Frame_Hello (mkHello min max capabilities rid)).

Definition read_create_workspace (o : fields) : option Frame :=
  root ← required as_string "root" o;
  name ← optional as_string "name" o;
  project_id ← optional as_string "project_id" o;
  project_identity ← optional as_string "project_identity" o;
  env ← defaulted [] (as_list as_pair) "env" o;
  cols ← optional as_u16 "cols" o;
  rows ← optional as_u16 "rows" o;
  rid ← rid_of o;
  Some (Frame_CreateWorkspace root name project_id project_identity env cols rows rid).

Definition read_open_workspace (o : fields) : option Frame :=
  id ← required as_string "workspace_id" o; rid ← rid_of o; Some (Frame_OpenWorkspace id rid).

Definition read_list_workspaces (o : fields) : option Frame := Frame_ListWorkspaces <$> rid_of o.

Definition read_update_layout (o : fields) : option Frame :=
  id ← required as_string "workspace_id" o;
  layout ← required as_doc "layout" o;
  rev ← required as_u64 "rev" o;
  rid ← rid_of o;
  Some (Frame_UpdateLayout id layout rev rid).

Definition read_rename_workspace (o : fields) : option Frame :=
  id ← required as_string "workspace_id" o;
  name ← required as_string "name" o;
  rid ← rid_of o;
  Some (Frame_RenameWorkspace id name rid).

Definition read_update_workspace_project (o : fields) : option Frame :=
  id ← required as_string "workspace_id" o;
  project_id ← required as_string "project_id" o;
  project_identity ← required as_string "project_identity" o;
  project_root ← optional as_string "project_root" o;
  minimum ← optional as_u64 "minimum_scope_rev" o;
  rid ← rid_of o;
  Some (Frame_UpdateWorkspaceProject id project_id project_identity project_root minimum rid).

Definition read_kill_workspace (o : fields) : option Frame :=
  id ← required as_string "workspace_id" o; rid ← rid_of o; Some (Frame_KillWorkspace id rid).

Definition read_create_session (o : fields) : option Frame :=
  workspace_id ← required as_string "workspace_id" o;
  cwd ← required as_string "cwd" o;
  project_id ← optional as_string "project_id" o;
  project_identity ← optional as_string "project_identity" o;
  command ← required as_string "command" o;
  env ← required (as_list as_pair) "env" o;
  cols ← required as_u16 "cols" o;
  rows ← required as_u16 "rows" o;
  agent_kind ← required as_string "agent_kind" o;
  instance_label ← required as_string "instance_label" o;
  scrollback ← optional as_u64 "scrollback_bytes" o;
  rid ← rid_of o;
  Some (Frame_CreateSession workspace_id cwd project_id project_identity command env cols rows
          agent_kind instance_label scrollback rid).

Definition read_list_sessions (o : fields) : option Frame := Frame_ListSessions <$> rid_of o.

Definition read_attach (o : fields) : option Frame :=
  id ← required as_string "session_id" o;
  view_id ← optional as_string "view_id" o;
  rid ← rid_of o;
  Some (Frame_Attach id view_id rid).

Definition read_detach (o : fields) : option Frame :=
  id ← required as_string "session_id" o; rid ← rid_of o; Some (Frame_Detach id rid).

Definition read_write (o : fields) : option Frame :=
  id ← required as_string "session_id" o;
  bytes ← required (as_list as_u8) "bytes" o;
  Some (Frame_Write id bytes).

Definition read_resize (o : fields) : option Frame :=
  id ← required as_string "session_id" o;
  cols ← required as_u16 "cols" o;
  rows ← required as_u16 "rows" o;
  Some (Frame_Resize id cols rows).

Definition read_focus_session (o : fields) : option Frame :=
  id ← required as_string "session_id" o;
  view_id ← required as_string "view_id" o;
  hover ← defaulted false as_bool "hover" o;
  Some (Frame_FocusSession id view_id hover).

Definition read_kill (o : fields) : option Frame :=
  id ← required as_string "session_id" o; rid ← rid_of o; Some (Frame_Kill id rid).

Definition read_subscribe (o : fields) : option Frame := Frame_Subscribe <$> rid_of o.

Definition read_shutdown (o : fields) : option Frame :=
  force ← defaulted false as_bool "force" o; rid ← rid_of o; Some (Frame_Shutdown force rid).

Definition read_hello_ack (o : fields) : option Frame :=
  daemon_version ← required as_string "daemon_version" o;
  protocol_version ← required as_u32 "protocol_version" o;
  host_os ← required as_string "host_os" o;
  min ← required as_u32 "min_generation" o;
  max ← required as_u32 "max_generation" o;
  generation ← required as_u32 "generation" o;
  capabilities ← defaulted [] (as_list as_string) "capabilities" o;
  degraded ← defaulted false as_bool "degraded" o;
  binary_hash ← optional as_string "binary_hash" o;
  upgrade_ready ← optional as_bool "upgrade_ready" o;
  instance_id ← optional as_string "instance_id" o;
  rid ← rid_of o;
  Some (Frame_HelloAck (mkHelloAck daemon_version protocol_version host_os min max generation
          capabilities degraded binary_hash upgrade_ready instance_id rid)).

Definition read_session_list (o : fields) : option Frame :=
  sessions ← required (as_list as_info) "sessions" o; rid ← rid_of o;
  Some (Frame_SessionList sessions rid).

Definition persisted_of : fields → option bool := defaulted true as_bool "persisted".

Definition read_created (o : fields) : option Frame :=
  session ← required as_info "session" o; persisted ← persisted_of o; rid ← rid_of o;
  Some (Frame_Created session persisted rid).

Definition read_workspace (o : fields) : option Frame :=
  workspace ← required as_workspace "workspace" o;
  sessions ← required (as_list as_info) "sessions" o;
  persisted ← persisted_of o; rid ← rid_of o;
  Some (Frame_Workspace workspace sessions persisted rid).

Definition read_workspace_list (o : fields) : option Frame :=
  workspaces ← required (as_list as_workspace) "workspaces" o; rid ← rid_of o;
  Some (Frame_WorkspaceList workspaces rid).

Definition read_layout_changed (o : fields) : option Frame :=
  id ← required as_string "workspace_id" o;
  layout ← required as_doc "layout" o;
  rev ← required as_u64 "rev" o;
  persisted ← persisted_of o; rid ← rid_of o;
  Some (Frame_LayoutChanged id layout rev persisted rid).

Definition read_workspace_removed (o : fields) : option Frame :=
  id ← required as_string "workspace_id" o; persisted ← persisted_of o; rid ← rid_of o;
  Some (Frame_WorkspaceRemoved id persisted rid).

Definition read_removed (o : fields) : option Frame :=
  Frame_Removed <$> required as_string "session_id" o.

Definition read_replay (o : fields) : option Frame :=
  id ← required as_string "session_id" o;
  bytes ← required (as_list as_u8) "bytes" o;
  truncated ← required as_bool "truncated" o;
  Some (Frame_Replay id bytes truncated).

Definition read_output (o : fields) : option Frame :=
  id ← required as_string "session_id" o;
  bytes ← required (as_list as_u8) "bytes" o;
  Some (Frame_Output id bytes).

Definition read_status (o : fields) : option Frame :=
  id ← required as_string "session_id" o;
  status ← required as_status "status" o;
  since ← required as_u64 "since" o;
  Some (Frame_Status id status since).

Definition read_exited (o : fields) : option Frame :=
  id ← required as_string "session_id" o;
  exit_code ← optional as_i32 "exit_code" o;
  Some (Frame_Exited id exit_code).

Definition read_shutdown_ack (o : fields) : option Frame := Frame_ShutdownAck <$> rid_of o.

Definition read_error (o : fields) : option Frame :=
  session_id ← optional as_string "session_id" o;
  workspace_id ← optional as_string "workspace_id" o;
  code ← required as_string "code" o;
  message ← required as_string "message" o;
  rid ← rid_of o;
  Some (Frame_Error session_id workspace_id code message rid).

Definition readers : list (string * (fields → option Frame)) := [
  ("hello", read_hello); ("create_workspace", read_create_workspace);
  ("open_workspace", read_open_workspace); ("list_workspaces", read_list_workspaces);
  ("update_layout", read_update_layout); ("rename_workspace", read_rename_workspace);
  ("update_workspace_project", read_update_workspace_project);
  ("kill_workspace", read_kill_workspace); ("create_session", read_create_session);
  ("list_sessions", read_list_sessions); ("attach", read_attach); ("detach", read_detach);
  ("write", read_write); ("resize", read_resize); ("focus_session", read_focus_session);
  ("kill", read_kill); ("subscribe", read_subscribe); ("shutdown", read_shutdown);
  ("hello_ack", read_hello_ack); ("session_list", read_session_list); ("created", read_created);
  ("workspace", read_workspace); ("workspace_list", read_workspace_list);
  ("layout_changed", read_layout_changed); ("workspace_removed", read_workspace_removed);
  ("removed", read_removed); ("replay", read_replay); ("output", read_output);
  ("status", read_status); ("exited", read_exited); ("shutdown_ack", read_shutdown_ack);
  ("error", read_error) ].

(** [serde_json::from_value::<Frame>] of an object. *)
Definition frame_of_object (o : fields) : option Frame :=
  op ← required as_string "type" o;
  entry ← find_first (λ r, String.eqb r.1 op) readers;
  entry.2 o.

(** ** Round trip *)

(** The widths of the types: what every [Frame] of the program satisfies, and finite
    ratios. *)
Definition u16_ok (z : Z) : bool := (0 <=? z) && (z <=? u16_max).
Definition u32_ok (z : Z) : bool := (0 <=? z) && (z <=? u32_max).
Definition i32_ok (z : Z) : bool := (i32_min <=? z) && (z <=? i32_top).
Definition byte_ok (z : Z) : bool := (0 <=? z) && (z <=? 255).
Definition opt_ok (ok : Z → bool) (o : option Z) : bool :=
  match o with Some z => ok z | None => true end.

Definition body_ok (f : Frame) : bool :=
  match f with
  | Frame_Hello h => u32_ok (h_min_generation h) && u32_ok (h_max_generation h)
  | Frame_CreateWorkspace _ _ _ _ _ cols rows _ => opt_ok u16_ok cols && opt_ok u16_ok rows
  | Frame_UpdateLayout _ layout rev _ => doc_ok layout && u64_ok rev
  | Frame_UpdateWorkspaceProject _ _ _ _ minimum _ => opt_ok u64_ok minimum
  | Frame_CreateSession _ _ _ _ _ _ cols rows _ _ scrollback _ =>
      u16_ok cols && u16_ok rows && opt_ok u64_ok scrollback
  | Frame_Write _ bytes | Frame_Output _ bytes | Frame_Replay _ bytes _ => forallb byte_ok bytes
  | Frame_Resize _ cols rows => u16_ok cols && u16_ok rows
  | Frame_HelloAck a =>
      u32_ok (ack_protocol_version a) && u32_ok (ack_min_generation a) &&
      u32_ok (ack_max_generation a) && u32_ok (ack_generation a)
  | Frame_SessionList sessions _ => forallb info_ok sessions
  | Frame_Created session _ _ => info_ok session
  | Frame_Workspace workspace sessions _ _ => workspace_value_ok workspace && forallb info_ok sessions
  | Frame_WorkspaceList workspaces _ => forallb workspace_value_ok workspaces
  | Frame_LayoutChanged _ layout rev _ _ => doc_ok layout && u64_ok rev
  | Frame_Status _ _ since => u64_ok since
  | Frame_Exited _ exit_code => opt_ok i32_ok exit_code
  | _ => true
  end.

Definition frame_ok (f : Frame) : bool := body_ok f && opt_ok u64_ok (frame_request_id f).

Lemma frame_reader f :
  ∃ read, find_first (λ r, String.eqb r.1 (frame_op f)) readers = Some (frame_op f, read) ∧
    frame_of_object (frame_object f) = read (frame_object f).
Proof. destruct f; simpl; by eexists. Qed.

End Frames.

Ltac read_fields :=
  repeat first
    [ progress cbn [mbind option_bind required optional defaulted jget String.eqb Ascii.eqb Bool.eqb
        as_string as_bool put_some put_nonempty put_unless_true app fmap option_fmap option_map
        snd fst rid_of persisted_of]
    | rewrite as_int_number by assumption
    | rewrite as_string_list | rewrite as_pair_list
    | rewrite as_byte_list by assumption
    | rewrite as_doc_value by assumption
    | rewrite as_info_value by assumption
    | rewrite as_workspace_value by assumption
    | rewrite as_status_value
    | rewrite (as_list_checked info_ok as_info info_value) by (assumption || apply as_info_value)
    | rewrite (as_list_checked workspace_value_ok as_workspace workspace_value)
        by (assumption || apply as_workspace_value) ].

Ltac expose_records :=
  repeat match goal with
  | h : Hello |- _ => destruct h as [lo hi caps rid]
  | a : HelloAck |- _ => destruct a as [ver pv os lo hi gen caps deg hash up inst rid]
  end;
  cbn [frame_op frame_fields body_ok frame_request_id] in *;
  cbv delta [hello_fields ack_fields];
  cbn beta iota delta [h_min_generation h_max_generation
    h_capabilities h_request_id ack_daemon_version ack_protocol_version ack_host_os ack_min_generation
    ack_max_generation ack_generation ack_capabilities ack_degraded ack_binary_hash ack_upgrade_ready
    ack_instance_id ack_request_id] in *.

(** Split the range checks and decide which skipped fields are there. *)
Ltac expose_fields :=
  repeat match goal with
  | H : _ && _ = true |- _ => apply andb_true_iff in H as [? ?]
  | |- context [put_some _ _ ?o] => is_var o; destruct o
  | |- context [put_unless_true _ ?b] => is_var b; destruct b
  | |- context [put_nonempty _ _ ?l] => is_var l; destruct l
  end;
  cbn [opt_ok] in *.

(** Replace a reader by what it reads. *)
Ltac open_reader :=
  cbv delta [read_hello read_create_workspace read_open_workspace read_list_workspaces
    read_update_layout read_rename_workspace read_update_workspace_project read_kill_workspace
    read_create_session read_list_sessions read_attach read_detach read_write read_resize
    read_focus_session read_kill read_subscribe read_shutdown read_hello_ack read_session_list
    read_created read_workspace read_workspace_list read_layout_changed read_workspace_removed
    read_removed read_replay read_output read_status read_exited read_shutdown_ack read_error];
  cbv beta.

Section Reading.
Context `{Floats}.
Abbreviation fields := (list (string * json)).

(** A frame is read back from its object. *)
Lemma frame_of_frame_object f : frame_ok f = true → frame_of_object (frame_object f) = Some f.
Proof.
  intros Hok. unfold frame_ok in Hok. apply andb_true_iff in Hok as [Hb Hr].
  destruct (frame_reader f) as (read & Hf & ->).
  unfold frame_object. destruct f; simpl in Hf; injection Hf as <-.
  all: open_reader; expose_records; expose_fields; solve [read_fields; reflexivity].
Qed.

Lemma readers_known : map fst readers = KNOWN_OPS.
Proof. reflexivity. Qed.

Lemma frame_of_object_op o op f :
  jget "type" o = Some (JString op) → frame_of_object o = Some f → op ∈ KNOWN_OPS.
Proof.
  unfold frame_of_object, required. intros ->. cbn [mbind option_bind as_string].
  destruct (find_first _ readers) as [[op' read]|] eqn:Hfind; [|done]. intros _.
  apply find_first_Some in Hfind as [Hin Heq]. simpl in Heq. apply String.eqb_eq in Heq as <-.
  rewrite <- readers_known. by apply (list_elem_of_fmap_2 fst) in Hin.
Qed.

(** What a reader gives carries its own tag, and its request id is the object's. *)
Definition reads_as (op : string) (read : fields → option Frame) : Prop :=
  ∀ o f, read o = Some f →
    frame_op f = op ∧ (frame_request_id f = None ∨ rid_of o = Some (frame_request_id f)).

Lemma readers_read : Forall (λ r, reads_as r.1 r.2) readers.
Proof.
  unfold readers. repeat apply List.Forall_cons; try apply List.Forall_nil; intros o f; cbn [snd fst].
  all: open_reader; intros Hread;
    repeat match type of Hread with
    | fmap ?g ?m = Some _ => destruct m eqn:?; simplify_eq/=
    | mbind ?g ?m = Some _ => destruct m eqn:?; [cbn [mbind option_bind] in Hread|done]
    end; simplify_eq/=; eauto.
Qed.

Lemma readers_blind : Forall (λ r, ∀ o, r.2 (canon_fields o) = r.2 o) readers.
Proof.
  unfold readers. repeat apply List.Forall_cons; try apply List.Forall_nil; intros o; cbn [snd].
  all: open_reader; unfold rid_of, persisted_of; by blind_fields.
Qed.

Lemma frame_of_object_canon o : frame_of_object (canon_fields o) = frame_of_object o.
Proof.
  unfold frame_of_object. rewrite required_canon by eauto with blind.
  destruct (required as_string "type" o) as [op|]; [|done].
  cbn [mbind option_bind].
  destruct (find_first (λ r, String.eqb r.1 op) readers) as [r|] eqn:Hfind; [|done].
  apply find_first_Some in Hfind as [Hin _].
  pose proof readers_blind as Hb. rewrite Forall_forall in Hb. by apply Hb.
Qed.

(** Reading depends on the fields found, not on their order. *)
Lemma readers_ext : Forall (λ r, ∀ o o', (∀ k, jget k o = jget k o') → r.2 o = r.2 o') readers.
Proof.
  unfold readers. repeat apply List.Forall_cons; try apply List.Forall_nil; intros o o' Hk; cbn [snd].
  all: open_reader; unfold rid_of, persisted_of, required, optional, defaulted; by rewrite !Hk.
Qed.

Lemma frame_of_object_ext o o' :
  (∀ k, jget k o = jget k o') → frame_of_object o = frame_of_object o'.
Proof.
  intros Hk. unfold frame_of_object, required. rewrite Hk.
  destruct (v ← jget "type" o'; as_string v) as [op|]; [|done].
  cbn [mbind option_bind].
  destruct (find_first (λ r, String.eqb r.1 op) readers) as [r|] eqn:Hfind; [|done].
  apply find_first_Some in Hfind as [Hin _].
  pose proof readers_ext as Hb. rewrite Forall_forall in Hb. by apply Hb.
Qed.

(** What an object's frame says of the object. *)
Lemma frame_of_object_shape o op f :
  jget "type" o = Some (JString op) → frame_of_object o = Some f →
  frame_op f = op ∧ (frame_request_id f = None ∨ rid_of o = Some (frame_request_id f)).
Proof.
  unfold frame_of_object, required. intros ->. cbn [mbind option_bind as_string].
  destruct (find_first (λ r, String.eqb r.1 op) readers) as [[op' read]|] eqn:Hfind; [|done].
  cbn [mbind option_bind snd]. intros Hread.
  apply find_first_Some in Hfind as [Hin Heq]. apply String.eqb_eq in Heq. simpl in Heq. subst op'.
  pose proof readers_read as Hb. rewrite Forall_forall in Hb. exact (Hb _ Hin o f Hread).
Qed.
End Reading.
