(* ===== verification/Framing.v ===== *)
(** * Length-prefixed frames over the envelope

    [crates/ade_session/src/framing.rs]: the two-stage codec between a [Frame] and
    its envelope [{op, rid, body}], the error taxonomy, the reply to a frame that did
    not decode, and frames on a byte stream. The JSON text of an envelope is
    [serde_json]'s and a parameter. *)

From S2P Require Import Prelude Text Layout Proto Ledger Wire Frames.
From stdpp Require Import options pretty.
From Stdlib Require Import Ascii NArith.
Open Scope Z_scope.

Definition MAX_FRAME_BYTES : Z := 16 * 1024 * 1024.
Definition LENGTH_PREFIX_BYTES : nat := 4.
Definition TAG_KEY : string := "type".
Definition REQUEST_ID_KEY : string := "request_id".

(** ** [str]'s [Debug]

    The characters past ASCII that [str::escape_debug] writes as an escape (extended
    graphemes and the unprintable) are the compiler's Unicode tables. *)
Class Unicode : Type := { escaped : N → bool }.

Section Debug.
Context `{Unicode}.

Definition hex_digit (n : N) : string :=
  String (ascii_of_N (if (n <? 10)%N then 48 + n else 87 + n)) "".

(** Lower-case hexadecimal without leading zeros; six digits hold any character. *)
Fixpoint hex_fuel (fuel : nat) (n : N) : string :=
  match fuel with
  | O => ""
  | S fuel =>
      (if (n <? 16)%N then "" else hex_fuel fuel (n / 16)) +:+ hex_digit (n mod 16)
  end.
Definition hex (n : N) : string := hex_fuel 6 n.

Definition unicode_escape (n : N) : string := "\u{" +:+ hex n +:+ "}".

(** One ASCII character inside a [Debug] string. *)
Definition debug_ascii (c : ascii) : string :=
  let n := N_of_ascii c in
  if (n =? 0)%N then "\0"
  else if (n =? 9)%N then "\t"
  else if (n =? 13)%N then "\r"
  else if (n =? 10)%N then "\n"
  else if ((n =? 34) || (n =? 92))%N then String (ascii_of_N 92) (String c "")
  else if ((n <? 32) || (n =? 127))%N then unicode_escape n
  else String c "".

Definition low_bits (c : ascii) : N := N_of_ascii c mod 64.

Definition debug_wide (n : N) (raw : string) : string :=
  if escaped n then unicode_escape n else raw.

(** The characters of a UTF-8 string, decoded by their leading byte. *)
Fixpoint debug_chars (s : string) : string :=
  match s with
  | EmptyString => ""
  | String a s1 =>
      let n := N_of_ascii a in
      if (n <? 192)%N then debug_ascii a +:+ debug_chars s1
      else match s1 with
      | EmptyString => String a ""
      | String b s2 =>
          if (n <? 224)%N then
            debug_wide ((n - 192) * 64 + low_bits b) (String a (String b "")) +:+ debug_chars s2
          else match s2 with
          | EmptyString => String a s1
          | String c s3 =>
              if (n <? 240)%N then
                debug_wide (((n - 224) * 64 + low_bits b) * 64 + low_bits c)
                  (String a (String b (String c ""))) +:+ debug_chars s3
              else match s3 with
              | EmptyString => String a s1
              | String d s4 =>
                  debug_wide ((((n - 240) * 64 + low_bits b) * 64 + low_bits c) * 64 + low_bits d)
                    (String a (String b (String c (String d "")))) +:+ debug_chars s4
              end
          end
      end
  end.

Definition quote : string := String (ascii_of_N 34) "".
Definition debug_str (s : string) : string := quote +:+ debug_chars s +:+ quote.
End Debug.

(** ** Errors *)

(** Why a read got no bytes: the stream ended, or the transport failed. *)
Inductive io_error := UnexpectedEof | IoFailed (text : string).

Definition io_error_text (e : io_error) : string :=
  match e with UnexpectedEof => "unexpected end of file" | IoFailed text => text end.

Inductive transport_error :=
| ReadingLength (e : io_error)
| FrameTooLong (len : Z)
| ReadingPayload (e : io_error).

(** [{error:#}]: the context, then the cause. *)
Definition transport_error_text (e : transport_error) : string :=
  match e with
  | ReadingLength e => "reading frame length: " +:+ io_error_text e
  | FrameTooLong len =>
      "frame of " +:+ pretty len +:+ " bytes exceeds the " +:+ pretty MAX_FRAME_BYTES +:+
      "-byte maximum"
  | ReadingPayload e => "reading frame payload: " +:+ io_error_text e
  end.

Inductive ReadFrameError :=
| Transport (e : transport_error)
| MalformedFrame (detail : string)
| UnknownOp (op : string) (rid : option Z)
| MalformedBody (op : string) (rid : option Z) (detail : string).

Definition error_rid (e : ReadFrameError) : option Z :=
  match e with
  | Transport _ | MalformedFrame _ => None
  | UnknownOp _ rid | MalformedBody _ rid _ => rid
  end.

Definition error_is_request_scoped (e : ReadFrameError) : bool :=
  match e with UnknownOp _ _ | MalformedBody _ _ _ => true | _ => false end.

Definition read_error_text `{Unicode} (e : ReadFrameError) : string :=
  match e with
  | Transport e => transport_error_text e
  | MalformedFrame detail => "malformed frame: " +:+ bounded detail
  | UnknownOp op _ => "unknown operation " +:+ debug_str (bounded op)
  | MalformedBody op _ detail =>
      "malformed body for operation " +:+ debug_str (bounded op) +:+ ": " +:+ bounded detail
  end.

Definition rejection_frame `{Unicode} (error : ReadFrameError) : option Frame :=
  let reply code rid := Frame_Error None None code (read_error_text error) rid in
  match error with
  | Transport _ => None
  | MalformedFrame _ => Some (reply error_code.MALFORMED_FRAME None)
  | UnknownOp _ rid => (λ rid, reply error_code.UNKNOWN_OP (Some rid)) <$> rid
  | MalformedBody _ rid _ => (λ rid, reply error_code.MALFORMED_BODY (Some rid)) <$> rid
  end.

(** ** Envelopes *)

Record Envelope : Type := mkEnvelope {
  env_op : string;
  env_rid : option Z;
  env_body : json
}.

(** The arrays and objects around the innermost value. *)
Fixpoint nesting (v : json) : nat :=
  match v with
  | JArray l => S (foldr (λ v n, nesting v `max` n)%nat O l)
  | JObject o => S (foldr (λ kv n, nesting kv.2 `max` n)%nat O o)
  | _ => O
  end.

(** [serde_json]'s integers, and the numbers an [f32] is written as. *)
Fixpoint value_ok `{Floats} (v : json) : bool :=
  match v with
  | JNumber n => (-9223372036854775808 <=? n) && (n <=? u64_max)
  | JFloat b => finite_f32 (f32_of_f64 b) && (b =? f64_of_f32 (f32_of_f64 b))
  | JArray l => forallb value_ok l
  | JObject o => forallb (λ kv, value_ok kv.2) o
  | _ => true
  end.

(** [serde_json] reads at most 127 nested arrays and objects; the envelope is one. *)
Definition BODY_NESTING : nat := 126.

(** A [serde_json] object has each key once. *)
Definition keys_unique (v : json) : bool :=
  match v with JObject o => bool_decide (NoDup (map fst o)) | _ => true end.

(** [serde_json::to_vec] of an outgoing envelope, and [serde_json::from_slice] of a
    payload into an [Envelope], where the error is its text. Reading back a written
    envelope gives the same body up to the spelling of its floats; an object read from
    text has each key once and a [rid] is a [u64]. *)
Class EnvelopeText `{Floats} : Type := {
  to_vec : Envelope → list Z;
  from_slice : list Z → string + Envelope;
  to_vec_bytes : ∀ e, Forall (λ b, 0 ≤ b < 256) (to_vec e);
  from_slice_to_vec : ∀ op r body,
    value_ok body = true → keys_unique body = true → (nesting body ≤ BODY_NESTING)%nat →
    opt_ok u64_ok r = true →
    ∃ body', from_slice (to_vec (mkEnvelope op r body)) = inr (mkEnvelope op r body') ∧ body' ≡ body;
  from_slice_keys : ∀ payload op r o,
    from_slice payload = inr (mkEnvelope op r (JObject o)) → NoDup (map fst o);
  from_slice_rid : ∀ payload e, from_slice payload = inr e → opt_ok u64_ok (env_rid e) = true
}.

(** Why a body is not a frame: the text of the derived reader's error. *)
Class BodyErrors : Type := { body_error : list (string * json) → string }.

(** [Map::shift_remove] and [Map::insert] of an object that keeps insertion order. *)
Fixpoint shift_remove (k : string) (o : list (string * json)) : option json * list (string * json) :=
  match o with
  | [] => (None, [])
  | (k', v) :: o =>
      if String.eqb k k' then (Some v, o)
      else let '(found, o) := shift_remove k o in (found, (k', v) :: o)
  end.

Fixpoint object_insert (k : string) (v : json) (o : list (string * json)) : list (string * json) :=
  match o with
  | [] => [(k, v)]
  | (k', v') :: o => if String.eqb k k' then (k', v) :: o else (k', v') :: object_insert k v o
  end.

Definition number_as_u64 (n : Z) : option Z := if u64_ok n then Some n else None.

Section Framing.
Context `{EnvelopeText, BodyErrors}.

Definition encode_frame (frame : Frame) : string + list Z :=
  let body := frame_object frame in
  match shift_remove TAG_KEY body with
  | (Some (JString op), body) =>
      let '(found, body) := shift_remove REQUEST_ID_KEY body in
      let rid := match found with Some (JNumber n) => number_as_u64 n | _ => None end in
      inr (to_vec (mkEnvelope op rid (JObject body)))
  | _ => inl ("a frame serialized without its " +:+ quote +:+ TAG_KEY +:+ quote +:+ " tag")
  end.

(** Stage two's object: the tag and the envelope's correlation id put back. *)
Definition tagged_body (op : string) (rid : option Z) (body : list (string * json)) :
    list (string * json) :=
  let body := (shift_remove REQUEST_ID_KEY body).2 in
  let body := object_insert TAG_KEY (JString op) body in
  match rid with Some rid => object_insert REQUEST_ID_KEY (JNumber rid) body | None => body end.

Definition decode_envelope (envelope : Envelope) : ReadFrameError + Frame :=
  let '(mkEnvelope op rid body) := envelope in
  match body with
  | JObject body =>
      if negb (op_is_well_formed op) then inl (UnknownOp op rid)
      else
        let body := tagged_body op rid body in
        match frame_of_object body with
        | Some frame => inr frame
        | None =>
            if bool_decide (op ∈ KNOWN_OPS) then inl (MalformedBody op rid (body_error body))
            else inl (UnknownOp op rid)
        end
  | _ => inl (MalformedFrame (quote +:+ "body" +:+ quote +:+ " is not an object"))
  end.

Definition decode_frame (payload : list Z) : ReadFrameError + Frame :=
  match from_slice payload with
  | inl text => inl (MalformedFrame text)
  | inr envelope => decode_envelope envelope
  end.

(** ** Frames on a stream *)

(** [u32::to_be_bytes] and [u32::from_be_bytes]. *)
Definition to_be_bytes (n : Z) : list Z :=
  [Z.land (Z.shiftr n 24) 255; Z.land (Z.shiftr n 16) 255; Z.land (Z.shiftr n 8) 255; Z.land n 255].
Definition from_be_bytes (l : list Z) : Z := fold_left (λ n b, 256 * n + b) l 0.

(** The bytes a [write_frame] puts on the stream, or why it wrote none. *)
Definition write_frame (frame : Frame) : string + list Z :=
  match encode_frame frame with
  | inl text => inl text
  | inr payload =>
      let n := Z.of_nat (length payload) in
      if MAX_FRAME_BYTES <? n then
        inl ("frame of " +:+ pretty n +:+ " bytes exceeds the " +:+ pretty MAX_FRAME_BYTES +:+
             "-byte maximum")
      else inr (to_be_bytes (n mod 2 ^ 32) ++ payload)
  end.

(** A reader: the bytes that will arrive, then [rd_end]. *)
Record reader : Type := mkReader { rd_bytes : list Z; rd_end : io_error }.

Definition read_exact (n : nat) (r : reader) : option (list Z * reader) :=
  if (n <=? length (rd_bytes r))%nat
  then Some (take n (rd_bytes r), mkReader (drop n (rd_bytes r)) (rd_end r))
  else None.

(** A failed [read_exact] has consumed what was there. *)
Definition exhausted (r : reader) : reader := mkReader [] (rd_end r).

Definition read_frame (r : reader) : (ReadFrameError + Frame) * reader :=
  match read_exact LENGTH_PREFIX_BYTES r with
  | None => (inl (Transport (ReadingLength (rd_end r))), exhausted r)
  | Some (length, r) =>
      let len := from_be_bytes length in
      if MAX_FRAME_BYTES <? len then (inl (Transport (FrameTooLong len)), r)
      else match read_exact (Z.to_nat len) r with
      | None => (inl (Transport (ReadingPayload (rd_end r))), exhausted r)
      | Some (payload, r) => (decode_frame payload, r)
      end
  end.

Definition is_transport (e : ReadFrameError) : bool :=
  match e with Transport _ => true | _ => false end.

(** A receive loop: read until the transport fails. A read consumes at least the four
    bytes of a prefix, so the stream's length is fuel enough. *)
Fixpoint read_all (fuel : nat) (r : reader) : list (ReadFrameError + Frame) :=
  match fuel with
  | O => []
  | S fuel =>
      match read_frame r with
      | (inl (Transport e), _) => [inl (Transport e)]
      | (outcome, r) => outcome :: read_all fuel r
      end
  end.

(** The stream of well-sized payloads. *)
Definition framed (payload : list Z) : list Z :=
  to_be_bytes (Z.of_nat (length payload)) ++ payload.

(** *** The prefix *)

Lemma from_to_be_bytes n : 0 ≤ n < 2 ^ 32 → from_be_bytes (to_be_bytes n) = n.
Proof.
  intros Hn. unfold from_be_bytes, to_be_bytes. cbn [fold_left].
  change 255 with (Z.ones 8). rewrite !Z.land_ones, !Z.shiftr_div_pow2 by lia.
  change (2 ^ 24) with (256 * 256 * 256). change (2 ^ 16) with (256 * 256). change (2 ^ 8) with 256.
  rewrite <- !Z.div_div by lia.
  pose proof (Z.div_mod n 256). pose proof (Z.div_mod (n / 256) 256).
  pose proof (Z.div_mod (n / 256 / 256) 256).
  rewrite (Z.mod_small (n / 256 / 256 / 256)); [lia|].
  rewrite !Z.div_div by lia. split; [apply Z.div_pos; lia|]. apply Z.div_lt_upper_bound; lia.
Qed.

Lemma length_to_be_bytes n : length (to_be_bytes n) = LENGTH_PREFIX_BYTES.
Proof. done. Qed.

Lemma read_exact_app l rest e n :
  n = length l → read_exact n (mkReader (l ++ rest) e) = Some (l, mkReader rest e).
Proof.
  intros ->. unfold read_exact. cbn [rd_bytes rd_end].
  rewrite (proj2 (Nat.leb_le _ _)) by (rewrite length_app; lia).
  by rewrite take_app_length, drop_app_length.
Qed.

(** A whole frame is consumed exactly, whatever it decodes to. *)
Lemma read_framed payload rest e :
  Z.of_nat (length payload) ≤ MAX_FRAME_BYTES →
  read_frame (mkReader (framed payload ++ rest) e) = (decode_frame payload, mkReader rest e).
Proof.
  intros Hlen. unfold read_frame, framed. rewrite <- app_assoc.
  rewrite (read_exact_app (to_be_bytes _)) by done. cbv zeta.
  rewrite from_to_be_bytes by (unfold MAX_FRAME_BYTES in *; lia).
  rewrite (proj2 (Z.ltb_ge _ _)) by done.
  by rewrite (read_exact_app payload) by lia.
Qed.

Lemma decode_is_not_transport payload e : decode_frame payload = inl e → is_transport e = false.
Proof.
  unfold decode_frame, decode_envelope. intros. repeat case_match; by simplify_eq.
Qed.

(** *** Objects *)

Lemma jget_object_insert k k' v o :
  jget k (object_insert k' v o) = if String.eqb k k' then Some v else jget k o.
Proof.
  induction o as [|[k2 v2] o IH]; simpl; [done|].
  destruct (String.eqb_spec k' k2) as [->|Hne]; simpl.
  - by destruct (String.eqb_spec k k2).
  - destruct (String.eqb_spec k k2) as [->|]; [|exact IH].
    destruct (String.eqb_spec k2 k'); [congruence|done].
Qed.

Lemma shift_remove_fst k o : (shift_remove k o).1 = jget k o.
Proof.
  induction o as [|[k2 v2] o IH]; simpl; [done|].
  destruct (String.eqb k k2); [done|]. by destruct (shift_remove k o).
Qed.

Lemma jget_shift_remove k k' o : k ≠ k' → jget k (shift_remove k' o).2 = jget k o.
Proof.
  intros Hk. induction o as [|[k2 v2] o IH]; simpl; [done|].
  destruct (String.eqb_spec k' k2) as [->|]; simpl.
  - by destruct (String.eqb_spec k k2).
  - destruct (shift_remove k' o) as [found o'] eqn:Hr. simpl in *. by rewrite IH.
Qed.

Lemma jget_None k o : k ∉ map fst o → jget k o = None.
Proof.
  induction o as [|[k2 v2] o IH]; simpl; [done|]. intros Hk.
  destruct (String.eqb_spec k k2) as [->|]; [by destruct Hk; left|]. apply IH. intros ?. apply Hk. by right.
Qed.

Lemma shift_remove_gone k o : NoDup (map fst o) → jget k (shift_remove k o).2 = None.
Proof.
  induction o as [|[k2 v2] o IH]; simpl; [done|]. intros [Hn Ho]%NoDup_cons.
  destruct (String.eqb_spec k k2) as [->|Hne]; simpl; [by apply jget_None|].
  destruct (shift_remove k o) as [found o'] eqn:Hr. simpl in *.
  destruct (String.eqb_spec k k2); [done|]. by apply IH.
Qed.

Lemma shift_remove_sublist k o : (shift_remove k o).2 `sublist_of` o.
Proof.
  induction o as [|[k2 v2] o IH]; simpl; [done|].
  destruct (String.eqb k k2); simpl; [by apply sublist_cons|].
  destruct (shift_remove k o) as [found o']. simpl in *. by apply sublist_skip.
Qed.

Lemma canon_shift_remove k o : (shift_remove k (canon_fields o)).2 = canon_fields (shift_remove k o).2.
Proof.
  unfold canon_fields. induction o as [|[k2 v2] o IH]; simpl; [done|].
  destruct (String.eqb k k2); simpl; [done|].
  destruct (shift_remove k o), (shift_remove k (map _ o)). simpl in *. by rewrite IH.
Qed.

Lemma canon_object_insert k v o :
  object_insert k (canon v) (canon_fields o) = canon_fields (object_insert k v o).
Proof.
  induction o as [|[k2 v2] o IH]; simpl; [done|].
  destruct (String.eqb k k2); simpl; [done|]. f_equal. apply IH.
Qed.

Lemma canon_tagged_body op r o :
  tagged_body op r (canon_fields o) = canon_fields (tagged_body op r o).
Proof.
  unfold tagged_body. cbv zeta. rewrite canon_shift_remove.
  rewrite (canon_object_insert TAG_KEY (JString op)).
  destruct r as [r|]; [|done]. by rewrite (canon_object_insert REQUEST_ID_KEY (JNumber r)).
Qed.

Lemma jget_tagged_body op r o k :
  NoDup (map fst o) →
  jget k (tagged_body op r o) =
    if String.eqb k REQUEST_ID_KEY then JNumber <$> r
    else if String.eqb k TAG_KEY then Some (JString op) else jget k o.
Proof.
  intros Hd. unfold tagged_body.
  assert (Hg : jget k (object_insert TAG_KEY (JString op) (shift_remove REQUEST_ID_KEY o).2) =
    if String.eqb k REQUEST_ID_KEY then None
    else if String.eqb k TAG_KEY then Some (JString op) else jget k o).
  { rewrite jget_object_insert. destruct (String.eqb_spec k REQUEST_ID_KEY) as [->|Hk].
    - simpl. by apply shift_remove_gone.
    - destruct (String.eqb k TAG_KEY); [done|]. by apply jget_shift_remove. }
  destruct r as [r|]; [|exact Hg]. rewrite jget_object_insert, Hg.
  by destruct (String.eqb k REQUEST_ID_KEY).
Qed.

(** *** Encoding *)

Definition body_fields (f : Frame) : list (string * json) :=
  (shift_remove REQUEST_ID_KEY (frame_fields f)).2.

(** A frame the codec carries: in range, and not nested past [serde_json]'s limit. *)
Definition sendable (f : Frame) : bool :=
  frame_ok f && (nesting (JObject (body_fields f)) <=? BODY_NESTING)%nat.

Lemma frame_fields_rid f : jget REQUEST_ID_KEY (frame_fields f) = JNumber <$> frame_request_id f.
Proof.
  unfold frame_fields; destruct f; expose_records; expose_fields; reflexivity.
Qed.

Lemma frame_fields_keys f : NoDup (map fst (frame_fields f)).
Proof.
  apply (bool_decide_unpack _).
  unfold frame_fields; destruct f; expose_records; expose_fields; reflexivity.
Qed.

Lemma encode_frame_eq f :
  frame_ok f = true →
  encode_frame f = inr (to_vec (mkEnvelope (frame_op f) (frame_request_id f) (JObject (body_fields f)))).
Proof.
  unfold frame_ok. intros [_ Hr]%andb_true_iff. unfold encode_frame, frame_object, body_fields.
  cbn [shift_remove]. cbv zeta. change (String.eqb TAG_KEY "type") with true. cbn match.
  pose proof (shift_remove_fst REQUEST_ID_KEY (frame_fields f)) as Hfst.
  rewrite frame_fields_rid in Hfst.
  destruct (shift_remove REQUEST_ID_KEY (frame_fields f)) as [found body]. simpl in Hfst. subst found.
  destruct (frame_request_id f) as [r|]; [|done]. simpl in Hr |- *.
  unfold number_as_u64. by rewrite Hr.
Qed.

(** *** Frames are within the text's domain *)

Lemma value_ok_int lo hi n :
  -9223372036854775808 <= lo → hi ≤ u64_max → (lo <=? n) && (n <=? hi) = true →
  value_ok (JNumber n) = true.
Proof.
  intros Hlo Hhi [Ha%Z.leb_le Hb%Z.leb_le]%andb_true_iff. simpl.
  apply andb_true_iff. split; apply Z.leb_le; lia.
Qed.

Lemma value_ok_u64 n : u64_ok n = true → value_ok (JNumber n) = true.
Proof. apply value_ok_int; done. Qed.
Lemma value_ok_u32 n : u32_ok n = true → value_ok (JNumber n) = true.
Proof. apply value_ok_int; done. Qed.
Lemma value_ok_u16 n : u16_ok n = true → value_ok (JNumber n) = true.
Proof. apply value_ok_int; done. Qed.
Lemma value_ok_i32 n : i32_ok n = true → value_ok (JNumber n) = true.
Proof. apply value_ok_int; done. Qed.

Lemma value_ok_list {A} (ok : A → bool) (enc : A → json) l :
  (∀ x, ok x = true → value_ok (enc x) = true) → forallb ok l = true →
  value_ok (JArray (map enc l)) = true.
Proof.
  intros He Hl. simpl. induction l as [|x l IH]; simpl in *; [done|].
  apply andb_true_iff in Hl as [Hx Hl]. by rewrite He, IH.
Qed.

Lemma value_ok_any {A} (enc : A → json) l :
  (∀ x, value_ok (enc x) = true) → value_ok (JArray (map enc l)) = true.
Proof. intros He. apply (value_ok_list (λ _, true)); [done|]. by induction l. Qed.

Lemma value_ok_bytes l : forallb byte_ok l = true → value_ok (bytes_value l) = true.
Proof. apply (value_ok_list byte_ok JNumber). intros x. apply value_ok_int; done. Qed.

Lemma value_ok_strings l : value_ok (JArray (map JString l)) = true.
Proof. by apply value_ok_any. Qed.

Lemma value_ok_pairs l : value_ok (JArray (map pair_value l)) = true.
Proof. by apply value_ok_any. Qed.

Lemma value_ok_f32 r : finite_f32 r = true → value_ok (f32_value r) = true.
Proof.
  intros Hr. unfold f32_value. rewrite Hr. simpl. rewrite f32_through_f64 by done.
  by rewrite Hr, Z.eqb_refl.
Qed.

Lemma value_ok_node n : node_ok n = true → value_ok (node_value n) = true.
Proof.
  induction n as [dir ratio a IHa b IHb|tabs active focused]; intros Hok.
  - simpl in Hok. apply andb_true_iff in Hok as [[Hr Ha]%andb_true_iff Hb].
    cbn [node_value value_ok forallb snd].
    rewrite value_ok_f32, IHa, IHb by done. by destruct dir.
  - assert (value_ok (JArray (map tab_value tabs)) = true) as Ht.
    { apply value_ok_any. by intros []. }
    pose proof (value_ok_u64 active Hok) as Ha.
    cbn [node_value value_ok forallb snd] in *. by rewrite Ht, Ha.
Qed.

Lemma value_ok_doc d : doc_ok d = true → value_ok (doc_value d) = true.
Proof.
  destruct d as [v n]. unfold doc_ok. cbn [schema_version root]. intros [Hv Hn]%andb_true_iff.
  pose proof (value_ok_u32 v Hv) as Ha. unfold doc_value.
  cbn [value_ok forallb snd schema_version root] in *. by rewrite Ha, value_ok_node.
Qed.

Lemma value_ok_status st : value_ok (status_value st) = true.
Proof. by destruct st. Qed.

Lemma value_ok_info x : info_ok x = true → value_ok (info_value x) = true.
Proof.
  unfold info_ok. intros Hx. pose proof (value_ok_u64 _ Hx) as Ha. unfold info_value.
  cbn [value_ok forallb snd] in *. by rewrite Ha, value_ok_status.
Qed.

Lemma value_ok_workspace x : workspace_value_ok x = true → value_ok (workspace_value x) = true.
Proof.
  unfold workspace_value_ok. intros [[[Ha Hb]%andb_true_iff Hc]%andb_true_iff Hd]%andb_true_iff.
  apply value_ok_u64 in Ha, Hb, Hc. apply value_ok_doc in Hd.
  unfold workspace_value. cbn [value_ok]. rewrite !forallb_app. cbn [forallb snd value_ok] in *.
  rewrite Ha, Hb, Hc, Hd. by destruct (wi_project_id x), (wi_project_identity x).
Qed.
End Framing.

Create HintDb value_ok discriminated.
#[export] Hint Resolve value_ok_u64 value_ok_u32 value_ok_u16 value_ok_i32 value_ok_bytes value_ok_strings
  value_ok_pairs value_ok_doc value_ok_status value_ok_info value_ok_workspace : value_ok.
#[export] Hint Extern 1 (value_ok (JArray (map info_value _)) = true) =>
  apply (value_ok_list info_ok); [apply value_ok_info|assumption] : value_ok.
#[export] Hint Extern 1 (value_ok (JArray (map workspace_value _)) = true) =>
  apply (value_ok_list workspace_value_ok); [apply value_ok_workspace|assumption] : value_ok.

Section Codec.
Context `{EnvelopeText, BodyErrors}.

Definition field_ok (kv : string * json) : Prop := value_ok kv.2 = true.

Lemma put_some_ok {A} k (enc : A → json) o :
  (∀ x, o = Some x → value_ok (enc x) = true) → Forall field_ok (put_some k enc o).
Proof. intros Ho. destruct o; simpl; [|done]. constructor; [by apply Ho|done]. Qed.

Lemma put_ratio_ok k ok o :
  opt_ok ok o = true → (∀ n, ok n = true → value_ok (JNumber n) = true) →
  Forall field_ok (put_some k JNumber o).
Proof. intros Ho He. apply put_some_ok. intros x ->. by apply He. Qed.

Lemma put_nonempty_ok {A} k (enc : A → json) l :
  (∀ x, value_ok (enc x) = true) → Forall field_ok (put_nonempty k enc l).
Proof.
  intros He. pose proof (value_ok_any enc l He). destruct l; simpl; [done|]. by constructor.
Qed.

Lemma put_unless_true_ok k b : Forall field_ok (put_unless_true k b).
Proof. destruct b; simpl; [done|]. by constructor. Qed.

Ltac fields_ok :=
  repeat first
    [ apply List.Forall_nil
    | apply List.Forall_cons; [unfold field_ok; cbn [snd]; solve [reflexivity | auto with value_ok]|]
    | apply Forall_app_2
    | apply put_nonempty_ok; intros; reflexivity
    | apply put_unless_true_ok
    | eapply put_ratio_ok; [eassumption|solve [auto with value_ok]]
    | apply put_some_ok; intros; reflexivity ].

Lemma frame_fields_value_ok f : frame_ok f = true → Forall field_ok (frame_fields f).
Proof.
  unfold frame_ok. intros [Hb Hr]%andb_true_iff.
  destruct f; expose_records; repeat match goal with
    H : _ && _ = true |- _ => apply andb_true_iff in H as [? ?] end; fields_ok.
Qed.

Lemma body_value_ok f : frame_ok f = true → value_ok (JObject (body_fields f)) = true.
Proof.
  intros Hok. simpl. apply forallb_forall. intros kv Hin.
  pose proof (frame_fields_value_ok f Hok) as Hf. rewrite Forall_forall in Hf.
  apply Hf. unfold body_fields in Hin. apply list_elem_of_In in Hin.
  eapply elem_of_sublist; [exact Hin|]. apply shift_remove_sublist.
Qed.

Lemma map_sublist {A B} (f : A → B) l k : l `sublist_of` k → map f l `sublist_of` map f k.
Proof. induction 1; simpl; by constructor. Qed.

Lemma body_fields_keys f : NoDup (map fst (body_fields f)).
Proof.
  eapply sublist_NoDup; [apply (frame_fields_keys f)|].
  apply (map_sublist fst), shift_remove_sublist.
Qed.

Lemma known_ops_well_formed : forallb op_is_well_formed KNOWN_OPS = true.
Proof. vm_compute. reflexivity. Qed.

Lemma frame_op_well_formed f : op_is_well_formed (frame_op f) = true.
Proof.
  pose proof known_ops_well_formed as Hk. rewrite forallb_forall in Hk.
  apply Hk, list_elem_of_In, frame_op_known.
Qed.

(** Stage two reads a frame's own envelope back, whatever the floats' spelling. *)
Lemma tagged_body_reads f o :
  frame_ok f = true → canon_fields o = canon_fields (body_fields f) →
  frame_of_object (tagged_body (frame_op f) (frame_request_id f) o) = Some f.
Proof.
  intros Hok Ho. rewrite <- frame_of_object_canon, <- canon_tagged_body, Ho, canon_tagged_body,
    frame_of_object_canon.
  rewrite <- (frame_of_frame_object f) by done. apply frame_of_object_ext. intros k.
  rewrite jget_tagged_body by apply body_fields_keys. unfold frame_object. cbn [jget].
  destruct (String.eqb_spec k REQUEST_ID_KEY) as [->|Hk].
  - change (String.eqb REQUEST_ID_KEY "type") with false. cbn match. by rewrite frame_fields_rid.
  - change TAG_KEY with "type". destruct (String.eqb k "type"); [done|].
    by apply jget_shift_remove.
Qed.

Lemma decode_encode f payload :
  sendable f = true → encode_frame f = inr payload → decode_frame payload = inr f.
Proof.
  unfold sendable. intros [Hok Hn%Nat.leb_le]%andb_true_iff. rewrite encode_frame_eq by done.
  intros [= <-].
  destruct (from_slice_to_vec (frame_op f) (frame_request_id f) (JObject (body_fields f)))
    as (body' & Hparse & Hsame); [by apply body_value_ok| |done| |].
  { apply bool_decide_eq_true, body_fields_keys. }
  { unfold frame_ok in Hok. by apply andb_true_iff in Hok as [_ Hr]. }
  unfold decode_frame. rewrite Hparse. cbn [decode_envelope].
  assert (∃ o, body' = JObject o ∧ canon_fields o = canon_fields (body_fields f)) as (o & -> & Ho).
  { unfold equiv, json_equiv in Hsame. destruct body'; simpl in Hsame; try done; [by case_match|].
    injection Hsame as Hsame. by eexists. }
  rewrite frame_op_well_formed. cbn [negb]. cbv zeta. by rewrite tagged_body_reads.
Qed.

(** ** What decoding gives *)

(** C14. The outcome of decoding is decided by the envelope alone: text that is not an
    envelope with an object body is [MalformedFrame]; otherwise a frame of exactly the
    envelope's [op], whose request id is the envelope's [rid] or absent (never one from
    the body), or a request-scoped error that carries the envelope's [op] and [rid],
    [UnknownOp] exactly when this build does not know the [op]. *)
Theorem decode_outcome payload :
  match from_slice payload with
  | inl text => decode_frame payload = inl (MalformedFrame text)
  | inr (mkEnvelope op r (JObject o)) =>
      match decode_frame payload with
      | inr f => op ∈ KNOWN_OPS ∧ frame_op f = op ∧
                 (frame_request_id f = None ∨ frame_request_id f = r)
      | inl (UnknownOp op' r') => op' = op ∧ r' = r ∧ op ∉ KNOWN_OPS
      | inl (MalformedBody op' r' _) => op' = op ∧ r' = r ∧ op ∈ KNOWN_OPS
      | inl _ => False
      end
  | inr _ => ∃ detail, decode_frame payload = inl (MalformedFrame detail)
  end.
Proof.
  unfold decode_frame. destruct (from_slice payload) as [text|[op r body]] eqn:Hparse; [done|].
  destruct body as [| | | | | |o]; try (by eexists). cbn [decode_envelope].
  destruct (op_is_well_formed op) eqn:Hwf; cbn [negb].
  2: { split_and!; [done..|]. intros Hin. pose proof known_ops_well_formed as Hk.
       rewrite forallb_forall in Hk. apply list_elem_of_In in Hin. by rewrite (Hk op Hin) in Hwf. }
  cbv zeta. destruct (frame_of_object _) as [f|] eqn:Hf.
  - assert (Hd := from_slice_keys _ _ _ _ Hparse).
    assert (Htag : jget "type" (tagged_body op r o) = Some (JString op)).
    { by rewrite jget_tagged_body. }
    destruct (frame_of_object_shape _ op f Htag Hf) as [Hop Hrid].
    split_and!; [by eapply frame_of_object_op|done|].
    destruct Hrid as [|Hrid]; [by left|right].
    unfold rid_of, optional in Hrid. rewrite jget_tagged_body in Hrid by done.
    pose proof (from_slice_rid _ _ Hparse) as Hr. cbn [env_rid] in Hr.
    change (String.eqb "request_id" REQUEST_ID_KEY) with true in Hrid. cbn match in Hrid.
    destruct r as [r|]; cbn [fmap option_fmap option_map] in Hrid; [|by injection Hrid].
    rewrite as_int_number in Hrid by exact Hr. by injection Hrid.
  - case_bool_decide; by split_and!.
Qed.

(** ** The stream *)

Lemma read_all_framed payloads e fuel :
  Forall (λ p, Z.of_nat (length p) ≤ MAX_FRAME_BYTES) payloads →
  (length payloads < fuel)%nat →
  read_all fuel (mkReader (concat (map framed payloads)) e) =
    map decode_frame payloads ++ [inl (Transport (ReadingLength e))].
Proof.
  intros Hp. revert fuel. induction Hp as [|p ps Hlen Hp IH]; intros [|fuel] Hf; simpl in Hf; try lia.
  - done.
  - cbn [map concat read_all]. rewrite read_framed by done.
    destruct (decode_frame p) as [err|f] eqn:Hd; cbn [app]; [|by rewrite IH by lia].
    pose proof (decode_is_not_transport _ _ Hd). destruct err; [done|..]; by rewrite IH by lia.
Qed.

Lemma read_stream payloads e :
  Forall (λ p, Z.of_nat (length p) ≤ MAX_FRAME_BYTES) payloads →
  let r := mkReader (concat (map framed payloads)) e in
  read_all (S (length (rd_bytes r))) r =
    map decode_frame payloads ++ [inl (Transport (ReadingLength e))].
Proof.
  intros Hp r. apply read_all_framed; [done|]. subst r. cbn [rd_bytes]. apply Nat.lt_succ_r.
  clear Hp. induction payloads as [|p ps IH]; [done|].
  cbn [map concat length]. unfold framed at 1. rewrite !length_app, length_to_be_bytes.
  unfold LENGTH_PREFIX_BYTES. lia.
Qed.

(** One bad frame costs one request: a stream of payloads within the limit, whatever
    bytes they hold, is read as exactly their decodings in order, none of which is a
    transport failure, and the connection ends only where the stream does. *)
Theorem stream_reads_every_payload payloads e :
  Forall (λ p, Z.of_nat (length p) ≤ MAX_FRAME_BYTES) payloads →
  let r := mkReader (concat (map framed payloads)) e in
  read_all (S (length (rd_bytes r))) r =
    map decode_frame payloads ++ [inl (Transport (ReadingLength e))] ∧
  ∀ err, inl err ∈ map decode_frame payloads → is_transport err = false.
Proof.
  intros Hp r. split; [by apply read_stream|]. intros err Hin.
  apply list_elem_of_fmap in Hin as (p & Hd & _). by eapply decode_is_not_transport.
Qed.

Definition written_frame (f : Frame) : option (list Z) :=
  match write_frame f with inr bytes => Some bytes | inl _ => None end.

Lemma written_is_framed f bytes :
  sendable f = true → written_frame f = Some bytes →
  ∃ payload, bytes = framed payload ∧ Z.of_nat (length payload) ≤ MAX_FRAME_BYTES ∧
    decode_frame payload = inr f.
Proof.
  intros Hs. unfold written_frame, write_frame.
  destruct (encode_frame f) as [|payload] eqn:He; [done|].
  destruct (MAX_FRAME_BYTES <? Z.of_nat (length payload)) eqn:Hlen; [done|]. intros [= <-].
  apply Z.ltb_ge in Hlen. exists payload. split_and!; [|done|by apply decode_encode].
  unfold framed. by rewrite Z.mod_small by (unfold MAX_FRAME_BYTES in *; lia).
Qed.

(** C13. What [write_frame] puts on a stream, [read_frame] takes off it: sendable frames
    written one after the other are read back in order, and then the stream's end. *)
Theorem frames_cross_the_stream frames written e :
  forallb sendable frames = true → mapM written_frame frames = Some written →
  let r := mkReader (concat written) e in
  read_all (S (length (rd_bytes r))) r =
    map inr frames ++ [inl (Transport (ReadingLength e))].
Proof.
  intros Hs Hw.
  assert (∃ payloads, concat written = concat (map framed payloads) ∧
    Forall (λ p, Z.of_nat (length p) ≤ MAX_FRAME_BYTES) payloads ∧
    map decode_frame payloads = map inr frames) as (payloads & Hc & Hp & Hd).
  { apply mapM_Some in Hw. induction Hw as [|f bytes frames written Hf Hw IH]; [by exists []|].
    apply andb_true_iff in Hs as [Hsf Hs]. destruct (IH Hs) as (ps & Hc & Hp & Hd).
    destruct (written_is_framed f bytes Hsf Hf) as (p & -> & Hlen & Hdec).
    exists (p :: ps). split_and!; [simpl; by rewrite Hc|by constructor|simpl; by rewrite Hdec, Hd]. }
  rewrite Hc, <- Hd. by apply read_stream.
Qed.
End Codec.

(** ** Replies to bad frames *)

Section Rejections.
Context `{Unicode}.

Lemma length_hex_fuel fuel n : (String.length (hex_fuel fuel n) ≤ fuel)%nat.
Proof.
  revert n. induction fuel as [|fuel IH]; intros n; [done|].
  cbn [hex_fuel]. rewrite length_str_app. specialize (IH (n / 16)%N).
  destruct (n <? 16)%N; cbn; lia.
Qed.

Lemma length_escape n : (String.length (unicode_escape n) ≤ 10)%nat.
Proof.
  unfold unicode_escape, hex. rewrite !length_str_app. pose proof (length_hex_fuel 6 n). cbn [String.length]. lia.
Qed.

Lemma length_ascii_escape n : (n < 128)%N → (String.length (unicode_escape n) ≤ 6)%nat.
Proof.
  intros Hn. unfold unicode_escape, hex. cbn [hex_fuel].
  assert (n / 16 < 16)%N by (apply N.Div0.div_lt_upper_bound; lia).
  rewrite (proj2 (N.ltb_lt (n / 16) 16)) by done.
  destruct (n <? 16)%N; rewrite !length_str_app; cbn; lia.
Qed.

Lemma length_debug_ascii c : (String.length (debug_ascii c) ≤ 6)%nat.
Proof.
  unfold debug_ascii. cbv zeta. repeat (case_match; [cbn; try lia|]); [|cbn; lia].
  apply length_ascii_escape.
  match goal with E : (_ || _)%bool = true |- _ => apply orb_true_iff in E as [E%N.ltb_lt|E%N.eqb_eq] end;
  lia.
Qed.

Lemma length_debug_wide n raw :
  (String.length raw ≤ 10)%nat → (String.length (debug_wide n raw) ≤ 10)%nat.
Proof. intros Hr. unfold debug_wide. pose proof (length_escape n). by case_match. Qed.

Lemma length_debug_chars_upto k s :
  (String.length s ≤ k)%nat → (String.length (debug_chars s) ≤ 6 * String.length s)%nat.
Proof.
  revert s. induction k as [|k IH]; intros [|a s1] Hk; cbn [String.length] in Hk; [cbn; lia|lia|cbn; lia|].
  cbn [debug_chars]. cbv zeta. destruct (N_of_ascii a <? 192)%N.
  { rewrite length_str_app. pose proof (length_debug_ascii a). specialize (IH s1). cbn [String.length]. lia. }
  destruct s1 as [|b s2]; [cbn; lia|]. cbn [String.length] in Hk.
  destruct (N_of_ascii a <? 224)%N.
  { rewrite length_str_app.
    pose proof (length_debug_wide ((N_of_ascii a - 192) * 64 + low_bits b) (String a (String b ""))).
    specialize (IH s2). cbn [String.length] in *. lia. }
  destruct s2 as [|c s3]; [cbn; lia|]. cbn [String.length] in Hk.
  destruct (N_of_ascii a <? 240)%N.
  { rewrite length_str_app.
    pose proof (length_debug_wide (((N_of_ascii a - 224) * 64 + low_bits b) * 64 + low_bits c)
      (String a (String b (String c "")))).
    specialize (IH s3). cbn [String.length] in *. lia. }
  destruct s3 as [|d s4]; [cbn; lia|]. cbn [String.length] in Hk.
  rewrite length_str_app.
  pose proof (length_debug_wide ((((N_of_ascii a - 240) * 64 + low_bits b) * 64 + low_bits c) * 64 + low_bits d)
    (String a (String b (String c (String d ""))))).
  specialize (IH s4). cbn [String.length] in *. lia.
Qed.

Lemma length_debug_str s : (String.length (debug_str s) ≤ 6 * String.length s + 2)%nat.
Proof.
  unfold debug_str. rewrite !length_str_app. pose proof (length_debug_chars_upto _ s (le_n _)).
  cbn [quote String.length]. lia.
Qed.

Lemma length_read_error e :
  is_transport e = false → (String.length (read_error_text e) ≤ 950)%nat.
Proof.
  intros He. destruct e as [|detail|op r|op r detail]; [done|..]; cbn [read_error_text];
    rewrite !length_str_app.
  - pose proof (bounded_length detail). unfold MAX_QUOTED_BYTES in *. cbn [String.length]. lia.
  - pose proof (bounded_length op). pose proof (length_debug_str (bounded op)).
    unfold MAX_QUOTED_BYTES in *. cbn [String.length]. lia.
  - pose proof (bounded_length op). pose proof (length_debug_str (bounded op)).
    pose proof (bounded_length detail). unfold MAX_QUOTED_BYTES in *. cbn [String.length]. lia.
Qed.

(** A frame that did not decode is answered by one error that carries the frame's
    own correlation id, a code with the failure's scope, and at most 950 bytes of
    message however long the peer's text was. It goes unanswered exactly when the
    transport failed or a request-scoped failure had no id. *)
Theorem rejection_is_addressed_and_bounded error :
  match rejection_frame error with
  | Some reply => ∃ code message,
      reply = Frame_Error None None code message (error_rid error) ∧
      (String.length message ≤ 950)%nat ∧
      error_code.is_request_scoped code = error_is_request_scoped error ∧
      is_transport error = false ∧
      (error_is_request_scoped error = true → error_rid error ≠ None)
  | None => is_transport error = true ∨ error_is_request_scoped error = true ∧ error_rid error = None
  end.
Proof.
  pose proof (length_read_error error) as Hlen.
  destruct error as [e|detail|op [r|]|op [r|] detail]; cbn [rejection_frame fmap option_fmap option_map];
    try (by auto); eexists _, _; (split; [reflexivity|]); (split; [by apply Hlen|]); by split_and!.
Qed.
End Rejections.
