(* ===== verification/Client.v ===== *)
(** * A connection's two ends

    [Connection] of [crates/ade_session/src/client.rs]: frames on a duplex stream, and
    the client's half of the opening handshake, which holds the daemon to the range of
    generations the client offered. *)

From S2P Require Import Prelude Text Layout Proto Ledger Wire Frames Framing.
From stdpp Require Import options pretty.
Open Scope Z_scope.

(** The [write_str] calls the derived [Debug] of a frame makes. *)
Class FrameDebug : Type := { debug_pieces : Frame → list string }.

(** A duplex stream: what was written, and what there is to read. *)
Record Connection : Type := mkConnection { cn_written : list Z; cn_reader : reader }.

(** [is_handshake_eof]: the peer closed without answering. *)
Definition is_handshake_eof (error : ReadFrameError) : bool :=
  match error with
  | Transport (ReadingLength UnexpectedEof) | Transport (ReadingPayload UnexpectedEof) => true
  | _ => false
  end.

Section Client.
Context `{EnvelopeText, BodyErrors, Unicode, FrameDebug}.

Definition connection_send (frame : Frame) : st Connection (string + ()) := λ c,
  match write_frame frame with
  | inl text => (inl text, c)
  | inr bytes => (inr (), mkConnection (cn_written c ++ bytes) (cn_reader c))
  end.

Definition connection_recv : st Connection (ReadFrameError + Frame) := λ c,
  let '(outcome, r) := read_frame (cn_reader c) in (outcome, mkConnection (cn_written c) r).

(** What [Connection::handshake] makes of the reply to [hello]. *)
Definition accept_reply (hello : Hello) (reply : Frame) : string + HelloAck :=
  match reply with
  | Frame_HelloAck ack =>
      let min := h_min_generation hello in
      let max := h_max_generation hello in
      if (ack_generation ack <? min) || (max <? ack_generation ack) then
        inl ("daemon " +:+ bounded (ack_daemon_version ack) +:+ " selected protocol generation " +:+
             pretty (ack_generation ack) +:+ ", outside the " +:+ pretty min +:+ "..=" +:+ pretty max +:+
             " this connection offered (the daemon offers " +:+ pretty (ack_min_generation ack) +:+
             "..=" +:+ pretty (ack_max_generation ack) +:+ ")")
      else inr ack
  | Frame_Error _ _ code message _ =>
      inl ("daemon rejected handshake [" +:+ bounded code +:+ "]: " +:+ bounded message)
  | other => inl ("expected HelloAck, got " +:+ bounded_debug (debug_pieces other))
  end.

Definition client_handshake (hello : Hello) : st Connection (string + HelloAck) :=
  sent ← connection_send (Frame_Hello hello);
  match sent with
  | inl text => mret (inl text)
  | inr _ =>
      reply ← connection_recv;
      mret (match reply with
            | inl err => inl (read_error_text err)
            | inr reply => accept_reply hello reply
            end)
  end.

(** A connection cut inside a frame is a transport failure wherever the cut falls,
    and is taken for a daemon that predates the protocol exactly when it is the stream
    that ended. *)
Theorem cut_frame_is_a_transport_failure payload k e :
  Z.of_nat (length payload) ≤ MAX_FRAME_BYTES → (k < length (framed payload))%nat →
  ∃ err, (read_frame (mkReader (take k (framed payload)) e)).1 = inl err ∧
    is_transport err = true ∧ (is_handshake_eof err = true ↔ e = UnexpectedEof).
Proof.
  intros Hlen Hk. unfold framed in Hk. rewrite length_app, length_to_be_bytes in Hk.
  unfold read_frame, read_exact. cbn [rd_bytes rd_end].
  assert (Hcut : length (take k (framed payload)) = k).
  { rewrite length_take. unfold framed. rewrite length_app, length_to_be_bytes. lia. }
  rewrite Hcut. destruct (LENGTH_PREFIX_BYTES <=? k)%nat eqn:Hp; cbv zeta; cbn match.
  2: { eexists. split; [reflexivity|]. split; [done|]. destruct e; simpl; split; congruence. }
  apply Nat.leb_le in Hp.
  assert (Htake : take LENGTH_PREFIX_BYTES (take k (framed payload)) =
    to_be_bytes (Z.of_nat (length payload))).
  { rewrite take_take, Nat.min_l by done. unfold framed. by rewrite take_app_length'. }
  rewrite Htake, from_to_be_bytes by (unfold MAX_FRAME_BYTES in *; lia).
  rewrite (proj2 (Z.ltb_ge _ _)) by done. cbn [rd_bytes rd_end]. rewrite length_drop, Hcut, Nat2Z.id.
  rewrite (proj2 (Nat.leb_gt _ _)) by (unfold LENGTH_PREFIX_BYTES in *; lia).
  eexists. split; [reflexivity|]. split; [done|]. destruct e; simpl; split; congruence.
Qed.
End Client.
