(* ===== verification/World.v ===== *)
(** * The daemon's state

    The fields of [SessionTable], [Session] and [Live]
    ([crates/ade_session_daemon/src/sessions.rs]) as one record, the operating
    system as an interface, and the computations over both. *)

From S2P Require Import Prelude Text Layout Proto Outbound Stream Host Hub Ledger.
From stdpp Require Import options.
Open Scope Z_scope.

(** ** The operating system

    Every question the daemon asks has its answer indexed by the moment it is
    asked ([w_tick]), so an operation's outcome is a function of the state. *)
Class OS : Type := mkOS {
  os_fail : nat → option string;        (* a fallible call: [Some] is its error *)
  os_instant : nat → Z;                 (* [Instant::now()] *)
  os_unix : nat → Z;                    (* [now_unix()] *)
  os_uuid : nat → string;               (* [Uuid::new_v4()] *)
  os_pid : nat → option Z;              (* [Child::process_id()] *)
  os_leader : nat → option Z;           (* [MasterPty::process_group_leader()] *)
  os_comm : nat → Z → option string;    (* [/proc/<pid>/comm] *)
  os_host : host
}.

(** ** Errors *)

Record TableError : Type := mkTableError { te_code : string; te_message : string }.

#[export] Instance TableError_eq_dec : EqDecision TableError.
Proof. solve_decision. Defined.

Definition not_found (message : string) : TableError := mkTableError error_code.NOT_FOUND message.
Definition invalid_argument (message : string) : TableError :=
  mkTableError error_code.INVALID_ARGUMENT message.
Definition stale_rev (message : string) : TableError := mkTableError error_code.STALE_REV message.
Definition persist_failed (message : string) : TableError :=
  mkTableError error_code.PERSIST_FAILED message.
Definition internal (message : string) : TableError := mkTableError error_code.INTERNAL message.
Definition unsupported (message : string) : TableError := mkTableError error_code.DECLINED message.

(** An [anyhow] error with one context, rendered with [{err:#}]. *)
Definition with_context (context err : string) : TableError :=
  internal (context +:+ ": " +:+ err).

Abbreviation TableResult A := (result TableError A).

(** ** Sessions *)

(** The live half of a session: what is asked of its pty goes to the log
    [w_ptys] under the session's handle. *)
Record Live : Type := mkLive { live_pid : option Z }.

(** [s_handle] names the output hub and the activity record the session shares
    with its drain and reaper threads. *)
Record Session : Type := mkSession {
  s_info : SessionInfo;
  s_since : Z;
  s_lost : bool;
  s_live : option Live;
  s_handle : N;
  s_cols : Z;
  s_rows : Z;
  s_sizes : list (SubscriberId * (Z * Z));
  s_view_ids : list (SubscriberId * string);
  s_focused_view : option string
}.

#[export] Instance Live_eq_dec : EqDecision Live.
Proof. solve_decision. Defined.
#[export] Instance Session_eq_dec : EqDecision Session.
Proof. solve_decision. Defined.

Definition s_id (s : Session) : SessionId := si_id (s_info s).
Definition s_workspace (s : Session) : string := si_workspace_id (s_info s).

Definition with_status (status : SessionStatus) (info : SessionInfo) : SessionInfo :=
  mkSessionInfo (si_id info) (si_workspace_id info) (si_agent_kind info) (si_instance_label info)
    (si_cwd info) (si_created_at info) status.

Definition set_status (status : SessionStatus) (since : Z) (s : Session) : Session :=
  mkSession (with_status status (s_info s)) since (s_lost s) (s_live s) (s_handle s) (s_cols s)
    (s_rows s) (s_sizes s) (s_view_ids s) (s_focused_view s).

Definition set_size (cols rows : Z) (s : Session) : Session :=
  mkSession (s_info s) (s_since s) (s_lost s) (s_live s) (s_handle s) cols rows (s_sizes s)
    (s_view_ids s) (s_focused_view s).

Definition set_clients (sizes : list (SubscriberId * (Z * Z)))
    (view_ids : list (SubscriberId * string)) (focused : option string) (s : Session) : Session :=
  mkSession (s_info s) (s_since s) (s_lost s) (s_live s) (s_handle s) (s_cols s) (s_rows s)
    sizes view_ids focused.

(** [Iterator::reduce] of the element-wise minimum. *)
Definition min_size (a b : Z * Z) : Z * Z := (Z.min a.1 b.1, Z.min a.2 b.2).

Definition reduce_min (sizes : list (Z * Z)) : option (Z * Z) :=
  match sizes with [] => None | x :: l => Some (foldl min_size x l) end.

(** The ask of the focused view's client, if the focus resolves to one. *)
Definition focused_ask (s : Session) : option (Z * Z) :=
  view ← s_focused_view s;
  owner ← fst <$> find_first (λ v, bool_decide (v.2 = view)) (s_view_ids s);
  snd <$> find_first (λ a, N.eqb a.1 owner) (s_sizes s).

Definition effective_size (s : Session) : option (Z * Z) :=
  match focused_ask s with
  | Some size => Some size
  | None => reduce_min (map snd (s_sizes s))
  end.

Definition not_client {A} (who : SubscriberId) (x : SubscriberId * A) : bool := negb (N.eqb x.1 who).

Definition remember_view (who : SubscriberId) (view_id : string) (s : Session) : Session :=
  set_clients (s_sizes s) (List.filter (not_client who) (s_view_ids s) ++ [(who, view_id)])
    (s_focused_view s) s.

Definition current_size (s : Session) : Z * Z := (s_cols s, s_rows s).

(** [Option::filter(|size| size != (cols, rows))]. *)
Definition if_changed (s : Session) (size : option (Z * Z)) : option (Z * Z) :=
  e ← size; if decide (e = current_size s) then None else Some e.

Definition forget_client (who : SubscriberId) (s : Session) : option (Z * Z) * Session :=
  let '(views, focused, touched) :=
    match position (λ v, N.eqb v.1 who) (s_view_ids s) with
    | Some index =>
        let view := snd <$> s_view_ids s !! index in
        let views := swap_remove index (s_view_ids s) in
        if bool_decide (s_focused_view s = view) then (views, None, true)
        else (views, s_focused_view s, false)
    | None => (s_view_ids s, s_focused_view s, false)
    end in
  let sizes := List.filter (not_client who) (s_sizes s) in
  let touched := touched || bool_decide (length sizes ≠ length (s_sizes s)) in
  let s' := set_clients sizes views focused s in
  (if touched then if_changed s' (effective_size s') else None, s').

(** [keeps_a_live_terminal] on unix. *)
Definition keeps_a_live_terminal (_ : Session) : bool := false.

(** [derive_status]: [is_shell] is [foreground_is_shell] of the session's pty. *)
Definition derive_status (s : Session) (a : Activity) (config : StatusConfig) (now : Z)
    (is_shell : option bool) : SessionStatus :=
  if s_lost s then Exited
  else if dead a then Exited
  else if bell a then NeedsInput
  else if saturating_sub now (last_output a) <? needs_input_after config then Working
  else if bool_decide (s_live s ≠ None ∧ is_shell = Some true) then Idle
  else NeedsInput.

(** ** The table and what surrounds it *)

(** What the daemon did to its ptys. *)
Inductive pty_call : Type :=
| PtySpawn (handle : N) (command : spawn_command) (cols rows : Z)
| PtyWrite (handle : N) (bytes : list Z)
| PtyResize (handle : N) (cols rows : Z).

Record world (G : Type) : Type := mkWorld {
  w_sessions : gmap string Session;
  w_workspaces : gmap string WorkspaceInfo;
  w_events : EventHub;
  w_pending : list PersistedSession;
  w_store : StateStore;
  w_status : StatusConfig;
  w_authoritative : bool;
  w_connections : Z;
  w_active : Z;
  w_hubs : gmap N (OutputHub G);
  w_activities : gmap N Activity;
  w_queues : queues;
  w_ptys : list pty_call;
  w_signals : list kill_call;
  w_tick : nat
}.
Arguments mkWorld {G}.
Arguments w_sessions {G} _.
Arguments w_workspaces {G} _.
Arguments w_events {G} _.
Arguments w_pending {G} _.
Arguments w_store {G} _.
Arguments w_status {G} _.
Arguments w_authoritative {G} _.
Arguments w_connections {G} _.
Arguments w_active {G} _.
Arguments w_hubs {G} _.
Arguments w_activities {G} _.
Arguments w_queues {G} _.
Arguments w_ptys {G} _.
Arguments w_signals {G} _.
Arguments w_tick {G} _.

(** A change of one field leaves the others. *)
Section Setters.
Context {G : Type}.
Implicit Types w : world G.

Definition set_sessions (m : gmap string Session) w : world G :=
  mkWorld m (w_workspaces w) (w_events w) (w_pending w) (w_store w) (w_status w)
    (w_authoritative w) (w_connections w) (w_active w) (w_hubs w) (w_activities w) (w_queues w)
    (w_ptys w) (w_signals w) (w_tick w).
Definition set_workspaces (m : gmap string WorkspaceInfo) w : world G :=
  mkWorld (w_sessions w) m (w_events w) (w_pending w) (w_store w) (w_status w)
    (w_authoritative w) (w_connections w) (w_active w) (w_hubs w) (w_activities w) (w_queues w)
    (w_ptys w) (w_signals w) (w_tick w).
Definition set_events (e : EventHub) (qs : queues) w : world G :=
  mkWorld (w_sessions w) (w_workspaces w) e (w_pending w) (w_store w) (w_status w)
    (w_authoritative w) (w_connections w) (w_active w) (w_hubs w) (w_activities w) qs
    (w_ptys w) (w_signals w) (w_tick w).
Definition set_pending (l : list PersistedSession) w : world G :=
  mkWorld (w_sessions w) (w_workspaces w) (w_events w) l (w_store w) (w_status w)
    (w_authoritative w) (w_connections w) (w_active w) (w_hubs w) (w_activities w) (w_queues w)
    (w_ptys w) (w_signals w) (w_tick w).
Definition set_store (s : StateStore) w : world G :=
  mkWorld (w_sessions w) (w_workspaces w) (w_events w) (w_pending w) s (w_status w)
    (w_authoritative w) (w_connections w) (w_active w) (w_hubs w) (w_activities w) (w_queues w)
    (w_ptys w) (w_signals w) (w_tick w).
Definition set_connections (connections active : Z) w : world G :=
  mkWorld (w_sessions w) (w_workspaces w) (w_events w) (w_pending w) (w_store w) (w_status w)
    (w_authoritative w) connections active (w_hubs w) (w_activities w) (w_queues w)
    (w_ptys w) (w_signals w) (w_tick w).
Definition set_hubs (hubs : gmap N (OutputHub G)) (qs : queues) w : world G :=
  mkWorld (w_sessions w) (w_workspaces w) (w_events w) (w_pending w) (w_store w) (w_status w)
    (w_authoritative w) (w_connections w) (w_active w) hubs (w_activities w) qs
    (w_ptys w) (w_signals w) (w_tick w).
Definition set_activities (m : gmap N Activity) w : world G :=
  mkWorld (w_sessions w) (w_workspaces w) (w_events w) (w_pending w) (w_store w) (w_status w)
    (w_authoritative w) (w_connections w) (w_active w) (w_hubs w) m (w_queues w)
    (w_ptys w) (w_signals w) (w_tick w).
Definition log_pty (c : pty_call) w : world G :=
  mkWorld (w_sessions w) (w_workspaces w) (w_events w) (w_pending w) (w_store w) (w_status w)
    (w_authoritative w) (w_connections w) (w_active w) (w_hubs w) (w_activities w) (w_queues w)
    (w_ptys w ++ [c]) (w_signals w) (w_tick w).
Definition log_signals (cs : list kill_call) w : world G :=
  mkWorld (w_sessions w) (w_workspaces w) (w_events w) (w_pending w) (w_store w) (w_status w)
    (w_authoritative w) (w_connections w) (w_active w) (w_hubs w) (w_activities w) (w_queues w)
    (w_ptys w) (w_signals w ++ cs) (w_tick w).
Definition tick (n : nat) w : world G :=
  mkWorld (w_sessions w) (w_workspaces w) (w_events w) (w_pending w) (w_store w) (w_status w)
    (w_authoritative w) (w_connections w) (w_active w) (w_hubs w) (w_activities w) (w_queues w)
    (w_ptys w) (w_signals w) (w_tick w + n).

End Setters.
