(* ===== verification/Table.v ===== *)
(** * The session table

    The operations of [SessionTable]
    ([crates/ade_session_daemon/src/sessions.rs]), each the sequence of critical
    sections the source has, over the state of World. A [HashMap]'s iteration
    order is [map_to_list]'s. *)

From S2P Require Import Prelude Text Layout Proto Outbound Stream Host Hub Ledger World.
From stdpp Require Import options.
From Stdlib Require Import Ascii.
Open Scope Z_scope.

(** ** Requests *)

Record CreateRequest : Type := mkCreate {
  cr_workspace_id : string;
  cr_cwd : string;
  cr_command : string;
  cr_env : list (string * string);
  cr_cols : Z;
  cr_rows : Z;
  cr_agent_kind : string;
  cr_instance_label : string;
  cr_scrollback_bytes : option Z
}.

Record WorkspaceRequest : Type := mkWorkspaceRequest {
  wr_root : string;
  wr_name : option string;
  wr_project_id : option string;
  wr_project_identity : option string;
  wr_id : option string
}.

Definition LOST_SUFFIX : string := " (lost)".
Definition DEFAULT_SCROLLBACK_BYTES : Z := 2 * 1024 * 1024.
Definition DRAIN_CHUNK_BYTES : Z := 8192.

(** The components of a path, split at both separators. *)
Fixpoint path_parts (s : string) : list string :=
  match s with
  | EmptyString => [""]
  | String c s =>
      if decide (c = "/"%char ∨ c = "\"%char) then "" :: path_parts s
      else match path_parts s with
           | [] => [String c ""]
           | p :: ps => String c p :: ps
           end
  end.

(** [default_workspace_name]: trimming trailing separators first removes only empty
    parts, and the last non-empty part is taken. *)
Definition trim_end_separators (l : list ascii) : list ascii :=
  rev (strip_while (length l) [["/"%char]; ["\"%char]] (rev l)).

Definition default_workspace_name (root : string) : string :=
  let trimmed := of_bytes (trim_end_separators (to_bytes root)) in
  default root (find_first nonempty (rev (path_parts trimmed))).

Section Table.
Context {G : Type} `{ScreenGrid G, StateCodec, OS}.
Abbreviation W := (world G).
Abbreviation T A := (st W A).

(** ** Asking the operating system *)

Definition ask {A} (f : nat → A) : T A := λ w, (f (w_tick w), tick 1 w).

(** A fallible call under a context. *)
Definition fallible (context : string) : T (TableResult ()) :=
  e ← ask os_fail;
  mret (match e with Some err => Err (with_context context err) | None => Ok () end).

Definition fail {A} (e : TableError) : T (TableResult A) := mret (Err e).

(** ** Fan-out *)

Definition events_do (f : EventHub → st queues EventHub) : T () := λ w,
  let '(e, qs) := f (w_events w) (w_queues w) in ((), set_events e qs w).

Definition publish (frame : Frame) : T () := events_do (events_publish frame).

(** An operation on the hub under [handle]; a hub is never missing. *)
Definition hub_do (handle : N) (f : OutputHub G → st queues (OutputHub G)) : T () := λ w,
  match w_hubs w !! handle with
  | Some hub => let '(hub, qs) := f hub (w_queues w) in ((), set_hubs (<[handle := hub]> (w_hubs w)) qs w)
  | None => ((), w)
  end.

Definition hub_do_now (handle : N) (f : Z → OutputHub G → st queues (OutputHub G)) : T () :=
  now ← ask os_instant; hub_do handle (f now).

(** [hub.publish_event] and the event hub's, in the order of [report_exit] and
    [remove_session]. *)
Definition publish_ending (handle : N) (event : Frame) : T () :=
  publish event;; hub_do handle (hub_publish_event event).

(** ** Persistence *)

Definition session_values (w : W) : list Session := (map_to_list (w_sessions w)).*2.
Definition workspace_values (w : W) : list WorkspaceInfo := (map_to_list (w_workspaces w)).*2.

Definition persisted (w : W) : bool := negb (read_only (w_store w)).

Definition ledger_records (w : W) : list PersistedSession :=
  sort_rows (λ r, (ps_created_at r, ps_id r))
    (map (λ s, from_info (s_info s))
         (List.filter (λ s, negb (s_lost s) || keeps_a_live_terminal s) (session_values w))
     ++ List.filter (λ r, bool_decide (w_sessions w !! ps_id r = None)) (w_pending w)).

Definition ledger_workspaces (w : W) : list WorkspaceInfo :=
  sort_rows (λ i, (wi_created_at i, wi_id i)) (workspace_values w).

(** [persist_serialized]; the operating system is asked whether the directory and
    the file could be written. *)
Definition save_ledger (dir write : option string) : T (result string ()) := λ w,
  let '(r, s) := store_save dir write (ledger_records w) (ledger_workspaces w) (w_store w) in
  (r, set_store s w).

Definition persist_serialized : T (result string ()) :=
  dir ← ask os_fail;
  write ← ask os_fail;
  save_ledger dir write.

(** [persist]: alone, the [persisting] guard changes nothing. *)
Definition persist : T (result string ()) := persist_serialized.

Definition release (id : SessionId) : T () :=
  st_modify (λ w, set_pending (List.filter (λ r, negb (bool_decide (ps_id r = id))) (w_pending w)) w).

Definition reserve (record : PersistedSession) : T (TableResult ()) :=
  st_modify (λ w, set_pending (w_pending w ++ [record]) w);;
  r ← persist;
  match r with
  | Ok _ => mret (Ok ())
  | Err err => release (ps_id record);;
               fail (persist_failed ("could not reserve a ledger row: " +:+ err))
  end.

Definition abandon_reservation (id : SessionId) : T () := release id;; persist;; mret ().

(** ** Reading *)

Definition info_key (i : SessionInfo) : Z * string := (si_created_at i, si_id i).

Definition workspace_sessions_in (sessions : list Session) (workspace_id : string) : list SessionInfo :=
  sort_rows info_key
    (map s_info (List.filter (λ s, bool_decide (s_workspace s = workspace_id)) sessions)).

Definition workspace_sessions (id : string) (w : W) : list SessionInfo :=
  workspace_sessions_in (session_values w) id.

Definition table_list (w : W) : list SessionInfo := sort_rows info_key (map s_info (session_values w)).

Definition list_workspaces (w : W) : list WorkspaceInfo := ledger_workspaces w.

Definition no_workspace (id : string) : TableError := not_found ("no such workspace " +:+ id).
Definition no_session (id : SessionId) : TableError := not_found ("no such session " +:+ id).

Definition open_workspace (id : string) (w : W) : TableResult (WorkspaceInfo * list SessionInfo) :=
  match w_workspaces w !! id with
  | None => Err (no_workspace id)
  | Some workspace => Ok (workspace, workspace_sessions id w)
  end.

Definition only_tombstones (w : W) : bool := forallb s_lost (session_values w).

Definition activity_of (w : W) (s : Session) : Activity :=
  default (activity_new 0) (w_activities w !! s_handle s).

(** [foreground_is_shell] of a session's pty, asked at [t]. *)
Definition session_shell (t : nat) (s : Session) : option bool :=
  match s_live s with
  | Some _ => foreground_is_shell (os_leader t) (os_comm t)
  | None => None
  end.

Definition session_status (t : nat) (now : Z) (w : W) (s : Session) : SessionStatus :=
  derive_status s (activity_of w s) (w_status w) now (session_shell t s).

(** [expendable]: the [i]th session's pty is asked at the [i]th moment after the
    clock. *)
Definition all_expendable (now : Z) : T bool := λ w,
  (forallb (λ ts, s_lost ts.2 || bool_decide (session_status (w_tick w + ts.1) now w ts.2 = Idle))
     (imap pair (session_values w)),
   tick (size (w_sessions w)) w).

Definition expendable : T bool := now ← ask os_instant; all_expendable now.

(** ** Connections *)

Definition connection_opened : T () :=
  st_modify (λ w, set_connections (w_connections w + 1) (w_active w) w).
Definition connection_closed : T () :=
  st_modify (λ w, set_connections (w_connections w - 1) (w_active w) w).
Definition connection_went_active : T () :=
  st_modify (λ w, set_connections (w_connections w) (w_active w + 1) w).
Definition active_connection_closed : T () :=
  st_modify (λ w, set_connections (w_connections w) (w_active w - 1) w).

(** ** Workspaces *)

Definition new_workspace (request : WorkspaceRequest) : T WorkspaceInfo :=
  id ← (match wr_id request with Some id => mret id | None => ask os_uuid end);
  created_at ← ask os_unix;
  let name := default (default_workspace_name (wr_root request))
                (keep_nonempty (trim <$> wr_name request)) in
  mret (mkWorkspaceInfo id name (wr_project_id request) (wr_project_identity request)
          (wr_root request) 0 created_at 0 layout_empty).

Definition put_workspace (i : WorkspaceInfo) : T () :=
  st_modify (λ w, set_workspaces (<[wi_id i := i]> (w_workspaces w)) w).

Definition commit_workspace (workspace : WorkspaceInfo) : T (TableResult WorkspaceInfo) :=
  put_workspace workspace;;
  recorded ← persist;
  match recorded with
  | Err err =>
      removed ← st_gets (λ w, bool_decide (is_Some (w_workspaces w !! wi_id workspace)));
      st_modify (λ w, set_workspaces (delete (wi_id workspace) (w_workspaces w)) w);;
      (if removed : bool then
         w ← st_get;
         publish (Frame_WorkspaceRemoved (wi_id workspace) (persisted w) None)
       else mret ());;
      fail (persist_failed ("could not record workspace " +:+ wi_id workspace +:+ ": " +:+ err))
  | Ok _ =>
      w ← st_get;
      match w_workspaces w !! wi_id workspace with
      | None => fail (not_found ("workspace " +:+ wi_id workspace +:+
                                 " was killed while it was being created"))
      | Some _ =>
          publish (Frame_Workspace workspace [] (persisted w) None);;
          mret (Ok workspace)
      end
  end.

Definition create_workspace (request : WorkspaceRequest) : T (TableResult WorkspaceInfo) :=
  workspace ← new_workspace request; commit_workspace workspace.

Definition ensure_workspace (request : WorkspaceRequest) : T (TableResult (WorkspaceInfo * bool)) :=
  match wr_id request with
  | None => workspace ←? create_workspace request; mret (Ok (workspace, true))
  | Some id =>
      record ← new_workspace request;
      existing ← st_gets (λ w, w_workspaces w !! id);
      match existing with
      | Some existing => mret (Ok (existing, false))
      | None => workspace ←? commit_workspace record; mret (Ok (workspace, true))
      end
  end.

(** What a layout names that it may not: the first terminal in tree order that is
    unknown or belongs to another workspace. *)
Definition layout_refusal (sessions : gmap string Session) (id : string) (layout : LayoutDoc) :
    option TableError :=
  find_map (λ session_id,
    match sessions !! session_id with
    | None => Some (invalid_argument ("layout names unknown session " +:+ session_id))
    | Some session =>
        if decide (s_workspace session = id) then None
        else Some (invalid_argument ("layout names session " +:+ session_id +:+
                                     " from another workspace"))
    end) (terminal_sessions layout).

Definition with_layout (layout : LayoutDoc) (rev : Z) (i : WorkspaceInfo) : WorkspaceInfo :=
  mkWorkspaceInfo (wi_id i) (wi_name i) (wi_project_id i) (wi_project_identity i)
    (wi_project_root i) (wi_project_scope_rev i) (wi_created_at i) rev layout.

Definition with_name (name : string) (i : WorkspaceInfo) : WorkspaceInfo :=
  mkWorkspaceInfo (wi_id i) name (wi_project_id i) (wi_project_identity i)
    (wi_project_root i) (wi_project_scope_rev i) (wi_created_at i) (wi_layout_rev i) (wi_layout i).

Definition with_project (project_id project_identity : option string) (root : string) (rev : Z)
    (i : WorkspaceInfo) : WorkspaceInfo :=
  mkWorkspaceInfo (wi_id i) (wi_name i) project_id project_identity root rev (wi_created_at i)
    (wi_layout_rev i) (wi_layout i).

(** [workspaces.get_mut(id)] and a change in place; nothing if it is gone. *)
Definition alter_workspace (id : string) (f : WorkspaceInfo → WorkspaceInfo) : T () :=
  st_modify (λ w, set_workspaces (alter f id (w_workspaces w)) w).

(** The first critical section of [update_layout]: check, then apply. Answers the
    layout and revision replaced. *)
Definition apply_layout (id : string) (layout : LayoutDoc) (rev : Z) :
    T (TableResult (LayoutDoc * Z)) := λ w,
  match w_workspaces w !! id with
  | None => (Err (no_workspace id), w)
  | Some workspace =>
      if rev <=? wi_layout_rev workspace then
        (Err (stale_rev ("stale layout rev " +:+ pretty rev +:+ " for workspace " +:+ id +:+
                         ", which is at " +:+ pretty (wi_layout_rev workspace))), w)
      else match layout_refusal (w_sessions w) id layout with
           | Some refusal => (Err refusal, w)
           | None =>
               (Ok (wi_layout workspace, wi_layout_rev workspace),
                set_workspaces (<[id := with_layout layout rev workspace]> (w_workspaces w)) w)
           end
  end.

Definition rollback_layout (id : string) (previous : LayoutDoc * Z) : T () :=
  alter_workspace id (with_layout previous.1 previous.2).

Definition update_layout (id : string) (layout : LayoutDoc) (rev : Z) (writer : option SubscriberId) :
    T (TableResult ()) :=
  previous ←? apply_layout id layout rev;
  recorded ← persist_serialized;
  match recorded with
  | Err err =>
      rollback_layout id previous;;
      fail (persist_failed ("could not record the layout of workspace " +:+ id +:+ ": " +:+ err))
  | Ok _ =>
      w ← st_get;
      let changed := Frame_LayoutChanged id layout rev (persisted w) None in
      (match writer with
       | Some writer => events_do (events_publish_except writer changed)
       | None => publish changed
       end);;
      mret (Ok ())
  end.

Definition ATTEMPTS : nat := 8.

(** [install_legacy_layout]'s bounded retry; [last] is the last stale refusal. *)
Fixpoint install_attempts (n : nat) (workspace_id : string) (session : SessionId)
    (last : option TableError) : T (TableResult ()) :=
  match n with
  | O => fail (default (stale_rev ("workspace " +:+ workspace_id +:+
                  " was rewritten while its first tab was being added")) last)
  | S n =>
      opened ←? st_gets (open_workspace workspace_id);
      let workspace := opened.1 in
      if decide (session ∈ terminal_sessions (wi_layout workspace)) then mret (Ok ())
      else
        let layout := mkLayoutDoc (schema_version (wi_layout workspace))
                        (append_terminal (root (wi_layout workspace)) session) in
        r ← update_layout workspace_id layout (wrap64 (wi_layout_rev workspace + 1)) None;
        match r with
        | Err err => if decide (te_code err = error_code.STALE_REV)
                     then install_attempts n workspace_id session (Some err)
                     else mret (Err err)
        | Ok _ => mret (Ok ())
        end
  end.

Definition install_legacy_layout (workspace_id : string) (session : SessionId) : T (TableResult ()) :=
  install_attempts ATTEMPTS workspace_id session None.

(** The tail [rename_workspace] and [update_workspace_project] share: persist or
    roll back, recheck, publish. *)
Definition commit_record (id what killed : string) (rollback : T ()) (workspace : WorkspaceInfo)
    (infos : list SessionInfo) : T (TableResult (WorkspaceInfo * list SessionInfo)) :=
  recorded ← persist_serialized;
  match recorded with
  | Err err =>
      rollback;;
      fail (persist_failed ("could not record the " +:+ what +:+ " of workspace " +:+ id +:+
                            ": " +:+ err))
  | Ok _ =>
      w ← st_get;
      match w_workspaces w !! id with
      | None => fail (not_found ("workspace " +:+ id +:+ " was killed while " +:+ killed))
      | Some _ =>
          publish (Frame_Workspace workspace infos (persisted w) None);;
          mret (Ok (workspace, infos))
      end
  end.

Definition rename_workspace (id name : string) : T (TableResult (WorkspaceInfo * list SessionInfo)) :=
  let name := trim name in
  if decide (name = "") then fail (invalid_argument "a workspace name cannot be empty")
  else
    w ← st_get;
    match w_workspaces w !! id with
    | None => fail (no_workspace id)
    | Some workspace =>
        alter_workspace id (with_name name);;
        commit_record id "new name" "it was being renamed"
          (alter_workspace id (with_name (wi_name workspace)))
          (with_name name workspace) (workspace_sessions id w)
    end.

Definition scope_fields_changed (i : WorkspaceInfo) (project_id project_identity : string)
    (project_root : option string) : bool :=
  bool_decide (wi_project_id i ≠ Some project_id)
  || bool_decide (wi_project_identity i ≠ Some project_identity)
  || match project_root with Some root => bool_decide (wi_project_root i ≠ root) | None => false end.

Definition update_workspace_project (id project_id project_identity : string)
    (project_root : option string) (minimum_scope_rev : option Z) :
    T (TableResult (WorkspaceInfo * list SessionInfo)) :=
  if bool_decide (trim project_id = "") || bool_decide (trim project_identity = "")
     || bool_decide (trim <$> project_root = Some "")
  then fail (invalid_argument "workspace project scope cannot contain empty values")
  else
    w ← st_get;
    match w_workspaces w !! id with
    | None => fail (no_workspace id)
    | Some i =>
        let minimum := default 0 minimum_scope_rev in
        if negb (scope_fields_changed i project_id project_identity project_root)
           && (minimum <=? wi_project_scope_rev i)
        then mret (Ok (i, workspace_sessions id w))
        else
          let next := Z.max (wi_project_scope_rev i) minimum + 1 in
          if u64_max <? next
          then fail (internal ("project scope revision overflowed for workspace " +:+ id))
          else
            let change := with_project (Some project_id) (Some project_identity)
                            (default (wi_project_root i) project_root) next in
            alter_workspace id change;;
            commit_record id "project scope" "its project scope was being updated"
              (alter_workspace id (λ j, with_project (wi_project_id i) (wi_project_identity i)
                 (match project_root with Some _ => wi_project_root i | None => wi_project_root j end)
                 (wi_project_scope_rev i) j))
              (change i) (workspace_sessions id w)
    end.

(** ** Killing *)

(** [scrub_layout]; the caller holds the session lock. The release build's
    [layout_rev += 1] wraps. *)
Definition scrub_layout (workspace_id : string) (session_id : SessionId) : T () :=
  w ← st_get;
  match w_workspaces w !! workspace_id with
  | None => mret ()
  | Some workspace =>
      let '(changed, layout) :=
        retain_sessions (λ id, negb (bool_decide (id = session_id))) (wi_layout workspace) in
      if negb changed then
        alter_workspace workspace_id (λ i, with_layout layout (wi_layout_rev i) i)
      else
        let rev := wrap64 (wi_layout_rev workspace + 1) in
        alter_workspace workspace_id (with_layout layout rev);;
        publish (Frame_LayoutChanged workspace_id layout rev (persisted w) None)
  end.

(** [kill_session_process]; the handle returned is waited for by the caller, which
    changes nothing in the table. *)
Definition kill_process (s : Session) : T () :=
  leader ← ask os_leader;
  escalate ← ask os_fail;
  w ← st_get;
  let dead := dead (activity_of w s) in
  let spawned := bool_decide (escalate = None) in
  let calls := (kill_session_process (own_group os_host) (s_id s)
                  (bool_decide (s_live s ≠ None)) (s_live s ≫= live_pid) leader dead dead spawned).1 in
  st_modify (log_signals calls).

(** [remove_session]: [None] for a session that was not there. *)
Definition remove_session (id : SessionId) : T (option (result string ())) :=
  w ← st_get;
  match w_sessions w !! id with
  | None => mret None
  | Some session =>
      st_modify (λ w, set_sessions (delete id (w_sessions w)) w);;
      publish_ending (s_handle session) (Frame_Removed id);;
      scrub_layout (s_workspace session) id;;
      kill_process session;;
      release id;;
      r ← persist;
      mret (Some r)
  end.

Definition kill (id : SessionId) : T (TableResult ()) :=
  r ← remove_session id;
  match r with
  | None => fail (no_session id)
  | Some (Ok _) => mret (Ok ())
  | Some (Err err) => fail (persist_failed ("session " +:+ id +:+
                              " was killed and could not be recorded: " +:+ err))
  end.

(** The critical section of [remove_workspace]: what dies, decided and announced. *)
Definition take_workspace (id : string) (only_if_empty : bool) :
    T (TableResult (option (list Session))) :=
  w ← st_get;
  let doomed := List.filter (λ s, bool_decide (s_workspace s = id)) (session_values w) in
  if only_if_empty && negb (bool_decide (doomed = [])) then mret (Ok None)
  else
    st_modify (λ w, set_workspaces (delete id (w_workspaces w)) w);;
    if bool_decide (w_workspaces w !! id = None) && bool_decide (doomed = [])
    then fail (no_workspace id)
    else
      st_modify (λ w, set_pending
        (List.filter (λ r, negb (bool_decide (ps_workspace_id r = id))) (w_pending w)) w);;
      st_modify (λ w, set_sessions
        (foldr (λ s m, delete (s_id s) m) (w_sessions w) doomed) w);;
      for_st doomed (λ s, publish_ending (s_handle s) (Frame_Removed (s_id s)));;
      publish (Frame_WorkspaceRemoved id (persisted w) None);;
      mret (Ok (Some doomed)).

Definition remove_workspace (id : string) (only_if_empty : bool) : T (TableResult ()) :=
  taken ←? take_workspace id only_if_empty;
  match taken with
  | None => mret (Ok ())
  | Some removed =>
      for_st removed kill_process;;
      r ← persist;
      match r with
      | Ok _ => mret (Ok ())
      | Err err => fail (persist_failed ("workspace " +:+ id +:+
                           " was killed and could not be recorded: " +:+ err))
      end
  end.

Definition kill_workspace (id : string) : T (TableResult ()) := remove_workspace id false.

Definition remove_empty_workspace (id : string) : T (TableResult ()) :=
  r ← remove_workspace id true;
  mret (match r with
        | Err err => if decide (te_code err = error_code.NOT_FOUND) then Ok () else Err err
        | Ok _ => Ok ()
        end).

End Table.
