(* ===== verification/Sessions.v ===== *)
(** * Sessions: creation, clients, input and output

    The operations of [SessionTable]
    ([crates/ade_session_daemon/src/sessions.rs]) on one session, the facts its
    threads report, and [SessionTable::load]. *)

From S2P Require Import Prelude Text Layout Proto Outbound Stream Host Hub Ledger World Table.
From stdpp Require Import options.
Open Scope Z_scope.

Section Sessions.
Context {G : Type} `{ScreenGrid G, StateCodec, OS}.
Abbreviation W := (world G).
Abbreviation T A := (st W A).

(** [sessions.get_mut(id)] and a change in place. *)
Definition alter_session (id : SessionId) (f : Session → Session) : T () :=
  st_modify (λ w, set_sessions (alter f id (w_sessions w)) w).

(** ** Creation *)

Definition require_workspace (id : string) : T (TableResult ()) := λ w,
  (if decide (id = "") then Err (invalid_argument "a session needs the id of an existing workspace")
   else match w_workspaces w !! id with
        | None => Err (no_workspace id)
        | Some _ => Ok ()
        end, w).

Definition reservation (id : SessionId) (workspace_id : string) (request : CreateRequest)
    (created_at : Z) : PersistedSession :=
  mkPersisted id workspace_id (cr_agent_kind request) (cr_instance_label request)
    (cr_cwd request) created_at.

(** A key for a session's hub and activity that nothing else has. *)
Definition fresh_handle (w : W) : N := fresh (dom (w_hubs w) ∪ dom (w_activities w)).

Definition add_session (s : Session) (hub : OutputHub G) (a : Activity) : T () :=
  st_modify (λ w, set_sessions (<[s_id s := s]> (w_sessions w))
    (set_activities (<[s_handle s := a]> (w_activities w))
    (set_hubs (<[s_handle s := hub]> (w_hubs w)) (w_queues w) w))).

(** The row [record_created] inserts. *)
Definition created_session (request : CreateRequest) (info : SessionInfo) (pid : option Z)
    (handle : N) : Session :=
  mkSession info (si_created_at info) false (Some (mkLive pid)) handle
    (cr_cols request) (cr_rows request) [] [] None.

(** [record_created]: the row, its hub and its activity; nothing is announced. *)
Definition record_created (id : SessionId) (request : CreateRequest) (pid : option Z) :
    T SessionInfo :=
  created_at ← ask os_unix;
  now ← ask os_instant;
  w ← st_get;
  let scrollback := default DEFAULT_SCROLLBACK_BYTES (cr_scrollback_bytes request) in
  let hub := hub_new scrollback (Some (grid_new (cr_cols request) (cr_rows request))) None in
  let info := mkSessionInfo id (cr_workspace_id request) (cr_agent_kind request)
                (cr_instance_label request) (cr_cwd request) created_at Working in
  add_session (created_session request info pid (fresh_handle w)) hub (activity_new now);;
  mret info.

Definition commit_created (info : SessionInfo) : T (TableResult ()) :=
  release (si_id info);;
  recorded ← persist;
  match recorded with
  | Err err => fail (persist_failed ("could not record session " +:+ si_id info +:+ ": " +:+ err))
  | Ok _ =>
      w ← st_get;
      match w_workspaces w !! si_workspace_id info with
      | None => fail (not_found ("workspace " +:+ si_workspace_id info +:+
                       " was killed while session " +:+ si_id info +:+ " was starting"))
      | Some _ =>
          match w_sessions w !! si_id info with
          | None => mret (Ok ())
          | Some _ => publish (Frame_Created info (persisted w) None);; mret (Ok ())
          end
      end
  end.

(** [abandon]: a child that never reached the table. *)
Definition abandon_child (id : SessionId) (pid : option Z) : T () :=
  escalate ← ask os_fail;
  st_modify (log_signals (abandon (own_group os_host) id pid (bool_decide (escalate = None))).1).

(** A step of [create] that takes the reservation back when it fails. *)
Definition or_abandon {A} (id : SessionId) (cleanup : T ()) (r : TableResult A) : T (TableResult A) :=
  match r with
  | Ok a => mret (Ok a)
  | Err e => abandon_reservation id;; cleanup;; mret (Err e)
  end.

(** The last part of [create]: record the row, commit it, or take it all back. *)
Definition create_tail (id : SessionId) (request : CreateRequest) (pid : option Z) :
    T (TableResult SessionInfo) :=
  info ← record_created id request pid;
  committed ← commit_created info;
  match committed with
  | Ok _ => mret (Ok info)
  | Err e => remove_session id;; abandon_child id pid;; mret (Err e)
  end.

Definition create (request : CreateRequest) : T (TableResult SessionInfo) :=
  _ ←? require_workspace (cr_workspace_id request);
  _ ←? fallible "opening pty";
  let command := launch os_host (cr_command request) (cr_cwd request) (cr_env request) in
  id ← ask os_uuid;
  created_at ← ask os_unix;
  _ ←? reserve (reservation id (cr_workspace_id request) request created_at);
  spawned ← fallible "spawning";
  _ ←? or_abandon id (mret ()) spawned;
  pid ← ask os_pid;
  w ← st_get;
  st_modify (log_pty (PtySpawn (fresh_handle w) command
    (Z.max (cr_cols request) 1) (Z.max (cr_rows request) 1)));;
  writer ← fallible "taking pty writer";
  _ ←? or_abandon id (abandon_child id pid) writer;
  reader ← fallible "cloning pty reader";
  _ ←? or_abandon id (abandon_child id pid) reader;
  create_tail id request pid.

(** ** Clients *)

Definition push_all (outbound : Outbound) : list Frame → st queues bool :=
  fix go (frames : list Frame) : st queues bool :=
    match frames with
    | [] => mret true
    | f :: frames => kept ← push outbound f; if kept : bool then go frames else mret false
    end.

Definition status_frame (s : Session) : Frame :=
  Frame_Status (s_id s) (si_status (s_info s)) (s_since s).

Definition status_snapshot (w : W) : list Frame :=
  map status_frame (sort_rows (λ s, info_key (s_info s)) (session_values w)).

Definition subscribe (who : SubscriberId) (outbound : Outbound) : T () := λ w,
  let events := events_subscribe who outbound (w_events w) in
  let '(kept, qs) := push_all outbound (status_snapshot w) (w_queues w) in
  ((), set_events (if kept : bool then events else events_unsubscribe who events) qs w).

(** [apply_size]: the screen and the recorded size first, whatever the pty does. *)
Definition apply_size (id : SessionId) (cols rows : Z) : T (TableResult ()) :=
  let cols := Z.max cols 1 in
  let rows := Z.max rows 1 in
  w ← st_get;
  match w_sessions w !! id with
  | None => fail (no_session id)
  | Some session =>
      alter_session id (set_size cols rows);;
      hub_do (s_handle session) (λ hub, mret (resize_grid cols rows hub));;
      match s_live session with
      | None => fail (invalid_argument ("session " +:+ id +:+ " was lost when the daemon restarted"))
      | Some _ =>
          r ← fallible ("resizing session " +:+ id);
          match r with
          | Ok _ => st_modify (log_pty (PtyResize (s_handle session) cols rows));; mret (Ok ())
          | Err e => mret (Err e)
          end
      end
  end.

Definition apply_some (id : SessionId) (size : option (Z * Z)) : T (TableResult ()) :=
  match size with Some (cols, rows) => apply_size id cols rows | None => mret (Ok ()) end.

Definition attach (id : SessionId) (who : SubscriberId) (outbound : Outbound)
    (view_id : option string) : T (TableResult ()) :=
  w ← st_get;
  match w_sessions w !! id with
  | None => fail (no_session id)
  | Some session =>
      let session' := match view_id with
                      | Some view => remember_view who view session
                      | None => session
                      end in
      let resize := match view_id with
                    | Some view => if decide (s_focused_view session' = Some view)
                                   then if_changed session' (effective_size session') else None
                    | None => None
                    end in
      alter_session id (λ _, session');;
      _ ←? apply_some id resize;
      hub_do_now (s_handle session) (λ now, hub_attach now id who outbound);;
      mret (Ok ())
  end.

(** [grow_back]: an error is a log line. *)
Definition grow_back (id : SessionId) (size : option (Z * Z)) : T () := apply_some id size;; mret ().

Definition detach_hub (handle : N) (who : SubscriberId) : T () :=
  hub_do handle (λ hub, mret (hub_detach who hub).2).

Definition detach (id : SessionId) (who : SubscriberId) : T () :=
  w ← st_get;
  match w_sessions w !! id with
  | None => mret ()
  | Some session =>
      let '(grown, session') := forget_client who session in
      alter_session id (λ _, session');;
      detach_hub (s_handle session) who;;
      grow_back id grown
  end.

Definition detach_all (who : SubscriberId) : T () :=
  st_modify (λ w, set_events (events_unsubscribe who (w_events w)) (w_queues w) w);;
  w ← st_get;
  let detaching := map (λ s, (s_id s, s_handle s, (forget_client who s).1)) (session_values w) in
  st_modify (λ w, set_sessions ((λ s, (forget_client who s).2) <$> w_sessions w) w);;
  for_st detaching (λ d, detach_hub d.1.2 who;; grow_back d.1.1 d.2).

Definition write (id : SessionId) (bytes : list Z) : T (TableResult ()) :=
  w ← st_get;
  match w_sessions w !! id with
  | None => fail (no_session id)
  | Some session =>
      match s_live session with
      | None => fail (invalid_argument ("session " +:+ id +:+ " was lost when the daemon restarted"))
      | Some _ =>
          if decide (si_status (s_info session) = Exited)
          then fail (invalid_argument ("session " +:+ id +:+ " has exited"))
          else
            _ ←? fallible ("writing to session " +:+ id);
            st_modify (log_pty (PtyWrite (s_handle session) bytes));;
            fallible ("flushing session " +:+ id)
      end
  end.

Definition record_ask (who : SubscriberId) (asked : Z * Z) (s : Session) : Session :=
  set_clients (List.filter (not_client who) (s_sizes s) ++ [(who, asked)]) (s_view_ids s)
    (s_focused_view s) s.

Definition resize (id : SessionId) (who : SubscriberId) (cols rows : Z) : T (TableResult ()) :=
  w ← st_get;
  match w_sessions w !! id with
  | None => fail (no_session id)
  | Some session =>
      let asked := (Z.max cols 1, Z.max rows 1) in
      let session' := record_ask who asked session in
      let effective := default asked (effective_size session') in
      alter_session id (λ _, session');;
      _ ←? apply_some id (if_changed session' (Some effective));
      hub_do_now (s_handle session) (λ now, hub_repaint now id);;
      mret (Ok ())
  end.

Definition resize_legacy (id : SessionId) (cols rows : Z) : T (TableResult ()) :=
  w ← st_get;
  match w_sessions w !! id with
  | None => fail (no_session id)
  | Some session =>
      _ ←? apply_some id (if_changed session (Some (Z.max cols 1, Z.max rows 1)));
      hub_do_now (s_handle session) (λ now, hub_repaint now id);;
      mret (Ok ())
  end.

Definition focus (id : SessionId) (view_id : string) (hover : bool) : T (TableResult ()) :=
  w ← st_get;
  match w_sessions w !! id with
  | None => fail (no_session id)
  | Some session =>
      let already := bool_decide (s_focused_view session = Some view_id) in
      let session' := set_clients (s_sizes session) (s_view_ids session) (Some view_id) session in
      alter_session id (λ _, session');;
      match effective_size session' with
      | None => mret (Ok ())
      | Some effective =>
          let size_changed := bool_decide (effective ≠ current_size session') in
          _ ←? apply_some id (if size_changed then Some effective else None);
          (if hover || negb already || size_changed
           then hub_do_now (s_handle session) (λ now, hub_repaint now id) else mret ());;
          mret (Ok ())
      end
  end.

(** ** Facts from a session's threads *)

(** The drain thread: one read of the pty. It has the hub and the activity by
    handle, and outlives the row. *)
Definition drain_read (handle : N) (id : SessionId) (chunk : list Z) : T () :=
  now ← ask os_instant;
  st_modify (λ w, set_activities (alter (record_output now chunk) handle (w_activities w)) w);;
  w ← st_get;
  hub_do handle (hub_publish (λ i, os_instant (w_tick w + i)%nat) id chunk);;
  st_modify (tick (length chunk)).

(** The reaper thread: the child has been waited on. *)
Definition reap (handle : N) : T () :=
  st_modify (λ w, set_activities (alter mark_dead handle (w_activities w)) w).

Definition report_exit (id : SessionId) (exit_code : option Z) : T () :=
  w ← st_get;
  match w_sessions w !! id with
  | None => mret ()
  | Some session => publish_ending (s_handle session) (Frame_Exited id exit_code)
  end.

(** One row of [sweep]: unfreeze its screen, derive its status, and collect the
    change to announce. *)
Definition sweep_row (now : Z) (id : SessionId) (changed : list Frame) : T (list Frame) :=
  w ← st_get;
  match w_sessions w !! id with
  | None => mret changed
  | Some session =>
      hub_do_now (s_handle session) (λ t, flush_stalled t id);;
      t ← st_gets w_tick;
      w ← st_get;
      let derived := session_status t now w session in
      st_modify (tick 1);;
      if decide (derived = si_status (s_info session)) then mret changed
      else
        since ← ask os_unix;
        alter_session id (set_status derived since);;
        mret (changed ++ [Frame_Status id derived since])
  end.

Fixpoint sweep_rows (now : Z) (ids : list SessionId) (changed : list Frame) : T (list Frame) :=
  match ids with
  | [] => mret changed
  | id :: ids => changed ← sweep_row now id changed; sweep_rows now ids changed
  end.

Definition sweep : T () :=
  now ← ask os_instant;
  w ← st_get;
  changed ← sweep_rows now (map_to_list (w_sessions w)).*1 [];
  for_st changed publish.

(** ** Load *)

Definition lost_session (p : PersistedSession) (workspace_id : string) (since : Z) (handle : N) :
    Session :=
  mkSession (mkSessionInfo (ps_id p) workspace_id (ps_agent_kind p)
               (ps_instance_label p +:+ LOST_SUFFIX) (ps_cwd p) (ps_created_at p) Exited)
    since true None handle 0 0 [] [] None.

Definition migrated_workspace (p : PersistedSession) (workspace_id : string) : WorkspaceInfo :=
  mkWorkspaceInfo workspace_id
    (if decide (ps_instance_label p = "") then default_workspace_name (ps_cwd p)
     else ps_instance_label p)
    None None (ps_cwd p) 0 (ps_created_at p) 1 (single_terminal (ps_id p)).

(** One persisted session adopted as a lost row, its workspace made if there is
    none. *)
Definition adopt (p : PersistedSession) : T () :=
  w ← st_get;
  workspace_id ←
    (match w_workspaces w !! ps_workspace_id p with
     | Some _ => mret (ps_workspace_id p)
     | None =>
         id ← (if decide (ps_workspace_id p = "") then ask os_uuid else mret (ps_workspace_id p));
         put_workspace (migrated_workspace p id);;
         mret id
     end);
  since ← ask os_unix;
  now ← ask os_instant;
  w ← st_get;
  add_session (lost_session p workspace_id since (fresh_handle w))
    (hub_new DEFAULT_SCROLLBACK_BYTES None (Some (Frame_Exited (ps_id p) None)))
    (activity_new now).

(** The pruning of one restored layout: whether a tab went, and the record. *)
Definition prune_workspace (sessions : gmap string Session) (i : WorkspaceInfo) : bool * WorkspaceInfo :=
  let '(changed, layout) := retain_sessions
    (λ id, match sessions !! id with
           | Some s => bool_decide (s_workspace s = wi_id i)
           | None => false
           end) (wi_layout i) in
  (changed, with_layout layout (wi_layout_rev i) i).

Definition prune_all : T bool := λ w,
  (existsb (λ i, (prune_workspace (w_sessions w) i).1) (workspace_values w),
   set_workspaces ((λ i, (prune_workspace (w_sessions w) i).2) <$> w_workspaces w) w).

Definition adopt_all (l : list PersistedSession) : T () := for_st l adopt.

(** The state before anything is loaded. *)
Definition world_new (store : StateStore) (status : StatusConfig) (authoritative : bool)
    (workspaces : list WorkspaceInfo) (tick : nat) : W :=
  mkWorld ∅ (list_to_map (reverse (map (λ i, (wi_id i, i)) workspaces))) [] [] store status
    authoritative 0 0 ∅ ∅ ∅ [] [] tick.

(** [SessionTable::load]: the table, after the ledger was rewritten if anything in
    it was. *)
Definition load (store : StateStore) (status : StatusConfig) (tick : nat) : W :=
  let '(previous, store) := store_load store in
  let w := world_new store status (pst_authoritative previous) (pst_workspaces previous) tick in
  let adopted := st_exec (adopt_all (pst_sessions previous)) w in
  let '(pruned, table) := prune_all adopted in
  if negb (bool_decide (pst_sessions previous = [])) || pruned then st_exec persist table else table.

End Sessions.
