(* ===== verification/Dispatch.v ===== *)
(** * The handshake and the request dispatcher

    [handshake], [combined_create] and [handle_frame] of
    [crates/ade_session_daemon/src/server.rs]: one request in, at most one reply out,
    over the operations of the session table. *)

From S2P Require Import Prelude Text Layout Proto Outbound Stream Host Hub Ledger Wire Frames Framing Client World Table Sessions.
From stdpp Require Import options pretty.
From Stdlib Require Import Ascii NArith.
Open Scope Z_scope.

Definition LEGACY_GENERATION : Z := 2.
Definition LEGACY_DEFAULT_COLS : Z := 80.
Definition LEGACY_DEFAULT_ROWS : Z := 24.

(** What the build and the start of this daemon fixed: its version, the platform it
    was compiled for, the hash of its executable and its identity. *)
Class Identity : Type := {
  daemon_version : string;
  build_os : string;
  binary_hash : option string;
  instance_id : string
}.

(** ** The text of a capability refusal *)

(** The bytes of the character that starts with [c]. *)
Definition char_width (c : ascii) : nat :=
  let n := N_of_ascii c in
  if (n <? 192)%N then 1 else if (n <? 224)%N then 2 else if (n <? 240)%N then 3 else 4.

Fixpoint first_bad (s : string) : string :=
  match s with
  | EmptyString => ""
  | String c rest => if capability_char c then first_bad rest else str_take (char_width c) s
  end.

(** [char]'s [Debug]: single quotes are escaped and double quotes are not. *)
Definition debug_char `{Unicode} (c : string) : string :=
  "'" +:+ (if String.eqb c "'" then "'" else if String.eqb c quote then quote else debug_chars c) +:+ "'".

Definition capability_error_text `{Unicode} (e : capability_error) : string :=
  match e with
  | TooManyCapabilities n =>
      pretty (Z.of_nat n) +:+ " capabilities advertised, at most " +:+
      pretty (Z.of_nat MAX_CAPABILITIES) +:+ " are allowed"
  | EmptyCapability => "an empty capability identifier is not allowed"
  | CapabilityTooLong quoted n =>
      "capability " +:+ debug_str quoted +:+ " is " +:+ pretty (Z.of_nat n) +:+ " bytes, at most " +:+
      pretty (Z.of_nat MAX_CAPABILITY_BYTES) +:+ " are allowed"
  | CapabilityBadCharacter capability =>
      "capability " +:+ debug_str capability +:+ " contains " +:+ debug_char (first_bad capability) +:+
      "; only [a-z0-9_.-] is allowed"
  end.

Section Dispatch.
Context {G : Type} `{ScreenGrid G, StateCodec, OS, Unicode, FrameDebug, Identity}.
Abbreviation W := (world G).
Abbreviation T A := (st W A).

Definition refusal (error : TableError) (session_id : option SessionId) (workspace_id : option string)
    (request_id : option Z) : Frame :=
  Frame_Error session_id workspace_id (te_code error) (te_message error) request_id.

(** An error frame that names no subject. *)
Definition bare_error (code message : string) (request_id : option Z) : Frame :=
  Frame_Error None None code message request_id.

(** ** The handshake *)

(** [degraded] and [upgrade_ready] are the table's answers at the time of the ack. *)
Definition hello_ack (hello : Hello) (generation : Z) (degraded upgrade_ready : bool) : HelloAck :=
  mkHelloAck daemon_version generation build_os MIN_GENERATION MAX_GENERATION generation [] degraded
    binary_hash (Some upgrade_ready) (Some instance_id) (h_request_id hello).

(** What is written, if anything, and the generation the connection is served at. *)
Definition handshake (first : ReadFrameError + Frame) : T (option Frame * option Z) :=
  match first with
  | inr (Frame_Hello hello) =>
      match select_generation (h_min_generation hello) (h_max_generation hello) MIN_GENERATION
              MAX_GENERATION with
      | None =>
          mret (Some (bare_error error_code.UNSUPPORTED_GENERATION
            ("no protocol generation is common to this client's " +:+ pretty (h_min_generation hello) +:+
             "..=" +:+ pretty (h_max_generation hello) +:+ " and this daemon's " +:+
             pretty MIN_GENERATION +:+ "..=" +:+ pretty MAX_GENERATION)
            (h_request_id hello)), None)
      | Some generation =>
          match validate_capabilities (h_capabilities hello) with
          | Err reason =>
              mret (Some (bare_error error_code.INVALID_ARGUMENT
                ("unusable capability list: " +:+ capability_error_text reason)
                (h_request_id hello)), None)
          | Ok _ =>
              w ← st_get;
              upgrade_ready ← expendable;
              mret (Some (Frame_HelloAck (hello_ack hello generation (read_only (w_store w)) upgrade_ready)),
                    Some generation)
          end
      end
  | inr other =>
      mret (Some (bare_error error_code.INVALID_ARGUMENT
        ("expected hello as the first frame, got " +:+ bounded_debug (debug_pieces other))
        (frame_request_id other)), None)
  | inl err => mret (rejection_frame err, None)
  end.

(** ** Generation 2's combined create *)

Definition combined_create_request (workspace_id root label : string) (env : list (string * string))
    (cols rows : option Z) : CreateRequest :=
  mkCreate workspace_id root "" env (default LEGACY_DEFAULT_COLS cols)
    (default LEGACY_DEFAULT_ROWS rows) "shell" label None.

Definition combined_create (subscriber : SubscriberId) (root : string)
    (name project_id project_identity : option string) (env : list (string * string))
    (cols rows : option Z) (persisted : bool) (request_id : option Z) : T Frame :=
  created ← create_workspace (mkWorkspaceRequest root name project_id project_identity None);
  match created with
  | Err err => mret (refusal err None None request_id)
  | Ok workspace =>
      let id := wi_id workspace in
      session ← create (combined_create_request id root (wi_name workspace) env cols rows);
      match session with
      | Err err => kill_workspace id;; mret (refusal err None (Some id) request_id)
      | Ok session =>
          laid_out ← update_layout id (single_terminal (si_id session)) (wi_layout_rev workspace + 1)
                       (Some subscriber);
          match laid_out with
          | Err err => kill_workspace id;; mret (refusal err None (Some id) request_id)
          | Ok _ =>
              opened ← st_gets (open_workspace id);
              mret match opened with
                   | Ok (workspace, sessions) => Frame_Workspace workspace sessions persisted request_id
                   | Err err => refusal err None (Some id) request_id
                   end
          end
      end
  end.

(** ** Requests *)

Definition unless_empty (s : string) : option string := if decide (s = "") then None else Some s.

(** Take back what a generation-2 [create_session] made; failures are log lines. *)
Definition compensate (created : option (string * bool)) (session : option SessionId) : T () :=
  (match session with Some session => kill session;; mret () | None => mret () end);;
  match created with
  | Some (workspace_id, true) => remove_empty_workspace workspace_id;; mret ()
  | _ => mret ()
  end.

(** Generation 2 makes the workspace a [create_session] names and has not. *)
Definition auto_create (generation : Z) (workspace_id cwd instance_label : string)
    (project_id project_identity : option string) : T (TableResult (option (string * bool))) :=
  opened ← st_gets (open_workspace workspace_id);
  if (generation =? LEGACY_GENERATION) && negb (is_ok opened) then
    '(workspace, created_here) ←?
      ensure_workspace (mkWorkspaceRequest cwd (unless_empty instance_label) project_id project_identity
                          (unless_empty workspace_id));
    mret (Ok (Some (wi_id workspace, created_here)))
  else mret (Ok None).

Definition create_session (generation : Z) (persisted : bool) (named cwd : string)
    (project_id project_identity : option string) (command : string) (env : list (string * string))
    (cols rows : Z) (agent_kind instance_label : string) (scrollback_bytes : option Z)
    (request_id : option Z) : T Frame :=
  ensured ← auto_create generation named cwd instance_label project_id project_identity;
  match ensured with
  | Err err => mret (refusal err None (Some named) request_id)
  | Ok auto_created =>
      let workspace_id := default named (fst <$> auto_created) in
      session ← create (mkCreate workspace_id cwd command env cols rows agent_kind instance_label
                          scrollback_bytes);
      match session with
      | Err err => compensate auto_created None;; mret (refusal err None (Some named) request_id)
      | Ok session =>
          laid_out ← (match auto_created with
                      | Some _ => install_legacy_layout workspace_id (si_id session)
                      | None => mret (Ok ())
                      end);
          match laid_out with
          | Err err =>
              compensate auto_created (Some (si_id session));;
              mret (refusal err None (Some named) request_id)
          | Ok _ => mret (Frame_Created session persisted request_id)
          end
      end
  end.

(** The answer of an operation that gives a workspace and its sessions. *)
Definition workspace_reply (persisted : bool) (workspace_id : string) (request_id : option Z)
    (r : TableResult (WorkspaceInfo * list SessionInfo)) : option Frame :=
  Some match r with
       | Ok (workspace, sessions) => Frame_Workspace workspace sessions persisted request_id
       | Err err => refusal err None (Some workspace_id) request_id
       end.

(** The answer of an operation on a session that answers by itself when it succeeds. *)
Definition quiet_reply (session_id : SessionId) (request_id : option Z) (r : TableResult ()) :
    option Frame :=
  match r with Ok _ => None | Err err => Some (refusal err (Some session_id) None request_id) end.

Definition unexpected_frame (other : Frame) : Frame :=
  Frame_Error (frame_session_id other) (frame_workspace_id other) error_code.INVALID_ARGUMENT
    ("unexpected frame from a client: " +:+ bounded_debug (debug_pieces other)) (frame_request_id other).

Definition handle_frame (frame : Frame) (subscriber : SubscriberId) (outbound : Outbound)
    (generation : Z) : T (option Frame) :=
  w ← st_get;
  let persisted := persisted w in
  match frame with
  | Frame_CreateSession workspace_id cwd project_id project_identity command env cols rows
      agent_kind instance_label scrollback_bytes request_id =>
      reply ← create_session generation persisted workspace_id cwd project_id project_identity command
                env cols rows agent_kind instance_label scrollback_bytes request_id;
      mret (Some reply)
  | Frame_ListSessions request_id =>
      sessions ← st_gets table_list; mret (Some (Frame_SessionList sessions request_id))
  | Frame_CreateWorkspace root name project_id project_identity env cols rows request_id =>
      if generation =? LEGACY_GENERATION then
        reply ← combined_create subscriber root name project_id project_identity env cols rows
                  persisted request_id;
        mret (Some reply)
      else
        r ← create_workspace (mkWorkspaceRequest root name project_id project_identity None);
        mret (Some match r with
                   | Ok workspace => Frame_Workspace workspace [] persisted request_id
                   | Err err => refusal err None None request_id
                   end)
  | Frame_OpenWorkspace workspace_id request_id =>
      r ← st_gets (open_workspace workspace_id);
      mret (workspace_reply persisted workspace_id request_id r)
  | Frame_ListWorkspaces request_id =>
      workspaces ← st_gets list_workspaces; mret (Some (Frame_WorkspaceList workspaces request_id))
  | Frame_UpdateLayout workspace_id layout rev request_id =>
      r ← update_layout workspace_id layout rev (Some subscriber);
      mret (Some match r with
                 | Ok _ => Frame_LayoutChanged workspace_id layout rev persisted request_id
                 | Err err => refusal err None (Some workspace_id) request_id
                 end)
  | Frame_RenameWorkspace workspace_id name request_id =>
      r ← rename_workspace workspace_id name;
      mret (workspace_reply persisted workspace_id request_id r)
  | Frame_UpdateWorkspaceProject workspace_id project_id project_identity project_root
      minimum_scope_rev request_id =>
      r ← update_workspace_project workspace_id project_id project_identity project_root
            minimum_scope_rev;
      mret (workspace_reply persisted workspace_id request_id r)
  | Frame_KillWorkspace workspace_id request_id =>
      r ← kill_workspace workspace_id;
      mret (Some match r with
                 | Ok _ => Frame_WorkspaceRemoved workspace_id persisted request_id
                 | Err err => refusal err None (Some workspace_id) request_id
                 end)
  | Frame_Kill session_id request_id =>
      r ← kill session_id;
      mret (Some match r with
                 | Ok _ => Frame_Removed session_id
                 | Err err => refusal err (Some session_id) None request_id
                 end)
  | Frame_Attach session_id view_id request_id =>
      r ← attach session_id subscriber outbound
            (if LEGACY_GENERATION <? generation then view_id else None);
      mret (quiet_reply session_id request_id r)
  | Frame_Detach session_id _ => detach session_id subscriber;; mret None
  | Frame_Write session_id bytes =>
      r ← write session_id bytes; mret (quiet_reply session_id None r)
  | Frame_Resize session_id cols rows =>
      r ← (if generation =? LEGACY_GENERATION then resize_legacy session_id cols rows
           else Sessions.resize session_id subscriber cols rows);
      mret (quiet_reply session_id None r)
  | Frame_FocusSession session_id view_id hover =>
      if generation =? LEGACY_GENERATION then
        mret (Some (Frame_Error (Some session_id) None error_code.UNCAPABLE_PEER
          "focus_session is a generation-3 operation and this connection negotiated generation 2" None))
      else
        r ← focus session_id view_id hover; mret (quiet_reply session_id None r)
  | Frame_Subscribe _ => subscribe subscriber outbound;; mret None
  | Frame_Hello hello =>
      mret (Some (bare_error error_code.INVALID_ARGUMENT
        "hello may only be sent once, as the first frame" (h_request_id hello)))
  | Frame_Error _ _ _ _ _ => mret None
  | other => mret (Some (unexpected_frame other))
  end.

(** ** What a client may be told *)

(** A refusal that names the subject of the request. *)
Definition refuses (session_id : option SessionId) (workspace_id : option string) (request_id : option Z)
    (reply : Frame) : Prop :=
  ∃ code message, reply = Frame_Error session_id workspace_id code message request_id.

(** The replies [frame] may be answered with. *)
Definition answers (frame : Frame) (reply : option Frame) : Prop :=
  match frame, reply with
  | Frame_CreateSession named _ _ _ _ _ _ _ _ _ _ rid, Some r =>
      (∃ session persisted, r = Frame_Created session persisted rid) ∨ refuses None (Some named) rid r
  | Frame_ListSessions rid, Some r => ∃ sessions, r = Frame_SessionList sessions rid
  | Frame_CreateWorkspace _ _ _ _ _ _ _ rid, Some r =>
      (∃ workspace sessions persisted, r = Frame_Workspace workspace sessions persisted rid) ∨
      ∃ id, refuses None id rid r
  | Frame_OpenWorkspace id rid, Some r
  | Frame_RenameWorkspace id _ rid, Some r
  | Frame_UpdateWorkspaceProject id _ _ _ _ rid, Some r =>
      (∃ workspace sessions persisted, r = Frame_Workspace workspace sessions persisted rid) ∨
      refuses None (Some id) rid r
  | Frame_ListWorkspaces rid, Some r => ∃ workspaces, r = Frame_WorkspaceList workspaces rid
  | Frame_UpdateLayout id layout rev rid, Some r =>
      (∃ persisted, r = Frame_LayoutChanged id layout rev persisted rid) ∨ refuses None (Some id) rid r
  | Frame_KillWorkspace id rid, Some r =>
      (∃ persisted, r = Frame_WorkspaceRemoved id persisted rid) ∨ refuses None (Some id) rid r
  | Frame_Kill id rid, Some r => r = Frame_Removed id ∨ refuses (Some id) None rid r
  | Frame_Attach id _ rid, Some r => refuses (Some id) None rid r
  | Frame_Write id _, Some r | Frame_Resize id _ _, Some r | Frame_FocusSession id _ _, Some r =>
      refuses (Some id) None None r
  | Frame_Attach _ _ _, None | Frame_Write _ _, None | Frame_Resize _ _ _, None
  | Frame_FocusSession _ _ _, None | Frame_Detach _ _, None | Frame_Subscribe _, None
  | Frame_Error _ _ _ _ _, None => True
  | Frame_Hello hello, Some r => refuses None None (h_request_id hello) r
  | Frame_Shutdown _ rid, Some r => refuses None None rid r
  | (Frame_HelloAck _ | Frame_SessionList _ _ | Frame_Created _ _ _ | Frame_Workspace _ _ _ _
    | Frame_WorkspaceList _ _ | Frame_LayoutChanged _ _ _ _ _ | Frame_WorkspaceRemoved _ _ _
    | Frame_Removed _ | Frame_Replay _ _ _ | Frame_Output _ _ | Frame_Status _ _ _
    | Frame_Exited _ _ | Frame_ShutdownAck _) as f, Some r =>
      refuses (frame_session_id f) (frame_workspace_id f) (frame_request_id f) r
  | _, _ => False
  end.

(** Every answer [m] can give is in [Q]. *)
Definition gives {A} (Q : A → Prop) (m : T A) : Prop := ∀ w, Q (m w).1.

Lemma gives_bind {A B} (Q : B → Prop) (m : T A) (k : A → T B) :
  (∀ a, gives Q (k a)) → gives Q (m ≫= k).
Proof. intros Hk w. rewrite st_bind_unfold. apply Hk. Qed.

Lemma gives_then {A B} (R : A → Prop) (Q : B → Prop) (m : T A) (k : A → T B) :
  gives R m → (∀ a, R a → gives Q (k a)) → gives Q (m ≫= k).
Proof. intros Hm Hk w. rewrite st_bind_unfold. by apply Hk. Qed.

Lemma gives_ret {A} (Q : A → Prop) (a : A) : Q a → gives Q (mret a).
Proof. by intros Ha w. Qed.

Lemma refuses_refusal err sid wid rid : refuses sid wid rid (refusal err sid wid rid).
Proof. by eexists _, _. Qed.
Hint Resolve refuses_refusal : core.

(** Follow a computation to each of its answers. *)
Ltac answers_step :=
  cbv beta zeta;
  lazymatch goal with
  | |- gives _ (_ ≫= _) => apply gives_bind; intros ?
  | |- gives _ (mret _) => apply gives_ret
  | |- gives _ (match ?x with _ => _ end) => destruct x
  | |- gives _ (create_session _ _ _ _ _ _ _ _ _ _ _ _ _ _) => unfold create_session
  | |- gives _ (combined_create _ _ _ _ _ _ _ _ _ _) => unfold combined_create
  end.

Lemma workspace_reply_answers persisted id rid r :
  ∃ f, workspace_reply persisted id rid r = Some f ∧
    ((∃ workspace sessions persisted, f = Frame_Workspace workspace sessions persisted rid) ∨
     refuses None (Some id) rid f).
Proof. destruct r as [[i ss]|e]; eexists; (split; [reflexivity|]); [left; by eexists _, _, _|by right]. Qed.

Lemma quiet_reply_answers id rid r :
  match quiet_reply id rid r with Some f => refuses (Some id) None rid f | None => True end.
Proof. by destruct r; simpl. Qed.

Lemma create_session_answers generation persisted named cwd p pi command env cols rows kind label bytes rid :
  gives (λ r, (∃ session persisted, r = Frame_Created session persisted rid) ∨ refuses None (Some named) rid r)
    (create_session generation persisted named cwd p pi command env cols rows kind label bytes rid).
Proof. repeat answers_step; [left; by eexists _, _|by right..]. Qed.

Lemma combined_create_answers who root name p pi env cols rows persisted rid :
  gives (λ r, (∃ i ss persisted, r = Frame_Workspace i ss persisted rid) ∨ ∃ id, refuses None id rid r)
    (combined_create who root name p pi env cols rows persisted rid).
Proof.
  repeat answers_step; try (right; by eexists).
  repeat case_match; [left; by eexists _, _, _|right; by eexists].
Qed.

(** C30. One request in, at most one reply out, and the reply fits: requests are
    answered with their own kind of ack or a refusal that carries the request's
    correlation id and names its subject; attach, detach, input, resize, focus and
    subscribe are answered only when they fail; an error is never answered. *)
Theorem replies_fit_their_request frame subscriber outbound generation w :
  answers frame (st_eval (handle_frame frame subscriber outbound generation) w).
Proof.
  unfold st_eval. revert w. change (gives (answers frame) (handle_frame frame subscriber outbound generation)).
  unfold handle_frame. apply gives_bind. intros w.
  destruct frame; cbn match; cbv zeta;
    try (eapply gives_then; [first [apply create_session_answers | apply combined_create_answers]|];
         intros r Hr; apply gives_ret; exact Hr);
    try (apply gives_bind; intros r; apply gives_ret;
         destruct (workspace_reply_answers (persisted w) workspace_id request_id r) as (f & -> & Hf); exact Hf).
  all: try (destruct (generation =? LEGACY_GENERATION);
    [eapply gives_then; [apply combined_create_answers|]; intros r Hr; apply gives_ret; exact Hr|]).
  all: repeat answers_step; cbn [answers]; try done; try (by repeat eexists);
    try (apply quiet_reply_answers).
  all: destruct a; [left|right]; by repeat eexists.
Qed.

(** The daemon selects a generation and the client agrees: an acknowledged hello
    is served at the highest generation both ranges contain, and the client that sent
    it accepts the ack; a hello with no common generation or an unusable capability
    list is refused under the code for it, with the hello's id, and the client fails. *)
Theorem handshake_is_agreed hello w :
  match st_eval (handshake (inr (Frame_Hello hello))) w with
  | (Some reply, Some generation) =>
      generation = Z.min (h_max_generation hello) MAX_GENERATION ∧
      h_min_generation hello ≤ generation ∧ MIN_GENERATION ≤ generation ∧
      validate_capabilities (h_capabilities hello) = Ok () ∧
      ∃ ack, reply = Frame_HelloAck ack ∧ ack_generation ack = generation ∧
        ack_request_id ack = h_request_id hello ∧ accept_reply hello reply = inr ack
  | (Some reply, None) =>
      ∃ code, refuses None None (h_request_id hello) reply ∧ frame_error_code reply = Some code ∧
        (∃ text, accept_reply hello reply = inl text) ∧
        ((code = error_code.UNSUPPORTED_GENERATION ∧
          ∀ g, ¬ (h_min_generation hello ≤ g ≤ h_max_generation hello ∧ MIN_GENERATION ≤ g ≤ MAX_GENERATION)) ∨
         (code = error_code.INVALID_ARGUMENT ∧ validate_capabilities (h_capabilities hello) ≠ Ok ()))
  | (None, _) => False
  end.
Proof.
  unfold st_eval, handshake.
  destruct (select_generation _ _ _ _) as [g|] eqn:Hg.
  - apply select_generation_Some in Hg as (Hmin & Hlo & Hd).
    destruct (validate_capabilities (h_capabilities hello)) as [[]|reason] eqn:Hcap.
    + rewrite !st_bind_unfold. cbn [st_get fst snd mret st_ret].
      split_and!; [done..|]. eexists. split; [reflexivity|]. split_and!; [done..|].
      cbn [accept_reply hello_ack ack_generation].
      rewrite (proj2 (Z.ltb_ge _ _)), (proj2 (Z.ltb_ge _ _)) by lia. done.
    + simpl. eexists. split_and!; [by eexists _, _|done|by eexists|by right].
  - simpl. eexists. split_and!; [by eexists _, _|done|by eexists|left; split; [done|]].
    intros g Hin. unfold select_generation in Hg. case_match eqn:Hs; [done|].
    unfold MIN_GENERATION, MAX_GENERATION in *.
    apply Z.leb_gt in Hs. lia.
Qed.
End Dispatch.
