(* ===== verification/TableSpecs.v ===== *)
(** * Rules for the session table's primitives

    What each building block of the table's operations may change, as a rule of
    [wp], and the invariant the operations keep. *)

From S2P Require Import Prelude Text Layout Proto Outbound Stream Host Hub Ledger World Table Sessions.
From stdpp Require Import options.
Open Scope Z_scope.

Section Specs.
Context {G : Type} `{ScreenGrid G, StateCodec, OS}.
Abbreviation W := (world G).
Abbreviation T A := (st W A).
Implicit Types w : W.

Lemma wp_ask {A} (f : nat → A) (Q : A → W → Prop) w :
  Q (f (w_tick w)) (tick 1 w) → wp (ask f) Q w.
Proof. done. Qed.

Lemma wp_fail {A} (e : TableError) (Q : TableResult A → W → Prop) w : Q (Err e) w → wp (fail e) Q w.
Proof. done. Qed.

Lemma wp_fallible context (Q : TableResult () → W → Prop) w :
  (∀ r, (∀ e, r = Err e → te_code e = error_code.INTERNAL) → Q r (tick 1 w)) →
  wp (fallible context) Q w.
Proof.
  intros HQ. unfold fallible. wp_step. apply wp_ask. wp_step. apply HQ.
  intros e. by case_match; intros; simplify_eq.
Qed.

(** A publication changes the event hub and the queues, nothing else. *)
Lemma wp_events_do f (Q : () → W → Prop) w :
  (∀ e qs, f (w_events w) (w_queues w) = (e, qs) → Q () (set_events e qs w)) →
  wp (events_do f) Q w.
Proof. intros HQ. unfold wp, events_do. destruct (f _ _). by apply HQ. Qed.

Lemma wp_publish frame (Q : () → W → Prop) w :
  (∀ e qs, events_publish frame (w_events w) (w_queues w) = (e, qs) → Q () (set_events e qs w)) →
  wp (publish frame) Q w.
Proof. apply wp_events_do. Qed.

(** A hub operation changes that hub and the queues; no hub comes or goes. *)
Lemma wp_hub_do handle f (Q : () → W → Prop) w :
  (∀ hubs qs, dom hubs = dom (w_hubs w) → Q () (set_hubs hubs qs w)) → wp (hub_do handle f) Q w.
Proof.
  intros HQ. unfold wp, hub_do. destruct (w_hubs w !! handle) as [hub|] eqn:Hh.
  - destruct (f hub _) as [hub' qs]. apply HQ. rewrite dom_insert_L.
    apply elem_of_dom_2 in Hh. set_solver.
  - assert (w = set_hubs (w_hubs w) (w_queues w) w) as Hw by by destruct w.
    rewrite Hw at 2. by apply HQ.
Qed.

(** The same where the hub is known. *)
Lemma wp_hub_do_at handle hub f (Q : () → W → Prop) w :
  w_hubs w !! handle = Some hub →
  (∀ hub' qs, f hub (w_queues w) = (hub', qs) →
     Q () (set_hubs (<[handle := hub']> (w_hubs w)) qs w)) →
  wp (hub_do handle f) Q w.
Proof. intros Hh HQ. unfold wp, hub_do. rewrite Hh. destruct (f hub _). by apply HQ. Qed.

Lemma wp_hub_do_now handle f (Q : () → W → Prop) w :
  (∀ hubs qs, dom hubs = dom (w_hubs w) → Q () (set_hubs hubs qs (tick 1 w))) →
  wp (hub_do_now handle f) Q w.
Proof. intros HQ. unfold hub_do_now. wp_step. apply wp_ask. by apply wp_hub_do. Qed.

Lemma wp_publish_ending handle event (Q : () → W → Prop) w :
  (∀ e qs hubs qs', dom hubs = dom (w_hubs w) → Q () (set_hubs hubs qs' (set_events e qs w))) →
  wp (publish_ending handle event) Q w.
Proof.
  intros HQ. unfold publish_ending. wp_step. apply wp_publish. intros e qs _.
  apply wp_hub_do. intros hubs qs' Hd. by apply HQ.
Qed.

(** What a save leaves: on success the ledger is the table, unless the store is
    read-only and nothing is written; on failure the ledger is as it was. *)
Definition ledger_is (w : W) (s : StateStore) : Prop :=
  read_only s = true ∨
  sto_file s =
    Contents (render_state (mkStateFile STATE_VERSION (ledger_records w) (ledger_workspaces w))).

Definition saved (w : W) (r : result string ()) (s : StateStore) : Prop :=
  read_only s = read_only (w_store w) ∧
  match r with Ok _ => ledger_is w s | Err _ => s = w_store w ∧ read_only s = false end.

Lemma wp_persist (Q : result string () → W → Prop) w :
  (∀ r s, saved w r s → Q r (set_store s (tick 1 (tick 1 w)))) → wp persist Q w.
Proof.
  intros HQ. unfold persist, persist_serialized. wp_step. apply wp_ask. wp_step. apply wp_ask.
  unfold wp, save_ledger. simpl.
  set (dir := os_fail _). set (wr := os_fail _).
  pose proof (store_save_flags dir wr (ledger_records w) (ledger_workspaces w) (w_store w)) as Hf.
  pose proof (store_save_file dir wr (ledger_records w) (ledger_workspaces w) (w_store w)) as Hok.
  pose proof (store_save_err dir wr (ledger_records w) (ledger_workspaces w) (w_store w)) as Herr.
  change (ledger_records (tick 1 (tick 1 w))) with (ledger_records w).
  change (ledger_workspaces (tick 1 (tick 1 w))) with (ledger_workspaces w).
  destruct (store_save _ _ _ _ _) as [r s]. simpl in *. apply HQ. split; [done|].
  destruct r as [[]|e]; [|destruct (Herr e eq_refl) as [-> ?]; done].
  unfold ledger_is. rewrite Hf. destruct (read_only (w_store w)); [by left|right; by apply Hok].
Qed.

Lemma wp_release id (Q : () → W → Prop) w :
  Q () (set_pending (List.filter (λ r, negb (bool_decide (ps_id r = id))) (w_pending w)) w) →
  wp (release id) Q w.
Proof. done. Qed.

Lemma wp_kill_process s (Q : () → W → Prop) w :
  (∀ calls, Q () (log_signals calls (tick 1 (tick 1 w)))) → wp (kill_process s) Q w.
Proof.
  intros HQ. unfold kill_process. wp_step. apply wp_ask. wp_step. apply wp_ask. do 2 wp_step.
  cbv zeta. apply wp_modify. apply HQ.
Qed.

(** ** What an operation leaves alone *)

(** The tables the ledger records, and which hubs exist. *)
Definition same_tables (w w' : W) : Prop :=
  w_sessions w' = w_sessions w ∧ w_workspaces w' = w_workspaces w ∧ w_pending w' = w_pending w ∧
  dom (w_hubs w') = dom (w_hubs w) ∧ dom (w_activities w') = dom (w_activities w).

(** Nothing was said to anyone. *)
Definition silent (w w' : W) : Prop :=
  w_events w' = w_events w ∧ w_queues w' = w_queues w ∧ w_hubs w' = w_hubs w.

(** The ledger on disk is the table in memory, unless this daemon may not write. *)
Definition durable (w : W) : Prop := ledger_is w (w_store w).

(** The ledger reads only the tables and the reservations. *)
Lemma durable_ext w w' :
  w_sessions w' = w_sessions w → w_workspaces w' = w_workspaces w → w_pending w' = w_pending w →
  ledger_is w (w_store w') → durable w'.
Proof.
  intros Hs Hw Hp. unfold durable, ledger_is, ledger_records, ledger_workspaces, session_values,
    workspace_values. by rewrite Hs, Hw, Hp.
Qed.

(** After a save: the rest of the operation touched neither tables nor store. *)
Lemma saved_outcome w w' r s :
  saved w r s → w_store w' = s →
  w_sessions w' = w_sessions w → w_workspaces w' = w_workspaces w → w_pending w' = w_pending w →
  match r with
  | Ok _ => durable w'
  | Err _ => w_store w' = w_store w ∧ read_only (w_store w) = false
  end.
Proof.
  intros [Hro Hs] Hst Hs1 Hw1 Hp1. destruct r; [|by destruct Hs as [-> ?]; rewrite Hst in *].
  apply (durable_ext w); [done..|]. by rewrite Hst.
Qed.

Lemma with_layout_undo i layout rev :
  with_layout (wi_layout i) (wi_layout_rev i) (with_layout layout rev i) = i.
Proof. by destruct i. Qed.

Lemma alter_insert_undo {K} `{Countable K} {A} (m : gmap K A) id x y f :
  m !! id = Some x → f y = x → alter f id (<[id := y]> m) = m.
Proof.
  intros Hm Hf. apply map_eq. intros j. destruct (decide (j = id)) as [->|].
  - by rewrite lookup_alter_eq, lookup_insert_eq, Hm, <- Hf.
  - by rewrite lookup_alter_ne, lookup_insert_ne.
Qed.

Lemma alter_undo {K} `{Countable K} {A} (m : gmap K A) id x f g :
  m !! id = Some x → f (g x) = x → alter f id (alter g id m) = m.
Proof.
  intros Hm Hf. apply map_eq. intros j. destruct (decide (j = id)) as [->|].
  - rewrite !lookup_alter_eq, Hm. simpl. by rewrite Hf.
  - by rewrite !lookup_alter_ne.
Qed.

Lemma find_map_None {A B} (f : A → option B) l :
  find_map f l = None ↔ ∀ x, x ∈ l → f x = None.
Proof.
  induction l as [|x l IH]; simpl; [split; [by inversion 2|done]|].
  destruct (f x) eqn:Hx; [split; [done|]|rewrite IH].
  - intros Hn. specialize (Hn x ltac:(left)). congruence.
  - split; [intros Hn y [->|?]%elem_of_cons; auto|]. intros Hn y Hy. apply Hn. by right.
Qed.

(** The terminals of a layout all live in workspace [id]. *)
Definition layout_at_home (w : W) (id : string) (layout : LayoutDoc) : Prop :=
  ∀ sid, sid ∈ terminal_sessions layout → ∃ s, w_sessions w !! sid = Some s ∧ s_workspace s = id.

Lemma layout_refusal_None w id layout :
  layout_refusal (w_sessions w) id layout = None ↔ layout_at_home w id layout.
Proof.
  unfold layout_refusal, layout_at_home. rewrite find_map_None.
  split; intros Hl sid Hin; specialize (Hl sid Hin); destruct (w_sessions w !! sid) as [s|].
  - case_decide; [|done]. by eexists.
  - done.
  - destruct Hl as (s' & [= <-] & Hw). by rewrite decide_True.
  - by destruct Hl as (s' & ? & _).
Qed.

Lemma layout_refusal_Some w id layout e :
  layout_refusal (w_sessions w) id layout = Some e →
  te_code e = error_code.INVALID_ARGUMENT ∧ ¬ layout_at_home w id layout.
Proof.
  intros He. split; [|by rewrite <- layout_refusal_None, He].
  apply find_map_Some in He as (k & sid & _ & He & _). by repeat case_match; simplify_eq.
Qed.
Lemma elem_of_session_values w s :
  s ∈ session_values w ↔ ∃ id, w_sessions w !! id = Some s.
Proof.
  unfold session_values. rewrite list_elem_of_fmap. split.
  - intros ([id t] & -> & Hin). exists id. by apply elem_of_map_to_list.
  - intros [id Hs]. exists (id, s). split; [done|]. by apply elem_of_map_to_list.
Qed.

Lemma elem_of_workspace_values w i :
  i ∈ workspace_values w ↔ ∃ id, w_workspaces w !! id = Some i.
Proof.
  unfold workspace_values. rewrite list_elem_of_fmap. split.
  - intros ([id j] & -> & ?%elem_of_map_to_list). by exists id.
  - intros [id ?]. exists (id, i). split; [done|]. by apply elem_of_map_to_list.
Qed.
End Specs.

(** Close what a save left to show about the ledger. *)
Ltac ledger_from Hst :=
  match type of Hst with
  | saved ?x ?r ?s =>
      exact (saved_outcome x (set_store s (tick 1 (tick 1 x))) r s Hst eq_refl eq_refl eq_refl eq_refl)
  end.

Ltac ledger_facts Hst Ho :=
  match type of Hst with
  | saved ?x ?r ?s =>
      pose proof (saved_outcome x (set_store s (tick 1 (tick 1 x))) r s Hst eq_refl eq_refl eq_refl
                    eq_refl) as Ho
  end.
