(* ===== verification/TableInv.v ===== *)
(** * The session table's invariant

    Every session belongs to a workspace that exists, every terminal tab of a
    layout names a session of that very workspace, rows are stored under their own
    ids, revisions stay within their width, and every session has a hub and an
    activity record of its own. Each operation keeps it. *)

From S2P Require Import Prelude Text Layout Proto Outbound Stream Host Hub Ledger World Table Sessions TableSpecs.
From stdpp Require Import options.
Open Scope Z_scope.

(** An ask is one a client sends after clamping: at least one column and row. *)
Definition ask_ok (a : SubscriberId * (Z * Z)) : Prop := 1 ≤ a.2.1 ∧ 1 ≤ a.2.2.

Section Invariant.
Context {G : Type} `{ScreenGrid G, StateCodec, OS}.
Abbreviation W := (world G).
Abbreviation T A := (st W A).
Implicit Types w : W.

Definition rev_ok (i : WorkspaceInfo) : Prop :=
  0 ≤ wi_layout_rev i ≤ u64_max ∧ 0 ≤ wi_project_scope_rev i ≤ u64_max.

Record table_wf (w : W) : Prop := {
  wf_key : ∀ id s, w_sessions w !! id = Some s → s_id s = id;
  wf_home : ∀ id s, w_sessions w !! id = Some s → is_Some (w_workspaces w !! s_workspace s);
  wf_wkey : ∀ id i, w_workspaces w !! id = Some i → wi_id i = id;
  wf_layout : ∀ id i sid, w_workspaces w !! id = Some i → sid ∈ terminal_sessions (wi_layout i) →
    ∃ s, w_sessions w !! sid = Some s ∧ s_workspace s = id;
  wf_rev : ∀ id i, w_workspaces w !! id = Some i → rev_ok i;
  wf_hub : ∀ id s, w_sessions w !! id = Some s →
    s_handle s ∈ dom (w_hubs w) ∧ s_handle s ∈ dom (w_activities w);
  wf_handle : ∀ id id' s s', w_sessions w !! id = Some s → w_sessions w !! id' = Some s' →
    s_handle s = s_handle s' → id = id';
  wf_asks : ∀ id s, w_sessions w !! id = Some s → Forall ask_ok (s_sizes s)
}.

(** The invariant reads only the two tables and which hubs exist. *)
Lemma wf_ext w w' :
  w_sessions w' = w_sessions w → w_workspaces w' = w_workspaces w →
  dom (w_hubs w') = dom (w_hubs w) → dom (w_activities w') = dom (w_activities w) →
  table_wf w → table_wf w'.
Proof. intros Hs Hw Hh Ha []. split; rewrite ?Hs, ?Hw, ?Hh, ?Ha; done. Qed.

Lemma wf_events w e qs : table_wf w → table_wf (set_events e qs w).
Proof. by apply wf_ext. Qed.
Lemma wf_pending w l : table_wf w → table_wf (set_pending l w).
Proof. by apply wf_ext. Qed.
Lemma wf_store w s : table_wf w → table_wf (set_store s w).
Proof. by apply wf_ext. Qed.
Lemma wf_tick w n : table_wf w → table_wf (tick n w).
Proof. by apply wf_ext. Qed.
Lemma wf_pty w c : table_wf w → table_wf (log_pty c w).
Proof. by apply wf_ext. Qed.
Lemma wf_signals w cs : table_wf w → table_wf (log_signals cs w).
Proof. by apply wf_ext. Qed.
Lemma wf_hubs w hubs qs : dom hubs = dom (w_hubs w) → table_wf w → table_wf (set_hubs hubs qs w).
Proof. intros. by apply (wf_ext w). Qed.
Lemma wf_activities w m : dom m = dom (w_activities w) → table_wf w → table_wf (set_activities m w).
Proof. intros. by apply (wf_ext w). Qed.

(** A change of sessions in place that keeps their identity. *)
Definition keeps_identity (f : Session → Session) : Prop :=
  ∀ s, s_id (f s) = s_id s ∧ s_workspace (f s) = s_workspace s ∧ s_handle (f s) = s_handle s ∧
       (Forall ask_ok (s_sizes s) → Forall ask_ok (s_sizes (f s))).

Lemma wf_sessions_map w m (f : string → Session → Session) :
  (∀ id s, s_id (f id s) = s_id s ∧ s_workspace (f id s) = s_workspace s ∧
           s_handle (f id s) = s_handle s ∧
           (Forall ask_ok (s_sizes s) → Forall ask_ok (s_sizes (f id s)))) →
  (∀ id, m !! id = f id <$> w_sessions w !! id) →
  table_wf w → table_wf (set_sessions m w).
Proof.
  intros Hf Hm [].
  assert (∀ id s', m !! id = Some s' → ∃ s, w_sessions w !! id = Some s ∧ s_id s' = s_id s ∧
            s_workspace s' = s_workspace s ∧ s_handle s' = s_handle s ∧
            (Forall ask_ok (s_sizes s) → Forall ask_ok (s_sizes s'))) as Hl.
  { intros id s'. rewrite Hm. intros (s & Hs & ->)%fmap_Some. exists s. split; [done|apply Hf]. }
  split; simpl; try done.
  - intros id s (t & Ht & -> & _)%Hl. eauto.
  - intros id s (t & Ht & _ & -> & _)%Hl. eauto.
  - intros id i sid Hi Hin. destruct (wf_layout0 id i sid Hi Hin) as (s & Hs & Hw).
    exists (f sid s). rewrite Hm, Hs. split; [done|]. by rewrite (proj1 (proj2 (Hf sid s))).
  - intros id s (t & Ht & _ & _ & -> & _)%Hl. eauto.
  - intros id id' s s' (t & Ht & _ & _ & -> & _)%Hl (t' & Ht' & _ & _ & -> & _)%Hl. eauto.
  - intros id s (t & Ht & _ & _ & _ & Hk)%Hl. eauto.
Qed.

Lemma wf_alter_session w id f :
  keeps_identity f → table_wf w → table_wf (set_sessions (alter f id (w_sessions w)) w).
Proof.
  intros Hf. apply (wf_sessions_map w _ (λ j s, if decide (j = id) then f s else s)).
  - intros j s. by case_decide.
  - intros j. destruct (decide (j = id)) as [->|Hne].
    + by rewrite lookup_alter_eq.
    + rewrite lookup_alter_ne by done. by destruct (w_sessions w !! j).
Qed.

(** Replacing one row by another of the same identity. *)
Lemma wf_replace_session w id s s' :
  w_sessions w !! id = Some s → s_id s' = s_id s → s_workspace s' = s_workspace s →
  s_handle s' = s_handle s → Forall ask_ok (s_sizes s') → table_wf w →
  table_wf (set_sessions (alter (λ _, s') id (w_sessions w)) w).
Proof.
  intros Hs Hi Hw Hh Ha.
  apply (wf_sessions_map w _ (λ j t, if decide (j = id ∧ t = s) then s' else t)).
  - intros j t. case_decide as Hd; [|done]. destruct Hd as [_ ->]. done.
  - intros j. destruct (decide (j = id)) as [->|Hne].
    + rewrite lookup_alter_eq, Hs. simpl. by rewrite decide_True.
    + rewrite lookup_alter_ne by done. destruct (w_sessions w !! j); [|done]. simpl.
      rewrite decide_False; [done|]. by intros [-> _].
Qed.

(** Changing a workspace record in place: its id stays, its layout names nothing
    foreign, its revisions stay in range. *)
Lemma wf_alter_workspace w id f :
  (∀ i, w_workspaces w !! id = Some i →
     wi_id (f i) = wi_id i ∧ rev_ok (f i) ∧
     ∀ sid, sid ∈ terminal_sessions (wi_layout (f i)) →
       ∃ s, w_sessions w !! sid = Some s ∧ s_workspace s = id) →
  table_wf w → table_wf (set_workspaces (alter f id (w_workspaces w)) w).
Proof.
  intros Hf []. split; simpl; try done.
  - intros j s Hs. destruct (wf_home0 j s Hs) as [i Hi].
    destruct (decide (id = s_workspace s)) as [->|]; [rewrite lookup_alter_eq, Hi|rewrite lookup_alter_ne by done]; eauto.
  - intros j i [(-> & x & Hx & ->)|[? ?]]%lookup_alter_Some; [|by eauto].
    rewrite (proj1 (Hf _ Hx)). eauto.
  - intros j i sid [(-> & x & Hx & ->)|[? ?]]%lookup_alter_Some; [|by eauto]. by apply Hf.
  - intros j i [(-> & x & Hx & ->)|[? ?]]%lookup_alter_Some; [|by eauto]. by apply Hf.
Qed.

(** A new record with an empty layout, under an id nothing was under or whatever
    was there. *)
Lemma wf_put_workspace w i :
  rev_ok i → (∀ sid, sid ∈ terminal_sessions (wi_layout i) →
                ∃ s, w_sessions w !! sid = Some s ∧ s_workspace s = wi_id i) →
  table_wf w → table_wf (set_workspaces (<[wi_id i := i]> (w_workspaces w)) w).
Proof.
  intros Hr Hl []. split; simpl; try done.
  - intros j s Hs. destruct (decide (wi_id i = s_workspace s)) as [->|].
    + rewrite lookup_insert_eq. eauto.
    + rewrite lookup_insert_ne by done. eauto.
  - intros j k [[<- <-]|[? ?]]%lookup_insert_Some; eauto.
  - intros j k sid [[<- <-]|[? ?]]%lookup_insert_Some; eauto.
  - intros j k [[<- <-]|[? ?]]%lookup_insert_Some; eauto.
Qed.

(** Removing a workspace nothing lives in. *)
Lemma wf_delete_workspace w id :
  (∀ j s, w_sessions w !! j = Some s → s_workspace s ≠ id) →
  table_wf w → table_wf (set_workspaces (delete id (w_workspaces w)) w).
Proof.
  intros Hn []. split; simpl; try done.
  - intros j s Hs. rewrite lookup_delete_ne; [by eauto|]. intros ->. by eapply Hn.
  - intros j k [? ?]%lookup_delete_Some. eauto.
  - intros j k sid [? ?]%lookup_delete_Some. eauto.
  - intros j k [? ?]%lookup_delete_Some. eauto.
Qed.

(** A new session in an existing workspace, under an id and a handle of its own. *)
Lemma wf_add_session w s hub a :
  w_sessions w !! s_id s = None → is_Some (w_workspaces w !! s_workspace s) →
  (∀ j t, w_sessions w !! j = Some t → s_handle t ≠ s_handle s) → s_sizes s = [] →
  table_wf w → table_wf (add_session s hub a w).2.
Proof.
  intros Hn Hw Hfr Hsz []. split; simpl; try done.
  - intros j t [[<- <-]|[? ?]]%lookup_insert_Some; eauto.
  - intros j t [[<- <-]|[? ?]]%lookup_insert_Some; eauto.
  - intros id i sid Hi Hin. destruct (wf_layout0 id i sid Hi Hin) as (t & Ht & Hwt).
    exists t. rewrite lookup_insert_ne by congruence. done.
  - intros j t [[<- <-]|[Hne Ht]]%lookup_insert_Some; rewrite !dom_insert; [set_solver|].
    destruct (wf_hub0 j t Ht). set_solver.
  - intros j j' t t' [[<- <-]|[Hne Ht]]%lookup_insert_Some [[<- <-]|[Hne' Ht']]%lookup_insert_Some Heq.
    + done.
    + exfalso. by eapply Hfr.
    + exfalso. by eapply Hfr.
    + eauto.
  - intros j t [[<- <-]|[? ?]]%lookup_insert_Some; [by rewrite Hsz|eauto].
Qed.
End Invariant.

#[export] Hint Resolve wf_events wf_pending wf_store wf_tick wf_pty wf_signals wf_hubs
  wf_activities : daemon.
