(* ===== verification/Layouts.v ===== *)
(** * Revision-guarded layout writes

    What [update_layout], [install_legacy_layout] and the class-B writes of
    [crates/ade_session_daemon/src/sessions.rs] promise: a write applies whole and
    durably, or leaves the table, the ledger and every subscriber as they were. *)

From S2P Require Import Prelude Text Layout Proto Outbound Stream Host Hub Ledger World Table Sessions TableSpecs TableInv.
From stdpp Require Import options.
Open Scope Z_scope.

Section Layouts.
Context {G : Type} `{ScreenGrid G, StateCodec, OS}.
Abbreviation W := (world G).
Implicit Types w : W.

(** A refused write: the tables, the subscribers and the ledger as they were. *)
Definition refused (w w' : W) : Prop :=
  same_tables w w' ∧ silent w w' ∧ w_store w' = w_store w ∧ w_ptys w' = w_ptys w ∧
  w_signals w' = w_signals w.

Lemma refused_refl w : refused w w.
Proof. unfold refused, same_tables, silent. by split_and!. Qed.

Definition layout_written (id : string) (layout : LayoutDoc) (rev : Z)
    (writer : option SubscriberId) (w w' : W) : Prop :=
  ∃ i, w_workspaces w !! id = Some i ∧ wi_layout_rev i < rev ∧ layout_at_home w id layout ∧
    w_sessions w' = w_sessions w ∧
    w_workspaces w' = <[id := with_layout layout rev i]> (w_workspaces w) ∧
    w_pending w' = w_pending w ∧ w_hubs w' = w_hubs w ∧ w_activities w' = w_activities w ∧
    durable w' ∧
    let changed := Frame_LayoutChanged id layout rev (persisted w') None in
    match writer with
    | Some who => events_publish_except who changed (w_events w) (w_queues w)
    | None => events_publish changed (w_events w) (w_queues w)
    end = (w_events w', w_queues w').

Definition layout_refused (id : string) (layout : LayoutDoc) (rev : Z) (e : TableError) (w : W) : Prop :=
  match w_workspaces w !! id with
  | None => te_code e = error_code.NOT_FOUND
  | Some i =>
      if rev <=? wi_layout_rev i then te_code e = error_code.STALE_REV
      else (te_code e = error_code.INVALID_ARGUMENT ∧ ¬ layout_at_home w id layout) ∨
           (te_code e = error_code.PERSIST_FAILED ∧ layout_at_home w id layout ∧
            read_only (w_store w) = false)
  end.

Lemma update_layout_outcome id layout rev writer w :
  wp (update_layout id layout rev writer)
    (λ r w', match r with
             | Ok _ => layout_written id layout rev writer w w'
             | Err e => layout_refused id layout rev e w ∧ refused w w'
             end) w.
Proof.
  unfold update_layout, layout_refused. wp_step. unfold wp at 1, apply_layout.
  destruct (w_workspaces w !! id) as [i|] eqn:Hi; simpl; [|by split; [|apply refused_refl]].
  destruct (rev <=? wi_layout_rev i) eqn:Hrev; simpl; [by split; [|apply refused_refl]|].
  destruct (layout_refusal (w_sessions w) id layout) as [e|] eqn:Hl; simpl.
  { apply layout_refusal_Some in Hl. split; [by left|apply refused_refl]. }
  apply layout_refusal_None in Hl. boolify.
  wp_step. apply wp_persist. intros r s [Hro Hs]. destruct r as [[]|err].
  - wp_step. apply wp_get. wp_step. destruct writer as [who|].
    all: (apply wp_events_do || apply wp_publish); intros e qs He; apply wp_ret;
      exists i; split_and!; done.
  - wp_step. apply wp_modify. apply wp_fail. simpl in *.
    assert (alter (with_layout (wi_layout i) (wi_layout_rev i)) id
              (<[id := with_layout layout rev i]> (w_workspaces w)) = w_workspaces w) as Hundo
      by (eapply alter_insert_undo; [exact Hi|apply with_layout_undo]).
    destruct Hs as [-> Hw]. split; [by right|].
    unfold refused, same_tables, silent. simpl. rewrite Hundo. by split_and!.
Qed.

(** *** The legacy install *)

(** A stale refusal is the first check, before anything is touched. *)
Lemma update_layout_stale id layout rev writer w e w' :
  update_layout id layout rev writer w = (Err e, w') → te_code e = error_code.STALE_REV → w' = w.
Proof.
  intros Hu Hc. pose proof (update_layout_outcome id layout rev writer w) as Ho.
  unfold wp in Ho. rewrite Hu in Ho. simpl in Ho. destruct Ho as [Ho _]. unfold layout_refused in Ho.
  unfold update_layout, bind_ok, apply_layout in Hu.
  destruct (w_workspaces w !! id) as [i|]; [|by rewrite Ho in Hc].
  destruct (rev <=? wi_layout_rev i); [by simplify_eq|].
  destruct Ho as [[Ho _]|[Ho _]]; by rewrite Ho in Hc.
Qed.

(** The document an install writes: the tab goes to the first leaf. *)
Definition with_tab (doc : LayoutDoc) (session : SessionId) : LayoutDoc :=
  mkLayoutDoc (schema_version doc) (append_terminal (root doc) session).

Definition installed (id : string) (session : SessionId) (w w' : W) : Prop :=
  ∃ i, w_workspaces w !! id = Some i ∧
    ((session ∈ terminal_sessions (wi_layout i) ∧ refused w w') ∨
     ((session ∉ terminal_sessions (wi_layout i)) ∧
      layout_written id (with_tab (wi_layout i) session) (wrap64 (wi_layout_rev i + 1)) None w w')).

Definition install_refused (id : string) (session : SessionId) (e : TableError) (w : W) : Prop :=
  match w_workspaces w !! id with
  | None => te_code e = error_code.NOT_FOUND
  | Some i =>
      (session ∉ terminal_sessions (wi_layout i)) ∧
      layout_refused id (with_tab (wi_layout i) session) (wrap64 (wi_layout_rev i + 1)) e w
  end.

Lemma install_attempts_outcome n id session last w :
  (∀ e, last = Some e → install_refused id session e w) → (last = None → n ≠ 0%nat) →
  wp (install_attempts n id session last)
    (λ r w', match r with
             | Ok _ => installed id session w w'
             | Err e => install_refused id session e w ∧ refused w w'
             end) w.
Proof.
  revert last. induction n as [|n IH]; intros last Hlast Hn; simpl.
  { apply wp_fail. destruct last as [e|]; [|by destruct Hn]. split; [by apply Hlast|apply refused_refl]. }
  wp_step. unfold open_workspace. apply wp_gets. destruct (w_workspaces w !! id) as [i|] eqn:Hi.
  2: { unfold install_refused. rewrite Hi. split; [done|apply refused_refl]. }
  simpl. case_decide as Hin.
  { apply wp_ret. exists i. split; [done|]. left. split; [done|apply refused_refl]. }
  wp_step. fold (with_tab (wi_layout i) session).
  set (layout := with_tab _ _). set (rev := wrap64 _).
  pose proof (update_layout_outcome id layout rev None w) as Ho. unfold wp in Ho |- *.
  destruct (update_layout id layout rev None w) as [[[]|e] w1] eqn:Hu; simpl in *.
  - exists i. split; [done|]. by right.
  - destruct Ho as [Hr Hsame].
    assert (install_refused id session e w) as Href by (unfold install_refused; rewrite Hi; done).
    case_decide as Hstale; [|by split].
    apply update_layout_stale in Hu as ->; [|done]. apply IH; [by intros ? [= <-]|done].
Qed.

Lemma wrap64_next n : 0 ≤ n ≤ u64_max → n < wrap64 (n + 1) → wrap64 (n + 1) = n + 1.
Proof.
  intros Hn Hlt. destruct (decide (n = u64_max)) as [->|]; [by vm_compute in Hlt|].
  apply wrap64_small. lia.
Qed.

(** ** Properties *)

(** C5. A layout write succeeds exactly when the workspace exists, the revision is
    ahead of the stored one, every terminal tab names a session of that workspace
    and the ledger could be written; it then stores that document at that revision,
    changes nothing else, leaves the ledger equal to the table, and tells every
    subscriber but the writer. Any refusal carries the code of its own reason and
    leaves the tables, the ledger, the subscribers and every queue exactly as they
    were. *)
Theorem update_layout_all_or_nothing (id : string) (layout : LayoutDoc) (rev : Z)
    (writer : option SubscriberId) (w : W) :
  let '(r, w') := update_layout id layout rev writer w in
  match r with
  | Ok _ => layout_written id layout rev writer w w'
  | Err e => layout_refused id layout rev e w ∧ refused w w'
  end.
Proof.
  pose proof (update_layout_outcome id layout rev writer w) as Ho. unfold wp in Ho.
  by destruct (update_layout id layout rev writer w).
Qed.

(** Installing a first tab converges with whoever else wrote the layout: it
    changes nothing when the tab is already there, and otherwise stores the
    document that was there with one terminal tab more — every other terminal and
    every editor tab still in it — at the next revision, durably. It fails only
    for a reason the write itself would give, and then changes nothing. *)
Theorem install_legacy_layout_converges (id : string) (session : SessionId) (w : W)
    (Hwf : table_wf w) :
  let '(r, w') := install_legacy_layout id session w in
  match r with
  | Ok _ => installed id session w w' ∧
      ∃ i', w_workspaces w' !! id = Some i' ∧ session ∈ terminal_sessions (wi_layout i') ∧
        ∀ i, w_workspaces w !! id = Some i →
          terminal_sessions (wi_layout i) ⊆ terminal_sessions (wi_layout i') ∧
          editors (root (wi_layout i')) = editors (root (wi_layout i)) ∧
          (wi_layout_rev i' = wi_layout_rev i ∨ wi_layout_rev i' = wi_layout_rev i + 1)
  | Err e => install_refused id session e w ∧ refused w w'
  end.
Proof.
  pose proof (install_attempts_outcome ATTEMPTS id session None w ltac:(done) ltac:(done)) as Ho.
  unfold wp in Ho. change (install_legacy_layout id session w) with
    (install_attempts ATTEMPTS id session None w).
  destruct (install_attempts ATTEMPTS id session None w) as [[[]|e] w']; simpl in Ho; [|done].
  split; [done|]. destruct Ho as (i & Hi & [[Hin Hr]|[Hnin Hw]]).
  - destruct Hr as ((_ & Hw & _) & _). rewrite Hw. exists i. split_and!; [done|done|].
    intros j Hj. simplify_eq. auto.
  - destruct Hw as (j & Hj & Hrev & _ & _ & -> & _). simplify_eq.
    exists (with_layout (with_tab (wi_layout i) session) (wrap64 (wi_layout_rev i + 1)) i).
    rewrite lookup_insert_eq. simpl. rewrite !terminal_sessions_spec. simpl.
    rewrite terminals_append_terminal, editors_append_terminal.
    split_and!; [done|set_solver|]. intros k Hk. simplify_eq. rewrite terminal_sessions_spec.
    split_and!; [|done|].
    + intros t Ht. rewrite terminals_append_terminal. set_solver.
    + right. apply wrap64_next; [by apply (wf_rev w Hwf id)|done].
Qed.
End Layouts.
