(* ===== verification/Records.v ===== *)
(** * Workspace records: renaming, project scope, creation

    The class-B and class-C writes of workspace records in
    [crates/ade_session_daemon/src/sessions.rs]. *)

From S2P Require Import Prelude Text Layout Proto Outbound Stream Host Hub Ledger World Table Sessions TableSpecs TableInv Layouts.
From stdpp Require Import options.
Open Scope Z_scope.

Section Records.
Context {G : Type} `{ScreenGrid G, StateCodec, OS}.
Abbreviation W := (world G).
Implicit Types w : W.

(** A record written under [id]: only that record changed, the ledger is the
    table, and every subscriber was told. *)
Definition record_written (id : string) (i' : WorkspaceInfo) (infos : list SessionInfo) (w w' : W) : Prop :=
  w_sessions w' = w_sessions w ∧ w_workspaces w' = <[id := i']> (w_workspaces w) ∧
  w_pending w' = w_pending w ∧ w_hubs w' = w_hubs w ∧ w_activities w' = w_activities w ∧
  durable w' ∧
  events_publish (Frame_Workspace i' infos (persisted w') None) (w_events w) (w_queues w)
    = (w_events w', w_queues w').

Definition not_recorded (e : TableError) (w w' : W) : Prop :=
  te_code e = error_code.PERSIST_FAILED ∧ read_only (w_store w) = false ∧ refused w w'.

Lemma alter_insert {A} (m : gmap string A) id x f : m !! id = Some x → alter f id m = <[id := f x]> m.
Proof.
  intros Hm. apply map_eq. intros j. destruct (decide (j = id)) as [->|].
  - by rewrite lookup_alter_eq, lookup_insert_eq, Hm.
  - by rewrite lookup_alter_ne, lookup_insert_ne.
Qed.

Lemma commit_record_outcome id what killed f g i infos w :
  w_workspaces w !! id = Some i → g (f i) = i →
  wp (commit_record id what killed (alter_workspace id g) (f i) infos)
    (λ r w', match r with
             | Ok x => x = (f i, infos) ∧ record_written id (f i) infos w w'
             | Err e => not_recorded e w w'
             end)
    (set_workspaces (alter f id (w_workspaces w)) w).
Proof.
  intros Hi Hundo. unfold commit_record. wp_step. apply wp_persist. intros r s [Hro Hs].
  destruct r as [[]|err].
  - wp_step. apply wp_get. simpl. rewrite lookup_alter_eq, Hi. simpl.
    wp_step. apply wp_publish. intros e qs He. apply wp_ret. split; [done|].
    unfold record_written. simpl. rewrite <- (alter_insert _ _ _ f Hi). by split_and!.
  - destruct Hs as [-> Hw]. wp_step. apply wp_modify. apply wp_fail.
    split_and!; [done|done|]. unfold refused, same_tables, silent. simpl.
    rewrite (alter_undo _ id i) by done. by split_and!.
Qed.

Definition renamed (id name : string) (x : WorkspaceInfo * list SessionInfo) (w w' : W) : Prop :=
  trim name ≠ "" ∧ ∃ i, w_workspaces w !! id = Some i ∧
    x = (with_name (trim name) i, workspace_sessions id w) ∧
    record_written id (with_name (trim name) i) (workspace_sessions id w) w w'.

Definition rename_refused (id name : string) (e : TableError) (w : W) : Prop :=
  if decide (trim name = "") then te_code e = error_code.INVALID_ARGUMENT
  else match w_workspaces w !! id with
       | None => te_code e = error_code.NOT_FOUND
       | Some _ => te_code e = error_code.PERSIST_FAILED ∧ read_only (w_store w) = false
       end.

Lemma rename_workspace_outcome id name w :
  wp (rename_workspace id name)
    (λ r w', match r with
             | Ok x => renamed id name x w w'
             | Err e => rename_refused id name e w ∧ refused w w'
             end) w.
Proof.
  unfold rename_workspace, rename_refused. cbv zeta. case_decide as Hn.
  { apply wp_fail. split; [done|apply refused_refl]. }
  wp_step. apply wp_get. destruct (w_workspaces w !! id) as [i|] eqn:Hi.
  2: { apply wp_fail. split; [done|apply refused_refl]. }
  wp_step. apply wp_modify. eapply wp_mono.
  - apply (commit_record_outcome id _ _ (with_name (trim name)) (with_name (wi_name i)) i); [done|].
    by destruct i.
  - intros [x|e] w'; [intros [-> Hw]|intros (Hc & Hro & Hr); by split].
    split; [done|]. by exists i.
Qed.

(** ** Project scope *)

(** What an accepted scope write leaves in the record. *)
Definition rescoped (project_id project_identity : string) (project_root : option string)
    (minimum : Z) (i : WorkspaceInfo) : WorkspaceInfo :=
  with_project (Some project_id) (Some project_identity) (default (wi_project_root i) project_root)
    (Z.max (wi_project_scope_rev i) minimum + 1) i.

Definition scope_current (i : WorkspaceInfo) (project_id project_identity : string)
    (project_root : option string) (minimum : Z) : Prop :=
  wi_project_id i = Some project_id ∧ wi_project_identity i = Some project_identity ∧
  (∀ r, project_root = Some r → wi_project_root i = r) ∧ minimum ≤ wi_project_scope_rev i.

Lemma scope_current_spec i project_id project_identity project_root minimum :
  negb (scope_fields_changed i project_id project_identity project_root)
    && (minimum <=? wi_project_scope_rev i) = true ↔
  scope_current i project_id project_identity project_root minimum.
Proof.
  unfold scope_fields_changed, scope_current.
  rewrite andb_true_iff, negb_true_iff, !orb_false_iff, !bool_decide_eq_false, Z.leb_le.
  destruct project_root as [r|]; [rewrite bool_decide_eq_false|]; split.
  - intros [[[P1 P2] P3] P4]. split_and!; try done; try (by apply dec_stable).
    intros ? [= <-]. by apply dec_stable.
  - intros (-> & -> & P3 & P4). rewrite (P3 r) by done. tauto.
  - intros [[[P1 P2] _] P4]. split_and!; try done; by apply dec_stable.
  - intros (-> & -> & _ & P4). tauto.
Qed.

Definition scope_blank (project_id project_identity : string) (project_root : option string) : bool :=
  bool_decide (trim project_id = "") || bool_decide (trim project_identity = "")
  || bool_decide (trim <$> project_root = Some "").

Definition scope_updated (id project_id project_identity : string) (project_root : option string)
    (minimum : Z) (x : WorkspaceInfo * list SessionInfo) (w w' : W) : Prop :=
  scope_blank project_id project_identity project_root = false ∧
  ∃ i, w_workspaces w !! id = Some i ∧
    ((scope_current i project_id project_identity project_root minimum ∧
      x = (i, workspace_sessions id w) ∧ w' = w) ∨
     (¬ scope_current i project_id project_identity project_root minimum ∧
      let i' := rescoped project_id project_identity project_root minimum i in
      wi_project_scope_rev i' ≤ u64_max ∧ x = (i', workspace_sessions id w) ∧
      record_written id i' (workspace_sessions id w) w w')).

Definition scope_refused (id project_id project_identity : string) (project_root : option string)
    (minimum : Z) (e : TableError) (w : W) : Prop :=
  if scope_blank project_id project_identity project_root
  then te_code e = error_code.INVALID_ARGUMENT
  else match w_workspaces w !! id with
       | None => te_code e = error_code.NOT_FOUND
       | Some i =>
           ¬ scope_current i project_id project_identity project_root minimum ∧
           if u64_max <? Z.max (wi_project_scope_rev i) minimum + 1
           then te_code e = error_code.INTERNAL
           else te_code e = error_code.PERSIST_FAILED ∧ read_only (w_store w) = false
       end.

Lemma update_workspace_project_outcome id project_id project_identity project_root minimum w :
  wp (update_workspace_project id project_id project_identity project_root minimum)
    (λ r w', match r with
             | Ok x => scope_updated id project_id project_identity project_root
                         (default 0 minimum) x w w'
             | Err e => scope_refused id project_id project_identity project_root
                          (default 0 minimum) e w ∧ refused w w'
             end) w.
Proof.
  unfold update_workspace_project, scope_refused. fold (scope_blank project_id project_identity project_root).
  destruct (scope_blank _ _ _) eqn:Hb.
  { apply wp_fail. split; [done|apply refused_refl]. }
  wp_step. apply wp_get. destruct (w_workspaces w !! id) as [i|] eqn:Hi.
  2: { apply wp_fail. split; [done|apply refused_refl]. }
  pose proof (scope_current_spec i project_id project_identity project_root (default 0 minimum)) as Hcur.
  destruct (negb _ && _).
  { apply wp_ret. split; [done|]. exists i. split; [done|]. left. by split; [apply Hcur|]. }
  assert (¬ scope_current i project_id project_identity project_root (default 0 minimum)) as Hn
    by (intros Hc; by apply Hcur in Hc).
  destruct (u64_max <? _) eqn:Hov.
  { apply wp_fail. split; [by split|apply refused_refl]. }
  wp_step. apply wp_modify.
  eapply wp_mono.
  - apply (commit_record_outcome id _ _
      (with_project (Some project_id) (Some project_identity)
        (default (wi_project_root i) project_root)
        (Z.max (wi_project_scope_rev i) (default 0 minimum) + 1))
      (λ j, with_project (wi_project_id i) (wi_project_identity i)
         (match project_root with Some _ => wi_project_root i | None => wi_project_root j end)
         (wi_project_scope_rev i) j) i); [done|].
    by destruct i, project_root.
  - intros [x|e] w'; [intros [-> Hw]|intros (Hc & Hro & Hr); by split].
    boolify. split; [done|]. exists i. split; [done|]. right. by split_and!.
Qed.

(** ** Properties *)

(** A rename trims the name, refuses an empty one, and otherwise changes that
    one string of that one record, durably, and tells every subscriber; refused or
    not recorded, it leaves everything as it was. *)
Theorem rename_changes_only_the_name (id name : string) (w : W) :
  let '(r, w') := rename_workspace id name w in
  match r with
  | Ok x => renamed id name x w w'
  | Err e => rename_refused id name e w ∧ refused w w'
  end.
Proof.
  pose proof (rename_workspace_outcome id name w) as Ho. unfold wp in Ho.
  by destruct (rename_workspace id name w).
Qed.

(** A project scope write is idempotent and only moves the scope revision
    forward: a scope that is already current is answered without a write, any other
    gets a revision past both the stored one and the caller's minimum, a revision
    that would leave its 64 bits is refused instead of wrapped, and every refusal
    leaves everything as it was. *)
Theorem project_scope_moves_forward (id project_id project_identity : string)
    (project_root : option string) (minimum : option Z) (w : W) :
  let '(r, w') := update_workspace_project id project_id project_identity project_root minimum w in
  match r with
  | Ok x => scope_updated id project_id project_identity project_root (default 0 minimum) x w w'
  | Err e => scope_refused id project_id project_identity project_root (default 0 minimum) e w ∧
             refused w w'
  end.
Proof.
  pose proof (update_workspace_project_outcome id project_id project_identity project_root minimum w) as Ho.
  unfold wp in Ho. by destruct (update_workspace_project _ _ _ _ _ w).
Qed.
End Records.
