(* ===== verification/Kills.v ===== *)
(** * Killing sessions and workspaces

    [kill], [remove_session], [scrub_layout] and [remove_workspace] of
    [crates/ade_session_daemon/src/sessions.rs]: what goes, what stays, what the
    ledger holds afterwards and who is told. *)

From S2P Require Import Prelude Text Layout Proto Outbound Stream Host Hub Ledger World Table Sessions TableSpecs TableInv Layouts.
From stdpp Require Import options.
Open Scope Z_scope.

Section Kills.
Context {G : Type} `{ScreenGrid G, StateCodec, OS}.
Abbreviation W := (world G).
Implicit Types w : W.

Definition not_session (id : SessionId) (sid : SessionId) : bool := negb (bool_decide (sid = id)).

(** The record a kill leaves of the session's workspace. *)
Definition scrubbed (id : SessionId) (i : WorkspaceInfo) : WorkspaceInfo :=
  let '(changed, layout) := retain_sessions (not_session id) (wi_layout i) in
  with_layout layout (if changed then wrap64 (wi_layout_rev i + 1) else wi_layout_rev i) i.

Lemma scrubbed_terminals id i :
  terminal_sessions (wi_layout (scrubbed id i)) =
    List.filter (not_session id) (terminal_sessions (wi_layout i)).
Proof.
  unfold scrubbed. rewrite <- terminals_retained.
  by destruct (retain_sessions (not_session id) (wi_layout i)).
Qed.

Lemma scrubbed_id id i : wi_id (scrubbed id i) = wi_id i.
Proof. unfold scrubbed. by destruct (retain_sessions _ _). Qed.

Lemma scrubbed_rev_ok id i : rev_ok i → rev_ok (scrubbed id i).
Proof.
  unfold scrubbed, rev_ok. destruct (retain_sessions _ _) as [[] layout]; simpl; [|done].
  pose proof (wrap64_range (wi_layout_rev i + 1)). tauto.
Qed.

(** The two tables with a session taken out. *)
Definition without_session (id : SessionId) (home : string) (w w' : W) : Prop :=
  w_sessions w' = delete id (w_sessions w) ∧
  w_workspaces w' = alter (scrubbed id) home (w_workspaces w) ∧
  w_pending w' = List.filter (λ r, negb (bool_decide (ps_id r = id))) (w_pending w) ∧
  dom (w_hubs w') = dom (w_hubs w) ∧ dom (w_activities w') = dom (w_activities w).

Lemma elem_of_not_session id sid l :
  sid ∈ List.filter (not_session id) l ↔ sid ∈ l ∧ sid ≠ id.
Proof.
  rewrite elem_of_filter_bool. unfold not_session. rewrite negb_true_iff, bool_decide_eq_false. done.
Qed.

Lemma wf_without_session id s w w' :
  w_sessions w !! id = Some s → without_session id (s_workspace s) w w' →
  table_wf w → table_wf w'.
Proof.
  intros Hs (Hs' & Hw' & _ & Hh' & Ha') [wf_key0 wf_home0 wf_wkey0 wf_layout0 wf_rev0 wf_hub0 wf_handle0 wf_asks0].
  split; rewrite ?Hs', ?Hw', ?Hh', ?Ha'.
  - intros j t [? ?]%lookup_delete_Some. eauto.
  - intros j t [? Ht]%lookup_delete_Some. destruct (wf_home0 j t Ht) as [i Hi].
    rewrite lookup_alter. case_decide as Heq; [|by eexists]. rewrite ?Heq, Hi. by eexists.
  - intros j i [(<- & x & Hx & ->)|[? ?]]%lookup_alter_Some; [rewrite scrubbed_id|]; eauto.
  - intros j i sid [(Heq & x & Hx & ->)|[Hne Hi]]%lookup_alter_Some Hin.
    + subst j. rewrite scrubbed_terminals in Hin. apply elem_of_not_session in Hin as [Hin Hne].
      destruct (wf_layout0 _ _ _ Hx Hin) as (t & Ht & Hw). exists t. by rewrite lookup_delete_ne.
    + destruct (wf_layout0 _ _ _ Hi Hin) as (t & Ht & Hw). exists t.
      rewrite lookup_delete_ne; [done|]. intros ->. simplify_eq.
  - intros j i [(<- & x & Hx & ->)|[? ?]]%lookup_alter_Some; [apply scrubbed_rev_ok|]; eauto.
  - intros j t [? ?]%lookup_delete_Some. eauto.
  - intros j j' t t' [? ?]%lookup_delete_Some [? ?]%lookup_delete_Some. eauto.
  - intros j t [? ?]%lookup_delete_Some. eauto.
Qed.

(** [scrub_layout] does exactly [scrubbed], and speaks only when a tab went. *)
Lemma wp_scrub_layout home id (Q : () → W → Prop) w :
  (∀ e qs, (∀ i, w_workspaces w !! home = Some i → wi_layout_rev (scrubbed id i) = wi_layout_rev i →
              id ∉ terminal_sessions (wi_layout i) → e = w_events w ∧ qs = w_queues w) →
     Q () (set_events e qs (set_workspaces (alter (scrubbed id) home (w_workspaces w)) w))) →
  wp (scrub_layout home id) Q w.
Proof.
  intros HQ. unfold scrub_layout. wp_step. apply wp_get.
  destruct (w_workspaces w !! home) as [i|] eqn:Hi.
  - assert (∀ f, f i = scrubbed id i →
      alter f home (w_workspaces w) = alter (scrubbed id) home (w_workspaces w)) as Halt.
    { intros f Hf. apply map_eq. intros j. rewrite !lookup_alter. case_decide; [|done].
      subst. by rewrite Hi; simpl; rewrite Hf. }
    fold (not_session id).
    pose proof (retain_sessions_went (not_session id) (wi_layout i)) as Hwent.
    unfold scrubbed in Halt.
    destruct (retain_sessions (not_session id) (wi_layout i)) as [[] layout]; simpl in *.
    + wp_step. apply wp_modify. apply wp_publish. intros e qs He.
      rewrite Halt in * by done. apply HQ. intros j [= <-] _ Hnin.
      destruct (proj1 Hwent eq_refl) as (sid & Hin & Hk). unfold not_session in Hk.
      apply negb_false_iff, bool_decide_eq_true in Hk. by subst.
    + apply wp_modify. rewrite Halt by done.
      specialize (HQ (w_events w) (w_queues w)). by apply HQ.
  - apply wp_ret. specialize (HQ (w_events w) (w_queues w)).
    replace (alter (scrubbed id) home (w_workspaces w)) with (w_workspaces w) in HQ.
    + replace w with (set_events (w_events w) (w_queues w) (set_workspaces (w_workspaces w) w)) at 1
        by (by destruct w). by apply HQ.
    + apply map_eq. intros j. rewrite lookup_alter. case_decide; [|done]. by subst; rewrite Hi.
Qed.

(** ** One session *)

Definition hub_ended (handle : N) (f : Frame) (w w' : W) : Prop :=
  ∀ hub, w_hubs w !! handle = Some hub →
    ∃ subs, w_hubs w' !! handle = Some (mkHub (hub_ring hub) (hub_grid hub) (Some f) subs).

Lemma publish_ending_outcome handle f (Q : () → W → Prop) w :
  (∀ e qs hubs qs', dom hubs = dom (w_hubs w) →
     hub_ended handle f w (set_hubs hubs qs' (set_events e qs w)) →
     (∀ h, h ≠ handle → hubs !! h = w_hubs w !! h) →
     Q () (set_hubs hubs qs' (set_events e qs w))) →
  wp (publish_ending handle f) Q w.
Proof.
  intros HQ. unfold publish_ending. wp_step. apply wp_publish. intros e qs _.
  destruct (w_hubs w !! handle) as [hub|] eqn:Hh.
  - apply (wp_hub_do_at handle hub); [done|]. intros hub' qs' Hp. apply HQ.
    + rewrite dom_insert_L. apply elem_of_dom_2 in Hh. simpl. set_solver.
    + intros h Hhub. simplify_eq. unfold hub_publish_event in Hp. simpl in Hp |- *.
      destruct (retain_st _ _ _) as [subs qs2]. simplify_eq. exists subs. by rewrite lookup_insert_eq.
    + intros h Hne. simpl. by rewrite lookup_insert_ne.
  - unfold wp, hub_do. simpl. rewrite Hh. specialize (HQ e qs (w_hubs w) qs).
    apply HQ; [done| |done]. intros h Hhub. congruence.
Qed.

(** What a removal does, besides the tables: the process groups signalled are
    appended, the ledger write is attempted, and the hub's stream is ended. *)
Definition session_removed (id : SessionId) (s : Session) (r : result string ()) (w w' : W) : Prop :=
  without_session id (s_workspace s) w w' ∧ hub_ended (s_handle s) (Frame_Removed id) w w' ∧
  match r with
  | Ok _ => durable w'
  | Err _ => w_store w' = w_store w ∧ read_only (w_store w) = false
  end.

Lemma remove_session_outcome id w :
  wp (remove_session id)
    (λ r w', match w_sessions w !! id with
             | None => r = None ∧ w' = w
             | Some s => ∃ saved, r = Some saved ∧ session_removed id s saved w w'
             end) w.
Proof.
  unfold remove_session. wp_step. apply wp_get.
  destruct (w_sessions w !! id) as [s|] eqn:Hs; [|by apply wp_ret].
  wp_step. apply wp_modify. wp_step. apply publish_ending_outcome.
  intros e qs hubs qs' Hdom Hend _. simpl in Hdom.
  wp_step. apply wp_scrub_layout. intros e2 qs2 _.
  wp_step. apply wp_kill_process. intros calls.
  wp_step. apply wp_release. wp_step. apply wp_persist. intros r st Hst.
  apply wp_ret. exists r. split; [done|]. unfold session_removed, without_session.
  split_and!; try reflexivity; [exact Hdom|exact Hend|].
  ledger_from Hst.
Qed.

Definition session_killed (id : SessionId) (s : Session) (w w' : W) : Prop :=
  without_session id (s_workspace s) w w' ∧ hub_ended (s_handle s) (Frame_Removed id) w w'.

Lemma kill_outcome id w :
  wp (kill id)
    (λ r w', match w_sessions w !! id with
             | None => r = Err (no_session id) ∧ w' = w
             | Some s => session_killed id s w w' ∧
                 match r with
                 | Ok _ => durable w'
                 | Err e => te_code e = error_code.PERSIST_FAILED ∧ w_store w' = w_store w ∧
                            read_only (w_store w) = false
                 end
             end) w.
Proof.
  unfold kill. wp_step. eapply wp_mono; [apply remove_session_outcome|].
  intros r w' Hr. destruct (w_sessions w !! id) as [s|].
  - destruct Hr as (saved & -> & Ht & Hh & Hsv). by destruct saved.
  - by destruct Hr as [-> ->].
Qed.

(** ** A workspace *)

Definition lives_in (id : string) (s : Session) : Prop := s_workspace s = id.

(** The tables with a workspace and everything in it taken out. *)
Definition without_workspace (id : string) (w w' : W) : Prop :=
  w_sessions w' = filter (λ x, s_workspace x.2 ≠ id) (w_sessions w) ∧
  w_workspaces w' = delete id (w_workspaces w) ∧
  w_pending w' = List.filter (λ r, negb (bool_decide (ps_workspace_id r = id))) (w_pending w) ∧
  dom (w_hubs w') = dom (w_hubs w) ∧ dom (w_activities w') = dom (w_activities w).

Lemma wf_without_workspace id w w' :
  without_workspace id w w' → table_wf w → table_wf w'.
Proof.
  intros (Hs' & Hw' & _ & Hh' & Ha') [wf_key0 wf_home0 wf_wkey0 wf_layout0 wf_rev0 wf_hub0 wf_handle0 wf_asks0].
  split; rewrite ?Hs', ?Hw', ?Hh', ?Ha'.
  - intros j t [? _]%map_lookup_filter_Some. eauto.
  - intros j t [? Hne]%map_lookup_filter_Some. simpl in Hne.
    rewrite lookup_delete_ne by done. eauto.
  - intros j i [? ?]%lookup_delete_Some. eauto.
  - intros j i sid [Hne Hi]%lookup_delete_Some Hin.
    destruct (wf_layout0 _ _ _ Hi Hin) as (t & Ht & Hw). exists t. split; [|done].
    apply map_lookup_filter_Some. simpl. split; [done|congruence].
  - intros j i [? ?]%lookup_delete_Some. eauto.
  - intros j t [? _]%map_lookup_filter_Some. eauto.
  - intros j j' t t' [? _]%map_lookup_filter_Some [? _]%map_lookup_filter_Some. eauto.
  - intros j t [? _]%map_lookup_filter_Some. eauto.
Qed.

Definition doomed (id : string) (w : W) : list Session :=
  List.filter (λ s, bool_decide (s_workspace s = id)) (session_values w).

Lemma elem_of_doomed id w s :
  s ∈ doomed id w ↔ s_workspace s = id ∧ ∃ j, w_sessions w !! j = Some s.
Proof. unfold doomed. rewrite elem_of_filter_bool, elem_of_session_values, bool_decide_eq_true. tauto. Qed.

Lemma foldr_delete_lookup (l : list Session) (m : gmap string Session) j :
  foldr (λ s m, delete (s_id s) m) m l !! j = if decide (j ∈ map s_id l) then None else m !! j.
Proof.
  induction l as [|s l IH]; simpl; [done|].
  destruct (decide (j = s_id s)) as [->|Hne].
  - rewrite lookup_delete_eq, decide_True; [done|left].
  - rewrite lookup_delete_ne, IH by done. repeat case_decide; try done; set_solver.
Qed.

Lemma foldr_delete_doomed id w :
  (∀ j s, w_sessions w !! j = Some s → s_id s = j) →
  foldr (λ s m, delete (s_id s) m) (w_sessions w) (doomed id w) =
    filter (λ x, s_workspace x.2 ≠ id) (w_sessions w).
Proof.
  intros Hkey. apply map_eq. intros j. rewrite foldr_delete_lookup, map_lookup_filter.
  destruct (w_sessions w !! j) as [s|] eqn:Hj; simpl; [|by case_decide].
  case_decide as Hin; case_decide as Hw; simpl; try done.
  - apply list_elem_of_fmap in Hin as (t & Ht & (Htw & k & Hk)%elem_of_doomed). simpl in *.
    rewrite (Hkey k t Hk) in Ht. subst k. simplify_eq.
  - destruct Hin. apply list_elem_of_fmap. exists s. split; [symmetry; by apply Hkey|].
    apply elem_of_doomed. split; [done|]. by eexists.
Qed.

Lemma doomed_nil id w : doomed id w = [] ↔ ∀ j s, w_sessions w !! j = Some s → s_workspace s ≠ id.
Proof.
  split.
  - intros Hd j s Hj Hw. assert (s ∈ doomed id w) as Hin by (apply elem_of_doomed; eauto).
    rewrite Hd in Hin. inversion Hin.
  - intros Hn. destruct (doomed id w) as [|s l] eqn:Hd; [done|].
    assert (s ∈ doomed id w) as (Hw & j & Hj)%elem_of_doomed by (rewrite Hd; left).
    by destruct (Hn j s).
Qed.

(** A pass of endings over the removed sessions keeps which hubs there are. *)
Lemma wp_end_all (l : list Session) (Q : () → W → Prop) w :
  (∀ e qs hubs, dom hubs = dom (w_hubs w) → Q () (set_hubs hubs qs (set_events e qs w))) →
  wp (for_st l (λ s, publish_ending (s_handle s) (Frame_Removed (s_id s)))) Q w.
Proof.
  intros HQ. apply (wp_for (λ w', ∃ e qs hubs, dom hubs = dom (w_hubs w) ∧
                               w' = set_hubs hubs qs (set_events e qs w))).
  - exists (w_events w), (w_queues w), (w_hubs w). split; [done|by destruct w].
  - intros s w' _ (e & qs & hubs & Hd & ->). apply wp_publish_ending.
    intros e2 qs2 hubs2 qs3 Hd2. exists e2, qs3, hubs2. split; [by rewrite Hd2|done].
  - intros w' (e & qs & hubs & Hd & ->). by apply HQ.
Qed.

Lemma wp_kill_all (l : list Session) (Q : () → W → Prop) w :
  (∀ calls n, Q () (log_signals calls (tick n w))) → wp (for_st l kill_process) Q w.
Proof.
  intros HQ. apply (wp_for (λ w', ∃ calls n, w' = log_signals calls (tick n w))).
  - exists [], 0%nat. destruct w. unfold log_signals, tick. simpl. f_equal; [by rewrite app_nil_r|lia].
  - intros s w' _ (calls & n & ->). apply wp_kill_process. intros calls'.
    exists (calls ++ calls'), (n + 2)%nat. destruct w. unfold log_signals, tick. simpl.
    f_equal; [by rewrite app_assoc|lia].
  - intros w' (calls & n & ->). apply HQ.
Qed.

(** What [remove_workspace] decides. *)
Definition nothing_to_remove (id : string) (w : W) : Prop :=
  w_workspaces w !! id = None ∧ ∀ j s, w_sessions w !! j = Some s → s_workspace s ≠ id.

Lemma remove_workspace_outcome id only_if_empty w :
  table_wf w →
  wp (remove_workspace id only_if_empty)
    (λ r w', if only_if_empty && negb (bool_decide (doomed id w = [])) then r = Ok () ∧ w' = w
             else if bool_decide (w_workspaces w !! id = None) then
               r = Err (no_workspace id) ∧ refused w w'
             else without_workspace id w w' ∧
               match r with
               | Ok _ => durable w'
               | Err e => te_code e = error_code.PERSIST_FAILED ∧ w_store w' = w_store w ∧
                          read_only (w_store w) = false
               end) w.
Proof.
  intros Hwf. unfold remove_workspace. wp_step. unfold take_workspace. wp_step. apply wp_get.
  cbv zeta. fold (doomed id w).
  destruct (only_if_empty && negb _) eqn:Hempty; [by apply wp_ret|].
  wp_step. apply wp_modify.
  destruct (decide (w_workspaces w !! id = None)) as [Hnone|Hsome].
  - assert (doomed id w = []) as Hd.
    { apply doomed_nil. intros j s Hj Hw. destruct (wf_home w Hwf j s Hj) as [i Hi]. congruence. }
    rewrite !(bool_decide_eq_true_2 (w_workspaces w !! id = None)), Hd by done. simpl.
    rewrite ?(bool_decide_eq_true_2 ([] = [])) by done.
    apply wp_fail. split; [done|]. unfold refused, same_tables, silent. simpl.
    rewrite delete_id by done. by split_and!.
  - rewrite !(bool_decide_eq_false_2 (w_workspaces w !! id = None)) by done. simpl.
    wp_step. apply wp_modify. wp_step. apply wp_modify. wp_step. apply wp_end_all.
    intros e qs hubs Hd. wp_step. apply wp_publish. intros e2 qs2 _. wp_step. cbv beta iota.
    wp_step. apply wp_kill_all. intros calls n. wp_step. apply wp_persist. intros r st Hst.
    ledger_facts Hst Ho.
    assert (∀ t, without_workspace id w (set_store st (tick 1 (tick 1 t))) ↔
                 without_workspace id w t) as Hext by done.
    assert (∀ t, w_sessions t = foldr (λ s m, delete (s_id s) m) (w_sessions w) (doomed id w) →
                 w_workspaces t = delete id (w_workspaces w) →
                 w_pending t = List.filter (λ r, negb (bool_decide (ps_workspace_id r = id))) (w_pending w) →
                 dom (w_hubs t) = dom (w_hubs w) → w_activities t = w_activities w →
                 without_workspace id w t) as Hwithout.
    { intros t Ht1 Ht2 Ht3 Ht4 Ht5. unfold without_workspace.
      rewrite Ht1, Ht2, Ht3, Ht4, Ht5, foldr_delete_doomed by apply Hwf. by split_and!. }
    destruct r as [u|err]; [apply wp_ret|apply wp_fail]; (split; [by apply Hwithout|]).
    + exact Ho.
    + split; [done|exact Ho].
Qed.

(** ** Properties *)

(** C6. A kill removes exactly its session: the row goes, and with it every tab
    that named it — in its own workspace's layout, which keeps all its other tabs
    in order — while every other session and workspace stays as it was; the stream
    of the session is ended for whoever reads it now or later; and an [Ok] means
    the ledger no longer has the row, an error only that it could not be
    rewritten. *)
Theorem kill_removes_exactly_its_session (id : SessionId) (s : Session) (w : W)
    (Hwf : table_wf w) (Hs : w_sessions w !! id = Some s) :
  let '(r, w') := kill id w in
  session_killed id s w w' ∧ table_wf w' ∧
  (∀ home i, w_workspaces w' !! home = Some i → id ∉ terminal_sessions (wi_layout i)) ∧
  (∀ home i, w_workspaces w !! home = Some i → ∃ i', w_workspaces w' !! home = Some i' ∧
     terminal_sessions (wi_layout i') = List.filter (not_session id) (terminal_sessions (wi_layout i))) ∧
  match r with
  | Ok _ => durable w'
  | Err e => te_code e = error_code.PERSIST_FAILED ∧ w_store w' = w_store w ∧
             read_only (w_store w) = false
  end.
Proof.
  pose proof (kill_outcome id w) as Ho. unfold wp in Ho. rewrite Hs in Ho.
  destruct (kill id w) as [r w']. simpl in Ho. destruct Ho as [[Ht Hh] Hr].
  assert (table_wf w') as Hwf' by by eapply wf_without_session.
  split_and!; [by split|done| | |done].
  - intros home i Hi Hin. destruct (wf_layout w' Hwf' home i id Hi Hin) as (t & Ht' & _).
    destruct Ht as (Hd & _). rewrite Hd, lookup_delete_eq in Ht'. done.
  - intros home i Hi. destruct Ht as (_ & Hw & _). rewrite Hw, lookup_alter.
    case_decide as Heq.
    + exists (scrubbed id i). subst home. rewrite Hi. split; [done|]. apply scrubbed_terminals.
    + exists i. split; [exact Hi|]. symmetry. apply filter_all. intros sid Hin.
      apply negb_true_iff, bool_decide_eq_false. intros ->.
      destruct (wf_layout w Hwf home i id Hi Hin) as (t & Ht & Hw'). congruence.
Qed.

(** Killing a workspace takes the workspace and every session in it, and
    nothing else: the other rows are untouched, reservations naming it go with it,
    the invariant holds, and the same kill again is [not_found]. Compensation
    ([remove_empty_workspace]) removes one only if it is empty, and never reports
    an absence as an error. *)
Theorem kill_workspace_takes_everything_in_it (id : string) (w : W) (Hwf : table_wf w) :
  (let '(r, w') := kill_workspace id w in
   match w_workspaces w !! id with
   | None => r = Err (no_workspace id) ∧ refused w w'
   | Some _ => without_workspace id w w' ∧ table_wf w' ∧
       (∀ j s, w_sessions w' !! j = Some s ↔ w_sessions w !! j = Some s ∧ s_workspace s ≠ id) ∧
       (kill_workspace id w').1 = Err (no_workspace id) ∧
       match r with
       | Ok _ => durable w'
       | Err e => te_code e = error_code.PERSIST_FAILED ∧ w_store w' = w_store w
       end
   end) ∧
  (let '(r, w') := remove_empty_workspace id w in
   (∀ e, r = Err e → te_code e = error_code.PERSIST_FAILED) ∧
   ((∃ j s, w_sessions w !! j = Some s ∧ s_workspace s = id) → r = Ok () ∧ w' = w)).
Proof.
  split.
  - pose proof (remove_workspace_outcome id false w Hwf) as Ho. unfold wp in Ho. simpl in Ho.
    unfold kill_workspace at 1. destruct (remove_workspace id false w) as [r w']. simpl in Ho.
    destruct (w_workspaces w !! id) as [i|] eqn:Hi;
      [rewrite bool_decide_eq_false_2 in Ho by done|by rewrite bool_decide_eq_true_2 in Ho by done].
    destruct Ho as [Hw Hr]. assert (table_wf w') as Hwf' by by eapply wf_without_workspace.
    destruct Hw as (Hs & Hws & Hrest). split_and!; [by split|done| | |by destruct r; intuition].
    + intros j s. rewrite Hs, map_lookup_filter_Some. done.
    + pose proof (remove_workspace_outcome id false w' Hwf') as Ho. unfold wp in Ho. simpl in Ho.
      rewrite Hws, lookup_delete_eq, bool_decide_eq_true_2 in Ho by done. apply Ho.
  - pose proof (remove_workspace_outcome id true w Hwf) as Ho. unfold wp in Ho.
    unfold remove_empty_workspace. rewrite st_bind_unfold.
    destruct (remove_workspace id true w) as [r w']. simpl in Ho |- *. split.
    + intros e He. destruct (bool_decide (doomed id w = [])); simpl in Ho; [|by destruct Ho; subst].
      case_bool_decide; [destruct Ho as [-> _]; by simpl in He|].
      destruct Ho as [_ Hr]. destruct r as [|e']; [done|]. destruct Hr as [Hc _].
      case_decide; [done|]. by simplify_eq.
    + intros (j & s & Hj & Hs). rewrite bool_decide_eq_false_2 in Ho; [by destruct Ho as [-> ->]|].
      rewrite doomed_nil. intros Hn. by apply (Hn j s).
Qed.
End Kills.
