(* ===== verification/Clients.v ===== *)
(** * Clients of a session: attach, detach, sizes and focus

    What the client-facing operations of
    [crates/ade_session_daemon/src/sessions.rs] do to the table, and the size a
    pty holds for the clients that share it. *)

From S2P Require Import Prelude Text Layout Proto Outbound Stream Host Hub Ledger World Table Sessions TableSpecs TableInv.
From stdpp Require Import options.
Open Scope Z_scope.

(** ** Sizes *)

Definition clamp (cols rows : Z) : Z * Z := (Z.max cols 1, Z.max rows 1).

Lemma foldl_min_le l x : (foldl min_size x l).1 ≤ x.1 ∧ (foldl min_size x l).2 ≤ x.2.
Proof.
  revert x. induction l as [|y l IH]; intros x; simpl; [lia|].
  destruct (IH (min_size x y)). unfold min_size in *. simpl in *. lia.
Qed.

Lemma foldl_min_le_elem l x y : y ∈ l → (foldl min_size x l).1 ≤ y.1 ∧ (foldl min_size x l).2 ≤ y.2.
Proof.
  revert x. induction l as [|z l IH]; intros x; [by inversion 1|]. simpl.
  intros [->|Hin]%elem_of_cons; [|by apply IH].
  destruct (foldl_min_le l (min_size x z)). unfold min_size in *. simpl in *. lia.
Qed.

Lemma foldl_min_attained l x :
  ∃ a b, a ∈ x :: l ∧ b ∈ x :: l ∧ foldl min_size x l = (a.1, b.2).
Proof.
  revert x. induction l as [|y l IH]; intros x; simpl.
  { exists x, x. split_and!; [left|left|by destruct x]. }
  destruct (IH (min_size x y)) as (a & b & Ha & Hb & ->).
  assert (∀ c, c ∈ min_size x y :: l → (∃ d, d ∈ x :: y :: l ∧ d.1 = c.1) ∧
                                        (∃ d, d ∈ x :: y :: l ∧ d.2 = c.2)) as Hc.
  { intros c [->|Hin]%elem_of_cons.
    - unfold min_size. simpl. split.
      + destruct (Z.min_spec x.1 y.1) as [[_ ->]|[_ ->]]; eexists; (split; [|done]); set_solver.
      + destruct (Z.min_spec x.2 y.2) as [[_ ->]|[_ ->]]; eexists; (split; [|done]); set_solver.
    - split; exists c; (split; [|done]); set_solver. }
  destruct (Hc a Ha) as [(a' & Ha' & Hea) _], (Hc b Hb) as [_ (b' & Hb' & Heb)].
  exists a', b'. split_and!; [done|done|]. by rewrite Hea, Heb.
Qed.

(** The size a session's pty should hold: the focused view's ask where the focus
    resolves, the element-wise smallest ask otherwise. *)
Definition size_rule (s : Session) (size : Z * Z) : Prop :=
  match focused_ask s with
  | Some ask => size = ask
  | None =>
      (∀ a, a ∈ s_sizes s → size.1 ≤ a.2.1 ∧ size.2 ≤ a.2.2) ∧
      ∃ a b, a ∈ s_sizes s ∧ b ∈ s_sizes s ∧ size = (a.2.1, b.2.2)
  end.

Lemma effective_size_rule s size : effective_size s = Some size → size_rule s size.
Proof.
  unfold effective_size, size_rule. destruct (focused_ask s) as [ask|]; [by intros [= ->]|].
  unfold reduce_min. destruct (s_sizes s) as [|a l] eqn:Hs; simpl; [done|]. intros [= <-]. split.
  - intros b [->|Hb]%elem_of_cons; [apply foldl_min_le|].
    apply foldl_min_le_elem, list_elem_of_fmap. by exists b.
  - destruct (foldl_min_attained (map snd l) a.2) as (x & y & Hx & Hy & ->).
    change (a.2 :: map snd l) with (map snd (a :: l)) in *.
    apply list_elem_of_fmap in Hx as (c & -> & Hc), Hy as (d & -> & Hd). by exists c, d.
Qed.

Lemma effective_size_None s :
  effective_size s = None ↔ s_sizes s = [].
Proof.
  unfold effective_size. split.
  - destruct (focused_ask s); [done|]. by destruct (s_sizes s).
  - intros Hs. unfold focused_ask. rewrite Hs. simpl.
    destruct (s_focused_view s); simpl; [|done].
    by destruct (find_first _ (s_view_ids s)).
Qed.

(** Asks keep their lower bound, so sizes do. *)
Lemma effective_size_ok s size :
  Forall ask_ok (s_sizes s) → effective_size s = Some size → clamp size.1 size.2 = size.
Proof.
  intros Hf He. rewrite Forall_forall in Hf.
  assert (∃ a b, a ∈ s_sizes s ∧ b ∈ s_sizes s ∧ size = (a.2.1, b.2.2)) as (a & b & Ha & Hb & ->).
  { pose proof (effective_size_rule s size He) as Hr. unfold size_rule in Hr.
    destruct (focused_ask s) as [ask|] eqn:Hfa; [|tauto]. subst.
    unfold focused_ask in Hfa. destruct (s_focused_view s); simpl in Hfa; [|done].
    destruct (find_first _ (s_view_ids s)) as [[owner v]|]; simpl in Hfa; [|done].
    apply fmap_Some in Hfa as (a & Ha%find_first_Some & ->). exists a, a.
    split_and!; [tauto|tauto|]. by destruct a as [? []]. }
  destruct (Hf a Ha), (Hf b Hb). unfold clamp. simpl. f_equal; lia.
Qed.

(** Maps that differ from a common one by alterations of one key. *)
Ltac alter_cases id :=
  let j := fresh "j" in let Hne := fresh "Hne" in
  apply map_eq; intros j; simpl; destruct (decide (id = j)) as [<-|Hne];
  rewrite ?lookup_alter_eq, ?lookup_insert_eq, ?(lookup_alter_ne _ _ _ _ Hne),
    ?(lookup_insert_ne _ _ _ _ Hne); [|done].

(** ** Settled rows

    A row is settled when its pty is at the size the rule asks for; with nobody
    asking, any size will do. *)
Definition settled (s : Session) : Prop :=
  s_sizes s = [] ∨ effective_size s = Some (current_size s).

Lemma find_first_unique {A K} (key : A → K) `{EqDecision K} (l : list A) k x :
  NoDup (map key l) → x ∈ l → key x = k → find_first (λ y, bool_decide (key y = k)) l = Some x.
Proof.
  intros Hnd Hx Hk. induction l as [|y l IH]; [inversion Hx|]. simpl in *.
  apply NoDup_cons in Hnd as [Hni Hnd]. apply elem_of_cons in Hx as [->|Hx].
  - by rewrite bool_decide_eq_true_2.
  - rewrite bool_decide_eq_false_2; [by apply IH|]. intros Hy. apply Hni.
    apply list_elem_of_fmap. exists x. by rewrite Hk, Hy.
Qed.

Lemma find_first_absent {A K} (key : A → K) `{EqDecision K} (l : list A) k :
  (∀ x, x ∈ l → key x ≠ k) → find_first (λ y, bool_decide (key y = k)) l = None.
Proof. intros Hn. apply find_first_None. intros x Hx. apply bool_decide_eq_false. auto. Qed.

Lemma find_first_perm {A K} (key : A → K) `{EqDecision K} (l l' : list A) k :
  NoDup (map key l) → (∀ x, key x = k → x ∈ l ↔ x ∈ l') → NoDup (map key l') →
  find_first (λ y, bool_decide (key y = k)) l' = find_first (λ y, bool_decide (key y = k)) l.
Proof.
  intros Hnd Hiff Hnd'. destruct (find_first (λ y, bool_decide (key y = k)) l) as [x|] eqn:Hf.
  - apply find_first_Some in Hf as [Hx Hk]. apply bool_decide_eq_true in Hk.
    apply find_first_unique; [done|by apply Hiff|done].
  - apply find_first_absent. intros x Hx Hk. apply Hiff in Hx; [|done].
    rewrite find_first_None in Hf. specialize (Hf x Hx). by apply bool_decide_eq_false in Hf.
Qed.

Lemma position_Some {A} (p : A → bool) l i :
  position p l = Some i → ∃ x, l !! i = Some x ∧ p x = true.
Proof.
  revert i. induction l as [|y l IH]; simpl; intros i Hi; [done|].
  destruct (p y) eqn:Hy; simplify_eq; [by exists y|].
  destruct (position p l) as [j|]; simplify_eq/=. by apply IH.
Qed.

(** Who asked for nothing and whose view is not the focus leaves the size alone. *)
Lemma forget_untouched s views :
  NoDup (map snd (s_view_ids s)) → NoDup (map snd views) →
  (∀ v, s_focused_view s = Some v.2 → v ∈ s_view_ids s ↔ v ∈ views) →
  effective_size (set_clients (s_sizes s) views (s_focused_view s) s) = effective_size s.
Proof.
  intros Hnd Hnd' Hiff. unfold effective_size, focused_ask. simpl.
  destruct (s_focused_view s) as [view|]; simpl; [|done].
  rewrite (find_first_perm snd (s_view_ids s) views view); [done|done| |done].
  intros v <-. by apply Hiff.
Qed.

(** ** The operations *)

Section Clients.
Context {G : Type} `{ScreenGrid G, StateCodec, OS}.
Abbreviation W := (world G).
Implicit Types w : W.

(** An operation on one session that keeps its identity, and may speak and resize,
    but writes nothing to the ledger. *)
Definition session_touched (id : SessionId) (f : Session → Session) (w w' : W) : Prop :=
  w_sessions w' = alter f id (w_sessions w) ∧ w_workspaces w' = w_workspaces w ∧
  w_pending w' = w_pending w ∧ dom (w_hubs w') = dom (w_hubs w) ∧
  w_activities w' = w_activities w ∧ w_store w' = w_store w ∧ w_signals w' = w_signals w.

Lemma wf_touched id f w w' :
  keeps_identity f → session_touched id f w w' → table_wf w → table_wf w'.
Proof.
  intros Hf (Hs & Hw & _ & Hh & Ha & _) Hwf.
  apply (wf_ext (set_sessions (alter f id (w_sessions w)) w)); [done|done|done| |].
  - by rewrite Ha.
  - by apply wf_alter_session.
Qed.

Definition sized (size : option (Z * Z)) (s : Session) : Session :=
  match size with Some (cols, rows) => set_size (Z.max cols 1) (Z.max rows 1) s | None => s end.

Lemma sized_identity size : keeps_identity (sized size).
Proof. intros s. by destruct size as [[c r]|]. Qed.

Lemma alter_id {A} (m : gmap string A) id : alter (λ x, x) id m = m.
Proof. apply map_eq. intros j. rewrite lookup_alter. case_decide; [|done]. subst. by destruct (m !! _). Qed.

Lemma touched_refl id w : session_touched id (λ s, s) w w.
Proof. unfold session_touched. rewrite alter_id. by split_and!. Qed.

(** The size is applied to the row whatever becomes of the pty, and the pty is told
    exactly when it took it. *)
Lemma apply_some_outcome id s size w :
  w_sessions w !! id = Some s →
  wp (apply_some id size)
    (λ r w', session_touched id (sized size) w w' ∧ w_events w' = w_events w ∧
             w_queues w' = w_queues w ∧
             (∀ h, s_handle s ≠ h → w_hubs w' !! h = w_hubs w !! h) ∧
             match size, r with
             | Some (c, r), Ok _ => s_live s ≠ None ∧
                 w_ptys w' = w_ptys w ++ [PtyResize (s_handle s) (Z.max c 1) (Z.max r 1)]
             | Some _, Err e => w_ptys w' = w_ptys w ∧
                 te_code e = match s_live s with
                             | Some _ => error_code.INTERNAL
                             | None => error_code.INVALID_ARGUMENT
                             end
             | None, r => r = Ok () ∧ w' = w
             end) w.
Proof.
  intros Hs. destruct size as [[c r]|]; simpl; [|apply wp_ret; by split_and!; [apply touched_refl|..]].
  unfold apply_size. cbv zeta. wp_step. apply wp_get. rewrite Hs.
  wp_step. apply wp_modify. wp_step. cbn [sized].
  set (w1 := set_sessions (alter (set_size (Z.max c 1) (Z.max r 1)) id (w_sessions w)) w).
  assert (wp (hub_do (s_handle s) (λ hub, mret (resize_grid (Z.max c 1) (Z.max r 1) hub)))
    (λ _ w2, ∃ hubs, w2 = set_hubs hubs (w_queues w) w1 ∧ dom hubs = dom (w_hubs w) ∧
       ∀ h, s_handle s ≠ h → hubs !! h = w_hubs w !! h) w1) as Hhub.
  { unfold wp, hub_do. change (w_hubs w1) with (w_hubs w).
    destruct (w_hubs w !! s_handle s) as [hub|] eqn:Hh; simpl.
    - eexists. split; [done|]. split; [rewrite dom_insert_L; apply elem_of_dom_2 in Hh; set_solver|].
      intros h Hne. by rewrite lookup_insert_ne.
    - by exists (w_hubs w). }
  eapply wp_mono; [exact Hhub|]. intros _ w2 (hubs & -> & Hd & Hoth). clear Hhub.
  destruct (s_live s) as [live|].
  - wp_step. apply wp_fallible. intros [[]|e] He.
    + wp_step. apply wp_modify. apply wp_ret. by split_and!.
    + apply wp_ret. split_and!; try done. by apply He.
  - apply wp_fail. by split_and!.
Qed.

Lemma touched_trans id f g w w1 w2 :
  session_touched id f w w1 → session_touched id g w1 w2 →
  session_touched id (λ s, g (f s)) w w2.
Proof.
  intros (Hs & Hw & Hp & Hh & Ha & Hst & Hsg) (Hs' & Hw' & Hp' & Hh' & Ha' & Hst' & Hsg').
  unfold session_touched. rewrite Hs', Hw', Hp', Hh', Ha', Hst', Hsg'. split_and!; try done.
  rewrite Hs. alter_cases id. by destruct (w_sessions w !! id).
Qed.

Lemma touched_hub_now id handle f w w1 g :
  session_touched id g w w1 →
  wp (hub_do_now handle f) (λ _ w', session_touched id g w w' ∧ w_ptys w' = w_ptys w1) w1.
Proof.
  intros (Hs & Hw & Hp & Hh & Ha & Hst & Hsg). apply wp_hub_do_now. intros hubs qs Hd.
  split; [|done]. unfold session_touched. simpl. rewrite Hd. by split_and!.
Qed.

(** Touching one row that is there, whatever its new contents. *)
Lemma wf_touched_row id s f w w' :
  w_sessions w !! id = Some s → s_id (f s) = s_id s → s_workspace (f s) = s_workspace s →
  s_handle (f s) = s_handle s → Forall ask_ok (s_sizes (f s)) →
  session_touched id f w w' → table_wf w → table_wf w'.
Proof.
  intros Hs Hi Hw Hh Ha (Hs' & Hw' & _ & Hh' & Ha' & _) Hwf.
  apply (wf_ext (set_sessions (alter (λ _, f s) id (w_sessions w)) w)); [|done|done| |].
  - rewrite Hs'. alter_cases id. by rewrite Hs.
  - by rewrite Ha'.
  - by apply (wf_replace_session w id s).
Qed.

Lemma sized_fields size s :
  s_id (sized size s) = s_id s ∧ s_workspace (sized size s) = s_workspace s ∧
  s_handle (sized size s) = s_handle s ∧ s_sizes (sized size s) = s_sizes s ∧
  s_view_ids (sized size s) = s_view_ids s ∧ s_focused_view (sized size s) = s_focused_view s ∧
  s_live (sized size s) = s_live s.
Proof. by destruct size as [[c r]|]. Qed.

Lemma effective_size_sized size s : effective_size (sized size s) = effective_size s.
Proof. by destruct size as [[c r]|]. Qed.

Lemma focused_ask_sized size s : focused_ask (sized size s) = focused_ask s.
Proof. by destruct size as [[c r]|]. Qed.

(** *** Resizing *)

(** The row a resize leaves. *)
Definition after_resize (who : SubscriberId) (cols rows : Z) (s : Session) : Session :=
  let s' := record_ask who (clamp cols rows) s in
  sized (if_changed s' (Some (default (clamp cols rows) (effective_size s')))) s'.

Lemma record_ask_ok who cols rows s :
  Forall ask_ok (s_sizes s) → Forall ask_ok (s_sizes (record_ask who (clamp cols rows) s)).
Proof.
  intros Hf. simpl. apply Forall_app. split.
  - apply Forall_forall. intros a [Ha _]%elem_of_filter_bool. by eapply Forall_forall in Ha.
  - repeat constructor; simpl; lia.
Qed.

(** The row's size after a resize is the effective one. *)
Lemma after_resize_settled who cols rows s :
  Forall ask_ok (s_sizes s) →
  effective_size (after_resize who cols rows s) = Some (current_size (after_resize who cols rows s)).
Proof.
  intros Hf. unfold after_resize. set (s' := record_ask who (clamp cols rows) s).
  rewrite effective_size_sized.
  assert (∃ size, effective_size s' = Some size) as [size He].
  { destruct (effective_size s') eqn:He; [eauto|]. apply effective_size_None in He.
    simpl in He. by destruct (List.filter _ _). }
  rewrite He. simpl. unfold if_changed. simpl. case_decide as Hc; [by rewrite Hc|].
  pose proof (effective_size_ok s' size (record_ask_ok who cols rows s Hf) He) as Hcl.
  destruct size as [c r]. simpl in *. unfold clamp, current_size in *. simpl. by rewrite Hcl.
Qed.

Lemma resize_outcome id who cols rows w :
  table_wf w →
  wp (resize id who cols rows)
    (λ r w', match w_sessions w !! id with
             | None => r = Err (no_session id) ∧ w' = w
             | Some s => session_touched id (after_resize who cols rows) w w' ∧
                 w_ptys w' = w_ptys w ++
                   (if bool_decide (r = Ok ()) && bool_decide
                         (current_size (after_resize who cols rows s) ≠ current_size s)
                    then [PtyResize (s_handle s) (s_cols (after_resize who cols rows s))
                            (s_rows (after_resize who cols rows s))] else [])
             end) w.
Proof.
  intros Hwf. unfold resize. cbv zeta. wp_step. apply wp_get.
  destruct (w_sessions w !! id) as [s|] eqn:Hs; [|by apply wp_fail].
  pose proof (wf_asks w Hwf id s Hs) as Hok.
  wp_step. apply wp_modify. wp_step. fold (clamp cols rows).
  set (s' := record_ask who (clamp cols rows) s).
  set (size := if_changed s' _).
  set (w1 := set_sessions (alter (λ _, s') id (w_sessions w)) w).
  assert (w_sessions w1 !! id = Some s') as Hs1 by (simpl; by rewrite lookup_alter_eq, Hs).
  assert (session_touched id (after_resize who cols rows) w
    (set_sessions (alter (sized size) id (w_sessions w1)) w)) as Ht.
  { unfold session_touched. split_and!; try done. alter_cases id. by rewrite Hs. }
  eapply wp_mono; [by apply (apply_some_outcome id s' size w1)|].
  intros r w2 (Ht2 & He & Hq & _ & Hr).
  assert (session_touched id (after_resize who cols rows) w w2) as Htouch.
  { destruct Ht2 as (Hs2 & Hw2 & Hp2 & Hh2 & Ha2 & Hst2 & Hsg2), Ht as (Hts & _).
    unfold session_touched. rewrite Hs2, Hw2, Hp2, Hh2, Ha2, Hst2, Hsg2. by split_and!. }
  assert (after_resize who cols rows s = sized size s') as Hafter by done.
  destruct r as [[]|e].
  - wp_step. eapply wp_mono; [by eapply touched_hub_now|]. intros _ w3 [Ht3 Hp3].
    apply wp_ret. split; [done|]. rewrite Hp3, Hafter. simpl.
    destruct size as [[c r]|] eqn:Hsize.
    + destruct Hr as [_ ->]. rewrite bool_decide_eq_true_2; [done|]. simpl.
      subst size. unfold if_changed in Hsize. simpl in Hsize. case_decide as Hc; [done|].
      pose proof (after_resize_settled who cols rows s Hok) as Hset. rewrite Hafter in Hset.
      rewrite effective_size_sized in Hset. rewrite Hset in Hc, Hsize. simpl in Hc. simplify_eq.
      intros Heq. apply Hc. by rewrite Heq.
    + destruct Hr as [_ ->]. subst w1. simpl. rewrite bool_decide_eq_false_2; [by rewrite app_nil_r|].
      by intros [].
  - split; [done|]. simpl. destruct size as [[c r]|]; [|by destruct Hr].
    destruct Hr as [-> _]. by rewrite app_nil_r.
Qed.

(** *** The other operations on a row *)

(** The row's new contents are [s'], then maybe a new size; then the hub is used. *)
Lemma row_then_size id s s' size w (Q : TableResult () → W → Prop)
    (k : () → st W (TableResult ())) :
  w_sessions w !! id = Some s →
  (∀ w', session_touched id (λ _, sized size s') w w' → wp (k ()) Q w') →
  (∀ e w', session_touched id (λ _, sized size s') w w' → Q (Err e) w') →
  wp (bind_ok (apply_some id size) k) Q (set_sessions (alter (λ _, s') id (w_sessions w)) w).
Proof.
  intros Hs Hk He. wp_step. set (w1 := set_sessions _ w).
  assert (w_sessions w1 !! id = Some s') as Hs1 by (simpl; by rewrite lookup_alter_eq, Hs).
  eapply wp_mono; [by apply (apply_some_outcome id s' size w1)|].
  intros r w2 (Ht & _).
  assert (session_touched id (λ _, sized size s') w w2) as Ht2.
  { destruct Ht as (Hs2 & Hw2 & Hp2 & Hh2 & Ha2 & Hst2 & Hsg2). unfold session_touched.
    rewrite Hs2, Hw2, Hp2, Hh2, Ha2, Hst2, Hsg2. split_and!; try done.
    alter_cases id. by rewrite Hs. }
  destruct r as [[]|e]; auto.
Qed.

Lemma touched_ret_hub id handle f g w w1 (Q : TableResult () → W → Prop) :
  session_touched id g w w1 → (∀ w', session_touched id g w w' → Q (Ok ()) w') →
  wp (hub_do_now handle f;; mret (Ok ())) Q w1.
Proof.
  intros Ht HQ. wp_step. eapply wp_mono; [by eapply touched_hub_now|].
  intros _ w' [Ht' _]. apply wp_ret. by apply HQ.
Qed.

(** The row an attach leaves. *)
Definition after_attach (who : SubscriberId) (view_id : option string) (s : Session) : Session :=
  match view_id with
  | Some view =>
      let s' := remember_view who view s in
      sized (if decide (s_focused_view s' = Some view) then if_changed s' (effective_size s')
             else None) s'
  | None => s
  end.

Lemma attach_outcome id who outbound view_id w :
  wp (attach id who outbound view_id)
    (λ r w', match w_sessions w !! id with
             | None => r = Err (no_session id) ∧ w' = w
             | Some s => session_touched id (λ _, after_attach who view_id s) w w'
             end) w.
Proof.
  unfold attach. cbv zeta. wp_step. apply wp_get.
  destruct (w_sessions w !! id) as [s|] eqn:Hs; [|by apply wp_fail].
  wp_step. apply wp_modify. destruct view_id as [view|].
  - apply (row_then_size id s); [done| |done].
    intros w' Ht. by eapply touched_ret_hub.
  - apply (row_then_size id s s None); [done| |done]. intros w' Ht. by eapply touched_ret_hub.
Qed.

Lemma resize_legacy_outcome id cols rows w :
  wp (resize_legacy id cols rows)
    (λ r w', match w_sessions w !! id with
             | None => r = Err (no_session id) ∧ w' = w
             | Some s => session_touched id
                 (λ _, sized (if_changed s (Some (clamp cols rows))) s) w w'
             end) w.
Proof.
  unfold resize_legacy. wp_step. apply wp_get.
  destruct (w_sessions w !! id) as [s|] eqn:Hs; [|by apply wp_fail].
  fold (clamp cols rows).
  assert (set_sessions (alter (λ _, s) id (w_sessions w)) w = w) as Hw.
  { destruct w. unfold set_sessions. simpl in *. f_equal. alter_cases id. by rewrite Hs. }
  match goal with |- wp ?m ?Q _ =>
    assert (wp m Q (set_sessions (alter (λ _, s) id (w_sessions w)) w)) as Hgoal end.
  { apply (row_then_size id s); [done| |done]. intros w' Ht. by eapply touched_ret_hub. }
  by rewrite Hw in Hgoal.
Qed.

Definition focus_view (view_id : string) (s : Session) : Session :=
  set_clients (s_sizes s) (s_view_ids s) (Some view_id) s.

Lemma focus_outcome id view_id hover w :
  wp (focus id view_id hover)
    (λ r w', match w_sessions w !! id with
             | None => r = Err (no_session id) ∧ w' = w
             | Some s => let s' := focus_view view_id s in
                 session_touched id (λ _, sized (if_changed s' (effective_size s')) s') w w'
             end) w.
Proof.
  unfold focus. cbv zeta. wp_step. apply wp_get.
  destruct (w_sessions w !! id) as [s|] eqn:Hs; [|by apply wp_fail].
  fold (focus_view view_id s). wp_step. apply wp_modify. set (s' := focus_view view_id s).
  destruct (effective_size s') as [size|] eqn:He; simpl.
  2: { apply wp_ret. by split_and!. }
  unfold if_changed. simpl.
  replace (if decide (size = current_size s') then None else Some size) with
    (if bool_decide (size ≠ current_size s') then Some size else None).
  2: { case_bool_decide; case_decide; done. }
  apply (row_then_size id s); [done| |done]. intros w' Ht.
  wp_step. destruct (_ || _ || _).
  - eapply wp_mono; [by eapply touched_hub_now|]. intros _ w2 [Ht2 _]. by apply wp_ret.
  - apply wp_ret. by apply wp_ret.
Qed.

(** The row a detach leaves. *)
Definition after_detach (who : SubscriberId) (s : Session) : Session :=
  sized (forget_client who s).1 (forget_client who s).2.

Lemma detach_outcome id who w :
  wp (detach id who)
    (λ _ w', match w_sessions w !! id with
             | None => w' = w
             | Some s => session_touched id (λ _, after_detach who s) w w'
             end) w.
Proof.
  unfold detach. wp_step. apply wp_get.
  destruct (w_sessions w !! id) as [s|] eqn:Hs; [|by apply wp_ret].
  unfold after_detach. destruct (forget_client who s) as [grown s']. simpl.
  wp_step. apply wp_modify. wp_step. apply wp_hub_do. intros hubs qs Hd.
  unfold grow_back. wp_step. set (w1 := set_hubs _ _ _).
  assert (w_sessions w1 !! id = Some s') as Hs1 by (simpl; by rewrite lookup_alter_eq, Hs).
  eapply wp_mono; [by apply (apply_some_outcome id s' grown w1)|].
  intros r w2 (Ht & _). apply wp_ret.
  destruct Ht as (Hs2 & Hw2 & Hp2 & Hh2 & Ha2 & Hst2 & Hsg2). unfold session_touched.
  rewrite Hs2, Hw2, Hp2, Hh2, Ha2, Hst2, Hsg2. split_and!; try done.
  alter_cases id. by rewrite Hs.
Qed.

Lemma forget_client_fields who s :
  let s' := (forget_client who s).2 in
  s_id s' = s_id s ∧ s_workspace s' = s_workspace s ∧ s_handle s' = s_handle s ∧
  s_live s' = s_live s ∧ current_size s' = current_size s ∧
  s_sizes s' = List.filter (not_client who) (s_sizes s).
Proof. unfold forget_client. by repeat case_match; simplify_eq/=. Qed.

Lemma forget_client_ok who s :
  Forall ask_ok (s_sizes s) → Forall ask_ok (s_sizes (forget_client who s).2).
Proof.
  intros Hf. destruct (forget_client_fields who s) as (_ & _ & _ & _ & _ & ->).
  apply Forall_forall. intros a [Ha _]%elem_of_filter_bool. by eapply Forall_forall in Ha.
Qed.

Lemma filter_same_length {A} (p : A → bool) l :
  length (List.filter p l) = length l → List.filter p l = l.
Proof.
  induction l as [|x l IH]; simpl; [done|]. destruct (p x); simpl; intros Hl.
  - f_equal. apply IH. lia.
  - pose proof (List.filter_length_le p l). lia.
Qed.

Lemma settle s size :
  Forall ask_ok (s_sizes s) → effective_size s = size → settled (sized (if_changed s size) s).
Proof.
  intros Hf He. unfold settled. rewrite effective_size_sized, He.
  destruct size as [size|]; simpl; [|left; by apply effective_size_None].
  right. case_decide as Hc; simpl; [by rewrite Hc|].
  pose proof (effective_size_ok s size Hf He) as Hcl. destruct size as [c r].
  unfold clamp in Hcl. simpl in *. unfold current_size. simpl. by rewrite Hcl.
Qed.

Lemma after_detach_settled who s :
  NoDup (map snd (s_view_ids s)) → Forall ask_ok (s_sizes s) → settled s →
  settled (after_detach who s).
Proof.
  intros Hnd Hok Hset. pose proof (forget_client_ok who s Hok) as Hok'. unfold after_detach.
  unfold forget_client in *. set (sizes := List.filter (not_client who) (s_sizes s)) in *.
  destruct (match position _ _ with Some _ => _ | None => _ end) as [[views focused] touched] eqn:Hm.
  set (s' := set_clients sizes views focused s) in *. simpl in Hok' |- *.
  destruct (touched || _) eqn:Ht; [by apply settle|].
  apply orb_false_iff in Ht as [-> Hlen]. apply bool_decide_eq_false, dec_stable in Hlen.
  assert (sizes = s_sizes s) as Hsz by by apply filter_same_length.
  assert (focused = s_focused_view s ∧ NoDup (map snd views) ∧
          ∀ v, s_focused_view s = Some v.2 → v ∈ s_view_ids s ↔ v ∈ views) as (-> & Hnd' & Hv).
  { destruct (position _ _) as [i|] eqn:Hp; [|by simplify_eq].
    apply position_Some in Hp as (x & Hx & _). rewrite Hx in Hm. simpl in Hm.
    case_bool_decide as Hf; simplify_eq. apply lookup_lt_Some in Hx as Hlt.
    pose proof (swap_remove_delete i (s_view_ids s) Hlt) as Hperm.
    pose proof (delete_Permutation (s_view_ids s) i x Hx) as Hdel.
    assert (NoDup (map snd (x :: swap_remove i (s_view_ids s)))) as Hnd2.
    { rewrite Hperm, <- Hdel. done. }
    apply NoDup_cons in Hnd2 as [_ Hnd2]. split_and!; [done|done|].
    rewrite <- Hperm in Hdel. clear - Hdel Hf. set (l' := swap_remove i _) in *. clearbody l'.
    intros v Hv. rewrite Hdel, elem_of_cons. split; [|by right].
    intros [->|?]; [congruence|done]. }
  unfold settled in *. simpl. subst s'. rewrite Hsz.
  rewrite (forget_untouched s views Hnd Hnd' Hv).
  change (current_size (set_clients (s_sizes s) views (s_focused_view s) s)) with (current_size s).
  done.
Qed.

Lemma apply_some_wf id size w : table_wf w → wp (apply_some id size) (λ _ w', table_wf w') w.
Proof.
  intros Hwf. destruct (w_sessions w !! id) as [s|] eqn:Hs.
  - eapply wp_mono; [by apply apply_some_outcome|]. intros r w' (Ht & _).
    apply (wf_touched id (sized size) w w'); [|done|done].
    intros t. destruct (sized_fields size t) as (Hf1 & Hf2 & Hf3 & Hf4 & _).
    rewrite Hf1, Hf2, Hf3, Hf4. by split_and!.
  - destruct size as [[c r]|]; [|by apply wp_ret]. simpl. unfold apply_size. cbv zeta.
    wp_step. apply wp_get. rewrite Hs. by apply wp_fail.
Qed.

Lemma wf_row_keeps id s f w w' :
  w_sessions w !! id = Some s → s_id (f s) = s_id s → s_workspace (f s) = s_workspace s →
  s_handle (f s) = s_handle s → (Forall ask_ok (s_sizes s) → Forall ask_ok (s_sizes (f s))) →
  session_touched id f w w' → table_wf w → table_wf w'.
Proof.
  intros Hs Hi Hw Hh Ha Ht Hwf. eapply wf_touched_row; [exact Hs|..]; try done.
  apply Ha. exact (wf_asks w Hwf id s Hs).
Qed.

Lemma after_attach_fields who view s :
  s_id (after_attach who view s) = s_id s ∧ s_workspace (after_attach who view s) = s_workspace s ∧
  s_handle (after_attach who view s) = s_handle s ∧ s_sizes (after_attach who view s) = s_sizes s.
Proof.
  destruct view as [view|]; simpl; [|done].
  destruct (sized_fields (if decide (s_focused_view s = Some view)
     then if_changed (remember_view who view s) (effective_size (remember_view who view s)) else None)
     (remember_view who view s)) as (H1' & H2' & H3' & H4' & _).
  by rewrite H1', H2', H3', H4'.
Qed.

Lemma attach_wf id who outbound view w :
  table_wf w → wp (attach id who outbound view) (λ _ w', table_wf w') w.
Proof.
  intros Hwf. eapply wp_mono; [apply attach_outcome|]. intros r w' Hr.
  destruct (w_sessions w !! id) as [s|] eqn:Hs; [|by destruct Hr as [_ ->]].
  destruct (after_attach_fields who view s) as (E1 & E2 & E3 & E4).
  eapply (wf_row_keeps id s); [done| | | | |exact Hr|done]; simpl; try done. by rewrite E4.
Qed.

Lemma resize_wf id who cols rows w :
  table_wf w → wp (resize id who cols rows) (λ _ w', table_wf w') w.
Proof.
  intros Hwf. eapply wp_mono; [by apply resize_outcome|]. intros r w' Hr.
  destruct (w_sessions w !! id) as [s|] eqn:Hs; [|by destruct Hr as [_ ->]]. destruct Hr as [Ht _].
  unfold after_resize in Ht. cbv zeta in Ht.
  eapply (wf_row_keeps id s); [done| | | | |exact Ht|done]; cbv beta;
    match goal with |- context [sized ?z ?t] =>
      destruct (sized_fields z t) as (E1 & E2 & E3 & E4 & _) end;
    rewrite ?E1, ?E2, ?E3, ?E4; try done. apply record_ask_ok.
Qed.

Lemma resize_legacy_wf id cols rows w :
  table_wf w → wp (resize_legacy id cols rows) (λ _ w', table_wf w') w.
Proof.
  intros Hwf. eapply wp_mono; [apply resize_legacy_outcome|]. intros r w' Hr.
  destruct (w_sessions w !! id) as [s|] eqn:Hs; [|by destruct Hr as [_ ->]].
  eapply (wf_row_keeps id s); [done| | | | |exact Hr|done]; cbv beta;
    match goal with |- context [sized ?z ?t] =>
      destruct (sized_fields z t) as (E1 & E2 & E3 & E4 & _) end;
    by rewrite ?E1, ?E2, ?E3, ?E4.
Qed.

Lemma focus_wf id view hover w :
  table_wf w → wp (focus id view hover) (λ _ w', table_wf w') w.
Proof.
  intros Hwf. eapply wp_mono; [apply focus_outcome|]. intros r w' Hr.
  destruct (w_sessions w !! id) as [s|] eqn:Hs; [|by destruct Hr as [_ ->]]. cbv zeta in Hr.
  eapply (wf_row_keeps id s); [done| | | | |exact Hr|done]; cbv beta;
    match goal with |- context [sized ?z ?t] =>
      destruct (sized_fields z t) as (E1 & E2 & E3 & E4 & _) end;
    by rewrite ?E1, ?E2, ?E3, ?E4.
Qed.

Lemma detach_wf id who w : table_wf w → wp (detach id who) (λ _ w', table_wf w') w.
Proof.
  intros Hwf. eapply wp_mono; [apply detach_outcome|]. intros r w' Hr.
  destruct (w_sessions w !! id) as [s|] eqn:Hs; [|by rewrite Hr].
  destruct (forget_client_fields who s) as (F1 & F2 & F3 & _). unfold after_detach in Hr.
  eapply (wf_row_keeps id s); [done| | | | |exact Hr|done]; cbv beta;
    match goal with |- context [sized ?z ?t] =>
      destruct (sized_fields z t) as (E1 & E2 & E3 & E4 & _) end;
    rewrite ?E1, ?E2, ?E3, ?E4; try done. apply forget_client_ok.
Qed.

Lemma detach_all_wf who w : table_wf w → wp (detach_all who) (λ _ w', table_wf w') w.
Proof.
  intros Hwf. unfold detach_all. wp_step. apply wp_modify. wp_step. apply wp_get. cbv zeta.
  wp_step. apply wp_modify. apply (wp_for table_wf); [| |done].
  - apply (wf_sessions_map _ _ (λ _ s, (forget_client who s).2)); [| |by apply wf_events].
    + intros _ s. destruct (forget_client_fields who s) as (F1 & F2 & F3 & _).
      split_and!; try done. apply forget_client_ok.
    + intros j. simpl. apply lookup_fmap.
  - intros [[id handle] grown] v _ Hv. wp_step. apply wp_hub_do. intros hubs qs Hd.
    unfold grow_back. wp_step. eapply wp_mono; [apply apply_some_wf; by apply wf_hubs|].
    intros r w' Hw'. by apply wp_ret.
Qed.

(** ** Properties *)

(** The pty of a shared session follows its clients: after a resize that is
    acknowledged or refused, the row's size is the focused view's ask where the
    focus resolves and otherwise the smallest ask in each direction, the asker's
    own clamped ask is among them, no other client's ask was lost, and the pty is
    told of a change and only of a change. *)
Theorem resize_follows_the_asks (id : SessionId) (who : SubscriberId) (cols rows : Z) (s : Session)
    (w : W) (Hwf : table_wf w) (Hs : w_sessions w !! id = Some s) :
  let '(r, w') := resize id who cols rows w in
  ∃ s', w_sessions w' = <[id := s']> (w_sessions w) ∧ table_wf w' ∧
    size_rule s' (current_size s') ∧
    s_sizes s' = List.filter (not_client who) (s_sizes s) ++ [(who, clamp cols rows)] ∧
    w_ptys w' = w_ptys w ++
      (if bool_decide (r = Ok ()) && bool_decide (current_size s' ≠ current_size s)
       then [PtyResize (s_handle s) (s_cols s') (s_rows s')] else []).
Proof.
  pose proof (resize_outcome id who cols rows w Hwf) as Ho.
  pose proof (resize_wf id who cols rows w Hwf) as Hwf'. unfold wp in *. rewrite Hs in Ho.
  destruct (resize id who cols rows w) as [r w']. simpl in Ho, Hwf'. destruct Ho as [Ht Hp].
  exists (after_resize who cols rows s). split_and!; [|done| | |exact Hp].
  - destruct Ht as [-> _]. alter_cases id. by rewrite Hs.
  - apply effective_size_rule, after_resize_settled. exact (wf_asks w Hwf id s Hs).
  - unfold after_resize. by destruct (sized_fields (if_changed (record_ask who (clamp cols rows) s)
      (Some (default (clamp cols rows) (effective_size (record_ask who (clamp cols rows) s)))))
      (record_ask who (clamp cols rows) s)) as (_ & _ & _ & -> & _).
Qed.

(** A departing client gives its size back: if the row was at the size its
    clients ask for, it is again after the client and its ask, its view and its
    focus are gone — whatever the pty answered — and no other row changed. *)
Theorem detach_gives_the_size_back (id : SessionId) (who : SubscriberId) (s : Session) (w : W)
    (Hwf : table_wf w) (Hs : w_sessions w !! id = Some s)
    (Hviews : NoDup (map snd (s_view_ids s))) (Hset : settled s) :
  let '(_, w') := detach id who w in
  ∃ s', w_sessions w' = <[id := s']> (w_sessions w) ∧ table_wf w' ∧ settled s' ∧
    s_sizes s' = List.filter (not_client who) (s_sizes s).
Proof.
  pose proof (detach_outcome id who w) as Ho. pose proof (detach_wf id who w Hwf) as Hwf'.
  unfold wp in *. rewrite Hs in Ho. destruct (detach id who w) as [r w']. simpl in Ho, Hwf'.
  exists (after_detach who s). split_and!; [|done| |].
  - destruct Ho as [-> _]. alter_cases id. by rewrite Hs.
  - apply after_detach_settled; [done| |done]. exact (wf_asks w Hwf id s Hs).
  - unfold after_detach. destruct (forget_client_fields who s) as (_ & _ & _ & _ & _ & F6).
    by destruct (sized_fields (forget_client who s).1 (forget_client who s).2) as (_ & _ & _ & -> & _).
Qed.
End Clients.
