(* ===== verification/Creation.v ===== *)
(** * Creating sessions and workspaces

    [create] and its compensation, [commit_workspace] and [ensure_workspace] of
    [crates/ade_session_daemon/src/sessions.rs]. *)

From S2P Require Import Prelude Text Layout Proto Outbound Stream Host Hub Ledger World Table Sessions TableSpecs TableInv Layouts Records Kills.
From stdpp Require Import options.
Open Scope Z_scope.

Section Creation.
Context {G : Type} `{ScreenGrid G, StateCodec, OS}.
Abbreviation W := (world G).
Implicit Types w : W.

(** Only the reservations, the ledger, the clock and the log of ptys and signals
    may differ. *)
Definition calm (pending : list PersistedSession) w w' : Prop :=
  w_sessions w' = w_sessions w ∧ w_workspaces w' = w_workspaces w ∧ w_pending w' = pending ∧
  w_hubs w' = w_hubs w ∧ w_activities w' = w_activities w ∧ w_events w' = w_events w ∧
  w_queues w' = w_queues w.

Definition released (id : SessionId) (l : list PersistedSession) : list PersistedSession :=
  List.filter (λ r, negb (bool_decide (ps_id r = id))) l.

Lemma calm_trans p p' w w1 w2 : calm p w w1 → calm p' w1 w2 → calm p' w w2.
Proof. unfold calm. intuition congruence. Qed.

Lemma released_app id l k : released id (l ++ k) = released id l ++ released id k.
Proof. apply List.filter_app. Qed.

Lemma released_idem id l : released id (released id l) = released id l.
Proof.
  apply filter_all. intros r [_ Hr]%elem_of_filter_bool. done.
Qed.

Lemma released_none id l : (∀ r, r ∈ l → ps_id r ≠ id) → released id l = l.
Proof. intros Hn. apply filter_all. intros r Hr. apply negb_true_iff, bool_decide_eq_false. auto. Qed.

Lemma released_record id ws request created_at :
  released id [reservation id ws request created_at] = [].
Proof. unfold released. simpl. by rewrite bool_decide_eq_true_2. Qed.

(** The session a create is about, and the world's logs: nothing new, or a pty that
    was spawned and then killed. *)
Definition child_gone (id : SessionId) w w' : Prop :=
  w_ptys w' = w_ptys w ∨ DirectKill id ∈ w_signals w'.

Lemma abandon_reservation_outcome id w :
  wp (abandon_reservation id)
    (λ _ w', calm (released id (w_pending w)) w w' ∧ w_ptys w' = w_ptys w ∧
             w_signals w' = w_signals w) w.
Proof.
  unfold abandon_reservation. wp_step. apply wp_release. wp_step. apply wp_persist.
  intros r s _. apply wp_ret. by split_and!.
Qed.

Lemma reserve_outcome record w :
  wp (reserve record)
    (λ r w', w_ptys w' = w_ptys w ∧ w_signals w' = w_signals w ∧
       match r with
       | Ok _ => calm (w_pending w ++ [record]) w w' ∧
                 durable w' ∧ w_tick w' = (w_tick w + 1 + 1)%nat
       | Err e => te_code e = error_code.PERSIST_FAILED ∧
                  calm (released (ps_id record) (w_pending w ++ [record])) w w'
       end) w.
Proof.
  unfold reserve. wp_step. apply wp_modify. wp_step. apply wp_persist. intros r s Hst.
  ledger_facts Hst Ho. destruct r as [[]|err].
  - apply wp_ret. split_and!; try done.
  - wp_step. apply wp_release. apply wp_fail. by split_and!.
Qed.

Lemma abandon_child_outcome id pid w :
  wp (abandon_child id pid)
    (λ _ w', calm (w_pending w) w w' ∧ w_ptys w' = w_ptys w ∧ w_store w' = w_store w ∧
             DirectKill id ∈ w_signals w') w.
Proof.
  unfold abandon_child. wp_step. apply wp_ask. apply wp_modify. split_and!; try done.
  simpl. unfold abandon. destruct (terminate_groups _ _ _ _) as [calls wait]. simpl.
  rewrite !elem_of_app. right. right. left.
Qed.

(** A failing step gives the reservation back and runs its cleanup. *)
Lemma or_abandon_outcome id cleanup (r : TableResult ()) w (Q : TableResult () → W → Prop) :
  (∀ a, r = Ok a → Q (Ok a) w) →
  (∀ e w1, r = Err e → calm (released id (w_pending w)) w w1 → w_ptys w1 = w_ptys w →
     w_signals w1 = w_signals w → wp cleanup (λ _ w2, Q (Err e) w2) w1) →
  wp (or_abandon id cleanup r) Q w.
Proof.
  intros Hok Herr. unfold or_abandon. destruct r as [a|e]; [apply wp_ret; by apply Hok|].
  wp_step. eapply wp_mono; [apply abandon_reservation_outcome|]. intros _ w1 (Hc & Hp & Hs).
  wp_step. eapply wp_mono; [by apply (Herr e w1)|]. intros a w2 HQ. by apply wp_ret.
Qed.

(** The identity a create will give its session. *)
Definition new_session_id w : SessionId := os_uuid (w_tick w + 1).

Definition id_unused (id : SessionId) w : Prop :=
  w_sessions w !! id = None ∧ ∀ r, r ∈ w_pending w → ps_id r ≠ id.

(** The row a create makes. *)
Definition created_row (request : CreateRequest) (info : SessionInfo) (s : Session) : Prop :=
  s_info s = info ∧ si_workspace_id info = cr_workspace_id request ∧
  si_agent_kind info = cr_agent_kind request ∧ si_instance_label info = cr_instance_label request ∧
  si_cwd info = cr_cwd request ∧ si_status info = Working ∧ s_lost s = false ∧ s_live s ≠ None ∧
  s_cols s = cr_cols request ∧ s_rows s = cr_rows request ∧ s_sizes s = [] ∧
  s_view_ids s = [] ∧ s_focused_view s = None.

(** Row, hub and activity added to [w], nothing else but logs and the clock. *)
Definition row_added (request : CreateRequest) (info : SessionInfo) (s : Session) w w' : Prop :=
  created_row request info s ∧ s_handle s = fresh_handle w ∧
  w_sessions w' = <[si_id info := s]> (w_sessions w) ∧ w_workspaces w' = w_workspaces w ∧
  w_pending w' = w_pending w ∧
  w_hubs w' = <[s_handle s := hub_new (default DEFAULT_SCROLLBACK_BYTES (cr_scrollback_bytes request))
                 (Some (grid_new (cr_cols request) (cr_rows request))) None]> (w_hubs w) ∧
  dom (w_activities w') = {[s_handle s]} ∪ dom (w_activities w) ∧
  w_events w' = w_events w ∧ w_queues w' = w_queues w ∧ w_ptys w' = w_ptys w ∧
  w_signals w' = w_signals w ∧ w_store w' = w_store w.

Lemma record_created_outcome id request pid w :
  wp (record_created id request pid)
    (λ info w', si_id info = id ∧ ∃ s, row_added request info s w w') w.
Proof.
  unfold record_created. wp_step. apply wp_ask. wp_step. apply wp_ask. wp_step. apply wp_get.
  cbv zeta. wp_step. apply wp_modify. apply wp_ret. split; [done|].
  eexists (created_session request _ pid (fresh_handle w)).
  unfold row_added, created_row. split_and!; try reflexivity; [done|]. simpl. by rewrite dom_insert_L.
Qed.

Lemma fresh_handle_spec w s id :
  table_wf w → w_sessions w !! id = Some s → s_handle s ≠ fresh_handle w.
Proof.
  intros Hwf Hs Heq. destruct (wf_hub w Hwf id s Hs) as [Hh _].
  pose proof (is_fresh (dom (w_hubs w) ∪ dom (w_activities w))) as Hf.
  unfold fresh_handle in Heq. rewrite <- Heq in Hf. set_solver.
Qed.

Lemma row_added_wf request info s w w' :
  row_added request info s w w' → w_sessions w !! si_id info = None →
  is_Some (w_workspaces w !! cr_workspace_id request) → table_wf w → table_wf w'.
Proof.
  intros (Hrow & Hh & Hs' & Hw' & _ & Hhub & Hact & _) Hn Hws Hwf.
  destruct Hrow as (Hi & Hwi & _ & _ & _ & _ & _ & _ & _ & _ & Hsz & _).
  assert (s_id s = si_id info) as Hid by (unfold s_id; by rewrite Hi).
  apply (wf_ext (add_session s (hub_new 0 None None) (activity_new 0) w).2); simpl.
  - by rewrite Hs', Hid.
  - done.
  - by rewrite Hhub, !dom_insert_L.
  - by rewrite Hact, dom_insert_L.
  - apply wf_add_session; [by rewrite Hid| | |done|done].
    + unfold s_workspace. by rewrite Hi, Hwi.
    + intros j t Ht. rewrite Hh. by eapply fresh_handle_spec.
Qed.

Definition announced (info : SessionInfo) w w' : Prop :=
  events_publish (Frame_Created info (persisted w') None) (w_events w) (w_queues w)
    = (w_events w', w_queues w').

Lemma commit_created_outcome info w :
  is_Some (w_workspaces w !! si_workspace_id info) → is_Some (w_sessions w !! si_id info) →
  wp (commit_created info)
    (λ r w', w_sessions w' = w_sessions w ∧ w_workspaces w' = w_workspaces w ∧
       w_pending w' = released (si_id info) (w_pending w) ∧ w_hubs w' = w_hubs w ∧
       w_activities w' = w_activities w ∧ w_ptys w' = w_ptys w ∧ w_signals w' = w_signals w ∧
       match r with
       | Ok _ => durable w' ∧ announced info w w'
       | Err e => te_code e = error_code.PERSIST_FAILED ∧ w_events w' = w_events w ∧
                  w_queues w' = w_queues w ∧ read_only (w_store w) = false
       end) w.
Proof.
  intros [i Hi] [s Hs]. unfold commit_created. wp_step. apply wp_release. wp_step.
  apply wp_persist. intros r st Hst. ledger_facts Hst Ho. destruct r as [[]|err].
  - wp_step. apply wp_get. simpl. rewrite Hi, Hs. wp_step. apply wp_publish. intros e qs He.
    apply wp_ret. split_and!; try done.
  - apply wp_fail. split_and!; try done. apply Ho.
Qed.

Lemma released_back id ws request created_at w :
  (∀ r, r ∈ w_pending w → ps_id r ≠ id) →
  released id (w_pending w ++ [reservation id ws request created_at]) = w_pending w.
Proof. intros Hn. by rewrite released_app, released_record, app_nil_r, released_none. Qed.

Lemma calm_back id ws request created_at w w2 w3 :
  (∀ r, r ∈ w_pending w → ps_id r ≠ id) →
  calm (w_pending w ++ [reservation id ws request created_at]) w w2 →
  calm (released id (w_pending w2)) w2 w3 → calm (w_pending w) w w3.
Proof.
  intros Hn Hc2 Hc3. pose proof (calm_trans _ _ _ _ _ Hc2 Hc3) as Hc.
  destruct Hc2 as (_ & _ & Hp2 & _). by rewrite Hp2, released_back in Hc.
Qed.

(** A create that did not happen: no row, no reservation, no process left running
    unsignalled. The layout of the workspace, which never named the session, may
    have been put into canonical form. *)
Definition create_undone (id : SessionId) (home : string) w w' : Prop :=
  w_sessions w' = w_sessions w ∧ w_pending w' = w_pending w ∧ child_gone id w w' ∧
  (w_workspaces w' = w_workspaces w ∨ w_workspaces w' = alter (scrubbed id) home (w_workspaces w)) ∧
  table_wf w'.

Definition create_done (request : CreateRequest) (info : SessionInfo) w w' : Prop :=
  ∃ s, created_row request info s ∧ s_handle s = fresh_handle w ∧
    w_sessions w' = <[si_id info := s]> (w_sessions w) ∧ w_workspaces w' = w_workspaces w ∧
    w_pending w' = w_pending w ∧ durable w' ∧ announced info w w' ∧ table_wf w'.

Lemma calm_undone id home pending w w' :
  table_wf w → pending = w_pending w → calm pending w w' → child_gone id w w' →
  create_undone id home w w'.
Proof.
  intros Hwf -> (Hs & Hw & Hp & Hh & Ha & _) Hc. split_and!; try done; [by left|].
  apply (wf_ext w); [done|done|by rewrite Hh|by rewrite Ha|done].
Qed.

Lemma create_tail_outcome id request pid created_at w w0 :
  table_wf w → id_unused id w → is_Some (w_workspaces w !! cr_workspace_id request) →
  calm (w_pending w ++ [reservation id (cr_workspace_id request) request created_at]) w w0 →
  wp (create_tail id request pid)
    (λ r w', match r with
             | Ok info => si_id info = id ∧ create_done request info w w'
             | Err e => te_code e = error_code.PERSIST_FAILED ∧
                        create_undone id (cr_workspace_id request) w w'
             end) w0.
Proof.
  intros Hwf [Hun Hpend] Hws (Hs0 & Hw0 & Hp0 & Hh0 & Ha0 & He0 & Hq0).
  assert (table_wf w0) as Hwf0
    by (apply (wf_ext w); [done|done|by rewrite Hh0|by rewrite Ha0|done]).
  unfold create_tail. wp_step. eapply wp_mono; [apply record_created_outcome|].
  intros info w1 (Hid & s & Hrow). subst id.
  assert (table_wf w1) as Hwf1.
  { eapply row_added_wf; [exact Hrow|by rewrite Hs0|by rewrite Hw0|done]. }
  destruct Hrow as (Hcr & Hhd & Hs1 & Hw1 & Hp1 & Hh1 & Ha1 & He1 & Hq1 & _).
  pose proof Hcr as (Hinfo & Hhome & _).
  assert (w_sessions w1 !! si_id info = Some s) as Hlook by (by rewrite Hs1, lookup_insert_eq).
  wp_step. eapply wp_mono.
  { apply commit_created_outcome; [|by eexists]. by rewrite Hhome, Hw1, Hw0. }
  intros r w2 (Hs2 & Hw2 & Hp2 & Hh2 & Ha2 & Hpt2 & Hsg2 & Hr).
  assert (table_wf w2) as Hwf2
    by (apply (wf_ext w1); [done|done|by rewrite Hh2|by rewrite Ha2|done]).
  assert (w_pending w2 = w_pending w) as Hpw2 by (rewrite Hp2, Hp1, Hp0; by apply released_back).
  destruct r as [[]|e].
  - apply wp_ret. split; [done|]. destruct Hr as [Hd Han]. exists s. split_and!; try done.
    + rewrite Hhd. unfold fresh_handle. by rewrite Hh0, Ha0.
    + by rewrite Hs2, Hs1, Hs0.
    + by rewrite Hw2, Hw1, Hw0.
    + unfold announced in *. by rewrite He1, Hq1, He0, Hq0 in Han.
  - wp_step. eapply wp_mono; [apply remove_session_outcome|]. rewrite Hs2, Hlook.
    intros x w3 (saved & _ & Hwo & _). wp_step. eapply wp_mono; [apply abandon_child_outcome|].
    intros a w4 (Hc4 & _ & _ & Hkill). apply wp_ret. split; [by destruct Hr|].
    assert (s_workspace s = cr_workspace_id request) as Hsw by (unfold s_workspace; by rewrite Hinfo).
    assert (table_wf w3) as Hwf3 by (eapply wf_without_session; [|exact Hwo|done]; by rewrite Hs2).
    destruct Hwo as (Hs3 & Hw3 & Hp3 & Hh3 & Ha3). destruct Hc4 as (Hs4 & Hw4 & Hp4 & Hh4 & Ha4 & _).
    split_and!.
    + rewrite Hs4, Hs3, Hs2, Hs1, Hs0. by apply delete_insert_id.
    + rewrite Hp4, Hp3, Hpw2. by apply released_none.
    + by right.
    + right. by rewrite Hw4, Hw3, Hw2, Hw1, Hw0, Hsw.
    + apply (wf_ext w3); [done|done|by rewrite Hh4|by rewrite Ha4|done].
Qed.

(** Why a create is refused. *)
Definition create_refusal (request : CreateRequest) (e : TableError) w : Prop :=
  if decide (cr_workspace_id request = "") then te_code e = error_code.INVALID_ARGUMENT
  else match w_workspaces w !! cr_workspace_id request with
       | None => te_code e = error_code.NOT_FOUND
       | Some _ => te_code e = error_code.INTERNAL ∨ te_code e = error_code.PERSIST_FAILED
       end.

Lemma create_outcome request w :
  table_wf w → id_unused (new_session_id w) w →
  wp (create request)
    (λ r w', match r with
             | Ok info => si_id info = new_session_id w ∧
                 is_Some (w_workspaces w !! cr_workspace_id request) ∧ create_done request info w w'
             | Err e => create_refusal request e w ∧
                 create_undone (new_session_id w) (cr_workspace_id request) w w'
             end) w.
Proof.
  intros Hwf Hun.
  assert (∀ w', calm (w_pending w) w w' → child_gone (new_session_id w) w w' →
    create_undone (new_session_id w) (cr_workspace_id request) w w') as Hcalm
    by (intros; by eapply calm_undone).
  assert (create_undone (new_session_id w) (cr_workspace_id request) w w) as Hrefl
    by (apply Hcalm; [by split_and!|by left]).
  unfold create, create_refusal. wp_step. unfold wp at 1, require_workspace. simpl.
  case_decide as Hempty; [by split|].
  destruct (w_workspaces w !! cr_workspace_id request) as [home|] eqn:Hhome; [|by split].
  wp_step. apply wp_fallible. intros r1 Hr1. destruct r1 as [[]|e].
  2: { split; [left; by apply Hr1|]. apply Hcalm; [by split_and!|by left]. }
  cbv zeta. wp_step. apply wp_ask. simpl. fold (new_session_id w). set (id := new_session_id w) in *.
  wp_step. apply wp_ask. wp_step. set (created_at := os_unix _). set (w1 := tick 1 (tick 1 (tick 1 w))).
  eapply wp_mono; [apply reserve_outcome|].
  intros r2 w2 (Hpt2 & Hsg2 & Hr2). destruct r2 as [[]|e].
  2: { destruct Hr2 as [Hc Hcalm2]. split; [by right|]. apply Hcalm; [|by left].
       simpl in Hcalm2. by rewrite released_back in Hcalm2 by apply Hun. }
  destruct Hr2 as (Hcalm2 & _ & _).
  assert (calm (w_pending w ++ [reservation id (cr_workspace_id request) request created_at]) w w2)
    as Hc2 by exact Hcalm2.
  clear Hcalm2.
  assert (∀ w3, calm (released id (w_pending w2)) w2 w3 → calm (w_pending w) w w3) as Hback
    by (intros w3 Hc3; exact (calm_back _ _ _ _ _ _ _ (proj2 Hun) Hc2 Hc3)).
  (* the spawn *)
  wp_step. apply wp_fallible. intros r3 Hr3. wp_step. apply or_abandon_outcome.
  2: { intros e w3 -> Hc3 Hp3 Hs3. apply wp_ret. split; [left; by apply Hr3|].
       apply Hcalm; [exact (Hback w3 Hc3)|]. left. simpl in Hp3. by rewrite Hp3, Hpt2. }
  intros a _. wp_step. apply wp_ask. wp_step. apply wp_get. wp_step. apply wp_modify.
  set (pid := os_pid _). set (w4 := log_pty _ _).
  assert (∀ w5 e, calm (released id (w_pending w4)) w4 w5 → te_code e = error_code.INTERNAL →
    wp (abandon_child id pid) (λ _ w6, (te_code e = error_code.INTERNAL ∨
       te_code e = error_code.PERSIST_FAILED) ∧
       create_undone id (cr_workspace_id request) w w6) w5) as Hgone.
  { intros w5 e Hc5 He. eapply wp_mono; [apply abandon_child_outcome|].
    intros u w6 (Hc6 & _ & _ & Hk). split; [by left|]. apply Hcalm; [|by right].
    apply Hback. destruct Hc5 as (C1 & C2 & C3 & C4 & C5 & C6 & C7).
    destruct Hc6 as (D1 & D2 & D3 & D4 & D5 & D6 & D7).
    unfold calm. rewrite D1, D2, D3, D4, D5, D6, D7, C1, C2, C3, C4, C5, C6, C7. by split_and!. }
  (* the two handles *)
  wp_step. apply wp_fallible. intros r5 Hr5. wp_step. apply or_abandon_outcome.
  2: { intros e w5 -> Hc5 _ _. apply Hgone; [exact Hc5|by apply Hr5]. }
  intros b _. wp_step. apply wp_fallible. intros r6 Hr6. wp_step. apply or_abandon_outcome.
  2: { intros e w6 -> Hc6 _ _. apply Hgone; [exact Hc6|by apply Hr6]. }
  intros c _.
  match goal with |- wp _ _ ?s => set (w7 := s) end.
  assert (calm (w_pending w ++ [reservation id (cr_workspace_id request) request created_at]) w w7)
    as Hc7 by exact Hc2.
  pose proof (create_tail_outcome id request pid created_at w w7 Hwf Hun
    ltac:(rewrite Hhome; by eexists) Hc7) as Htail.
  eapply wp_mono; [exact Htail|]. clear.
  intros [info|e] w8 [Hr1 Hr2]; [split_and!; [done|by eexists|done]|split; [by right|done]].
Qed.

(** ** Workspaces *)

(** A fresh record: the name is the trimmed request's or the root's last part. *)
Definition fresh_record (request : WorkspaceRequest) (i : WorkspaceInfo) : Prop :=
  wi_project_root i = wr_root request ∧ wi_project_id i = wr_project_id request ∧
  wi_project_identity i = wr_project_identity request ∧ wi_layout i = layout_empty ∧
  wi_layout_rev i = 0 ∧ wi_project_scope_rev i = 0 ∧
  wi_name i = default (default_workspace_name (wr_root request))
                (keep_nonempty (trim <$> wr_name request)) ∧
  ∀ id, wr_id request = Some id → wi_id i = id.

Lemma new_workspace_outcome request w :
  wp (new_workspace request)
    (λ i w', fresh_record request i ∧ (∃ n, w' = tick n w) ∧
             (wr_id request = None → wi_id i = os_uuid (w_tick w))) w.
Proof.
  unfold new_workspace. destruct (wr_id request) as [id|] eqn:Hid.
  - wp_step. apply wp_ret. wp_step. apply wp_ask. cbv zeta. apply wp_ret.
    split_and!; [|by eexists|done]. unfold fresh_record. rewrite Hid. split_and!; try done.
    by intros ? [= ->].
  - wp_step. apply wp_ask. wp_step. apply wp_ask. cbv zeta. apply wp_ret.
    split_and!; [|exists 2%nat; destruct w; unfold tick; simpl; f_equal; lia|done].
    unfold fresh_record. rewrite Hid. by split_and!.
Qed.

(** A record put under an id nothing was under: kept and announced if the ledger
    takes it, otherwise gone again. *)
Lemma commit_workspace_outcome i w :
  w_workspaces w !! wi_id i = None →
  wp (commit_workspace i)
    (λ r w', match r with
             | Ok j => j = i ∧ record_written (wi_id i) i [] w w'
             | Err e => te_code e = error_code.PERSIST_FAILED ∧ read_only (w_store w) = false ∧
                 same_tables w w' ∧ w_hubs w' = w_hubs w ∧ w_store w' = w_store w
             end) w.
Proof.
  intros Hn. unfold commit_workspace. wp_step. apply wp_modify. wp_step. apply wp_persist.
  intros r st Hst. destruct r as [[]|err].
  - ledger_facts Hst Ho. wp_step. apply wp_get. simpl. rewrite lookup_insert_eq.
    wp_step. apply wp_publish. intros e qs He. apply wp_ret. split; [done|].
    unfold record_written. split_and!; try done.
  - destruct Hst as [Hro [-> Hw]]. wp_step. apply wp_gets. wp_step. apply wp_modify. simpl.
    rewrite lookup_insert_eq, bool_decide_eq_true_2 by by eexists. wp_step. wp_step. apply wp_get.
    apply wp_publish. intros e qs He. apply wp_fail. split_and!; try done. simpl.
    unfold same_tables. simpl. rewrite delete_insert_eq, delete_id by done. by split_and!.
Qed.

Lemma record_written_wf id i infos w w' :
  record_written id i infos w w' → wi_id i = id → rev_ok i →
  (∀ sid, sid ∈ terminal_sessions (wi_layout i) →
     ∃ s, w_sessions w !! sid = Some s ∧ s_workspace s = id) →
  table_wf w → table_wf w'.
Proof.
  intros (Hs & Hw & _ & Hh & Ha & _) <- Hr Hl Hwf.
  apply (wf_ext (set_workspaces (<[wi_id i := i]> (w_workspaces w)) w));
    [done|done|by rewrite Hh|by rewrite Ha|]. by apply wf_put_workspace.
Qed.

Lemma fresh_record_ok request i : fresh_record request i → rev_ok i ∧ terminal_sessions (wi_layout i) = [].
Proof.
  intros (_ & _ & _ & Hl & Hr & Hp & _). unfold rev_ok. rewrite Hl, Hr, Hp. by vm_compute.
Qed.

(** A workspace record made by request: fresh, stored, announced — or nothing at
    all is left of it. *)
Definition workspace_created (request : WorkspaceRequest) (i : WorkspaceInfo) w w' : Prop :=
  fresh_record request i ∧ w_workspaces w !! wi_id i = None ∧ record_written (wi_id i) i [] w w'.

Definition workspace_undone (e : TableError) w w' : Prop :=
  te_code e = error_code.PERSIST_FAILED ∧ read_only (w_store w) = false ∧
  same_tables w w' ∧ w_hubs w' = w_hubs w ∧ w_store w' = w_store w.

Lemma commit_fresh request i n w (Q : TableResult WorkspaceInfo → W → Prop) :
  fresh_record request i → w_workspaces w !! wi_id i = None →
  (∀ w', workspace_created request i w w' → Q (Ok i) w') →
  (∀ e w', workspace_undone e w w' → Q (Err e) w') →
  wp (commit_workspace i) Q (tick n w).
Proof.
  intros Hf Hn Hok Herr. eapply wp_mono; [by apply commit_workspace_outcome|].
  intros [j|e] w' Hr; [destruct Hr as [-> Hr]; by apply Hok|by apply Herr].
Qed.

Lemma ensure_workspace_outcome request w :
  (wr_id request = None → w_workspaces w !! os_uuid (w_tick w) = None) →
  wp (ensure_workspace request)
    (λ r w', match r with
             | Ok (i, true) => workspace_created request i w w'
             | Ok (i, false) => (∃ id, wr_id request = Some id ∧ w_workspaces w !! id = Some i) ∧
                                ∃ n, w' = tick n w
             | Err e => workspace_undone e w w'
             end) w.
Proof.
  intros Hfresh. unfold ensure_workspace. destruct (wr_id request) as [id|] eqn:Hid.
  - wp_step. eapply wp_mono; [apply new_workspace_outcome|].
    intros i w1 (Hf & [n ->] & _). wp_step. apply wp_gets. simpl.
    destruct (w_workspaces w !! id) as [j|] eqn:Hj.
    + apply wp_ret. split; [by exists id|by exists n].
    + wp_step. assert (wi_id i = id) as Hi by (by apply Hf).
      apply (commit_fresh request); [done|by rewrite Hi| |done].
      intros w' Hc. by apply wp_ret.
  - wp_step. unfold create_workspace. wp_step. eapply wp_mono; [apply new_workspace_outcome|].
    intros i w1 (Hf & [n ->] & Hi). apply (commit_fresh request); [done|by rewrite Hi, Hfresh| |done].
    intros w' Hc. by apply wp_ret.
Qed.

(** ** Properties *)

(** C2. A create gives exactly one session or none. Acknowledged, the session is
    in the workspace the request named, as the request described it, recorded in
    the ledger before anyone was told, and nothing else changed. Refused, there is
    no row, no reservation and no process left unsignalled; the refusal's code says
    whether the request, the workspace, the host or the ledger was at fault. Either
    way the table stays well formed. *)
Theorem create_gives_one_session_or_none (request : CreateRequest) (w : W)
    (Hwf : table_wf w) (Hun : id_unused (new_session_id w) w) :
  let '(r, w') := create request w in
  match r with
  | Ok info => si_id info = new_session_id w ∧
      is_Some (w_workspaces w !! cr_workspace_id request) ∧ create_done request info w w'
  | Err e => create_refusal request e w ∧
      create_undone (new_session_id w) (cr_workspace_id request) w w'
  end.
Proof.
  pose proof (create_outcome request w Hwf Hun) as Ho. unfold wp in Ho.
  by destruct (create request w).
Qed.

(** Ensuring a workspace is idempotent and single-owner: a request naming an
    id that is there gets that record untouched and is told it did not create it;
    otherwise a fresh record appears under the requested or a minted id, durably
    and announced, and the caller is told it did; a ledger that refuses the write
    leaves no record behind. *)
Theorem ensure_workspace_creates_once (request : WorkspaceRequest) (w : W) (Hwf : table_wf w)
    (Hfresh : wr_id request = None → w_workspaces w !! os_uuid (w_tick w) = None) :
  let '(r, w') := ensure_workspace request w in
  table_wf w' ∧
  match r with
  | Ok (i, true) => workspace_created request i w w' ∧ is_Some (w_workspaces w' !! wi_id i)
  | Ok (i, false) => (∃ id, wr_id request = Some id ∧ w_workspaces w !! id = Some i) ∧ refused w w'
  | Err e => workspace_undone e w w'
  end.
Proof.
  pose proof (ensure_workspace_outcome request w Hfresh) as Ho. unfold wp in Ho.
  destruct (ensure_workspace request w) as [[[i []]|e] w']; simpl in Ho.
  - destruct Ho as (Hf & Hn & Hw). destruct (fresh_record_ok request i Hf) as [Hr Hl]. split.
    + eapply record_written_wf; [exact Hw|done|done| |done]. rewrite Hl. by inversion 1.
    + split; [done|]. destruct Hw as (_ & -> & _). rewrite lookup_insert_eq. by eexists.
  - destruct Ho as [Hj [n ->]]. split; [by apply wf_tick|]. split; [done|]. by split_and!.
  - split; [|done]. destruct Ho as (_ & _ & (Hs & Hw & _ & Hh & Ha) & _).
    by apply (wf_ext w).
Qed.
End Creation.
