(* ===== verification/Status.v ===== *)
(** * Status derivation and the session's threads

    [derive_status] and [sweep], the facts the drain and reaper threads record, and
    what they leave of the table ([crates/ade_session_daemon/src/sessions.rs]). *)

From S2P Require Import Prelude Text Layout Proto Outbound Stream Host Hub Ledger World Table Sessions TableSpecs TableInv.
From stdpp Require Import options.
Open Scope Z_scope.

Section Status.
Context {G : Type} `{ScreenGrid G, StateCodec, OS}.
Abbreviation W := (world G).
Implicit Types w : W.

(** The row a sweep leaves, given the status it derived and the time. *)
Definition swept_row (derived : SessionStatus) (since : Z) (s : Session) : Session :=
  if decide (derived = si_status (s_info s)) then s else set_status derived since s.

Definition change_frame (id : SessionId) (derived : SessionStatus) (since : Z) (s : Session) : list Frame :=
  if decide (derived = si_status (s_info s)) then [] else [Frame_Status id derived since].

(** A sweep of the rows [ids], derived from the state [w] at time [now]: the rows of
    [w'] and the frames to announce, in order. *)
Inductive sweeps (now : Z) (w : W) : list SessionId → gmap string Session → list Frame → Prop :=
| sweeps_nil : sweeps now w [] (w_sessions w) []
| sweeps_gone id ids m fs :
    sweeps now w ids m fs → w_sessions w !! id = None → sweeps now w (ids ++ [id]) m fs
| sweeps_row id ids m fs s t since :
    sweeps now w ids m fs → w_sessions w !! id = Some s →
    let derived := session_status t now w s in
    sweeps now w (ids ++ [id]) (<[id := swept_row derived since s]> m)
      (fs ++ change_frame id derived since s).

Lemma sweeps_lookup_notin now w ids m fs id :
  sweeps now w ids m fs → id ∉ ids → m !! id = w_sessions w !! id.
Proof.
  induction 1 as [|j ids m fs Hs IH Hn|j ids m fs s t since Hs IH Hj derived]; intros Hni; [done| |];
    rewrite not_elem_of_app, not_elem_of_cons in Hni; destruct Hni as (Hni & Hne & _).
  - by apply IH.
  - rewrite lookup_insert_ne by done. by apply IH.
Qed.

Lemma sweeps_lookup now w ids m fs id s :
  sweeps now w ids m fs → NoDup ids → w_sessions w !! id = Some s → id ∈ ids →
  ∃ t since, m !! id = Some (swept_row (session_status t now w s) since s) ∧
    (session_status t now w s ≠ si_status (s_info s) →
       Frame_Status id (session_status t now w s) since ∈ fs).
Proof.
  intros Hsw. induction Hsw as [|j ids m fs Hs IH Hn|j ids m fs s' t since Hs IH Hj derived];
    intros Hnd Hid Hin; [inversion Hin| |]; apply NoDup_app in Hnd as (Hnd & Hdisj & _);
    apply elem_of_app in Hin as [Hin|Hin].
  - by apply IH.
  - apply elem_of_cons in Hin as [->|Hin]; [congruence|inversion Hin].
  - assert (j ≠ id) as Hne by (intros ->; apply (Hdisj id Hin); left).
    destruct (IH Hnd Hid Hin) as (t' & since' & Hm & Hf). exists t', since'.
    rewrite lookup_insert_ne by done. split; [done|]. intros Hd. apply elem_of_app. left. auto.
  - apply elem_of_cons in Hin as [->|Hin]; [|inversion Hin]. simplify_eq.
    exists t, since. rewrite lookup_insert_eq. split; [done|]. intros Hd. apply elem_of_app. right.
    unfold change_frame. rewrite decide_False by done. left.
Qed.

(** Everything but rows, hubs, queues, subscribers and the clock is as in [w]. *)
Definition swept_world (w w' : W) : Prop :=
  w_workspaces w' = w_workspaces w ∧ w_pending w' = w_pending w ∧ w_store w' = w_store w ∧
  w_status w' = w_status w ∧ dom (w_hubs w') = dom (w_hubs w) ∧
  w_activities w' = w_activities w ∧ w_ptys w' = w_ptys w ∧ w_signals w' = w_signals w.

Lemma sweep_row_outcome now id ids fs w0 w :
  sweeps now w0 ids (w_sessions w) fs → swept_world w0 w → id ∉ ids →
  wp (sweep_row now id fs)
    (λ fs' w', sweeps now w0 (ids ++ [id]) (w_sessions w') fs' ∧ swept_world w0 w') w.
Proof.
  intros Hsw Hw Hni. pose proof (sweeps_lookup_notin _ _ _ _ _ _ Hsw Hni) as Hlook.
  unfold sweep_row. wp_step. apply wp_get. rewrite Hlook.
  destruct (w_sessions w0 !! id) as [s|] eqn:Hs.
  2: { apply wp_ret. split; [by constructor|done]. }
  wp_step. apply wp_hub_do_now. intros hubs qs Hd. wp_step. apply wp_gets. wp_step. apply wp_get.
  set (w1 := set_hubs hubs qs (tick 1 w)). cbv zeta. set (t := w_tick w1).
  destruct Hw as (W1 & W2 & W3 & W4 & W5 & W6 & W7 & W8).
  assert (session_status t now w1 s = session_status t now w0 s) as Hst.
  { unfold session_status, activity_of. subst w1. simpl. by rewrite W4, W6. }
  assert (dom hubs = dom (w_hubs w0)) as Hd0 by (rewrite <- W5; exact Hd).
  assert (swept_world w0 w1) as Hw1 by (subst w1; by split_and!).
  wp_step. apply wp_modify. case_decide as Hc.
  - apply wp_ret. split; [|exact Hw1]. rewrite Hst in Hc.
    change (w_sessions (tick 1 w1)) with (w_sessions w).
    replace (w_sessions w) with
      (<[id := swept_row (session_status t now w0 s) 0 s]> (w_sessions w)).
    + replace fs with (fs ++ change_frame id (session_status t now w0 s) 0 s); [by apply sweeps_row|].
      unfold change_frame. by rewrite decide_True, app_nil_r.
    + unfold swept_row. rewrite decide_True by done. apply insert_id. congruence.
  - wp_step. apply wp_ask. wp_step. apply wp_modify. apply wp_ret. split; [|exact Hw1].
    simpl. set (since := os_unix _). rewrite Hst in *.
    replace (alter (set_status (session_status t now w0 s) since) id (w_sessions w)) with
      (<[id := swept_row (session_status t now w0 s) since s]> (w_sessions w)).
    + replace [Frame_Status id (session_status t now w0 s) since] with
        (change_frame id (session_status t now w0 s) since s); [by apply sweeps_row|].
      unfold change_frame. by rewrite decide_False.
    + unfold swept_row. rewrite decide_False by done. apply map_eq. intros j.
      destruct (decide (id = j)) as [<-|].
      * by rewrite lookup_insert_eq, lookup_alter_eq, Hlook.
      * by rewrite lookup_insert_ne, lookup_alter_ne.
Qed.

Lemma sweep_rows_outcome now todo ids fs w0 w :
  sweeps now w0 ids (w_sessions w) fs → swept_world w0 w → NoDup (ids ++ todo) →
  wp (sweep_rows now todo fs)
    (λ fs' w', sweeps now w0 (ids ++ todo) (w_sessions w') fs' ∧ swept_world w0 w') w.
Proof.
  revert ids fs w. induction todo as [|id todo IH]; intros ids fs w Hsw Hw Hnd; simpl.
  { apply wp_ret. by rewrite app_nil_r. }
  wp_step. eapply wp_mono.
  - apply (sweep_row_outcome now id ids fs w0 w); [done|done|].
    apply NoDup_app in Hnd as (_ & Hd & _). intros Hin. apply (Hd id Hin). left.
  - intros fs' w' [Hsw' Hw']. rewrite (cons_middle id ids todo), app_assoc.
    apply IH; [done|done|]. by rewrite <- app_assoc.
Qed.

Lemma wp_publish_all fs w (Q : () → W → Prop) :
  (∀ e qs, Q () (set_events e qs w)) → wp (for_st fs publish) Q w.
Proof.
  intros HQ. apply (wp_for (λ w', ∃ e qs, w' = set_events e qs w)).
  - exists (w_events w), (w_queues w). by destruct w.
  - intros f w' _ (e & qs & ->). apply wp_publish. intros e' qs' _. by exists e', qs'.
  - intros w' (e & qs & ->). apply HQ.
Qed.

Lemma sweep_outcome w :
  wp sweep (λ _ w', ∃ fs, sweeps (os_instant (w_tick w)) w (map_to_list (w_sessions w)).*1
                            (w_sessions w') fs ∧ swept_world w w') w.
Proof.
  unfold sweep. wp_step. apply wp_ask. wp_step. apply wp_get. wp_step. cbv beta.
  set (now := os_instant (w_tick w)). change (w_sessions (tick 1 w)) with (w_sessions w).
  eapply wp_mono.
  - apply (sweep_rows_outcome now (map_to_list (w_sessions w)).*1 [] [] w (tick 1 w));
      [change (sweeps now w [] (w_sessions w) []); constructor|by split_and!
      |simpl; apply NoDup_fst_map_to_list].
  - intros fs w' [Hsw Hw]. apply wp_publish_all. intros e qs. exists fs. by split.
Qed.

Lemma elem_of_keys (m : gmap string Session) id : id ∈ (map_to_list m).*1 ↔ is_Some (m !! id).
Proof.
  rewrite list_elem_of_fmap. split.
  - intros ([j s] & -> & Hin%elem_of_map_to_list). by exists s.
  - intros [s Hs]. exists (id, s). split; [done|]. by apply elem_of_map_to_list.
Qed.

Lemma swept_row_identity derived since s :
  s_id (swept_row derived since s) = s_id s ∧ s_workspace (swept_row derived since s) = s_workspace s ∧
  s_handle (swept_row derived since s) = s_handle s ∧
  s_sizes (swept_row derived since s) = s_sizes s.
Proof. unfold swept_row. by case_decide. Qed.

Lemma sweep_wf w : table_wf w → wp sweep (λ _ w', table_wf w') w.
Proof.
  intros Hwf. eapply wp_mono; [apply sweep_outcome|]. intros a w' (fs & Hsw & Hw).
  destruct Hw as (W1 & _ & _ & _ & W5 & W6 & _).
  assert (∀ id s, w_sessions w !! id = Some s → ∃ d since,
    w_sessions w' !! id = Some (swept_row d since s)) as Hrow.
  { intros id s Hs. destruct (sweeps_lookup _ _ _ _ _ id s Hsw) as (t & since & Hm & _);
      [apply NoDup_fst_map_to_list|done|apply elem_of_keys; by exists s|by eauto]. }
  assert (∀ id, w_sessions w !! id = None → w_sessions w' !! id = None) as Hnone.
  { intros id Hn. rewrite (sweeps_lookup_notin _ _ _ _ _ _ Hsw); [done|].
    rewrite elem_of_keys, Hn. by intros []. }
  apply (wf_ext (set_sessions (w_sessions w') w)); [done|done|done|by rewrite W6|].
  apply (wf_sessions_map w _ (λ id s, if decide (w_sessions w !! id = Some s)
                                      then default s (w_sessions w' !! id) else s)); [| |done].
  - intros id s. case_decide as Hs; [|done]. destruct (Hrow id s Hs) as (d & since & ->).
    destruct (swept_row_identity d since s) as (E1 & E2 & E3 & E4). simpl.
    by rewrite E1, E2, E3, E4.
  - intros id. destruct (w_sessions w !! id) as [s|] eqn:Hs; simpl; [|by apply Hnone].
    rewrite decide_True by done. destruct (Hrow id s Hs) as (d & since & ->). done.
Qed.

(** *** The other threads and the pure readers *)

Lemma drain_read_wf handle id chunk w :
  table_wf w → wp (drain_read handle id chunk) (λ _ w', table_wf w') w.
Proof.
  intros Hwf. unfold drain_read. wp_step. apply wp_ask. wp_step. apply wp_modify. wp_step.
  apply wp_get. wp_step. apply wp_hub_do. intros hubs qs Hd. apply wp_modify.
  apply wf_tick, wf_hubs; [done|]. apply wf_activities; [|by apply wf_tick].
  simpl. apply dom_alter_L.
Qed.

Lemma reap_wf handle w : table_wf w → wp (reap handle) (λ _ w', table_wf w') w.
Proof. intros Hwf. apply wp_modify. apply wf_activities; [apply dom_alter_L|done]. Qed.

Lemma report_exit_wf id code w : table_wf w → wp (report_exit id code) (λ _ w', table_wf w') w.
Proof.
  intros Hwf. unfold report_exit. wp_step. apply wp_get.
  destruct (w_sessions w !! id) as [s|]; [|by apply wp_ret].
  apply wp_publish_ending. intros e qs hubs qs' Hd. apply wf_hubs; [done|]. by apply wf_events.
Qed.

Lemma write_wf id bytes w : table_wf w → wp (write id bytes) (λ _ w', table_wf w') w.
Proof.
  intros Hwf. unfold write. wp_step. apply wp_get.
  destruct (w_sessions w !! id) as [s|]; [|by apply wp_fail].
  destruct (s_live s); [|by apply wp_fail]. case_decide; [by apply wp_fail|].
  wp_step. apply wp_fallible. intros [[]|e] _; [|by apply wf_tick].
  wp_step. apply wp_modify. apply wp_fallible. intros r _. by repeat apply wf_tick || apply wf_pty.
Qed.

Lemma subscribe_wf who o w : table_wf w → wp (subscribe who o) (λ _ w', table_wf w') w.
Proof.
  intros Hwf. unfold wp, subscribe. destruct (push_all _ _ _) as [[] qs]; by apply wf_events.
Qed.

(** ** Properties *)

(** Status is one function of the facts: a session is shown exited exactly when
    it was lost or its child was reaped, waiting for input when a bell rang or it
    has been quiet with something other than a shell in front, working while its
    output is recent, and idle only when it is quiet and a shell is known to be in
    front. *)
Theorem status_rules (s : Session) (a : Activity) (config : StatusConfig) (now : Z)
    (is_shell : option bool) :
  let gone := s_lost s = true ∨ dead a = true in
  let recent := saturating_sub now (last_output a) < needs_input_after config in
  let prompt := s_live s ≠ None ∧ is_shell = Some true in
  match derive_status s a config now is_shell with
  | Exited => gone
  | NeedsInput => ¬ gone ∧ (bell a = true ∨ ¬ recent ∧ ¬ prompt)
  | Working => ¬ gone ∧ bell a = false ∧ recent
  | Idle => ¬ gone ∧ bell a = false ∧ ¬ recent ∧ prompt
  end.
Proof.
  unfold derive_status. destruct (s_lost s) eqn:Hl; [by left|]. destruct (dead a) eqn:Hd; [by right|].
  destruct (bell a) eqn:Hb; [split; [naive_solver|by left]|].
  destruct (_ <? _) eqn:Hr; boolify; [split; [naive_solver|done]|].
  case_bool_decide as Hp; simpl.
  - split; [naive_solver|]. split; [done|]. split; [lia|done].
  - split; [naive_solver|]. right. split; [lia|done].
Qed.

(** A sweep brings every row to the status derived from the facts at one common
    instant, leaves a row whose status did not change as it was, adds and removes
    none, and touches neither workspaces nor the ledger. *)
Theorem sweep_derives_every_status (w : W) (Hwf : table_wf w) :
  let w' := (sweep w).2 in
  table_wf w' ∧ swept_world w w' ∧
  (∀ id, w_sessions w !! id = None → w_sessions w' !! id = None) ∧
  (∀ id s, w_sessions w !! id = Some s → ∃ t since s',
     w_sessions w' !! id = Some s' ∧
     si_status (s_info s') = session_status t (os_instant (w_tick w)) w s ∧
     (si_status (s_info s') = si_status (s_info s) → s' = s) ∧
     (si_status (s_info s') ≠ si_status (s_info s) → s' = set_status (si_status (s_info s')) since s)).
Proof.
  pose proof (sweep_wf w Hwf) as Hw'. pose proof (sweep_outcome w) as Ho. unfold wp in *. cbv zeta.
  destruct (sweep w) as [u w']. simpl in *. destruct Ho as (fs & Hsw & Hw).
  split; [done|]. split; [done|]. split.
  - intros id Hn. rewrite (sweeps_lookup_notin _ _ _ _ _ _ Hsw); [done|].
    rewrite elem_of_keys, Hn. by intros [].
  - intros id s Hs. destruct (sweeps_lookup _ _ _ _ _ id s Hsw) as (t & since & Hm & _);
      [apply NoDup_fst_map_to_list|done|apply elem_of_keys; by exists s|].
    exists t, since, (swept_row (session_status t (os_instant (w_tick w)) w s) since s).
    split; [done|]. unfold swept_row. case_decide as Hc; [by rewrite Hc|]. simpl.
    split_and!; [done|congruence|done].
Qed.
End Status.
