(* ===== verification/Restart.v ===== *)
(** * Restart: loading the ledger

    [SessionTable::load] of [crates/ade_session_daemon/src/sessions.rs] over
    [StateStore::load]: what a daemon makes of whatever a previous one left. *)

From S2P Require Import Prelude Text Layout Proto Outbound Stream Host Hub Ledger World Table Sessions TableSpecs TableInv.
From stdpp Require Import options.
Open Scope Z_scope.

Section Restart.
Context {G : Type} `{ScreenGrid G, StateCodec, OS}.
Abbreviation W := (world G).
Implicit Types w : W.

(** The invariant but for the layouts, which are only pruned at the end. *)
Record loading_wf (w : W) : Prop := {
  lw_key : ∀ id s, w_sessions w !! id = Some s → s_id s = id;
  lw_home : ∀ id s, w_sessions w !! id = Some s → is_Some (w_workspaces w !! s_workspace s);
  lw_wkey : ∀ id i, w_workspaces w !! id = Some i → wi_id i = id;
  lw_rev : ∀ id i, w_workspaces w !! id = Some i → rev_ok i;
  lw_hub : ∀ id s, w_sessions w !! id = Some s →
    s_handle s ∈ dom (w_hubs w) ∧ s_handle s ∈ dom (w_activities w);
  lw_handle : ∀ id id' s s', w_sessions w !! id = Some s → w_sessions w !! id' = Some s' →
    s_handle s = s_handle s' → id = id';
  lw_lost : ∀ id s, w_sessions w !! id = Some s →
    s_lost s = true ∧ s_live s = None ∧ s_sizes s = [] ∧ si_status (s_info s) = Exited
}.

(** What stays true of a restored record while sessions are adopted. *)
Definition same_but (id : string) (w w' : W) : Prop :=
  ∀ j i, w_workspaces w !! j = Some i → w_workspaces w' !! j = Some i.

Lemma rev_ok_migrated p id : rev_ok (migrated_workspace p id).
Proof. unfold rev_ok. simpl. unfold u64_max. lia. Qed.

Lemma loading_tick n w : loading_wf w → loading_wf (tick n w).
Proof. by intros []. Qed.

Lemma loading_put_workspace p id w :
  loading_wf w →
  loading_wf (set_workspaces (<[id := migrated_workspace p id]> (w_workspaces w)) w).
Proof.
  intros []. split; simpl; try done.
  - intros j s Hj. rewrite lookup_insert. case_decide; [by eexists|]. eauto.
  - intros j i [[<- <-]|[? ?]]%lookup_insert_Some; eauto.
  - intros j i [[<- <-]|[? ?]]%lookup_insert_Some; [apply rev_ok_migrated|eauto].
Qed.

Lemma loading_add p home since now w :
  loading_wf w → is_Some (w_workspaces w !! home) →
  loading_wf (add_session (lost_session p home since (fresh_handle w))
    (hub_new DEFAULT_SCROLLBACK_BYTES None (Some (Frame_Exited (ps_id p) None)))
    (activity_new now) w).2.
Proof.
  intros [] Hhome.
  assert (∀ id s, w_sessions w !! id = Some s → s_handle s ≠ fresh_handle w) as Hfresh.
  { intros id s Hs Heq. destruct (lw_hub0 id s Hs) as [Hh _].
    pose proof (is_fresh (dom (w_hubs w) ∪ dom (w_activities w))) as Hf.
    unfold fresh_handle in Heq. rewrite <- Heq in Hf. set_solver. }
  split; simpl; try done.
  - intros j t [[<- <-]|[? ?]]%lookup_insert_Some; eauto.
  - intros j t [[<- <-]|[? ?]]%lookup_insert_Some; eauto.
  - intros j t [[<- <-]|[Hne Ht]]%lookup_insert_Some; rewrite !dom_insert; [set_solver|].
    destruct (lw_hub0 j t Ht). set_solver.
  - intros j j' t t' [[<- <-]|[Hne Ht]]%lookup_insert_Some [[<- <-]|[Hne' Ht']]%lookup_insert_Some Heq.
    + done.
    + exfalso. by eapply Hfresh.
    + exfalso. by eapply Hfresh.
    + eauto.
  - intros j t [[<- <-]|[? ?]]%lookup_insert_Some; [done|eauto].
Qed.

(** No fresh uuid names it. *)
Definition not_minted (id : string) : Prop := ∀ t, os_uuid t ≠ id.

(** Adopting one session: its row is there as lost, no other row and no restored
    workspace is touched, nothing is said and nothing is written. *)
Definition adopts (p : PersistedSession) (w w' : W) : Prop :=
  loading_wf w' ∧ w_pending w' = w_pending w ∧ w_store w' = w_store w ∧
  (∀ id i, not_minted id → w_workspaces w !! id = Some i → w_workspaces w' !! id = Some i) ∧
  (∃ s, w_sessions w' = <[ps_id p := s]> (w_sessions w) ∧
        ∃ home since handle, s = lost_session p home since handle ∧
        (ps_workspace_id p ≠ "" → home = ps_workspace_id p)).

Lemma adopt_tail_spec p home w (Q : () → W → Prop) :
  loading_wf w → is_Some (w_workspaces w !! home) →
  (∀ w', loading_wf w' → w_pending w' = w_pending w → w_store w' = w_store w →
     w_workspaces w' = w_workspaces w →
     (∃ since handle, w_sessions w' =
        <[ps_id p := lost_session p home since handle]> (w_sessions w)) → Q () w') →
  wp (since ← ask os_unix; now ← ask os_instant; w ← st_get;
      add_session (lost_session p home since (fresh_handle w))
        (hub_new DEFAULT_SCROLLBACK_BYTES None (Some (Frame_Exited (ps_id p) None)))
        (activity_new now)) Q w.
Proof.
  intros Hwf Hhome HQ. wp_step. apply wp_ask. wp_step. apply wp_ask. do 2 wp_step.
  apply HQ; [|done..|by eexists _, _].
  apply loading_add; [by do 2 apply loading_tick|done].
Qed.

Lemma adopt_spec p w : loading_wf w → wp (adopt p) (λ _ w', adopts p w w') w.
Proof.
  intros Hwf. unfold adopt. do 2 wp_step. apply wp_bind.
  destruct (w_workspaces w !! ps_workspace_id p) as [i|] eqn:Hi.
  - wp_step. apply adopt_tail_spec; [done|by eexists|].
    intros w' ? ? ? Hw (since & handle & ?). split_and!; try done; [by rewrite Hw|].
    eexists. split; [done|]. by eexists _, _, _.
  - wp_step. case_decide as Hne.
    + apply wp_ask. wp_step. unfold put_workspace. wp_step. wp_step.
      apply adopt_tail_spec.
      * by apply loading_put_workspace, loading_tick.
      * simpl. rewrite lookup_insert_eq. by eexists.
      * intros w' ? ? ? Hw (since & handle & ?). split_and!; try done.
        -- intros id j Hm Hj. rewrite Hw. simpl. by rewrite lookup_insert_ne by apply Hm.
        -- eexists. split; [done|]. by eexists _, _, _.
    + do 2 wp_step. unfold put_workspace. wp_step. wp_step.
      apply adopt_tail_spec.
      * by apply loading_put_workspace.
      * simpl. rewrite lookup_insert_eq. by eexists.
      * intros w' ? ? ? Hw (since & handle & ?). split_and!; try done.
        -- intros id j Hm Hj. rewrite Hw. simpl. rewrite lookup_insert_ne; [done|]. intros Heq. congruence.
        -- eexists. split; [done|]. by eexists _, _, _.
Qed.

(** Of two records of one id the later one counts. *)
Definition lost_as (p : PersistedSession) (o : option Session) : Prop :=
  ∃ home since handle, o = Some (lost_session p home since handle) ∧
    (ps_workspace_id p ≠ "" → home = ps_workspace_id p).

Definition all_adopted (l : list PersistedSession) (w w' : W) : Prop :=
  loading_wf w' ∧ w_pending w' = w_pending w ∧ w_store w' = w_store w ∧
  (∀ id i, not_minted id → w_workspaces w !! id = Some i → w_workspaces w' !! id = Some i) ∧
  (∀ id, id ∉ map ps_id l → w_sessions w' !! id = w_sessions w !! id) ∧
  (∀ before p after, l = before ++ p :: after → ps_id p ∉ map ps_id after →
     lost_as p (w_sessions w' !! ps_id p)).

Lemma adopt_all_spec l w : loading_wf w → wp (adopt_all l) (λ _ w', all_adopted l w w') w.
Proof.
  revert w. induction l as [|x l IH]; intros w Hwf; unfold adopt_all; simpl.
  - wp_step. split_and!; try done. by intros [].
  - wp_step. eapply wp_mono; [by apply adopt_spec|]. intros _ w1 (Hwf1 & Hp & Hst & Hw & s & Hs & Hl).
    eapply wp_mono; [by apply IH|]. intros _ w' (Hwf' & Hp' & Hst' & Hw' & Hn' & Hl').
    split_and!; [done|congruence|congruence|by eauto| |].
    + intros id Hid. apply not_elem_of_cons in Hid as [??].
      rewrite Hn', Hs by done. by rewrite lookup_insert_ne.
    + intros before p after Heq Hlast. destruct before as [|y before]; simplify_eq/=; [|by eauto].
      rewrite Hn', Hs, lookup_insert_eq by done.
      destruct Hl as (home & since & handle & -> & ?). by eexists _, _, _.
Qed.

(** ** Pruning *)

Lemma prune_workspace_keeps sessions i :
  (prune_workspace sessions i).2 = with_layout (retain_sessions
    (λ id, match sessions !! id with
           | Some s => bool_decide (s_workspace s = wi_id i)
           | None => false
           end) (wi_layout i)).2 (wi_layout_rev i) i.
Proof. unfold prune_workspace. by destruct (retain_sessions _ _). Qed.

Lemma prune_all_wf w : loading_wf w → table_wf (prune_all w).2.
Proof.
  intros []. split; unfold prune_all; cbn [fst snd w_sessions w_workspaces w_hubs w_activities
    set_workspaces]; try done.
  - intros id s Hs. rewrite lookup_fmap. destruct (lw_home0 id s Hs) as [i ->]. by eexists.
  - intros id i. rewrite lookup_fmap. intros (j & Hj & ->)%fmap_Some.
    rewrite prune_workspace_keeps. simpl. eauto.
  - intros id i sid. rewrite lookup_fmap. intros (j & Hj & ->)%fmap_Some.
    rewrite prune_workspace_keeps. cbn [wi_layout with_layout].
    rewrite terminals_retained, elem_of_filter_bool. intros [_ Hk].
    destruct (w_sessions w !! sid) as [s|]; [|done]. boolify.
    exists s. split; [done|]. rewrite Hk. eauto.
  - intros id i. rewrite lookup_fmap. intros (j & Hj & ->)%fmap_Some.
    rewrite prune_workspace_keeps. exact (lw_rev0 id j Hj).
  - intros id s Hs. by destruct (lw_lost0 id s Hs) as (_ & _ & -> & _).
Qed.

(** What a restart makes of one restored workspace: its record, without the
    terminal tabs that name no session of its own. *)
Definition restored (w : W) (i i' : WorkspaceInfo) : Prop :=
  i' = with_layout (wi_layout i') (wi_layout_rev i) i ∧
  terminal_sessions (wi_layout i') = List.filter
    (λ id, match w_sessions w !! id with
           | Some s => bool_decide (s_workspace s = wi_id i)
           | None => false
           end) (terminal_sessions (wi_layout i)) ∧
  editors (root (wi_layout i')) = editors (root (wi_layout i)).

Lemma editors_retained keep doc : editors (root (retain_sessions keep doc).2) = editors (root doc).
Proof.
  simpl. rewrite <- (editors_pruned keep (root doc)). by destruct (pruned keep (root doc)).
Qed.

Lemma prune_workspace_restored w i : restored w i (prune_workspace (w_sessions w) i).2.
Proof.
  rewrite prune_workspace_keeps. split_and!.
  - done.
  - apply terminals_retained.
  - apply editors_retained.
Qed.

(** ** Load *)

Lemma last_occurrence {A B} `{EqDecision B} (f : A → B) (l : list A) b :
  b ∈ map f l → ∃ before x after, l = before ++ x :: after ∧ f x = b ∧ b ∉ map f after.
Proof.
  induction l as [|x l IH]; simpl; [by inversion 1|]. intros Hin.
  destruct (decide (b ∈ map f l)) as [Hl|Hl].
  - destruct (IH Hl) as (before & y & after & -> & ? & ?). by exists (x :: before), y, after.
  - apply elem_of_cons in Hin as [->|]; [|done]. by exists [], x, l.
Qed.

(** [collect] into a [HashMap]. *)
Definition workspace_map (l : list WorkspaceInfo) : gmap string WorkspaceInfo :=
  list_to_map (reverse (map (λ i, (wi_id i, i)) l)).

Lemma workspace_map_Some l id i : workspace_map l !! id = Some i → wi_id i = id ∧ i ∈ l.
Proof.
  intros Hi. apply elem_of_list_to_map_2 in Hi. rewrite elem_of_reverse in Hi.
  apply list_elem_of_fmap in Hi as (j & [= -> ->] & ?). done.
Qed.

Lemma workspace_map_last before i after :
  wi_id i ∉ map wi_id after →
  workspace_map (before ++ i :: after) !! wi_id i = Some i.
Proof.
  intros Hn. unfold workspace_map. rewrite map_app. simpl.
  rewrite reverse_app, reverse_cons, <- app_assoc, list_to_map_app.
  rewrite lookup_union_r; [simpl; by rewrite lookup_insert_eq|].
  apply not_elem_of_list_to_map_1. intros Hin. apply Hn.
  rewrite fmap_reverse, elem_of_reverse in Hin.
  apply list_elem_of_fmap in Hin as ([k j] & -> & Hj).
  apply list_elem_of_fmap in Hj as (j' & [= -> ->] & ?).
  apply list_elem_of_fmap. by exists j'.
Qed.

Lemma previous_revs (store : StateStore) : Forall rev_ok (pst_workspaces (store_load store).1).
Proof.
  unfold store_load. destruct (sto_file store); simpl; [constructor..|].
  destruct (parse_state bytes) eqn:Hp; [|constructor]. by apply parse_ok in Hp.
Qed.

Lemma world_new_wf store status (b : bool) workspaces t :
  Forall rev_ok workspaces → loading_wf (world_new store status b workspaces t : W).
Proof.
  intros Hr. split; simpl; try done.
  - by intros id i [? ?]%workspace_map_Some.
  - intros id i [_ Hin]%workspace_map_Some. rewrite Forall_forall in Hr. by apply Hr.
Qed.

(** The table before it is written back. *)
Definition loaded (store : StateStore) (status : StatusConfig) (t : nat) : bool * W :=
  let '(previous, store) := store_load store in
  prune_all (st_exec (adopt_all (pst_sessions previous))
    (world_new store status (pst_authoritative previous) (pst_workspaces previous) t)).

Lemma load_loaded store status t :
  load store status t =
  if negb (bool_decide (pst_sessions (store_load store).1 = [])) || (loaded store status t).1
  then st_exec persist (loaded store status t).2 else (loaded store status t).2.
Proof.
  unfold load, loaded. destruct (store_load store) as [previous store']. simpl. reflexivity.
Qed.

(** Writing the ledger changes no table. *)
Lemma persist_same (w : W) :
  wp persist (λ _ w', w_sessions w' = w_sessions w ∧ w_workspaces w' = w_workspaces w ∧
    w_pending w' = w_pending w ∧ read_only (w_store w') = read_only (w_store w) ∧
    (table_wf w → table_wf w')) w.
Proof. apply wp_persist. intros r s [Hro _]. split_and!; auto with daemon. Qed.

Lemma load_same store status t :
  let w0 := (loaded store status t).2 in
  let w := load store status t : W in
  w_sessions w = w_sessions w0 ∧ w_workspaces w = w_workspaces w0 ∧ w_pending w = w_pending w0 ∧
  read_only (w_store w) = read_only (w_store w0) ∧ (table_wf w0 → table_wf w).
Proof.
  intros w0 w. unfold w. rewrite load_loaded. fold w0. case_match; [|done]. apply persist_same.
Qed.

(** C4. A restart reports and restores: whatever the ledger held, the table a daemon
    starts with is well formed; its rows are exactly the ledger's sessions, each lost
    and labelled so and in the workspace it was in; every workspace of the ledger is
    back under its id with the same record and revision, its layout without the
    terminal tabs that name no session of that workspace and with every editor tab;
    and the store refuses to write exactly when the ledger could not be understood. *)
Theorem load_reports_and_restores store status t :
  let previous := (store_load store).1 in
  let w := load store status t : W in
  table_wf w ∧ w_pending w = [] ∧
  read_only (w_store w) = read_only (store_load store).2 ∧
  (∀ id, is_Some (w_sessions w !! id) ↔ id ∈ map ps_id (pst_sessions previous)) ∧
  (∀ before p after, pst_sessions previous = before ++ p :: after → ps_id p ∉ map ps_id after →
     lost_as p (w_sessions w !! ps_id p)) ∧
  (∀ before i after, pst_workspaces previous = before ++ i :: after →
     wi_id i ∉ map wi_id after → not_minted (wi_id i) →
     ∃ i', w_workspaces w !! wi_id i = Some i' ∧ restored w i i').
Proof.
  intros previous w.
  destruct (load_same store status t) as (Hs & Hw & Hp & Hro & Hwf). fold w in Hs, Hw, Hp, Hro, Hwf.
  unfold loaded in *. pose proof (previous_revs store) as Hr. fold previous in Hr.
  destruct (store_load store) as [previous' store'] eqn:Hload. simpl in previous. subst previous.
  set (w0 := world_new _ _ _ _ _) in *.
  pose proof (world_new_wf store' status (pst_authoritative previous') (pst_workspaces previous') t Hr)
    as Hwf0. fold w0 in Hwf0.
  destruct (adopt_all_spec (pst_sessions previous') w0 Hwf0) as (Hwf1 & Hp1 & Hst1 & Hw1 & Hn1 & Hl1).
  fold (st_exec (adopt_all (pst_sessions previous')) w0) in *.
  set (w1 := st_exec _ w0) in *.
  assert (w_sessions w = w_sessions w1) as Hs1 by by rewrite Hs.
  split_and!.
  - by apply Hwf, prune_all_wf.
  - rewrite Hp. simpl. by rewrite Hp1.
  - rewrite Hro. simpl. by rewrite Hst1.
  - intros id. rewrite Hs1. split.
    + intros Hid. destruct (decide (id ∈ map ps_id (pst_sessions previous'))); [done|].
      rewrite Hn1 in Hid by done. by destruct Hid.
    + intros (before & p & after & Heq & <- & Hn)%last_occurrence.
      destruct (Hl1 _ _ _ Heq Hn) as (? & ? & ? & -> & _). by eexists.
  - intros before p after Heq Hn. rewrite Hs1. by eapply Hl1.
  - intros before i after Heq Hn Hm.
    assert (w_workspaces w1 !! wi_id i = Some i) as Hi.
    { apply Hw1; [done|]. simpl. rewrite Heq. by apply workspace_map_last. }
    exists (prune_workspace (w_sessions w1) i).2. split.
    + rewrite Hw. simpl. by rewrite lookup_fmap, Hi.
    + unfold restored. rewrite Hs1. apply prune_workspace_restored.
Qed.

(** ** A second restart *)

(** A save that nothing stops. *)
Lemma persist_undisturbed (w : W) :
  (∀ n, os_fail n = None) → read_only (w_store w) = false →
  sto_file (w_store (st_exec persist w)) =
    Contents (render_state (mkStateFile STATE_VERSION (ledger_records w) (ledger_workspaces w))).
Proof.
  intros Hfail Hro. unfold st_exec, persist, persist_serialized, mbind, st_bind, ask.
  rewrite !Hfail. unfold save_ledger, store_save.
  change (w_store (tick 1 (tick 1 w))) with (w_store w). by rewrite Hro.
Qed.

(** Only lost rows and no reservation: there is nothing to record. *)
Lemma tombstones_leave_no_record (w : W) :
  (∀ id s, w_sessions w !! id = Some s → s_lost s = true) → w_pending w = [] →
  ledger_records w = [].
Proof.
  intros Hl Hp. unfold ledger_records. rewrite Hp. simpl.
  replace (List.filter _ (session_values w)) with ([] : list Session); [done|].
  symmetry.
  assert (∀ l : list Session, (∀ s, s ∈ l → s_lost s = true) →
    List.filter (λ s, negb (s_lost s) || keeps_a_live_terminal s) l = []) as Hf.
  { induction l as [|x l IH]; simpl; intros Hx; [done|]. rewrite (Hx x) by left. simpl.
    apply IH. intros s ?. apply Hx. by right. }
  rewrite Hf; [done|]. intros s (k & Hk)%elem_of_session_values. eauto.
Qed.

(** The ledger's workspaces are the table's. *)
Lemma workspace_map_ledger (w : W) :
  (∀ id i, w_workspaces w !! id = Some i → wi_id i = id) →
  workspace_map (ledger_workspaces w) = w_workspaces w.
Proof.
  intros Hk. apply map_eq. intros id. apply option_eq. intros i. split.
  - intros [<- Hin]%workspace_map_Some. unfold ledger_workspaces in Hin.
    rewrite elem_of_sort_rows in Hin. apply elem_of_workspace_values in Hin as [k Hi].
    by rewrite (Hk _ _ Hi).
  - intros Hi. pose proof (Hk _ _ Hi) as Hid.
    assert (i ∈ ledger_workspaces w) as Hin.
    { unfold ledger_workspaces. rewrite elem_of_sort_rows. apply elem_of_workspace_values. by exists id. }
    assert (wi_id i ∈ map wi_id (ledger_workspaces w)) as Hm by (apply list_elem_of_fmap; by exists i).
    apply last_occurrence in Hm as (before & j & after & Heq & Hj & Hn).
    rewrite <- Hj in Hn. rewrite Heq, <- Hid, <- Hj, workspace_map_last by done. f_equal.
    assert (j ∈ ledger_workspaces w) as Hjin by (rewrite Heq; set_solver).
    unfold ledger_workspaces in Hjin. rewrite elem_of_sort_rows in Hjin.
    apply elem_of_workspace_values in Hjin as [k Hjk].
    pose proof (Hk _ _ Hjk). assert (k = id) as -> by congruence. congruence.
Qed.

(** Loading a ledger without sessions. *)
Lemma load_no_sessions store status t :
  pst_sessions (store_load store).1 = [] →
  let w := load store status t : W in
  w_sessions w = ∅ ∧
  w_workspaces w = (λ i, (prune_workspace ∅ i).2) <$> workspace_map (pst_workspaces (store_load store).1).
Proof.
  intros Hn w. destruct (load_same store status t) as (Hs & Hw & _). fold w in Hs, Hw.
  unfold loaded in *. destruct (store_load store) as [previous store'] eqn:Hl. simpl in *.
  rewrite Hn in *. simpl in *. by rewrite Hs, Hw.
Qed.

(** The facts of a first load the second one builds on. *)
Lemma load_facts store status t :
  let w := load store status t : W in
  table_wf w ∧ w_pending w = [] ∧ (∀ id s, w_sessions w !! id = Some s → s_lost s = true) ∧
  (pst_sessions (store_load store).1 = [] → w_sessions w = ∅).
Proof.
  intros w. destruct (load_reports_and_restores store status t) as (Hwf & Hp & _ & Hdom & Hrow & _).
  fold w in Hwf, Hp, Hdom, Hrow. split_and!; [done..| |].
  - intros id s Hs.
    assert (id ∈ map ps_id (pst_sessions (store_load store).1)) as Hin by (apply Hdom; by eexists).
    apply last_occurrence in Hin as (before & p & after & Heq & <- & Hn).
    destruct (Hrow _ _ _ Heq Hn) as (home & since & handle & Hp' & _).
    rewrite Hs in Hp'. by simplify_eq.
  - intros Hn. by apply load_no_sessions.
Qed.

(** Which ledger a first load leaves when nothing stops its save. *)
Lemma load_leaves file status t :
  (∀ n, os_fail n = None) →
  let w := load (store_new file) status t : W in
  read_only (w_store w) = false →
  sto_file (w_store w) =
    Contents (render_state (mkStateFile STATE_VERSION [] (ledger_workspaces w)))
  ∨ sto_file (w_store w) = file ∧ pst_sessions (store_load (store_new file)).1 = [].
Proof.
  intros Hfail w. destruct (load_facts (store_new file) status t) as (Hwf & Hp & Hlost & _).
  destruct (load_same (store_new file) status t) as (Hs & Hw & Hpend & Hro & _).
  fold w in Hwf, Hp, Hlost, Hs, Hw, Hpend, Hro. intros Hr.
  set (w0 := (loaded (store_new file) status t).2) in *.
  assert (ledger_records w0 = []) as Hrec.
  { apply tombstones_leave_no_record; [by rewrite <- Hs|by rewrite <- Hpend]. }
  assert (ledger_workspaces w0 = ledger_workspaces w) as Hlw.
  { unfold ledger_workspaces, workspace_values. by rewrite Hw. }
  assert (read_only (w_store w0) = false) as Hr0 by by rewrite <- Hro.
  clear Hr Hro. unfold w at 1 3. rewrite load_loaded. fold w0. case_match eqn:Hdirty.
  - left. rewrite persist_undisturbed by done. by rewrite Hrec, Hlw.
  - right. apply orb_false_iff in Hdirty as [Hn _]. boolify. split; [|done].
    unfold w0, loaded. unfold store_load in *. simpl in *.
    destruct file; simpl in *; rewrite ?Hn; simpl; try done.
    destruct (parse_state bytes) as [f|]; simpl in *.
    + rewrite Hn. simpl. by case_match.
    + by repeat case_match.
Qed.

(** What a second restart makes of a workspace. *)
Definition without_terminals (i i' : WorkspaceInfo) : Prop :=
  i' = with_layout (wi_layout i') (wi_layout_rev i) i ∧
  terminal_sessions (wi_layout i') = [] ∧
  editors (root (wi_layout i')) = editors (root (wi_layout i)).

(** A lost session is reported once: when the rewrite of the ledger went through,
    the next restart has no row left, while every workspace is back under its id with
    its record, its revision and its editor tabs, and no terminal tab. *)
Theorem tombstones_reported_once file status status' t t' :
  (∀ n, os_fail n = None) →
  let w := load (store_new file) status t : W in
  read_only (w_store w) = false →
  file_ok (mkStateFile STATE_VERSION [] (ledger_workspaces w)) = true →
  let w' := load (store_new (sto_file (w_store w))) status' t' : W in
  w_sessions w' = ∅ ∧
  ∀ id, option_Forall2 without_terminals (w_workspaces w !! id) (w_workspaces w' !! id).
Proof.
  intros Hfail w Hro Hok w'.
  destruct (load_facts (store_new file) status t) as (Hwf & _ & _ & Hempty). fold w in Hwf, Hempty.
  destruct (load_facts (store_new (sto_file (w_store w))) status' t') as (Hwf' & _).
  fold w' in Hwf'.
  assert (pst_sessions (store_load (store_new (sto_file (w_store w)))).1 = [] ∧
          ∀ id, option_Forall2 (λ i i', i' = with_layout (wi_layout i') (wi_layout_rev i) i ∧
                  editors (root (wi_layout i')) = editors (root (wi_layout i)))
                (w_workspaces w !! id) (w_workspaces w' !! id)) as [Hn Hws].
  { destruct (load_leaves file status t Hfail Hro) as [Hf|[Hf Hn]]; fold w in Hf.
    - assert (store_load (store_new (sto_file (w_store w))) =
                (mkPersistedState [] (ledger_workspaces w) true, store_new (sto_file (w_store w)))) as Hl.
      { unfold store_load. simpl. rewrite Hf, parse_render by done. done. }
      split; [by rewrite Hl|]. intros id.
      assert (w_workspaces w' = (λ i, (prune_workspace ∅ i).2) <$> w_workspaces w) as ->.
      { unfold w'. destruct (load_no_sessions (store_new (sto_file (w_store w))) status' t') as [_ ->].
        - by rewrite Hl.
        - rewrite Hl. simpl. f_equal. apply workspace_map_ledger, (wf_wkey w Hwf). }
      rewrite lookup_fmap. destruct (w_workspaces w !! id) as [i|]; [|constructor].
      refine (Some_Forall2 _ i (prune_workspace ∅ i).2 _).
      rewrite prune_workspace_keeps. split; [done|]. apply editors_retained.
    - split; [by rewrite Hf|]. intros id.
      assert (w_workspaces w' = w_workspaces w) as ->.
      { destruct (load_no_sessions (store_new file) status t Hn) as [_ Hw1]. fold w in Hw1.
        unfold w'. rewrite Hf, Hw1. by destruct (load_no_sessions (store_new file) status' t' Hn) as [_ ->]. }
      destruct (w_workspaces w !! id) as [i|]; constructor. by destruct i. }
  assert (w_sessions w' = ∅) as Hs' by by apply load_no_sessions.
  split; [done|]. intros id. specialize (Hws id).
  destruct (w_workspaces w !! id) as [i|], (w_workspaces w' !! id) as [i'|] eqn:Hi'; inversion Hws;
    constructor; simplify_eq.
  destruct_and!. split_and!; [done| |done].
  destruct (terminal_sessions (wi_layout i')) as [|sid l] eqn:Ht; [done|].
  destruct (wf_layout w' Hwf' id i' sid Hi') as (s & Hs & _); [rewrite Ht; left|].
  by rewrite Hs' in Hs.
Qed.
End Restart.
