(* ===== verification/Lifecycle.v ===== *)
(** * Lifecycle: everything a daemon does after it started

    The operations of the session table as one step relation, what every step
    keeps, and what holds in every state a daemon can reach from its ledger. The
    operations are those clients ask for
    ([crates/ade_session_daemon/src/server.rs] calls them) and those the drain,
    reaper and sweeper threads perform. *)

From S2P Require Import Prelude Text Layout Proto Outbound Stream Host Hub Ledger World Table Sessions TableSpecs TableInv Layouts Records Kills Clients Creation Status Restart.
From stdpp Require Import options.
Open Scope Z_scope.

Section Lifecycle.
Context {G : Type} `{ScreenGrid G, StateCodec, OS}.
Abbreviation W := (world G).
Abbreviation T A := (st W A).
Implicit Types w : W.

(** ** The operations *)

Inductive op : Type :=
| OpConnectionOpened
| OpConnectionClosed
| OpWentActive
| OpActiveClosed
| OpExpendable
| OpCreate (request : CreateRequest)
| OpCreateWorkspace (request : WorkspaceRequest)
| OpEnsureWorkspace (request : WorkspaceRequest)
| OpRemoveEmptyWorkspace (id : string)
| OpUpdateLayout (id : string) (layout : LayoutDoc) (rev : Z) (writer : option SubscriberId)
| OpInstallLegacyLayout (id : string) (session : SessionId)
| OpRenameWorkspace (id name : string)
| OpUpdateProject (id project_id project_identity : string) (root : option string) (minimum : option Z)
| OpKillWorkspace (id : string)
| OpKill (id : SessionId)
| OpSubscribe (who : SubscriberId) (outbound : Outbound)
| OpAttach (id : SessionId) (who : SubscriberId) (outbound : Outbound) (view : option string)
| OpDetach (id : SessionId) (who : SubscriberId)
| OpDetachAll (who : SubscriberId)
| OpWrite (id : SessionId) (bytes : list Z)
| OpResize (id : SessionId) (who : SubscriberId) (cols rows : Z)
| OpResizeLegacy (id : SessionId) (cols rows : Z)
| OpFocus (id : SessionId) (view : string) (hover : bool)
| OpDrainRead (handle : N) (id : SessionId) (chunk : list Z)
| OpReap (handle : N)
| OpReportExit (id : SessionId) (code : option Z)
| OpSweep.

Definition ignoring {A} (m : T A) : T () := m;; mret ().

Definition run_op (o : op) : T () :=
  match o with
  | OpConnectionOpened => connection_opened
  | OpConnectionClosed => connection_closed
  | OpWentActive => connection_went_active
  | OpActiveClosed => active_connection_closed
  | OpExpendable => ignoring expendable
  | OpCreate request => ignoring (create request)
  | OpCreateWorkspace request => ignoring (create_workspace request)
  | OpEnsureWorkspace request => ignoring (ensure_workspace request)
  | OpRemoveEmptyWorkspace id => ignoring (remove_empty_workspace id)
  | OpUpdateLayout id layout rev writer => ignoring (update_layout id layout rev writer)
  | OpInstallLegacyLayout id session => ignoring (install_legacy_layout id session)
  | OpRenameWorkspace id name => ignoring (rename_workspace id name)
  | OpUpdateProject id p i root minimum => ignoring (update_workspace_project id p i root minimum)
  | OpKillWorkspace id => ignoring (kill_workspace id)
  | OpKill id => ignoring (kill id)
  | OpSubscribe who outbound => subscribe who outbound
  | OpAttach id who outbound view => ignoring (attach id who outbound view)
  | OpDetach id who => detach id who
  | OpDetachAll who => detach_all who
  | OpWrite id bytes => ignoring (write id bytes)
  | OpResize id who cols rows => ignoring (resize id who cols rows)
  | OpResizeLegacy id cols rows => ignoring (resize_legacy id cols rows)
  | OpFocus id view hover => ignoring (focus id view hover)
  | OpDrainRead handle id chunk => drain_read handle id chunk
  | OpReap handle => reap handle
  | OpReportExit id code => report_exit id code
  | OpSweep => sweep
  end.

(** What an operation is given: a revision that fits its 64 bits, and a uuid that
    was not given out before. *)
Definition minted_unused w : Prop := w_workspaces w !! os_uuid (w_tick w) = None.

Definition op_ok (o : op) w : Prop :=
  match o with
  | OpCreate _ => id_unused (new_session_id w) w
  | OpCreateWorkspace request => minted_unused w ∧ wr_id request = None
  | OpEnsureWorkspace request => wr_id request = None → minted_unused w
  | OpUpdateLayout _ _ rev _ => 0 ≤ rev ≤ u64_max
  | OpUpdateProject _ _ _ _ minimum => ∀ m, minimum = Some m → 0 ≤ m
  | _ => True
  end.

Inductive reachable (w0 : W) : W → Prop :=
| reach_start : reachable w0 w0
| reach_step w o : reachable w0 w → op_ok o w → reachable w0 (st_exec (run_op o) w).

(** ** The invariant, operation by operation *)

Lemma wp_exec {A} (m : T A) (P : W → Prop) w : wp m (λ _, P) w → P (st_exec m w).
Proof. done. Qed.

Lemma wp_ignoring {A} (m : T A) (P : W → Prop) w : wp m (λ _, P) w → wp (ignoring m) (λ _, P) w.
Proof. intros Hm. unfold ignoring. wp_step. eapply wp_mono; [exact Hm|]. by intros. Qed.

Lemma refused_wf w w' : refused w w' → table_wf w → table_wf w'.
Proof. intros ((? & ? & _ & ? & ?) & _). by apply wf_ext. Qed.

Lemma layout_written_wf id layout rev writer w w' :
  layout_written id layout rev writer w w' → rev ≤ u64_max → table_wf w → table_wf w'.
Proof.
  intros (i & Hi & Hrev & Hhome & Hs & Hw & _ & Hh & Ha & _) Hmax Hwf.
  pose proof (wf_wkey w Hwf id i Hi) as Hid.
  apply (wf_ext (set_workspaces (<[wi_id (with_layout layout rev i) := with_layout layout rev i]>
                   (w_workspaces w)) w)); simpl; [done|by rewrite Hw, Hid|by rewrite Hh|by rewrite Ha|].
  apply (wf_put_workspace w (with_layout layout rev i)); [| |done].
  - destruct (wf_rev w Hwf id i Hi) as [[? ?] ?]. split; simpl; [lia|done].
  - simpl. rewrite Hid. exact Hhome.
Qed.

Lemma update_layout_wf id layout rev writer w :
  rev ≤ u64_max → table_wf w → wp (update_layout id layout rev writer) (λ _ w', table_wf w') w.
Proof.
  intros Hrev Hwf. eapply wp_mono; [apply update_layout_outcome|].
  intros [a|e] w'; [intros Hw; by eapply layout_written_wf|intros [_ Hr]; by eapply refused_wf].
Qed.

Lemma install_wf id session w :
  table_wf w → wp (install_legacy_layout id session) (λ _ w', table_wf w') w.
Proof.
  intros Hwf. eapply wp_mono; [by apply (install_attempts_outcome ATTEMPTS id session None)|].
  intros [a|e] w'; [|intros [_ Hr]; by eapply refused_wf].
  intros (i & Hi & [[_ Hr]|[_ Hw]]); [by eapply refused_wf|].
  eapply layout_written_wf; [exact Hw| |done]. apply wrap64_range.
Qed.

Lemma record_written_in_place_wf id f i infos w w' :
  w_workspaces w !! id = Some i → wi_id (f i) = wi_id i → rev_ok (f i) →
  wi_layout (f i) = wi_layout i → record_written id (f i) infos w w' → table_wf w → table_wf w'.
Proof.
  intros Hi Hid Hrev Hl Hw Hwf. pose proof (wf_wkey w Hwf id i Hi).
  eapply record_written_wf; [exact Hw|congruence|done| |done].
  rewrite Hl. intros sid Hin. by apply (wf_layout w Hwf id i).
Qed.

Lemma rename_wf id name w : table_wf w → wp (rename_workspace id name) (λ _ w', table_wf w') w.
Proof.
  intros Hwf. eapply wp_mono; [apply rename_workspace_outcome|].
  intros [x|e] w'; [|intros [_ Hr]; by eapply refused_wf].
  intros (_ & i & Hi & _ & Hw).
  by eapply (record_written_in_place_wf id (with_name (trim name))); [done..|apply (wf_rev w Hwf id i)| |exact Hw|].
Qed.

Lemma project_wf id p pi root minimum w :
  (∀ m, minimum = Some m → 0 ≤ m) → table_wf w →
  wp (update_workspace_project id p pi root minimum) (λ _ w', table_wf w') w.
Proof.
  intros Hmin Hwf. eapply wp_mono; [apply update_workspace_project_outcome|].
  intros [x|e] w'; [|intros [_ Hr]; by eapply refused_wf].
  intros (_ & i & Hi & [(_ & _ & ->)|(_ & Hmax & _ & Hw)]); [done|].
  eapply (record_written_in_place_wf id (rescoped p pi root (default 0 minimum))); [exact Hi|done| |done|exact Hw|done].
  destruct (wf_rev w Hwf id i Hi) as [? [? ?]]. split; [done|].
  change (wi_project_scope_rev (rescoped p pi root (default 0 minimum) i)) with
    (Z.max (wi_project_scope_rev i) (default 0 minimum) + 1) in *. lia.
Qed.

Lemma kill_wf id w : table_wf w → wp (kill id) (λ _ w', table_wf w') w.
Proof.
  intros Hwf. eapply wp_mono; [apply kill_outcome|]. intros r w'.
  destruct (w_sessions w !! id) as [s|] eqn:Hs.
  - intros [[Ht Hh] _]. by eapply wf_without_session.
  - by intros [_ ->].
Qed.

Lemma remove_workspace_wf id only_if_empty w :
  table_wf w → wp (remove_workspace id only_if_empty) (λ _ w', table_wf w') w.
Proof.
  intros Hwf. eapply wp_mono; [by apply remove_workspace_outcome|]. intros r w'.
  destruct (only_if_empty && _); [by intros [_ ->]|].
  destruct (bool_decide (w_workspaces w !! id = None)).
  - intros [_ Hr]. by eapply refused_wf.
  - intros [Hw _]. by eapply wf_without_workspace.
Qed.

Lemma create_wf request w :
  table_wf w → id_unused (new_session_id w) w → wp (create request) (λ _ w', table_wf w') w.
Proof.
  intros Hwf Hun. eapply wp_mono; [by apply create_outcome|].
  intros [info|e] w'; [intros (_ & _ & s & Hd)|intros [_ Hu]]; [apply Hd|apply Hu].
Qed.

Lemma workspace_undone_wf e w w' : workspace_undone e w w' → table_wf w → table_wf w'.
Proof. intros (_ & _ & (Hs & Hw & _ & Hh & Ha) & _). by apply wf_ext. Qed.

Lemma workspace_created_wf request i w w' :
  workspace_created request i w w' → table_wf w → table_wf w'.
Proof.
  intros (Hf & _ & Hw). destruct (fresh_record_ok request i Hf) as [Hr Hl].
  eapply record_written_wf; [exact Hw|done|done|]. rewrite Hl. by inversion 1.
Qed.

Lemma create_workspace_wf request w :
  table_wf w → wr_id request = None → minted_unused w →
  wp (create_workspace request) (λ _ w', table_wf w') w.
Proof.
  intros Hwf Hid Hun. unfold create_workspace. wp_step. eapply wp_mono; [apply new_workspace_outcome|].
  intros i w1 (Hf & [n ->] & Hi). eapply (commit_fresh request); [done|by rewrite Hi| |].
  - intros w' Hw. by eapply workspace_created_wf.
  - intros e w' Hw. by eapply workspace_undone_wf.
Qed.

Lemma ensure_workspace_wf request w :
  table_wf w → (wr_id request = None → minted_unused w) →
  wp (ensure_workspace request) (λ _ w', table_wf w') w.
Proof.
  intros Hwf Hun. eapply wp_mono; [by apply ensure_workspace_outcome|].
  intros [[i []]|e] w'.
  - intros Hw. by eapply workspace_created_wf.
  - intros [_ [n ->]]. by apply wf_tick.
  - intros Hw. by eapply workspace_undone_wf.
Qed.

Lemma run_op_wf o w : op_ok o w → table_wf w → wp (run_op o) (λ _ w', table_wf w') w.
Proof.
  intros Hok Hwf. destruct o; simpl in *; try (apply wp_ignoring).
  all: try (by apply (wf_ext w)).
  - apply create_wf; done.
  - destruct Hok. by apply create_workspace_wf.
  - by apply ensure_workspace_wf.
  - unfold remove_empty_workspace. wp_step. eapply wp_mono; [by apply remove_workspace_wf|].
    intros r w' Hw'. by wp_step.
  - apply update_layout_wf; [lia|done].
  - by apply install_wf.
  - by apply rename_wf.
  - by apply project_wf.
  - by apply remove_workspace_wf.
  - by apply kill_wf.
  - by apply subscribe_wf.
  - by apply attach_wf.
  - by apply detach_wf.
  - by apply detach_all_wf.
  - by apply write_wf.
  - by apply resize_wf.
  - by apply resize_legacy_wf.
  - by apply focus_wf.
  - by apply drain_read_wf.
  - by apply reap_wf.
  - by apply report_exit_wf.
  - by apply sweep_wf.
Qed.

(** C1. The table is well formed in every state a daemon can reach: it starts so from
    any ledger, and every operation — of a client or of a session's threads, taken or
    refused, persisted or not, each run on its own — keeps it so. In particular no layout ever names a
    session that is not in that workspace. *)
Theorem every_reachable_table_is_wf store status t w :
  reachable (load store status t) w → table_wf w.
Proof.
  induction 1 as [|w o _ IH Hok]; [apply load_facts|]. by apply wp_exec, run_op_wf.
Qed.

(** ** A ledger that is not this daemon's to write *)

Definition closed (P : W → Prop) {A} (m : T A) : Prop := ∀ w, P w → P (m w).2.

Section Closed.
Variable P : W → Prop.

Lemma closed_ret {A} (a : A) : closed P (mret a : T A).
Proof. by intros w. Qed.
Lemma closed_get : closed P (st_get : T W).
Proof. by intros w. Qed.
Lemma closed_gets {A} (f : W → A) : closed P (st_gets f : T A).
Proof. by intros w. Qed.
Lemma closed_modify f : (∀ w, P w → P (f w)) → closed P (st_modify f : T ()).
Proof. intros Hf w Hw. by apply Hf. Qed.
Lemma closed_bind {A B} (m : T A) (k : A → T B) :
  closed P m → (∀ a, closed P (k a)) → closed P (m ≫= k).
Proof. intros Hm Hk w Hw. rewrite st_bind_unfold. by apply Hk, Hm. Qed.
Lemma closed_bind_ok {E A B} (m : T (result E A)) (k : A → T (result E B)) :
  closed P m → (∀ a, closed P (k a)) → closed P (bind_ok m k).
Proof.
  intros Hm Hk w Hw. unfold bind_ok. specialize (Hm w Hw). destruct (m w) as [[a|e] w1]; [|done].
  by apply Hk.
Qed.
Lemma closed_for {A} (l : list A) (f : A → T ()) : (∀ x, closed P (f x)) → closed P (for_st l f).
Proof. intros Hf w Hw. apply for_st_inv; [|done]. intros x w' _. apply Hf. Qed.
End Closed.

End Lifecycle.

Ltac same_store := let w := fresh "w" in let Hw := fresh "Hw" in intros w Hw; exact Hw.

Ltac app_head t := lazymatch t with ?f _ => app_head f | _ => t end.

(** Walk a computation, part by part; [unfold_op] opens the next definition. *)
Ltac keep_with unfold_op :=
  repeat (cbv beta zeta;
    lazymatch goal with
    | |- ∀ _, _ => intros ?
    | |- closed _ (_ ≫= _) => apply closed_bind
    | |- closed _ (bind_ok _ _) => apply closed_bind_ok
    | |- closed _ (for_st _ _) => apply closed_for
    | |- closed _ (mret _) => apply closed_ret
    | |- closed _ st_get => apply closed_get
    | |- closed _ (st_gets _) => apply closed_gets
    | |- closed _ (st_modify _) => apply closed_modify; same_store
    | |- closed _ (match ?x with _ => _ end) => destruct x
    | |- closed _ _ => first [assumption | unfold_op]
    end).

Section Keeping.
Context {G : Type} `{ScreenGrid G, StateCodec, OS}.
Abbreviation W := (world G).
Abbreviation T A := (st W A).
Implicit Types w : W.

(** A property of the store and of the two connection counts. *)
Definition over (Q : StateStore → Z → Z → Prop) w : Prop :=
  Q (w_store w) (w_connections w) (w_active w).

Section Kept.
Context (Q : StateStore → Z → Z → Prop).
Context (Qsave : ∀ dir write rs ws s c a, Q s c a → Q (store_save dir write rs ws s).2 c a).
Abbreviation kept := (closed (over Q)).
#[local] Set Default Proof Using "Type*".

Lemma kept_save dir write : kept (save_ledger dir write).
Proof using Qsave.
  intros w Hw. unfold save_ledger.
  pose proof (Qsave dir write (ledger_records w) (ledger_workspaces w) _ _ _ Hw) as Hs.
  by destruct (store_save _ _ _ _ _).
Qed.
Lemma kept_events f : kept (events_do f).
Proof. intros w Hw. unfold events_do. by destruct (f _ _). Qed.
Lemma kept_hub handle f : kept (hub_do handle f).
Proof. intros w Hw. unfold hub_do. destruct (w_hubs w !! handle); [by destruct (f _ _)|done]. Qed.
Lemma kept_subscribe who o : kept (subscribe who o).
Proof. intros w Hw. unfold subscribe. by destruct (push_all _ _ _). Qed.
Lemma kept_apply id layout rev : kept (apply_layout id layout rev).
Proof. intros w Hw. unfold apply_layout. by repeat case_match. Qed.
Lemma kept_require id : kept (require_workspace id).
Proof. by intros w. Qed.
Lemma kept_expendable now : kept (all_expendable now).
Proof. by intros w. Qed.
Lemma kept_ask {A} (f : nat → A) : kept (ask f).
Proof. by intros w. Qed.

Ltac open_op :=
  first [ apply kept_save | apply kept_events | apply kept_hub | apply kept_subscribe
        | apply kept_apply | apply kept_require | apply kept_expendable | apply kept_ask
        | match goal with |- closed _ ?m => let h := app_head m in unfold h end ].
Ltac keep := keep_with ltac:(open_op).

Lemma kept_install n id session last : kept (install_attempts n id session last).
Proof. revert last. induction n as [|n IH]; intros last; simpl; keep; try apply IH. Qed.

Lemma kept_sweep_row now id changed : kept (sweep_row now id changed).
Proof. unfold sweep_row. keep. Qed.

Lemma kept_sweep_rows now ids changed : kept (sweep_rows now ids changed).
Proof.
  revert changed. induction ids as [|id ids IH]; intros changed; simpl; [keep|].
  apply closed_bind; [apply kept_sweep_row|intros a; apply IH].
Qed.

Definition counts_connections (o : op) : bool :=
  match o with
  | OpConnectionOpened | OpConnectionClosed | OpWentActive | OpActiveClosed => true
  | _ => false
  end.

Lemma kept_op o : counts_connections o = false → kept (run_op o).
Proof.
  intros Ho; destruct o; try discriminate Ho; simpl; clear Ho;
    keep_with ltac:(first [apply kept_install | apply kept_sweep_rows | open_op]).
Qed.
End Kept.

(** The store refuses to write and its file holds [file]. *)
Definition untouchable (file : ledger_file) : W → Prop :=
  over (λ s _ _, read_only s = true ∧ sto_file s = file).

Lemma untouchable_save (file : ledger_file) dir write rs ws s (c a : Z) :
  read_only s = true ∧ sto_file s = file →
  read_only (store_save dir write rs ws s).2 = true ∧ sto_file (store_save dir write rs ws s).2 = file.
Proof. intros [Hro Hf]. unfold store_save. rewrite Hro. by split. Qed.

(** A file a newer daemon wrote, or one that cannot be read or understood. *)
Definition foreign (file : ledger_file) : Prop :=
  match file with
  | Absent => False
  | Unreadable => True
  | Contents bytes => match parse_state bytes with
                      | Some f => STATE_VERSION < sf_version f
                      | None => True
                      end
  end.

Lemma foreign_load file status t :
  foreign file → untouchable file (load (store_new file) status t : W).
Proof.
  intros Hf.
  assert (∀ file, untouchable file (loaded (store_new file) status t).2 ∨ ¬ foreign file) as Hl.
  { clear. intros file. unfold loaded, store_load. simpl.
    destruct file as [| |bytes]; simpl; [right; by intros []|left; by split|].
    destruct (parse_state bytes) as [f|] eqn:Hp; simpl; rewrite ?Hp.
    - destruct (STATE_VERSION <? sf_version f) eqn:Hv; boolify; [left|right; lia].
      unfold untouchable, over.
      set (w0 := world_new _ _ _ _ _). assert (loading_wf w0) as Hwf0.
      { apply world_new_wf. by apply (parse_ok bytes). }
      destruct (adopt_all_spec (sf_sessions f) w0 Hwf0) as (_ & _ & Hst & _).
      fold (st_exec (adopt_all (sf_sessions f)) w0) in Hst. unfold prune_all. cbn [snd w_store set_workspaces]. by rewrite Hst.
    - left. unfold untouchable, over. by repeat case_match. }
  destruct (Hl file) as [Hk|]; [|done]. rewrite load_loaded. case_match; [|done].
  unfold st_exec, persist, persist_serialized.
  assert (closed (untouchable file) (persist : T _)) as Hc; [|by apply Hc].
  unfold persist, persist_serialized. apply closed_bind; [by intros ?|]. intros dir.
  apply closed_bind; [by intros ?|]. intros wr. apply kept_save, untouchable_save.
Qed.

(** C3. A ledger that is not this daemon's to write is never overwritten: when the
    file is of a newer schema, or exists and cannot be read or understood, then
    whatever clients and sessions do afterwards, and however the operating system
    answers, its bytes stay as they are. *)
Theorem foreign_ledger_is_never_overwritten file status t w :
  foreign file → reachable (load (store_new file) status t) w → sto_file (w_store w) = file.
Proof.
  intros Hf Hr. apply (proj2 (A := read_only (w_store w) = true)).
  change (untouchable file w). induction Hr as [|w o _ IH _]; [by apply foreign_load|].
  destruct (counts_connections o) eqn:Ho; [by destruct o|].
  apply (kept_op _ (untouchable_save file) o Ho), IH.
Qed.
End Keeping.
