(* ===== verification/Legacy.v ===== *)
(** * Generation 2's combined creates are one outcome

    [combined_create] and the auto-creating [create_session] of
    [crates/ade_session_daemon/src/server.rs]: record, session and first tab together,
    or none of them. *)

From S2P Require Import Prelude Text Layout Proto Outbound Stream Host Hub Ledger Wire Frames Framing Client World Table Sessions Dispatch TableSpecs TableInv Layouts Records Kills Creation Lifecycle.
From stdpp Require Import options.
Open Scope Z_scope.

#[export] Instance filter_bool_Permutation {A} (p : A → bool) :
  Proper (Permutation ==> Permutation) (List.filter p).
Proof.
  induction 1 as [|x l k _ IH|x y l|l1 l2 l3 _ IH1 _ IH2]; simpl.
  - done.
  - by destruct (p x); rewrite IH.
  - destruct (p x), (p y); try done. apply Permutation_swap.
  - by rewrite IH1.
Qed.

Section Legacy.
Context {G : Type} `{ScreenGrid G, StateCodec, OS, Unicode, FrameDebug, Identity}.
Abbreviation W := (world G).
Abbreviation T A := (st W A).
Implicit Types w : W.

(** The two tables as they were. *)
Definition restored w w' : Prop := w_sessions w' = w_sessions w ∧ w_workspaces w' = w_workspaces w.

(** A workspace [id] that was not there, with one session [s] in it and a layout that
    shows it; nothing else in the tables changed. *)
Definition made_whole (id : string) (i : WorkspaceInfo) (sid : SessionId) (s : Session) w w' : Prop :=
  w_workspaces w !! id = None ∧ s_workspace s = id ∧ s_id s = sid ∧ wi_id i = id ∧
  w_sessions w' = <[sid := s]> (w_sessions w) ∧
  w_workspaces w' = <[id := i]> (w_workspaces w) ∧
  wi_layout i = single_terminal sid ∧ wi_layout_rev i = 1 ∧ durable w'.

(** A world that differs from [w] only in the workspace [id], new since. *)
Definition grown (id : string) w w' : Prop :=
  (∀ j, j ≠ id → w_workspaces w' !! j = w_workspaces w !! j) ∧
  filter (λ x, s_workspace x.2 ≠ id) (w_sessions w') = w_sessions w.

Lemma nobody_home id w :
  table_wf w → w_workspaces w !! id = None →
  filter (λ x : SessionId * Session, s_workspace x.2 ≠ id) (w_sessions w) = w_sessions w.
Proof.
  intros Hwf Hn. apply map_filter_id. intros j s Hs Hid. simpl in Hid.
  destruct (wf_home w Hwf j s Hs) as [i Hi]. congruence.
Qed.

Lemma grown_taken_back id w w1 w2 :
  w_workspaces w !! id = None → grown id w w1 → without_workspace id w1 w2 → restored w w2.
Proof.
  intros Hn [Hother Hs] (Hs2 & Hw2 & _). split; [by rewrite Hs2|].
  rewrite Hw2. apply map_eq. intros j. destruct (decide (j = id)) as [->|Hj].
  - by rewrite lookup_delete_eq.
  - by rewrite lookup_delete_ne, Hother.
Qed.

Lemma grown_created id request i w w1 :
  table_wf w → wi_id i = id → workspace_created request i w w1 → grown id w w1.
Proof.
  intros Hwf <- (_ & Hn & Hs & Hw & _). split.
  - intros j Hj. by rewrite Hw, lookup_insert_ne.
  - rewrite Hs. by apply nobody_home.
Qed.

Lemma grown_undone id sid w w1 w2 :
  grown id w w1 → create_undone sid id w1 w2 → grown id w w2.
Proof.
  intros [Hother Hs] (Hs2 & _ & _ & Hw2 & _). split; [|by rewrite Hs2].
  intros j Hj. rewrite <- Hother by done. destruct Hw2 as [->| ->]; [done|]. by rewrite lookup_alter_ne.
Qed.

Lemma grown_done id request info w w1 w2 :
  cr_workspace_id request = id → grown id w w1 → w_sessions w1 !! si_id info = None →
  create_done request info w1 w2 → grown id w w2.
Proof.
  intros Hid [Hother Hs] Hn (s & Hrow & _ & Hs2 & Hw2 & _). split; [intros j Hj; by rewrite Hw2, Hother|].
  rewrite Hs2, map_filter_insert_False; [by rewrite delete_id|].
  intros Hne. apply Hne. simpl. unfold s_workspace. destruct Hrow as (-> & -> & _). exact Hid.
Qed.

Lemma grown_refused id w w1 w2 : grown id w w1 → refused w1 w2 → grown id w w2.
Proof. unfold grown. by intros Hg ((-> & -> & _) & _). Qed.

(** Killing the workspace puts the tables back. *)
Lemma kill_puts_back id w w1 :
  table_wf w1 → w_workspaces w !! id = None → is_Some (w_workspaces w1 !! id) → grown id w w1 →
  wp (kill_workspace id) (λ _ w2, restored w w2) w1.
Proof.
  intros Hwf Hn [i Hi] Hg. eapply wp_mono; [by apply remove_workspace_outcome|].
  intros r w2. simpl. rewrite bool_decide_eq_false_2 by (by rewrite Hi).
  intros [Hw _]. by eapply grown_taken_back.
Qed.

Lemma session_values_singleton id sid s (m : gmap string Session) :
  s_workspace s = id → filter (λ x : SessionId * Session, s_workspace x.2 ≠ id) m = m →
  m !! sid = None →
  workspace_sessions_in ((map_to_list (<[sid := s]> m)).*2) id = [s_info s].
Proof.
  intros Hs Hm Hn. unfold workspace_sessions_in. apply Permutation_singleton_r.
  rewrite sort_rows_Permutation, map_to_list_insert by done. cbn [fmap list_fmap snd].
  cbn [List.filter]. rewrite bool_decide_eq_true_2 by done.
  assert (List.filter (λ s, bool_decide (s_workspace s = id)) ((map_to_list m).*2) = []) as ->; [|done].
  apply elem_of_nil_inv. intros t [(x & -> & Hx)%list_elem_of_fmap Ht]%elem_of_filter_bool.
  apply bool_decide_eq_true in Ht. destruct x as [j t]. apply elem_of_map_to_list in Hx.
  rewrite <- Hm in Hx. apply map_lookup_filter_Some in Hx as [_ Hne]. by apply Hne.
Qed.

Lemma create_workspace_here request w :
  table_wf w → wr_id request = None → minted_unused w →
  wp (create_workspace request)
    (λ r w1, table_wf w1 ∧ w1 = st_exec (create_workspace request) w ∧
       match r with Ok i => workspace_created request i w w1 | Err e => workspace_undone e w w1 end) w.
Proof.
  intros Hwf Hid Hun.
  assert (wp (create_workspace request)
    (λ r w1, match r with Ok i => workspace_created request i w w1 | Err e => workspace_undone e w w1 end) w)
    as Ho.
  { unfold create_workspace. wp_step. eapply wp_mono; [apply new_workspace_outcome|].
    intros i w1 (Hf & [n ->] & Hi). apply (commit_fresh request); [done|by rewrite Hi|done|done]. }
  split_and!; [by apply (create_workspace_wf request w)|done|exact Ho].
Qed.

Lemma create_here request w :
  table_wf w → id_unused (new_session_id w) w →
  wp (create request)
    (λ r w', table_wf w' ∧
       match r with
       | Ok info => si_id info = new_session_id w ∧ create_done request info w w'
       | Err e => create_undone (new_session_id w) (cr_workspace_id request) w w'
       end) w.
Proof.
  intros Hwf Hun. eapply wp_mono; [by apply create_outcome|].
  intros [info|e] w'; [intros (Hid & _ & s & Hd)|intros [_ Hu]].
  - split; [apply Hd|]. split; [done|]. by exists s.
  - split; [apply Hu|done].
Qed.

(** The two answers a combined create may give. *)
Definition whole_or_nothing (persisted : bool) (rid : option Z) w (reply : Frame) w' : Prop :=
  (∃ i sid s, reply = Frame_Workspace i [s_info s] persisted rid ∧ made_whole (wi_id i) i sid s w w') ∨
  ((∃ id, refuses None id rid reply) ∧ restored w w').

Lemma give_back id err persisted rid w w1 :
  table_wf w1 → w_workspaces w !! id = None → is_Some (w_workspaces w1 !! id) → grown id w w1 →
  wp (kill_workspace id;; mret (refusal err None (Some id) rid)) (whole_or_nothing persisted rid w) w1.
Proof.
  intros Hwf Hn Hi Hg. wp_step. eapply wp_mono; [by apply (kill_puts_back id w)|].
  intros r w2 Hr. apply wp_ret. right. split; [|done]. eexists. by eexists _, _.
Qed.

(** The record as the first tab's layout leaves it. *)
Definition first_tab (sid : SessionId) (i : WorkspaceInfo) : WorkspaceInfo :=
  with_layout (single_terminal sid) 1 i.

Lemma laid_out_whole request creq writer i info w w1 w2 w3 :
  table_wf w → workspace_created request i w w1 → cr_workspace_id creq = wi_id i →
  w_sessions w1 !! si_id info = None →
  create_done creq info w1 w2 →
  layout_written (wi_id i) (single_terminal (si_id info)) 1 writer w2 w3 →
  ∃ s, s_info s = info ∧ made_whole (wi_id i) (first_tab (si_id info) i) (si_id info) s w w3 ∧
    open_workspace (wi_id i) w3 = Ok (first_tab (si_id info) i, [info]).
Proof.
  intros Hwf (Hf & Hn & Hs1 & Hw1 & _) Hid Hun (s & (Hinfo & Hhome & _) & _ & Hs2 & Hw2 & _)
    (j & Hj & _ & _ & Hs3 & Hw3 & _ & _ & _ & Hd & _).
  assert (j = i) as -> by (rewrite Hw2, Hw1, lookup_insert_eq in Hj; by injection Hj).
  assert (s_workspace s = wi_id i) as Hsw by (unfold s_workspace; by rewrite Hinfo, Hhome, Hid).
  assert (w_workspaces w3 = <[wi_id i := first_tab (si_id info) i]> (w_workspaces w)) as Hwk.
  { by rewrite Hw3, Hw2, Hw1, insert_insert_eq. }
  assert (w_sessions w3 = <[si_id info := s]> (w_sessions w)) as Hsk by by rewrite Hs3, Hs2, Hs1.
  exists s. split; [done|]. split.
  - unfold made_whole. split_and!; try done. unfold s_id. by rewrite Hinfo.
  - unfold open_workspace. rewrite Hwk, lookup_insert_eq. do 2 f_equal.
    unfold workspace_sessions, session_values. rewrite Hsk.
    rewrite session_values_singleton; [by rewrite Hinfo|done|by apply nobody_home|by rewrite <- Hs1].
Qed.

(** Generation 2's [create_workspace] is one outcome: acknowledged, there is a new
    workspace holding exactly one session and a layout of exactly its tab, recorded in
    the ledger, and the reply describes just that; refused, at whichever of the three
    steps, both tables are as they were. *)
Theorem combined_create_is_one_outcome who root name p pi env cols rows persisted rid w
    (Hwf : table_wf w) (Hfresh : minted_unused w)
    (Hun : let w1 := st_exec (create_workspace (mkWorkspaceRequest root name p pi None)) w in
           id_unused (new_session_id w1) w1) :
  let '(reply, w') := combined_create who root name p pi env cols rows persisted rid w in
  whole_or_nothing persisted rid w reply w'.
Proof.
  cbv zeta in Hun. set (request := mkWorkspaceRequest root name p pi None) in *.
  cut (wp (combined_create who root name p pi env cols rows persisted rid)
    (whole_or_nothing persisted rid w) w).
  { unfold wp. by destruct (combined_create _ _ _ _ _ _ _ _ _ _ w). }
  unfold combined_create. fold request. wp_step.
  eapply wp_mono; [by apply create_workspace_here|]. intros [i|e] w1 (Hwf1 & Hw1 & Hcr).
  2: { apply wp_ret. right. split; [eexists; by eexists _, _|].
       by destruct Hcr as (_ & _ & (? & ? & _) & _). }
  rewrite <- Hw1 in Hun. pose proof Hcr as (Hfr & Hn & _ & Hwk1 & _).
  pose proof (grown_created (wi_id i) request i w w1 Hwf eq_refl Hcr) as Hg1.
  cbv zeta. wp_step. eapply wp_mono; [by apply create_here|].
  intros [info|e] w2 [Hwf2 Hc].
  2: { pose proof Hc as (_ & _ & _ & Hwk2 & _). apply give_back; [done|done| |by eapply grown_undone].
       destruct Hwk2 as [->| ->]; rewrite Hwk1; [by rewrite lookup_insert_eq|].
       cbn [combined_create_request cr_workspace_id]. by rewrite lookup_alter_eq, lookup_insert_eq. }
  destruct Hc as [Hid Hc]. wp_step. eapply wp_mono; [apply update_layout_outcome|].
  assert (w_sessions w1 !! si_id info = None) as Hnew by (rewrite Hid; apply Hun).
  destruct Hfr as (_ & _ & _ & _ & Hr0 & _). rewrite Hr0.
  intros [[]|e] w3 Hl.
  - destruct (laid_out_whole request (combined_create_request (wi_id i) root (wi_name i) env cols rows) (Some who) i info w w1 w2 w3 Hwf Hcr eq_refl Hnew Hc Hl)
      as (s & Hinfo & Hm & Ho).
    wp_step. apply wp_gets. rewrite Ho. apply wp_ret. left.
    exists (first_tab (si_id info) i), (si_id info), s. by rewrite Hinfo.
  - destruct Hl as [_ Hr]. pose proof Hr as ((_ & Hwk3 & _) & _).
    assert (w_workspaces w2 = w_workspaces w1) as Hwk2 by by destruct Hc as (? & _ & _ & _ & ? & _).
    apply give_back; [by eapply refused_wf|done| |].
    + rewrite Hwk3, Hwk2, Hwk1, lookup_insert_eq. by eexists.
    + eapply grown_refused; [|exact Hr]. eapply grown_done; [|exact Hg1|exact Hnew|exact Hc]. done.
Qed.

(** ** A session that brings its workspace along *)

Lemma remove_empty_puts_back id w w1 :
  table_wf w → table_wf w1 → w_workspaces w !! id = None → is_Some (w_workspaces w1 !! id) →
  grown id w w1 → w_sessions w1 = w_sessions w →
  wp (remove_empty_workspace id) (λ _ w2, restored w w2) w1.
Proof.
  intros Hwf Hwf1 Hn [i Hi] Hg Hs. unfold remove_empty_workspace. wp_step.
  eapply wp_mono; [by apply remove_workspace_outcome|]. intros r w2.
  rewrite (bool_decide_eq_true_2 (doomed id w1 = [])).
  2: { apply doomed_nil. intros j s Hj Hw. rewrite Hs in Hj.
       destruct (wf_home w Hwf j s Hj) as [k Hk]. congruence. }
  simpl. rewrite bool_decide_eq_false_2 by (by rewrite Hi). intros [Hw _]. apply wp_ret.
  by eapply grown_taken_back.
Qed.

(** What [compensate] undoes: a workspace made here, and maybe a session in it. *)
Lemma compensate_puts_back id (session : option SessionId) w w1 :
  table_wf w → table_wf w1 → w_workspaces w !! id = None → is_Some (w_workspaces w1 !! id) →
  grown id w w1 →
  match session with
  | None => w_sessions w1 = w_sessions w
  | Some sid => w_sessions w !! sid = None ∧
      ∃ s, s_workspace s = id ∧ w_sessions w1 = <[sid := s]> (w_sessions w)
  end →
  wp (compensate (Some (id, true)) session) (λ _ w2, restored w w2) w1.
Proof.
  intros Hwf Hwf1 Hn Hi Hg Hs. unfold compensate. wp_step. destruct session as [sid|].
  - destruct Hs as (Hun & s & Hsw & Hs). wp_step. eapply wp_mono; [apply kill_outcome|].
    assert (w_sessions w1 !! sid = Some s) as Hlook by (by rewrite Hs, lookup_insert_eq).
    rewrite Hlook. intros r w2 [[Hwo _] _]. pose proof Hwo as (Hs2 & Hw2 & _).
    apply wp_ret. wp_step. rewrite Hsw in *.
    assert (w_sessions w2 = w_sessions w) as Hsame by (rewrite Hs2, Hs; by apply delete_insert_id).
    eapply wp_mono.
    { apply (remove_empty_puts_back id w); [done| |done| | |exact Hsame].
      - eapply wf_without_session; [exact Hlook|by rewrite Hsw|done].
      - rewrite Hw2, lookup_alter_eq. destruct Hi as [i ->]. by eexists.
      - destruct Hg as [Hother _]. split; [|rewrite Hsame; by apply nobody_home].
        intros j Hj. by rewrite Hw2, lookup_alter_ne, Hother. }
    intros x w3 Hr. by apply wp_ret.
  - apply wp_ret. wp_step. eapply wp_mono; [by apply (remove_empty_puts_back id w)|].
    intros x w2 Hr. by apply wp_ret.
Qed.

Definition session_or_nothing (named : string) (persisted : bool) (rid : option Z) w (reply : Frame) w' : Prop :=
  (∃ i sid s, reply = Frame_Created (s_info s) persisted rid ∧ made_whole (wi_id i) i sid s w w' ∧
              (named = "" ∨ wi_id i = named)) ∨
  (refuses None (Some named) rid reply ∧ restored w w').

Lemma refuse_back named created session err persisted rid w w1 :
  wp (compensate created session) (λ _ w2, restored w w2) w1 →
  wp (compensate created session;; mret (refusal err None (Some named) rid))
    (session_or_nothing named persisted rid w) w1.
Proof.
  intros Hc. wp_step. eapply wp_mono; [exact Hc|]. intros r w2 Hr. apply wp_ret. right.
  split; [by eexists _, _|done].
Qed.

Lemma first_install id i info w2 w3 :
  w_workspaces w2 !! id = Some i → wi_layout i = layout_empty → wi_layout_rev i = 0 →
  installed id info w2 w3 → layout_written id (single_terminal info) 1 None w2 w3.
Proof.
  intros Hi Hl Hr (j & Hj & Hcase). assert (j = i) as -> by congruence.
  rewrite Hl, Hr in Hcase. destruct Hcase as [[Hin _]|[_ Hw]]; [by inversion Hin|exact Hw].
Qed.

(** The workspace request an auto-creating [create_session] makes. *)
Definition brought (named cwd label : string) (p pi : option string) : WorkspaceRequest :=
  mkWorkspaceRequest cwd (unless_empty label) p pi (unless_empty named).

Lemma brought_id named cwd label p pi :
  (named = "" ∧ wr_id (brought named cwd label p pi) = None) ∨
  (named ≠ "" ∧ wr_id (brought named cwd label p pi) = Some named).
Proof. unfold brought, unless_empty. simpl. case_decide; [left|right]; done. Qed.

Lemma auto_create_here named cwd label p pi w :
  table_wf w → w_workspaces w !! named = None → (named = "" → minted_unused w) →
  wp (auto_create LEGACY_GENERATION named cwd label p pi)
    (λ r w1, match r with
             | Ok created => ∃ i, created = Some (wi_id i, true) ∧ table_wf w1 ∧
                 w1 = st_exec (ensure_workspace (brought named cwd label p pi)) w ∧
                 (named = "" ∨ wi_id i = named) ∧
                 workspace_created (brought named cwd label p pi) i w w1
             | Err e => restored w w1
             end) w.
Proof.
  intros Hwf Hn Hun. destruct (brought_id named cwd label p pi) as [[He Hid]|[He Hid]].
  all: unfold auto_create; wp_step; apply wp_gets; unfold open_workspace; rewrite Hn;
    cbn [is_ok negb LEGACY_GENERATION Z.eqb Pos.eqb andb]; fold (brought named cwd label p pi); wp_step.
  all: assert (wr_id (brought named cwd label p pi) = None → minted_unused w) as Hm
    by (rewrite Hid; try done; intros _; by apply Hun).
  all: pose proof (ensure_workspace_wf _ w Hwf Hm) as Hwf1;
    pose proof (ensure_workspace_outcome _ w Hm) as Ho;
    unfold wp in Hwf1, Ho |- *; unfold st_exec;
    destruct (ensure_workspace (brought named cwd label p pi) w) as [[[i []]|e] w1]; cbn [fst snd] in *.
  all: try (by destruct Ho as (_ & _ & (? & ? & _) & _)).
  all: try (destruct Ho as [(id & Hsome & Hi) _]; congruence).
  all: simpl; exists i; split_and!; try done; try (by left).
  right. destruct Ho as ((_ & _ & _ & _ & _ & _ & _ & Hname) & _). by apply Hname.
Qed.

(** Generation 2's [create_session] brings the workspace it names: acknowledged,
    there is a new workspace — under the name the client gave, when it gave one — with
    exactly that session in it and a layout of exactly its tab, recorded in the ledger;
    refused, at whichever step, both tables are as they were. *)
Theorem auto_created_session_is_one_outcome persisted named cwd p pi command env cols rows kind label
    bytes rid w
    (Hwf : table_wf w) (Hnone : w_workspaces w !! named = None) (Hfresh : named = "" → minted_unused w)
    (Hun : let w1 := st_exec (ensure_workspace (brought named cwd label p pi)) w in
           id_unused (new_session_id w1) w1) :
  let '(reply, w') := create_session LEGACY_GENERATION persisted named cwd p pi command env cols rows kind
                        label bytes rid w in
  session_or_nothing named persisted rid w reply w'.
Proof.
  cbv zeta in Hun.
  cut (wp (create_session LEGACY_GENERATION persisted named cwd p pi command env cols rows kind label bytes rid)
         (session_or_nothing named persisted rid w) w).
  { unfold wp. by destruct (create_session _ _ _ _ _ _ _ _ _ _ _ _ _ _ w). }
  unfold create_session. wp_step. eapply wp_mono; [by apply auto_create_here|].
  intros [created|e] w1 Hw.
  2: { apply wp_ret. right. split; [by eexists _, _|done]. }
  destruct Hw as (i & -> & Hwf1 & Hw1 & Hname & Hcr). rewrite <- Hw1 in Hun.
  pose proof Hcr as (Hfr & Hn & Hs1 & Hwk1 & _).
  pose proof (grown_created (wi_id i) _ i w w1 Hwf eq_refl Hcr) as Hg1.
  cbn [default fst fmap option_fmap option_map]. cbv zeta. cbn [default from_option id].
  set (request := mkCreate (wi_id i) cwd command env cols rows kind label bytes).
  wp_step. eapply wp_mono; [by apply create_here|]. intros [info|e] w2 [Hwf2 Hc].
  2: { pose proof Hc as (Hs2 & _ & _ & Hwk2 & _). apply refuse_back. apply compensate_puts_back; try done.
       - destruct Hwk2 as [->| ->]; rewrite Hwk1; [by rewrite lookup_insert_eq|].
         cbn [request cr_workspace_id]. by rewrite lookup_alter_eq, lookup_insert_eq.
       - by eapply grown_undone.
       - by rewrite Hs2. }
  destruct Hc as [Hid Hc].
  assert (w_sessions w1 !! si_id info = None) as Hnew by (rewrite Hid; apply Hun).
  destruct Hfr as (_ & _ & _ & Hl0 & Hr0 & _).
  pose proof Hc as (s & (Hinfo & Hhome & _) & _ & Hs2 & Hwk2 & _).
  wp_step. eapply wp_mono; [by apply (install_attempts_outcome ATTEMPTS _ _ None)|].
  intros [[]|e] w3 Hl.
  - apply first_install with (i := i) in Hl; [|by rewrite Hwk2, Hwk1, lookup_insert_eq|done|done].
    destruct (laid_out_whole _ request None i info w w1 w2 w3 Hwf Hcr eq_refl Hnew Hc Hl)
      as (t & Ht & Hm & _).
    apply wp_ret. left. exists (first_tab (si_id info) i), (si_id info), t. by rewrite Ht.
  - destruct Hl as [_ Hr]. pose proof Hr as ((Hs3 & Hwk3 & _) & _). apply refuse_back.
    apply compensate_puts_back; [done|by eapply refused_wf|done| | |].
    + rewrite Hwk3, Hwk2, Hwk1, lookup_insert_eq. by eexists.
    + eapply grown_refused; [|exact Hr]. eapply grown_done; [|exact Hg1|exact Hnew|exact Hc]. done.
    + split; [by rewrite <- Hs1|]. exists s. split; [|by rewrite Hs3, Hs2, Hs1].
      unfold s_workspace. by rewrite Hinfo, Hhome.
Qed.
End Legacy.
