(* ===== verification/Server.v ===== *)
(** * Connections, the shutdown gate and the idle watcher

    [DaemonControl], [ConnectionGuard], [serve_connection] and the idle watcher of
    [crates/ade_session_daemon/src/server.rs]. Connections are served at the same
    time: a request that touches state is a step that begins it and a step that
    finishes it, and anything may happen between the two. *)

From S2P Require Import Prelude Text Layout Proto Outbound Stream Host Hub Ledger Wire Frames Framing Client World Table Sessions Dispatch TableSpecs TableInv Lifecycle.
From stdpp Require Import options.
Open Scope Z_scope.

(** ** The daemon's one way out *)

Inductive exit_call := UnlinkSocket | RemovePid | OnExit.

Record DaemonControl : Type := mkControl {
  dc_fired : bool;
  dc_shutting_down : bool;
  dc_active_state_requests : Z;
  dc_calls : list exit_call
}.

Definition control_new : DaemonControl := mkControl false false 0 [].

Definition admit_state_request (c : DaemonControl) : bool * DaemonControl :=
  if dc_shutting_down c then (false, c)
  else (true, mkControl (dc_fired c) false (dc_active_state_requests c + 1) (dc_calls c)).

(** [StateRequestGuard::drop]. *)
Definition release_state_request (c : DaemonControl) : DaemonControl :=
  mkControl (dc_fired c) (dc_shutting_down c) (dc_active_state_requests c - 1) (dc_calls c).

Definition begin_shutdown (c : DaemonControl) : DaemonControl :=
  mkControl (dc_fired c) true (dc_active_state_requests c) (dc_calls c).

Definition exit (c : DaemonControl) : DaemonControl :=
  if dc_fired c then begin_shutdown c
  else mkControl true true (dc_active_state_requests c) (dc_calls c ++ [UnlinkSocket; RemovePid; OnExit]).

(** ** Which frames touch state *)

Definition touches_state (frame : Frame) : bool :=
  match frame with
  | Frame_CreateSession _ _ _ _ _ _ _ _ _ _ _ _ | Frame_Attach _ _ _ | Frame_Detach _ _
  | Frame_Write _ _ | Frame_Resize _ _ _ | Frame_FocusSession _ _ _ | Frame_Kill _ _
  | Frame_CreateWorkspace _ _ _ _ _ _ _ _ | Frame_UpdateLayout _ _ _ _
  | Frame_RenameWorkspace _ _ _ | Frame_UpdateWorkspaceProject _ _ _ _ _ _
  | Frame_KillWorkspace _ _ => true
  | _ => false
  end.

Definition OUTBOUND_QUEUE_BYTES : Z := 2 * 1024 * 1024.

Section Server.
Context {G : Type} `{ScreenGrid G, StateCodec, OS, Unicode, FrameDebug, Identity}.
Abbreviation W := (world G).
Abbreviation T A := (st W A).

(** ** One connection *)

(** Where [serve_connection] is: before its handshake, waiting for a frame, inside a
    request that holds an admission, or past its loop. *)
Inductive phase := Greeting | Waiting | Handling (frame : Frame) | Ending (exiting : bool).

Record conn : Type := mkConn {
  c_generation : Z;
  c_subscriber : SubscriberId;
  c_outbound : Outbound;
  c_active : bool;
  c_phase : phase
}.

Definition set_phase (p : phase) (c : conn) : conn :=
  mkConn (c_generation c) (c_subscriber c) (c_outbound c) (c_active c) p.
Definition set_active (c : conn) : conn :=
  mkConn (c_generation c) (c_subscriber c) (c_outbound c) true (c_phase c).

(** [ConnectionGuard::mark_active]. *)
Definition mark_active (c : conn) : T conn :=
  if c_active c then mret c else connection_went_active;; mret (set_active c).

(** [ConnectionGuard::drop]. *)
Definition guard_drop (active : bool) : T () :=
  (if active then active_connection_closed else mret ());; connection_closed.

(** [outbound.push] of a reply, if there is one; whether the loop goes on. *)
Definition push_reply (outbound : Outbound) (reply : option Frame) : T bool := λ w,
  match reply with
  | None => (true, w)
  | Some frame =>
      let '(kept, qs) := push outbound frame (w_queues w) in (kept, set_events (w_events w) qs w)
  end.

Definition go_on (kept : bool) : phase := if kept then Waiting else Ending false.

Definition declined_shutting_down (frame : Frame) : Frame :=
  Frame_Error (frame_session_id frame) (frame_workspace_id frame) error_code.DECLINED
    "daemon is shutting down" (frame_request_id frame).

Definition shutdown_declined (request_id : option Z) : Frame :=
  bare_error error_code.DECLINED
    "shutdown declined: another state request is in flight, this daemon holds a session with something running in it, or an exited session's last screen"
    request_id.

(** [admit_shutdown]: the table is asked only when it decides. *)
Definition admit_shutdown (force : bool) (control : DaemonControl) : T (bool * DaemonControl) :=
  if force then mret (true, begin_shutdown control)
  else if dc_active_state_requests control =? 0 then
    fine ← expendable;
    mret (if fine : bool then (true, begin_shutdown control) else (false, control))
  else mret (false, control).

(** A frame received by the loop: what it does at once, and where the loop is then. *)
Definition receive (frame : Frame) (c : conn) (control : DaemonControl) : T (conn * DaemonControl) :=
  match frame with
  | Frame_Shutdown force request_id =>
      '(admitted, control) ← admit_shutdown force control;
      if admitted : bool then
        push_reply (c_outbound c) (Some (Frame_ShutdownAck request_id));;
        mret (set_phase (Ending true) c, control)
      else
        kept ← push_reply (c_outbound c) (Some (shutdown_declined request_id));
        mret (set_phase (go_on kept) c, control)
  | frame =>
      if touches_state frame then
        c ← mark_active c;
        let '(admitted, control) := admit_state_request control in
        if admitted : bool then mret (set_phase (Handling frame) c, control)
        else
          kept ← push_reply (c_outbound c) (Some (declined_shutting_down frame));
          mret (set_phase (go_on kept) c, control)
      else
        reply ← handle_frame frame (c_subscriber c) (c_outbound c) (c_generation c);
        kept ← push_reply (c_outbound c) reply;
        mret (set_phase (go_on kept) c, control)
  end.

(** The rest of a request that was admitted. *)
Definition finish (frame : Frame) (c : conn) (control : DaemonControl) : T (conn * DaemonControl) :=
  reply ← handle_frame frame (c_subscriber c) (c_outbound c) (c_generation c);
  kept ← push_reply (c_outbound c) reply;
  mret (set_phase (go_on kept) c, release_state_request control).

(** A frame that did not decode: answered when it can be, and only the failures that
    are not the request's own end the loop. *)
Definition reject (error : ReadFrameError) (c : conn) : T conn :=
  kept ← push_reply (c_outbound c) (rejection_frame error);
  mret (set_phase (go_on (kept && error_is_request_scoped error)) c).

(** The end of the connection. *)
Definition close (exiting : bool) (c : conn) (control : DaemonControl) : T DaemonControl :=
  detach_all (c_subscriber c);;
  guard_drop (c_active c);;
  mret (if exiting then exit control else control).

(** ** The server *)

Record server : Type := mkServer {
  sv_control : DaemonControl;
  sv_world : W;
  sv_conns : gmap N conn;
  sv_next_subscriber : SubscriberId;
  sv_idle_since : option Z
}.

Definition set_conn (n : N) (c : conn) (control : DaemonControl) (w : W) (s : server) : server :=
  mkServer control w (<[n := c]> (sv_conns s)) (sv_next_subscriber s) (sv_idle_since s).
Definition drop_conn (n : N) (control : DaemonControl) (w : W) (s : server) : server :=
  mkServer control w (delete n (sv_conns s)) (sv_next_subscriber s) (sv_idle_since s).

(** One round of the idle watcher, at [now]. *)
Definition watch (after now : Z) (s : server) : server :=
  let w := sv_world s in
  let busy := (0 <? w_connections w) || negb (only_tombstones w) in
  let idle since := mkServer (sv_control s) w (sv_conns s) (sv_next_subscriber s) since in
  if busy then idle None
  else
    let since := default now (sv_idle_since s) in
    if after <=? now - since then
      if (dc_active_state_requests (sv_control s) =? 0) && (w_connections w =? 0) && only_tombstones w
      then mkServer (exit (begin_shutdown (sv_control s))) w (sv_conns s) (sv_next_subscriber s) (Some since)
      else idle None
    else idle (Some since).

(** What happens next, and to whom. *)
Inductive server_event : Type :=
| Accept (n : N)
| Greet (n : N) (first : ReadFrameError + Frame)
| Receive (n : N) (frame : Frame)
| Reject (n : N) (error : ReadFrameError)
| Finish (n : N)
| Close (n : N)
| TableOp (o : op)
| Watch (after now : Z).

Definition no_outbound : Outbound := mkOutbound 0 0.

(** [None]: the server_event cannot happen now. *)
Definition step (e : server_event) (s : server) : option server :=
  let w := sv_world s in
  let control := sv_control s in
  match e with
  | Accept n =>
      match sv_conns s !! n with
      | Some _ => None
      | None =>
          let w1 := st_exec connection_opened w in
          Some (if dc_shutting_down control
                then drop_conn n control (st_exec (guard_drop false) w1) s
                else set_conn n (mkConn 0 0 no_outbound false Greeting) control w1 s)
      end
  | Greet n first =>
      match sv_conns s !! n with
      | Some (mkConn _ _ _ active Greeting) =>
          match handshake first w with
          | ((_, None), w1) => Some (drop_conn n control (st_exec (guard_drop active) w1) s)
          | ((_, Some generation), w1) =>
              let '(outbound, qs) := outbound_new OUTBOUND_QUEUE_BYTES (w_queues w1) in
              let c := mkConn generation (sv_next_subscriber s) outbound active Waiting in
              Some (mkServer control (set_events (w_events w1) qs w1) (<[n := c]> (sv_conns s))
                      (sv_next_subscriber s + 1) (sv_idle_since s))
          end
      | _ => None
      end
  | Receive n frame =>
      match sv_conns s !! n with
      | Some c =>
          match c_phase c with
          | Waiting => let '((c, control), w) := receive frame c control w in Some (set_conn n c control w s)
          | _ => None
          end
      | None => None
      end
  | Reject n error =>
      match sv_conns s !! n with
      | Some c =>
          match c_phase c with
          | Waiting => let '(c, w) := reject error c w in Some (set_conn n c control w s)
          | _ => None
          end
      | None => None
      end
  | Finish n =>
      match sv_conns s !! n with
      | Some c =>
          match c_phase c with
          | Handling frame =>
              let '((c, control), w) := finish frame c control w in Some (set_conn n c control w s)
          | _ => None
          end
      | None => None
      end
  | Close n =>
      match sv_conns s !! n with
      | Some c =>
          match c_phase c with
          | Ending exiting => let '(control, w) := close exiting c control w in Some (drop_conn n control w s)
          | _ => None
          end
      | None => None
      end
  | TableOp o =>
      if counts_connections o then None
      else Some (mkServer control (st_exec (run_op o) w) (sv_conns s) (sv_next_subscriber s) (sv_idle_since s))
  | Watch after now => Some (watch after now s)
  end.

Definition start (w : W) : server := mkServer control_new w ∅ 0 None.

(** ** Counting connections *)

Definition count (p : conn → bool) (m : gmap N conn) : Z :=
  map_fold (λ _ c k, Z.b2z (p c) + k) 0 m.

Lemma count_empty p : count p ∅ = 0.
Proof. apply map_fold_empty. Qed.

Lemma count_insert p m n c : m !! n = None → count p (<[n := c]> m) = Z.b2z (p c) + count p m.
Proof. intros Hn. unfold count. rewrite map_fold_insert_L; [done| |done]. intros. lia. Qed.

Lemma count_delete p m n c : m !! n = Some c → count p m = Z.b2z (p c) + count p (delete n m).
Proof.
  intros Hn. rewrite <- (insert_delete_id m n c) at 1 by done.
  apply count_insert, lookup_delete_eq.
Qed.

Lemma count_replace p m n c c' :
  m !! n = Some c → count p (<[n := c']> m) = Z.b2z (p c') - Z.b2z (p c) + count p m.
Proof.
  intros Hn. rewrite <- insert_delete_eq, count_insert by apply lookup_delete_eq.
  rewrite (count_delete p m n c Hn). lia.
Qed.

Lemma count_nonneg p m : 0 ≤ count p m.
Proof.
  induction m as [|n c m Hn IH] using map_ind; [by rewrite count_empty|].
  rewrite count_insert by done. destruct (p c); simpl; lia.
Qed.

Lemma count_zero p m n c : count p m = 0 → m !! n = Some c → p c = false.
Proof.
  intros Hz Hn. rewrite (count_delete p m n c Hn) in Hz. pose proof (count_nonneg p (delete n m)).
  destruct (p c); simpl in Hz; [lia|done].
Qed.

#[local] Set Default Proof Using "All".

(** ** The counts are the dispatcher's to leave alone *)

Section Requests.
Context (Q : StateStore → Z → Z → Prop).
Context (Qsave : ∀ dir write rs ws s c a, Q s c a → Q (store_save dir write rs ws s).2 c a).

(** The operations the dispatcher calls, as closed computations. *)
Ltac open_call :=
  first [ apply (kept_save Q Qsave) | apply kept_events | apply kept_hub | apply kept_subscribe
        | apply kept_apply | apply kept_require | apply kept_expendable | apply kept_ask
        | apply (kept_install Q Qsave)
        | match goal with |- closed _ ?m => let h := app_head m in unfold h end ].

Lemma handle_frame_kept frame who outbound generation :
  closed (over Q) (handle_frame frame who outbound generation).
Proof. unfold handle_frame. keep_with ltac:(open_call); by apply Qsave. Qed.

Lemma push_reply_kept outbound reply : closed (over Q) (push_reply outbound reply).
Proof. intros w Hw. unfold push_reply. case_match; [by destruct (push _ _ _)|done]. Qed.

Lemma expendable_kept : closed (over Q) (expendable : T bool).
Proof. unfold expendable. keep_with ltac:(open_call); by apply Qsave. Qed.

Lemma detach_all_kept who : closed (over Q) (detach_all who : T ()).
Proof. keep_with ltac:(open_call); by apply Qsave. Qed.

Lemma handshake_kept first : closed (over Q) (handshake first : T (option Frame * option Z)).
Proof. keep_with ltac:(open_call); by apply Qsave. Qed.
End Requests.

Definition counts (w : W) : Z * Z := (w_connections w, w_active w).

(** [m] leaves the two connection counts alone. *)
Definition uncounted {A} (m : T A) : Prop := ∀ w, counts (m w).2 = counts w.

Lemma uncounted_kept {A} (m : T A) :
  (∀ Q, (∀ dir write rs ws s (c a : Z), Q s c a → Q (store_save dir write rs ws s).2 c a) →
        closed (over Q) m) → uncounted m.
Proof.
  intros Hm w. unfold counts.
  assert (over (λ _ c a, (c, a) = counts w) w) as Hw by done.
  by apply (Hm (λ _ c a, (c, a) = counts w)) in Hw.
Qed.

Lemma handle_frame_uncounted frame who outbound generation :
  uncounted (handle_frame frame who outbound generation).
Proof. apply uncounted_kept. intros. by apply handle_frame_kept. Qed.

Lemma push_reply_uncounted outbound reply : uncounted (push_reply outbound reply).
Proof. apply uncounted_kept. intros. by apply push_reply_kept. Qed.

Lemma expendable_uncounted : uncounted (expendable : T bool).
Proof. apply uncounted_kept. intros. by apply expendable_kept. Qed.

Lemma detach_all_uncounted who : uncounted (detach_all who : T ()).
Proof. apply uncounted_kept. intros. by apply detach_all_kept. Qed.

Lemma handshake_uncounted first : uncounted (handshake first).
Proof. apply uncounted_kept. intros. by apply handshake_kept. Qed.

Lemma run_op_uncounted o : counts_connections o = false → uncounted (run_op o : T ()).
Proof. intros Ho. apply uncounted_kept. intros. by apply kept_op. Qed.

Lemma wp_uncounted {A} (m : T A) (Q : A → W → Prop) w :
  uncounted m → (∀ a w', counts w' = counts w → Q a w') → wp m Q w.
Proof. intros Hm HQ. apply HQ, Hm. Qed.

Definition handling (c : conn) : bool := match c_phase c with Handling _ => true | _ => false end.

(** Every open connection is counted, every active one, and every admitted request;
    the way out is taken at most once. *)
Record balanced (s : server) : Prop := {
  bal_open : w_connections (sv_world s) = count (λ _, true) (sv_conns s);
  bal_active : w_active (sv_world s) = count c_active (sv_conns s);
  bal_requests : dc_active_state_requests (sv_control s) = count handling (sv_conns s);
  bal_exit : dc_calls (sv_control s) = if dc_fired (sv_control s) then [UnlinkSocket; RemovePid; OnExit] else [];
  bal_fired : dc_fired (sv_control s) = true → dc_shutting_down (sv_control s) = true
}.

(** How one connection's step may change the counts [n] of connections and of active
    ones, and the control. *)
Definition moves (c c' : conn) (control control' : DaemonControl) (n n' : Z * Z) : Prop :=
  n' = (n.1, n.2 + Z.b2z (c_active c') - Z.b2z (c_active c)) ∧
  dc_active_state_requests control' = dc_active_state_requests control + Z.b2z (handling c') - Z.b2z (handling c) ∧
  dc_fired control' = dc_fired control ∧ dc_calls control' = dc_calls control ∧
  (dc_shutting_down control = true → dc_shutting_down control' = true ∧ (handling c' = true → handling c = true)).

Lemma balanced_move s n c c' control' w' :
  sv_conns s !! n = Some c → moves c c' (sv_control s) control' (counts (sv_world s)) (counts w') →
  balanced s → balanced (set_conn n c' control' w' s).
Proof.
  intros Hn (Hcnt & Hr & Hf & Hc & Hsd) [bo ba br be bf]. unfold counts in Hcnt. injection Hcnt as Ho Ha.
  split; cbn [set_conn sv_world sv_control sv_conns].
  - rewrite Ho, bo, (count_replace _ _ n c) by done. simpl. lia.
  - rewrite Ha, ba, (count_replace _ _ n c) by done. simpl. lia.
  - rewrite Hr, br, (count_replace _ _ n c) by done. lia.
  - by rewrite Hc, Hf.
  - rewrite Hf. intros Hfired. by apply Hsd, bf.
Qed.

(** A phase that is not inside a request. *)
Lemma handling_go_on kept c : handling (set_phase (go_on kept) c) = false.
Proof. by destruct kept. Qed.

Lemma moves_phase p c control n :
  handling c = false → handling (set_phase p c) = false → moves c (set_phase p c) control control n n.
Proof.
  intros Hc Hp. unfold moves. rewrite Hc, Hp. split_and!; try done; [|lia].
  destruct n. cbn [fst snd set_phase c_active]. f_equal. lia.
Qed.

Lemma moves_shutting p c control n :
  handling c = false → handling (set_phase p c) = false →
  moves c (set_phase p c) control (begin_shutdown control) n n.
Proof. intros Hc Hp. destruct (moves_phase p c control n Hc Hp) as (? & ? & ? & ? & _). split_and!; try done. intros _. split; [done|]. by rewrite Hp. Qed.

(** What a received frame moves; a request begins only while the gate is open. *)
Definition received (frame : Frame) (c : conn) (control : DaemonControl) (r : conn * DaemonControl)
    (n n' : Z * Z) : Prop :=
  moves c r.1 control r.2 n n' ∧
  (handling r.1 = true → dc_shutting_down control = false ∧ touches_state frame = true) ∧
  (dc_shutting_down r.2 = true → dc_shutting_down control = true ∨
     ∃ force rid, frame = Frame_Shutdown force rid ∧ (force = true ∨ dc_active_state_requests control = 0)).

Lemma push_and_go frame c control reply w w0 :
  handling c = false → counts w = counts w0 →
  wp (kept ← push_reply (c_outbound c) reply; mret (set_phase (go_on kept) c, control) : T _)
    (λ r w', received frame c control r (counts w0) (counts w')) w.
Proof.
  intros Hc Hw. wp_step. apply wp_uncounted; [apply push_reply_uncounted|]. intros kept w1 Hw1.
  apply wp_ret. rewrite Hw1, Hw. split_and!; simpl.
  - apply moves_phase; [done|apply handling_go_on].
  - by rewrite handling_go_on.
  - by left.
Qed.

Lemma admit_shutdown_spec force control w (Q : bool * DaemonControl → W → Prop) :
  (∀ w', counts w' = counts w → force = true ∨ dc_active_state_requests control = 0 →
         Q (true, begin_shutdown control) w') →
  (∀ w', counts w' = counts w → Q (false, control) w') →
  wp (admit_shutdown force control) Q w.
Proof.
  intros Hin Hout. unfold admit_shutdown. destruct force; [apply wp_ret, Hin; [done|by left]|].
  destruct (dc_active_state_requests control =? 0) eqn:Hz; [|by apply wp_ret, Hout].
  apply Z.eqb_eq in Hz. wp_step. apply wp_uncounted; [apply expendable_uncounted|].
  intros [] w1 Hw1; apply wp_ret; [apply Hin; [done|by right]|by apply Hout].
Qed.

Lemma receive_shutdown force rid c control w :
  handling c = false →
  wp (receive (Frame_Shutdown force rid) c control)
    (λ r w', received (Frame_Shutdown force rid) c control r (counts w) (counts w')) w.
Proof.
  intros Hc. unfold receive. wp_step. apply admit_shutdown_spec; intros w1 Hw1; [intros Hwhy|].
  - wp_step. apply wp_uncounted; [apply push_reply_uncounted|]. intros _ w2 Hw2. apply wp_ret.
    rewrite Hw2, Hw1. split_and!; simpl; [by apply moves_shutting|done|].
    intros _. right. by exists force, rid.
  - by apply push_and_go.
Qed.

Lemma mark_active_spec c w (Q : conn → W → Prop) :
  (∀ w', counts w' = ((counts w).1, (counts w).2 + Z.b2z (negb (c_active c))) →
         Q (set_active c) w') →
  wp (mark_active c) Q w.
Proof.
  intros HQ. unfold mark_active. destruct (c_active c) eqn:Hc.
  - apply wp_ret. destruct c. simpl in Hc. subst. apply HQ. simpl. rewrite Z.add_0_r. apply surjective_pairing.
  - wp_step. unfold connection_went_active. apply wp_modify. apply wp_ret. by apply HQ.
Qed.

Lemma receive_request frame c control w :
  touches_state frame = true → handling c = false →
  wp (receive frame c control) (λ r w', received frame c control r (counts w) (counts w')) w.
Proof.
  intros Ht Hc.
  assert (receive frame c control =
    (c ← mark_active c;
     let '(admitted, control) := admit_state_request control in
     if admitted : bool then mret (set_phase (Handling frame) c, control)
     else kept ← push_reply (c_outbound c) (Some (declined_shutting_down frame));
          mret (set_phase (go_on kept) c, control))) as ->.
  { unfold receive. destruct frame; simpl in Ht |- *; done. }
  wp_step. apply mark_active_spec. intros w1 Hw1.
  unfold admit_state_request. destruct (dc_shutting_down control) eqn:Hsd.
  - wp_step. apply wp_uncounted; [apply push_reply_uncounted|]. intros kept w2 Hw2. apply wp_ret.
    rewrite Hw2, Hw1. split_and!; simpl; [|by rewrite handling_go_on|by left].
    unfold moves. rewrite Hc, handling_go_on. split_and!; try done; [|lia].
    simpl. by destruct (c_active c); simpl; f_equal; lia.
  - apply wp_ret. rewrite Hw1. split_and!; simpl; [|done|intros; congruence].
    unfold moves. rewrite Hc. split_and!; try done; [|cbn [dc_active_state_requests handling c_phase set_phase Z.b2z]; lia|congruence].
    simpl. by destruct (c_active c); simpl; f_equal; lia.
Qed.

Lemma receive_other frame c control w :
  touches_state frame = false → (∀ force rid, frame ≠ Frame_Shutdown force rid) → handling c = false →
  wp (receive frame c control) (λ r w', received frame c control r (counts w) (counts w')) w.
Proof.
  intros Ht Hsh Hc.
  assert (receive frame c control =
    (reply ← handle_frame frame (c_subscriber c) (c_outbound c) (c_generation c);
     kept ← push_reply (c_outbound c) reply; mret (set_phase (go_on kept) c, control))) as ->.
  { unfold receive. destruct frame; simpl in Ht |- *; try done. by destruct (Hsh force request_id). }
  wp_step. apply wp_uncounted; [apply handle_frame_uncounted|]. intros reply w1 Hw1.
  by apply push_and_go.
Qed.

Lemma receive_spec frame c control w :
  handling c = false →
  wp (receive frame c control) (λ r w', received frame c control r (counts w) (counts w')) w.
Proof.
  intros Hc. destruct (touches_state frame) eqn:Ht; [by apply receive_request|].
  destruct frame; try (apply receive_other; done). by apply receive_shutdown.
Qed.

Lemma finish_spec frame c control w :
  c_phase c = Handling frame →
  wp (finish frame c control) (λ r w', moves c r.1 control r.2 (counts w) (counts w') ∧
    handling r.1 = false ∧ dc_shutting_down r.2 = dc_shutting_down control) w.
Proof.
  intros Hc. assert (handling c = true) as Hh by (unfold handling; by rewrite Hc).
  unfold finish. wp_step. apply wp_uncounted; [apply handle_frame_uncounted|]. intros reply w1 Hw1.
  wp_step. apply wp_uncounted; [apply push_reply_uncounted|]. intros kept w2 Hw2. apply wp_ret.
  rewrite Hw2, Hw1. cbn [fst snd]. split_and!; [|apply handling_go_on|done].
  unfold moves. rewrite Hh, handling_go_on. split_and!; try done; [|simpl; lia].
  simpl. rewrite Z.add_simpl_r. apply surjective_pairing.
Qed.

Lemma reject_spec error c control w :
  handling c = false →
  wp (reject error c) (λ c' w', moves c c' control control (counts w) (counts w') ∧
    handling c' = false) w.
Proof.
  intros Hc. unfold reject. wp_step. apply wp_uncounted; [apply push_reply_uncounted|].
  intros kept w1 Hw1. apply wp_ret. rewrite Hw1.
  split; [apply moves_phase; [done|]|]; apply handling_go_on.
Qed.

Lemma guard_drop_spec active w (Q : () → W → Prop) :
  (∀ w', counts w' = ((counts w).1 - 1, (counts w).2 - Z.b2z active) → Q () w') →
  wp (guard_drop active) Q w.
Proof.
  intros HQ. unfold guard_drop, connection_closed, active_connection_closed. wp_step.
  destruct active; [apply wp_modify|apply wp_ret]; apply wp_modify, HQ; unfold counts; simpl; f_equal; lia.
Qed.

Lemma exit_facts control :
  dc_active_state_requests (exit control) = dc_active_state_requests control ∧
  dc_shutting_down (exit control) = true ∧ dc_fired (exit control) = true ∧
  (dc_calls control = (if dc_fired control then [UnlinkSocket; RemovePid; OnExit] else []) →
   dc_calls (exit control) = [UnlinkSocket; RemovePid; OnExit]).
Proof. unfold exit. destruct control as [[] sd a calls]; simpl; split_and!; try done. by intros ->. Qed.

Definition drop_of (s : server) (n : N) (c : conn) (control' : DaemonControl) (w' : W) : Prop :=
  counts w' = ((counts (sv_world s)).1 - 1, (counts (sv_world s)).2 - Z.b2z (c_active c)) ∧
  (control' = sv_control s ∨ control' = exit (sv_control s)).

Lemma balanced_drop s n c control' w' :
  sv_conns s !! n = Some c → handling c = false → drop_of s n c control' w' →
  balanced s → balanced (drop_conn n control' w' s).
Proof.
  intros Hn Hc [Hcnt Hctl] [bo ba br be bf]. unfold counts in Hcnt. injection Hcnt as Ho Ha.
  destruct (exit_facts (sv_control s)) as (Er & Es & Ef & Ec).
  split; cbn [drop_conn sv_world sv_control sv_conns].
  - rewrite Ho. simpl. rewrite bo, (count_delete _ _ n c Hn). simpl. lia.
  - rewrite Ha. simpl. rewrite ba, (count_delete _ _ n c Hn). lia.
  - assert (dc_active_state_requests control' = dc_active_state_requests (sv_control s)) as ->
      by (by destruct Hctl as [->| ->]).
    rewrite br, (count_delete _ _ n c Hn), Hc. done.
  - destruct Hctl as [->| ->]; [done|]. rewrite Ef. by apply Ec.
  - destruct Hctl as [->| ->]; [done|]. by rewrite Es.
Qed.

Lemma close_spec exiting c control w :
  wp (close exiting c control) (λ control' w',
    counts w' = ((counts w).1 - 1, (counts w).2 - Z.b2z (c_active c)) ∧
    control' = if exiting then exit control else control) w.
Proof.
  unfold close. wp_step. apply wp_uncounted; [apply detach_all_uncounted|]. intros [] w1 Hw1.
  wp_step. apply guard_drop_spec. intros w2 Hw2. apply wp_ret. by rewrite Hw2, Hw1.
Qed.

(** ** Runs *)

Inductive runs (allowed : server_event → Prop) (w0 : W) : server → Prop :=
| runs_start : runs allowed w0 (start w0)
| runs_step s e s' : runs allowed w0 s → allowed e → step e s = Some s' → runs allowed w0 s'.

(** What every step does to the invariant and to the gate. *)
Definition stepped (e : server_event) (s s' : server) : Prop :=
  (balanced s → balanced s') ∧
  (∀ n c', sv_conns s' !! n = Some c' → handling c' = true →
     (∃ c, sv_conns s !! n = Some c ∧ handling c = true) ∨
     dc_shutting_down (sv_control s) = false ∧
       ∃ frame, e = Receive n frame ∧ touches_state frame = true) ∧
  (dc_shutting_down (sv_control s) = true → dc_shutting_down (sv_control s') = true) ∧
  (dc_shutting_down (sv_control s') = true → dc_shutting_down (sv_control s) = true ∨
     (dc_active_state_requests (sv_control s) = 0 ∧
      ∀ n frame, e = Receive n frame → touches_state frame = false) ∨
     (∃ n rid, e = Receive n (Frame_Shutdown true rid)) ∨ ∃ n c, sv_conns s !! n = Some c ∧ c_phase c = Ending true).

Lemma set_conn_handling s n c c' control w m d :
  sv_conns s !! n = Some c → sv_conns (set_conn n c' control w s) !! m = Some d → handling d = true →
  (m = n ∧ handling c' = true) ∨ ∃ c, sv_conns s !! m = Some c ∧ handling c = true.
Proof.
  intros Hn Hm Hd. cbn [set_conn sv_conns] in Hm. destruct (decide (m = n)) as [->|].
  - rewrite lookup_insert_eq in Hm. injection Hm as ->. by left.
  - rewrite lookup_insert_ne in Hm by done. right. by exists d.
Qed.

Lemma drop_conn_handling s n control w m d :
  sv_conns (drop_conn n control w s) !! m = Some d → handling d = true →
  ∃ c, sv_conns s !! m = Some c ∧ handling c = true.
Proof. cbn [drop_conn sv_conns]. intros [_ Hm]%lookup_delete_Some Hd. by exists d. Qed.

Lemma stepped_receive n frame c s :
  sv_conns s !! n = Some c → c_phase c = Waiting →
  let '((c', control), w) := receive frame c (sv_control s) (sv_world s) in
  stepped (Receive n frame) s (set_conn n c' control w s).
Proof.
  intros Hn Hp. assert (handling c = false) as Hc by (unfold handling; by rewrite Hp).
  pose proof (receive_spec frame c (sv_control s) (sv_world s) Hc) as Ho. unfold wp in Ho.
  destruct (receive frame c (sv_control s) (sv_world s)) as [[c' control] w]. simpl in Ho.
  destruct Ho as (Hm & Hbegin & Hgate). split_and!.
  - intros Hb. by eapply balanced_move.
  - intros m d Hd Hh. destruct (set_conn_handling _ _ _ _ _ _ _ _ Hn Hd Hh) as [[-> Hh']|]; [|by left].
    destruct (Hbegin Hh') as [? ?]. right. split; [done|]. by exists frame.
  - intros Hsd. by apply Hm.
  - cbn [set_conn sv_control]. intros Hsd. destruct (Hgate Hsd) as [|(force & rid & -> & [->|])]; [by left| |].
    + right; right; left. by exists n, rid.
    + right; left. split; [done|]. by intros m f [= -> <-].
Qed.

(** A step of one connection that begins nothing. *)
Lemma stepped_quiet e n c c' control w s :
  sv_conns s !! n = Some c → handling c' = false →
  moves c c' (sv_control s) control (counts (sv_world s)) (counts w) →
  dc_shutting_down control = dc_shutting_down (sv_control s) →
  stepped e s (set_conn n c' control w s).
Proof.
  intros Hn Hc Hm Hsd. split_and!.
  - intros Hb. by eapply balanced_move.
  - intros m d Hd Hh. destruct (set_conn_handling _ _ _ _ _ _ _ _ Hn Hd Hh) as [[-> Hh']|]; [congruence|by left].
  - cbn [set_conn sv_control]. congruence.
  - cbn [set_conn sv_control]. intros. left. congruence.
Qed.

Lemma stepped_drop e n c control w s :
  sv_conns s !! n = Some c → handling c = false → drop_of s n c control w →
  control = sv_control s ∨ c_phase c = Ending true →
  stepped e s (drop_conn n control w s).
Proof.
  intros Hn Hc Hd Hex. split_and!.
  - intros Hb. by eapply balanced_drop.
  - intros m d Hm Hh. left. by eapply drop_conn_handling.
  - cbn [drop_conn sv_control]. destruct (exit_facts (sv_control s)) as (_ & Es & _).
    destruct Hd as [_ [->| ->]]; [done|by rewrite Es].
  - cbn [drop_conn sv_control]. intros Hsd. destruct Hex as [->|Hp]; [by left|].
    right; right; right. by exists n, c.
Qed.

Lemma opened_counts (w : W) : counts (st_exec connection_opened w) = (w_connections w + 1, w_active w).
Proof. done. Qed.

Lemma turned_away_counts (w : W) :
  counts (st_exec (guard_drop false) (st_exec connection_opened w)) = counts w.
Proof.
  unfold st_exec. apply (guard_drop_spec false _ (λ _ w', counts w' = counts w)).
  intros w' ->. unfold counts. simpl. f_equal; lia.
Qed.

Lemma stepped_accept n s s' : step (Accept n) s = Some s' → stepped (Accept n) s s'.
Proof.
  cbn [step]. destruct (sv_conns s !! n) as [c|] eqn:Hn; [done|].
  pose proof (turned_away_counts (sv_world s)) as Haway.
  pose proof (f_equal fst Haway) as Hao. pose proof (f_equal snd Haway) as Haa.
  pose proof (opened_counts (sv_world s)) as Hopen.
  pose proof (f_equal fst Hopen) as Hoo. pose proof (f_equal snd Hopen) as Hoa.
  unfold counts in Hao, Haa, Hoo, Hoa. cbn [fst snd] in Hao, Haa, Hoo, Hoa.
  destruct (dc_shutting_down (sv_control s)) eqn:Hsd; intros [= <-].
  - split_and!; cbn [drop_conn sv_control sv_conns]; rewrite ?Hsd; try done; [| |by left].
    + intros [bo ba br be bf]. split; cbn [drop_conn sv_world sv_control sv_conns];
        rewrite ?delete_id by done; congruence.
    + intros m d. rewrite delete_id by done. intros Hm Hh. left. by exists d.
  - split_and!; cbn [set_conn sv_control sv_conns]; rewrite ?Hsd; try done.
    + intros [bo ba br be bf].
      split; cbn [set_conn sv_world sv_control sv_conns]; rewrite ?count_insert by done; try done.
      rewrite Hoo, bo. simpl. lia.
    + intros m d Hm Hh. apply lookup_insert_Some in Hm as [[_ <-]|[_ Hm]]; [done|]. left. by exists d.
Qed.

Lemma stepped_greet n first s s' : step (Greet n first) s = Some s' → stepped (Greet n first) s s'.
Proof.
  cbn [step]. destruct (sv_conns s !! n) as [[g who out active p]|] eqn:Hn; [|done].
  destruct p; try done.
  pose proof (handshake_uncounted first (sv_world s)) as Hcnt.
  destruct (handshake first (sv_world s)) as [[reply [generation|]] w1]; cbn [snd] in Hcnt.
  - destruct (outbound_new OUTBOUND_QUEUE_BYTES (w_queues w1)) as [outbound qs]. intros [= <-].
    assert (stepped (Greet n first) s (set_conn n (mkConn generation (sv_next_subscriber s) outbound active Waiting)
      (sv_control s) (set_events (w_events w1) qs w1) s)) as (Hb & Hh & Hs & Ht).
    { eapply stepped_quiet; [exact Hn|done| |done]. unfold moves.
      change (counts (set_events _ _ _)) with (counts w1). rewrite Hcnt. split_and!; try done; [|simpl; lia].
      simpl. rewrite Z.add_simpl_r. apply surjective_pairing. }
    split_and!; [|exact Hh|exact Hs|exact Ht].
    intros Hb0. destruct (Hb Hb0) as [bo ba br be bf]. by split.
  - intros [= <-]. eapply stepped_drop; [exact Hn|done| |by left]. split; [|by left].
    unfold st_exec. rewrite <- Hcnt. by apply (guard_drop_spec active w1 (λ _ w', counts w' = ((counts w1).1 - 1, (counts w1).2 - Z.b2z active))).
Qed.

Lemma stepped_watch after now s : stepped (Watch after now) s (watch after now s).
Proof.
  unfold watch. set (busy := (0 <? _) || _). set (due := after <=? _). set (still := (_ =? 0) && _ && _).
  assert (∀ since, stepped (Watch after now) s (mkServer (sv_control s) (sv_world s) (sv_conns s)
    (sv_next_subscriber s) since)) as Hidle.
  { intros since. split_and!; [by intros [bo ba br be bf]; split| |done|by left].
    intros m d Hm Hh. left. by exists d. }
  destruct busy; [apply Hidle|]. destruct due; [|apply Hidle]. destruct still eqn:Hstill; [|apply Hidle].
  subst still. apply andb_true_iff in Hstill as [[Ha%Z.eqb_eq _]%andb_true_iff _].
  destruct (exit_facts (begin_shutdown (sv_control s))) as (Er & Es & Ef & Ec).
  split_and!; cbn [sv_control sv_conns].
  - intros [bo ba br be bf]. split; cbn [sv_control sv_conns sv_world]; try done.
    + by rewrite Er.
    + rewrite Ef. by apply Ec.
  - intros m d Hm Hh. left. by exists d.
  - done.
  - intros _. by right; left.
Qed.

Lemma stepped_op o s s' : step (TableOp o) s = Some s' → stepped (TableOp o) s s'.
Proof.
  simpl. destruct (counts_connections o) eqn:Ho; [done|]. intros [= <-].
  pose proof (run_op_uncounted o Ho (sv_world s)) as Hc. unfold counts in Hc. injection Hc as Hco Hca.
  split_and!; [|intros m d Hm Hh; left; by exists d|done|by left].
  intros [bo ba br be bf]. split; cbn [sv_world sv_control sv_conns]; try done; unfold st_exec; congruence.
Qed.

Lemma step_stepped e s s' : step e s = Some s' → stepped e s s'.
Proof.
  destruct e as [n|n first|n frame|n error|n|n|o|after now].
  - apply stepped_accept.
  - apply stepped_greet.
  - simpl. destruct (sv_conns s !! n) as [c|] eqn:Hn; [|done]. destruct (c_phase c) eqn:Hp; try done.
    pose proof (stepped_receive n frame c s Hn Hp) as Hs.
    destruct (receive frame c (sv_control s) (sv_world s)) as [[c' control] w]. by intros [= <-].
  - simpl. destruct (sv_conns s !! n) as [c|] eqn:Hn; [|done]. destruct (c_phase c) eqn:Hp; try done.
    pose proof (reject_spec error c (sv_control s) (sv_world s)) as Hs. unfold wp in Hs.
    destruct (reject error c (sv_world s)) as [c' w]. intros [= <-].
    assert (handling c = false) as Hc by (unfold handling; by rewrite Hp).
    destruct (Hs Hc) as [Hm Hh]. by eapply stepped_quiet.
  - simpl. destruct (sv_conns s !! n) as [c|] eqn:Hn; [|done]. destruct (c_phase c) as [| |frame|] eqn:Hp; try done.
    pose proof (finish_spec frame c (sv_control s) (sv_world s) Hp) as Hs. unfold wp in Hs.
    destruct (finish frame c (sv_control s) (sv_world s)) as [[c' control] w]. intros [= <-].
    destruct Hs as (Hm & Hh & Hsd). by eapply stepped_quiet.
  - simpl. destruct (sv_conns s !! n) as [c|] eqn:Hn; [|done]. destruct (c_phase c) as [| | |exiting] eqn:Hp; try done.
    pose proof (close_spec exiting c (sv_control s) (sv_world s)) as Hs. unfold wp in Hs.
    destruct (close exiting c (sv_control s) (sv_world s)) as [control w]. intros [= <-].
    destruct Hs as [Hcnt Hctl]. simpl in Hcnt, Hctl.
    eapply stepped_drop; [exact Hn|unfold handling; by rewrite Hp| |].
    + split; [done|]. destruct exiting; [by right|by left].
    + destruct exiting; [by right|by left].
  - apply stepped_op.
  - intros [= <-]. apply stepped_watch.
Qed.

(** *** Who is on the way out *)

Definition leaving (c : conn) : bool := match c_phase c with Ending exiting => exiting | _ => false end.

Lemma leaving_go_on kept c : leaving (set_phase (go_on kept) c) = false.
Proof. by destruct kept. Qed.

Definition leaves_shut (r : conn * DaemonControl) : Prop := leaving r.1 = true → dc_shutting_down r.2 = true.

Lemma push_and_stay c control reply :
  gives leaves_shut (kept ← push_reply (c_outbound c) reply; mret (set_phase (go_on kept) c, control) : T _).
Proof.
  apply gives_bind. intros kept. apply gives_ret. unfold leaves_shut. cbn [fst]. by rewrite leaving_go_on.
Qed.

Lemma admit_shutdown_gives force control :
  gives (λ r : bool * DaemonControl, r.1 = true → dc_shutting_down r.2 = true) (admit_shutdown force control).
Proof.
  unfold admit_shutdown. destruct force; [by apply gives_ret|].
  destruct (_ =? 0); [|by apply gives_ret]. apply gives_bind. intros []; by apply gives_ret.
Qed.

Lemma receive_leaves frame c control : gives leaves_shut (receive frame c control).
Proof.
  destruct frame; unfold receive; cbn [touches_state];
    lazymatch goal with
    | |- gives _ (admit_shutdown _ _ ≫= _) => idtac
    | _ => apply gives_bind; intros; try apply push_and_stay
    end;
    try (destruct (admit_state_request control) as [[] control']; [by apply gives_ret|apply push_and_stay]).
  all: eapply gives_then; [apply admit_shutdown_gives|]. intros [admitted control'] Ha. simpl in Ha.
  destruct admitted; [|apply push_and_stay]. apply gives_bind. intros _. apply gives_ret.
  intros _. by apply Ha.
Qed.

Lemma step_leaving e s s' m d :
  step e s = Some s' → sv_conns s' !! m = Some d → leaving d = true →
  (∃ c, sv_conns s !! m = Some c ∧ leaving c = true) ∨ dc_shutting_down (sv_control s') = true.
Proof.
  assert (∀ n c' control w, (leaving c' = true → dc_shutting_down control = true) →
    sv_conns (set_conn n c' control w s) !! m = Some d → leaving d = true →
    (∃ c, sv_conns s !! m = Some c ∧ leaving c = true) ∨
    dc_shutting_down (sv_control (set_conn n c' control w s)) = true) as Hset.
  { intros n c' control w Hc Hm Hd. cbn [set_conn sv_conns] in Hm.
    apply lookup_insert_Some in Hm as [[_ <-]|[_ Hm]]; [right; by apply Hc|left; by exists d]. }
  assert (∀ n control w, sv_conns (drop_conn n control w s) !! m = Some d → leaving d = true →
    ∃ c, sv_conns s !! m = Some c ∧ leaving c = true) as Hdrop.
  { intros n control w Hm Hd. cbn [drop_conn sv_conns] in Hm.
    apply lookup_delete_Some in Hm as [_ Hm]. by exists d. }
  intros Hstep Hm Hd.
  destruct e as [n|n first|n frame|n error|n|n|o|after now]; cbn [step] in Hstep.
  - destruct (sv_conns s !! n); [done|]. case_match; injection Hstep as <-.
    + left. by eapply Hdrop.
    + by eapply Hset.
  - destruct (sv_conns s !! n) as [[g who out active []]|]; try done.
    destruct (handshake first (sv_world s)) as [[reply [generation|]] w1].
    + destruct (outbound_new _ _) as [outbound qs]. injection Hstep as <-. cbn [sv_conns] in Hm.
      apply lookup_insert_Some in Hm as [[_ <-]|[_ Hm]]; [done|left; by exists d].
    + injection Hstep as <-. left. by eapply Hdrop.
  - destruct (sv_conns s !! n) as [c|]; [|done]. destruct (c_phase c); try done.
    pose proof (receive_leaves frame c (sv_control s) (sv_world s)) as Hl.
    destruct (receive _ _ _ _) as [[c' control] w]. injection Hstep as <-. by eapply Hset.
  - destruct (sv_conns s !! n) as [c|]; [|done]. destruct (c_phase c); try done.
    unfold reject in Hstep. rewrite st_bind_unfold in Hstep. injection Hstep as <-.
    eapply Hset; [|exact Hm|done]. by rewrite leaving_go_on.
  - destruct (sv_conns s !! n) as [c|]; [|done]. destruct (c_phase c); try done.
    unfold finish in Hstep. rewrite !st_bind_unfold in Hstep. injection Hstep as <-.
    eapply Hset; [|exact Hm|done]. by rewrite leaving_go_on.
  - destruct (sv_conns s !! n) as [c|]; [|done]. destruct (c_phase c); try done.
    destruct (close _ _ _ _) as [control w]. injection Hstep as <-. left. by eapply Hdrop.
  - destruct (counts_connections o); [done|]. injection Hstep as <-. left. by exists d.
  - injection Hstep as <-. left. exists d. split; [|done]. revert Hm. unfold watch. by repeat case_match.
Qed.

(** ** Properties *)

(** The counters are balanced in every run, however connections, requests, session
    threads and the idle watcher interleave and however each connection ends: the table
    counts every open connection and every active one, the gate counts exactly the
    requests in flight, and the endpoint, the pid file and the process are given up at
    most once. *)
Theorem counters_are_balanced allowed w0 s : counts w0 = (0, 0) → runs allowed w0 s → balanced s.
Proof.
  intros Hw. induction 1 as [|s e s' _ IH _ Hstep].
  - unfold counts in Hw. injection Hw as Hc Ha. split; cbn [start sv_world sv_control sv_conns];
      rewrite ?count_empty; done.
  - by apply (step_stepped e s s' Hstep).
Qed.

Lemma step_handling e s s' n c' :
  step e s = Some s' → sv_conns s' !! n = Some c' → handling c' = true →
  (∃ c, sv_conns s !! n = Some c ∧ handling c = true) ∨
  dc_shutting_down (sv_control s) = false ∧ ∃ frame, e = Receive n frame ∧ touches_state frame = true.
Proof. intros Hstep. by apply (step_stepped e s s' Hstep). Qed.

(** Nothing slips in behind the gate: once the daemon is shutting down it stays so,
    and a request inside the table is one that was already inside; otherwise a request
    gets inside only by a frame that touches state. *)
Theorem nothing_begins_behind_the_gate e s s' n c' :
  step e s = Some s' → sv_conns s' !! n = Some c' → handling c' = true →
  (dc_shutting_down (sv_control s) = true → dc_shutting_down (sv_control s') = true) ∧
  ((∃ c, sv_conns s !! n = Some c ∧ handling c = true) ∨
   dc_shutting_down (sv_control s) = false ∧ ∃ frame, e = Receive n frame ∧ touches_state frame = true).
Proof.
  intros Hstep Hn Hh. split; [by apply (step_stepped e s s' Hstep)|by eapply step_handling].
Qed.

(** Everything but a forced shutdown. *)
Definition polite (e : server_event) : Prop := ∀ n rid, e ≠ Receive n (Frame_Shutdown true rid).

(** C7. A polite way out waits for the requests: unless somebody forced it, a daemon
    that is shutting down — because an upgrade asked and was admitted, or because it
    idled out — has no request inside the table, and none will begin. *)
Theorem polite_shutdown_waits_for_requests w0 s n c :
  counts w0 = (0, 0) → runs polite w0 s → dc_shutting_down (sv_control s) = true →
  sv_conns s !! n = Some c → handling c = false.
Proof.
  intros Hw Hr.
  cut (balanced s ∧ (∀ m d, sv_conns s !! m = Some d → leaving d = true → dc_shutting_down (sv_control s) = true) ∧
       (dc_shutting_down (sv_control s) = true → ∀ m d, sv_conns s !! m = Some d → handling d = false)).
  { intros (_ & _ & Hq) Hsd Hn. by eapply Hq. }
  clear n c. induction Hr as [|s e s' Hr (Hb & Hl & Hq) He Hstep].
  - unfold counts in Hw. injection Hw as Hc Ha. split_and!; [|intros m d Hm; done|done].
    split; cbn [start sv_world sv_control sv_conns]; rewrite ?count_empty; done.
  - pose proof (step_stepped e s s' Hstep) as (Hb' & Hh & Hs & Ht).
    split_and!; [by apply Hb'| |].
    + intros m d Hm Hd. destruct (step_leaving e s s' m d Hstep Hm Hd) as [(c & Hc & Hcl)|]; [|done].
      apply Hs. by eapply Hl.
    + intros Hsd m d Hm. destruct (handling d) eqn:Hd; [exfalso|done].
      assert (dc_shutting_down (sv_control s) = true ∨
        (dc_active_state_requests (sv_control s) = 0 ∧
         ∀ n frame, e = Receive n frame → touches_state frame = false)) as Hwhy.
      { destruct (Ht Hsd) as [|[|[(n & rid & ->)|(n & c & Hn & Hp)]]]; [by left|by right|by destruct (He n rid)|].
        left. eapply Hl; [exact Hn|]. unfold leaving. by rewrite Hp. }
      destruct (Hh m d Hm Hd) as [(c & Hc & Hch)|(Hsd' & frame & -> & Htouch)].
      * destruct Hwhy as [Hw'|[Hz _]]; [by rewrite (Hq Hw' m c Hc) in Hch|].
        rewrite (bal_requests s Hb) in Hz. by rewrite (count_zero _ _ _ _ Hz Hc) in Hch.
      * destruct Hwhy as [|[_ Hno]]; [congruence|]. by rewrite (Hno m frame eq_refl) in Htouch.
Qed.

(** What a request that does not touch state may change: who is subscribed, and what is
    queued for clients. *)
Definition only_told (w w' : W) : Prop :=
  w_sessions w' = w_sessions w ∧ w_workspaces w' = w_workspaces w ∧ w_pending w' = w_pending w ∧
  w_store w' = w_store w ∧ w_hubs w' = w_hubs w ∧ w_activities w' = w_activities w ∧
  w_ptys w' = w_ptys w ∧ w_signals w' = w_signals w ∧ counts w' = counts w.

(** [touches_state] is right: a frame it lets past the gate leaves the sessions, the
    workspaces, the reservations, the ledger, every screen, every pty and every process
    as they were. *)
Theorem untouching_requests_change_nothing frame who outbound generation w :
  touches_state frame = false →
  only_told w (st_exec (handle_frame frame who outbound generation) w).
Proof.
  intros Ht. unfold st_exec, handle_frame, only_told, counts. rewrite st_bind_unfold. cbn [fst snd st_get].
  destruct frame; try done; cbn match; rewrite ?st_bind_unfold; try done.
  unfold subscribe. simpl. by destruct (push_all _ _ _).
Qed.

(** The client went away: what its connection then reads. *)
Definition client_gone : ReadFrameError := Transport (ReadingLength UnexpectedEof).

Fixpoint run_events (es : list server_event) (s : server) : option server :=
  match es with
  | [] => Some s
  | e :: es => s' ← step e s; run_events es s'
  end.

(** [es] take the connection [n] away and leave the others. *)
Definition lets_go (n : N) (es : list server_event) (s : server) : Prop :=
  ∃ s', run_events es s = Some s' ∧ sv_conns s' = delete n (sv_conns s).

Lemma ending_goes n c s exiting :
  sv_conns s !! n = Some c → c_phase c = Ending exiting → lets_go n [Close n] s.
Proof.
  intros Hn Hp. unfold lets_go. cbn [run_events mbind option_bind step]. rewrite Hn, Hp.
  destruct (close _ _ _ _) as [control w]. by eexists.
Qed.

Lemma lets_go_after n e es s c control w :
  step e s = Some (set_conn n c control w s) → lets_go n es (set_conn n c control w s) →
  lets_go n (e :: es) s.
Proof.
  intros Hstep (s' & Hs & Hc). exists s'. split.
  - cbn [run_events]. rewrite Hstep. exact Hs.
  - rewrite Hc. cbn [set_conn sv_conns]. by rewrite delete_insert_eq.
Qed.

Lemma waiting_goes n c s :
  sv_conns s !! n = Some c → c_phase c = Waiting → lets_go n [Reject n client_gone; Close n] s.
Proof.
  intros Hn Hp. eapply (lets_go_after n _ _ s (set_phase (Ending false) c)).
  - cbn [step]. rewrite Hn, Hp. unfold reject. rewrite st_bind_unfold.
    cbn [rejection_frame client_gone error_is_request_scoped]. rewrite andb_false_r. reflexivity.
  - apply (ending_goes n (set_phase (Ending false) c) _ false); [|done].
    cbn [set_conn sv_conns]. by rewrite lookup_insert_eq.
Qed.

(** A client that goes away never keeps its connection: wherever the connection is,
    at most three steps of its own remove it and no other — and a request it was inside
    is finished first. *)
Theorem a_gone_client_is_let_go n c s :
  sv_conns s !! n = Some c →
  ∃ es, (length es ≤ 3)%nat ∧ lets_go n es s ∧ (handling c = true → head es = Some (Finish n)).
Proof.
  intros Hn. unfold handling. destruct (c_phase c) as [| |frame|exiting] eqn:Hp.
  - exists [Greet n (inl client_gone)]. split_and!; [simpl; lia| |done].
    destruct c as [g who out active p]. simpl in Hp. subst p.
    unfold lets_go. cbn [run_events mbind option_bind step]. rewrite Hn. cbn match. by eexists.
  - eexists. split_and!; [|by eapply waiting_goes|done]. simpl. lia.
  - destruct (finish frame c (sv_control s) (sv_world s)) as [[c' control] w] eqn:Hf.
    assert (step (Finish n) s = Some (set_conn n c' control w s)) as Hstep
      by (cbn [step]; by rewrite Hn, Hp, Hf).
    assert (sv_conns (set_conn n c' control w s) !! n = Some c') as Hn'
      by (cbn [set_conn sv_conns]; by rewrite lookup_insert_eq).
    unfold finish in Hf. rewrite !st_bind_unfold in Hf. injection Hf as Hc' _ _.
    match type of Hc' with set_phase (go_on ?k) c = c' => destruct k end.
    + exists [Finish n; Reject n client_gone; Close n]. split_and!; [simpl; lia| |done].
      eapply lets_go_after; [exact Hstep|]. eapply waiting_goes; [exact Hn'|by rewrite <- Hc'].
    + exists [Finish n; Close n]. split_and!; [simpl; lia| |done].
      eapply lets_go_after; [exact Hstep|]. eapply ending_goes; [exact Hn'|by rewrite <- Hc'].
  - eexists. split_and!; [|by eapply ending_goes|done]. simpl. lia.
Qed.
End Server.
