(* ===== verification/Interleave.v ===== *)
(** * Interleaved critical sections

    [SessionTable]'s operations are sequences of critical sections; the locks order
    them, but two operations may interleave between them. [update_layout] holds
    [persisting] from its check to its rollback; [remove_session] takes a row, and
    its tab, without it. *)

From S2P Require Import Prelude Text Layout Proto Outbound Stream Host Hub Ledger World Table Sessions TableSpecs TableInv Layouts Kills.
From stdpp Require Import options.
Open Scope Z_scope.

Section Interleave.
Context {G : Type} `{ScreenGrid G, StateCodec, OS}.
Abbreviation W := (world G).
Abbreviation T A := (st W A).
Implicit Types w : W.

(** The critical section of [remove_session]: row, events and tab under the
    session lock. *)
Definition take_session (id : SessionId) : T (option Session) :=
  w ← st_get;
  match w_sessions w !! id with
  | None => mret None
  | Some session =>
      st_modify (λ w, set_sessions (delete id (w_sessions w)) w);;
      publish_ending (s_handle session) (Frame_Removed id);;
      scrub_layout (s_workspace session) id;;
      mret (Some session)
  end.

(** What follows it, without the session lock. *)
Definition finish_removal (id : SessionId) (session : Session) : T (option (result string ())) :=
  kill_process session;; release id;; r ← persist; mret (Some r).

Lemma remove_session_sections id w :
  remove_session id w =
  (taken ← take_session id;
   match taken with None => mret None | Some session => finish_removal id session end) w.
Proof.
  unfold remove_session, take_session, finish_removal, mbind, st_bind, st_get.
  destruct (w_sessions w !! id) as [s|]; [|done]. destruct (st_modify _ w) as [u w1].
  destruct (publish_ending _ _ w1) as [u' w2]. by destruct (scrub_layout _ _ w2).
Qed.

(** One interleaving of [update_layout] with a kill: the kill's critical section runs
    between the write's first critical section and its save. *)
Definition update_layout_during_kill (id : string) (layout : LayoutDoc) (rev : Z)
    (killed : SessionId) : T (TableResult ()) :=
  previous ←? apply_layout id layout rev;
  take_session killed;;
  recorded ← persist_serialized;
  match recorded with
  | Err err =>
      rollback_layout id previous;;
      fail (persist_failed ("could not record the layout of workspace " +:+ id +:+ ": " +:+ err))
  | Ok _ =>
      w ← st_get;
      publish (Frame_LayoutChanged id layout rev (persisted w) None);;
      mret (Ok ())
  end.

Lemma take_session_outcome id s w :
  w_sessions w !! id = Some s →
  wp (take_session id) (λ r w', r = Some s ∧ w_sessions w' = delete id (w_sessions w) ∧
    w_workspaces w' = alter (scrubbed id) (s_workspace s) (w_workspaces w)) w.
Proof.
  intros Hs. unfold take_session. wp_step. apply wp_get. rewrite Hs.
  wp_step. apply wp_modify. wp_step. apply publish_ending_outcome.
  intros e qs hubs qs' Hdom Hend _. simpl in Hdom.
  wp_step. apply wp_scrub_layout. intros e2 qs2 _. by apply wp_ret.
Qed.

(** C40. A layout write that races a kill and then fails to reach the disk puts back a
    layout from before the kill: the workspace names a session that is gone, in a
    table that is no longer well formed, and its revision is the old one, although
    every subscriber has seen a later one. *)
Theorem failed_layout_write_resurrects_a_killed_tab (id : string) (layout : LayoutDoc) (rev : Z)
    (killed : SessionId) (i : WorkspaceInfo) (s : Session) (w : W)
    (Hi : w_workspaces w !! id = Some i) (Hs : w_sessions w !! killed = Some s)
    (Hhome : s_workspace s = id) (Htab : killed ∈ terminal_sessions (wi_layout i))
    (Hrev : wi_layout_rev i < rev) (Hlayout : layout_at_home w id layout) :
  let '(r, w') := update_layout_during_kill id layout rev killed w in
  ∀ e, r = Err e →
    w_sessions w' !! killed = None ∧ ¬ table_wf w' ∧
    ∃ i', w_workspaces w' !! id = Some i' ∧ killed ∈ terminal_sessions (wi_layout i') ∧
      wi_layout_rev i' = wi_layout_rev i.
Proof.
  cut (wp (update_layout_during_kill id layout rev killed) (λ r w', ∀ e, r = Err e →
    w_sessions w' !! killed = None ∧ ∃ i', w_workspaces w' !! id = Some i' ∧
      killed ∈ terminal_sessions (wi_layout i') ∧ wi_layout_rev i' = wi_layout_rev i) w).
  { unfold wp. destruct (update_layout_during_kill id layout rev killed w) as [r w']. simpl.
    intros Ho e He. destruct (Ho e He) as (Hn & i' & Hi' & Hin & Hr). split_and!; [done| |by exists i'].
    intros Hwf. destruct (wf_layout w' Hwf id i' killed Hi' Hin) as (t & Ht & _). congruence. }
  unfold update_layout_during_kill. wp_step. unfold wp at 1, apply_layout. rewrite Hi.
  assert ((rev <=? wi_layout_rev i) = false) as -> by lia.
  assert (layout_refusal (w_sessions w) id layout = None) as -> by by apply layout_refusal_None.
  cbn [fst snd]. wp_step. eapply wp_mono; [by apply take_session_outcome|].
  intros _ w2 (_ & Hs2 & Hw2). cbn [w_sessions w_workspaces set_workspaces] in Hs2, Hw2.
  wp_step. apply wp_persist. intros [a|err] st Hst.
  - wp_step. apply wp_get. wp_step. apply wp_publish. intros. by apply wp_ret.
  - wp_step. apply wp_modify. apply wp_fail. intros _ _.
    cbn [w_sessions w_workspaces set_workspaces set_store tick fst snd].
    split; [by rewrite Hs2, lookup_delete_eq|].
    rewrite Hw2, Hhome, lookup_alter_eq, lookup_alter_eq, lookup_insert_eq. simpl.
    by eexists.
Qed.
End Interleave.
