(* ===== verification/Sample.v ===== *)
(** * A concrete daemon

    One operating system, one screen and one rendering of the ledger, given in full:
    the witnesses evaluate the table's properties on the states they produce. *)

From S2P Require Import Prelude Text Layout Proto Outbound Stream Host Hub Ledger World Table Sessions.
From stdpp Require Import options.
From Stdlib Require Import Ascii.
Open Scope Z_scope.

(** ** A rendering of the ledger

    A [StateFile] as a tape of bits: every part says its own length first. *)

Class Tape (A : Type) : Type := {
  put : A → list bool → list bool;
  get : list bool → option (A * list bool);
  get_put : ∀ a k, get (put a k) = Some (a, k)
}.

(** A type that goes into another and back. *)
Definition tape_via {A B} `{Tape B} (f : A → B) (g : B → A) (Hgf : ∀ a, g (f a) = a) : Tape A.
Proof.
  refine {| put a k := put (f a) k; get l := '(b, k) ← get l; Some (g b, k) |}.
  intros a k. rewrite get_put. simpl. by rewrite Hgf.
Defined.

#[export] Instance tape_bool : Tape bool.
Proof.
  refine {| put b k := b :: k; get l := match l with b :: k => Some (b, k) | [] => None end |}.
  done.
Defined.

Fixpoint get_nat (l : list bool) : option (nat * list bool) :=
  match l with
  | true :: l => '(n, k) ← get_nat l; Some (S n, k)
  | false :: k => Some (O, k)
  | [] => None
  end.

#[export] Instance tape_nat : Tape nat.
Proof.
  refine {| put n k := replicate n true ++ false :: k; get := get_nat |}.
  intros n k. induction n as [|n IH]; simpl; [done|]. by rewrite IH.
Defined.

#[export] Instance tape_pair {A B} `{Tape A, Tape B} : Tape (A * B).
Proof.
  refine {| put x k := put x.1 (put x.2 k);
            get l := '(a, l) ← get l; '(b, k) ← get l; Some ((a, b), k) |}.
  intros [a b] k. rewrite get_put. simpl. by rewrite get_put.
Defined.

Fixpoint get_times {A} `{Tape A} (n : nat) (l : list bool) : option (list A * list bool) :=
  match n with
  | O => Some ([], l)
  | S n => '(a, l) ← get l; '(t, k) ← get_times n l; Some (a :: t, k)
  end.

Lemma get_times_put {A} `{Tape A} (t : list A) k : get_times (length t) (foldr put k t) = Some (t, k).
Proof. induction t as [|a t IH]; simpl; [done|]. rewrite get_put. simpl. by rewrite IH. Qed.

#[export] Instance tape_list {A} `{Tape A} : Tape (list A).
Proof.
  refine {| put t k := put (length t) (foldr put k t);
            get l := '(n, l) ← get l; get_times n l |}.
  intros t k. rewrite get_put. apply get_times_put.
Defined.

#[export] Instance tape_option {A} `{Tape A} : Tape (option A) :=
  tape_via (λ o, match o with Some a => [a] | None => [] end) head
    (λ o, match o with Some _ | None => eq_refl end).

Fixpoint pos_bits (p : positive) : list bool :=
  match p with xH => [] | xO p => false :: pos_bits p | xI p => true :: pos_bits p end.

Fixpoint bits_pos (l : list bool) : positive :=
  match l with [] => xH | false :: l => xO (bits_pos l) | true :: l => xI (bits_pos l) end.

Lemma bits_pos_bits p : bits_pos (pos_bits p) = p.
Proof. induction p as [p IH|p IH|]; simpl; by rewrite ?IH. Qed.

Definition Z_bits (z : Z) : bool * list bool :=
  match z with Z0 => (true, []) | Zpos p => (true, true :: pos_bits p) | Zneg p => (false, pos_bits p) end.

Definition bits_Z (x : bool * list bool) : Z :=
  match x with
  | (true, []) => Z0
  | (true, _ :: l) => Zpos (bits_pos l)
  | (false, l) => Zneg (bits_pos l)
  end.

#[export] Instance tape_Z : Tape Z.
Proof. refine (tape_via Z_bits bits_Z _). intros []; simpl; by rewrite ?bits_pos_bits. Defined.

Definition ascii_bits (c : ascii) : list bool :=
  let 'Ascii b0 b1 b2 b3 b4 b5 b6 b7 := c in [b0; b1; b2; b3; b4; b5; b6; b7].

Definition bits_ascii (l : list bool) : ascii :=
  match l with [b0; b1; b2; b3; b4; b5; b6; b7] => Ascii b0 b1 b2 b3 b4 b5 b6 b7 | _ => zero end.

#[export] Instance tape_ascii : Tape ascii.
Proof. refine (tape_via ascii_bits bits_ascii _). by intros []. Defined.

#[export] Instance tape_string : Tape string.
Proof. refine (tape_via String.list_ascii_of_string String.string_of_list_ascii String.string_of_list_ascii_of_string). Defined.

#[export] Instance tape_tab : Tape Tab.
Proof.
  refine (tape_via (λ t, match t with Terminal s => (true, s) | Editor p => (false, p) end)
    (λ x : bool * string, if x.1 then Terminal x.2 else Editor x.2) _).
  by intros [].
Defined.

Fixpoint node_height (n : LayoutNode) : nat :=
  match n with Leaf _ _ _ => 1 | Split _ _ a b => S (node_height a `max` node_height b) end.

Definition is_vertical (d : SplitDir) : bool := match d with Horizontal => false | Vertical => true end.

Fixpoint put_node (n : LayoutNode) (k : list bool) : list bool :=
  match n with
  | Leaf tabs active focused => put false (put (tabs, (active, focused)) k)
  | Split dir ratio a b =>
      put true (put (is_vertical dir, f32_bits ratio) (put_node a (put_node b k)))
  end.

Fixpoint get_node (fuel : nat) (l : list bool) : option (LayoutNode * list bool) :=
  match fuel with
  | O => None
  | S fuel =>
      '(split, l) ← (get l : option (bool * list bool));
      if split : bool then
        '(x, l) ← (get l : option ((bool * Z) * list bool));
        '(a, l) ← get_node fuel l;
        '(b, k) ← get_node fuel l;
        Some (Split (if x.1 : bool then Vertical else Horizontal) (F32 x.2) a b, k)
      else
        '(x, k) ← (get l : option ((list Tab * (Z * bool)) * list bool));
        Some (Leaf x.1 x.2.1 x.2.2, k)
  end.

Lemma get_put_node n fuel k : (node_height n ≤ fuel)%nat → get_node fuel (put_node n k) = Some (n, k).
Proof.
  revert fuel k. induction n as [dir [ratio] a IHa b IHb|tabs active focused]; intros [|fuel] k Hf;
    cbn [node_height] in Hf; try lia; cbn [get_node put_node]; rewrite get_put;
    cbn [mbind option_bind]; rewrite get_put; cbn [mbind option_bind].
  - rewrite IHa by lia. cbn [mbind option_bind]. rewrite IHb by lia. by destruct dir.
  - done.
Qed.

#[export] Instance tape_node : Tape LayoutNode.
Proof.
  refine {| put n k := put (node_height n) (put_node n k);
            get l := '(fuel, l) ← get l; get_node fuel l |}.
  intros n k. rewrite get_put. by apply get_put_node.
Defined.

#[export] Instance tape_doc : Tape LayoutDoc.
Proof.
  refine (tape_via (λ d, (schema_version d, root d)) (λ x, mkLayoutDoc x.1 x.2) _).
  by intros [].
Defined.

#[export] Instance tape_persisted : Tape PersistedSession.
Proof.
  refine (tape_via (λ p, (ps_id p, (ps_workspace_id p, ps_agent_kind p),
      (ps_instance_label p, ps_cwd p, ps_created_at p)))
    (λ x, mkPersisted x.1.1 x.1.2.1 x.1.2.2 x.2.1.1 x.2.1.2 x.2.2) _).
  by intros [].
Defined.

#[export] Instance tape_workspace : Tape WorkspaceInfo.
Proof.
  refine (tape_via (λ i, ((wi_id i, wi_name i), (wi_project_id i, wi_project_identity i),
      (wi_project_root i, wi_project_scope_rev i), (wi_created_at i, wi_layout_rev i, wi_layout i)))
    (λ x, mkWorkspaceInfo x.1.1.1.1 x.1.1.1.2 x.1.1.2.1 x.1.1.2.2 x.1.2.1 x.1.2.2
            x.2.1.1 x.2.1.2 x.2.2) _).
  by intros [].
Defined.

#[export] Instance tape_file : Tape StateFile.
Proof.
  refine (tape_via (λ f, (sf_version f, sf_sessions f, sf_workspaces f))
    (λ x, mkStateFile x.1.1 x.1.2 x.2) _).
  by intros [].
Defined.

(** The tape as text. *)
Fixpoint bits_text (l : list bool) : string :=
  match l with [] => "" | b :: l => String (if b : bool then "1" else "0")%char (bits_text l) end.

Fixpoint text_bits (s : string) : list bool :=
  match s with "" => [] | String c s => bool_decide (c = "1"%char) :: text_bits s end.

Lemma text_bits_text l : text_bits (bits_text l) = l.
Proof. induction l as [|[] l IH]; simpl; by rewrite ?IH. Qed.

Definition sample_parse (s : string) : option StateFile :=
  '(f, _) ← (get (text_bits s) : option (StateFile * list bool));
  if file_ok f then Some f else None.

Definition sample_render (f : StateFile) : string := bits_text (put f []).

Lemma sample_parse_render f : file_ok f = true → sample_parse (sample_render f) = Some f.
Proof.
  intros Hf. unfold sample_parse, sample_render. rewrite text_bits_text, get_put. cbn [mbind option_bind].
  by rewrite Hf.
Qed.

Lemma sample_parse_ok s f :
  sample_parse s = Some f →
  Forall (λ i, 0 ≤ wi_layout_rev i ≤ u64_max ∧ 0 ≤ wi_project_scope_rev i ≤ u64_max)
    (sf_workspaces f).
Proof.
  intros ([g k] & _ & Hg)%bind_Some. destruct (file_ok g) eqn:Hok; simplify_eq.
  unfold file_ok in Hok. apply andb_true_iff in Hok as [_ Hws]. apply Forall_forall. intros i Hi.
  rewrite forallb_forall in Hws. specialize (Hws i (proj1 (list_elem_of_In _ _) Hi)).
  unfold workspace_ok, u64_ok in Hws. boolify. lia.
Qed.

#[export] Instance sample_codec : StateCodec := {
  parse_state := sample_parse;
  render_state := sample_render;
  parse_render := sample_parse_render;
  parse_ok := sample_parse_ok
}.

(** ** An operating system

    Nothing fails, a clock that advances with every question, numbered uuids and
    processes, and a shell at every prompt. *)

Definition sample_os : OS := {|
  os_fail _ := None;
  os_instant t := 1000 * Z.of_nat t;
  os_unix t := 1700000000 + Z.of_nat t;
  os_uuid t := "uuid-" +:+ pretty t;
  os_pid t := Some (4000 + Z.of_nat t);
  os_leader t := Some 4000;
  os_comm _ _ := Some "bash";
  os_host := mkHost false (Some "/bin/zsh") (Some "ade") None None 700
|}.

(** The same with a disk that takes nothing. *)
Definition full_disk_os : OS := {|
  os_fail _ := Some "no space left on device";
  os_instant := @os_instant sample_os;
  os_unix := @os_unix sample_os;
  os_uuid := @os_uuid sample_os;
  os_pid := @os_pid sample_os;
  os_leader := @os_leader sample_os;
  os_comm := @os_comm sample_os;
  os_host := @os_host sample_os
|}.

(** ** A ledger *)

Definition sample_layout : LayoutDoc :=
  layout_new (Split Horizontal (F32 1056964608)
    (Leaf [Terminal "s1"; Editor "src/main.rs"] 1 true)
    (Leaf [Terminal "gone"; Terminal "s2"] 0 false)).

Definition sample_workspace (id : string) (layout : LayoutDoc) : WorkspaceInfo :=
  mkWorkspaceInfo id ("name of " +:+ id) None None ("/home/ade/" +:+ id) 0 1600000000 3 layout.

Definition sample_persisted (id workspace : string) : PersistedSession :=
  mkPersisted id workspace "claude" ("agent " +:+ id) "/home/ade" 1600000001.

Definition sample_file : StateFile :=
  mkStateFile STATE_VERSION [sample_persisted "s1" "ws-a"; sample_persisted "s2" "ws-b"]
    [sample_workspace "ws-a" sample_layout; sample_workspace "ws-b" layout_empty].

Definition sample_store : StateStore := store_new (Contents (render_state sample_file)).
