(* ===== verification/WireSample.v ===== *)
(** * A concrete spelling of envelopes

    One text codec, one Unicode table and one build, given in full: the properties of
    the wire and of the server are evaluated with them. *)

From S2P Require Import Prelude Text Layout Proto Ledger Wire Frames Framing Client World Table Sessions Dispatch Sample.
From stdpp Require Import options.
From Stdlib Require Import Ascii.
Open Scope Z_scope.

Definition sample_floats : Floats := {|
  f64_of_f32 := f32_bits;
  f32_of_f64 := F32;
  f32_of_int := F32;
  f32_through_f64 := λ r, match r with F32 _ => λ _, eq_refl end
|}.
#[local] Existing Instance sample_floats.

(** ** JSON values on a tape *)

Fixpoint put_json (v : json) (k : list bool) : list bool :=
  match v with
  | JNull => put 0%nat k
  | JBool b => put 1%nat (put b k)
  | JNumber n => put 2%nat (put n k)
  | JFloat n => put 3%nat (put n k)
  | JString s => put 4%nat (put s k)
  | JArray l => put 5%nat (put (length l) (foldr put_json k l))
  | JObject o => put 6%nat (put (length o) (foldr (λ kv k, put kv.1 (put_json kv.2 k)) k o))
  end.

Fixpoint get_many {A} (f : list bool → option (A * list bool)) (n : nat) (l : list bool) :
    option (list A * list bool) :=
  match n with
  | O => Some ([], l)
  | S n => '(a, l) ← f l; '(t, k) ← get_many f n l; Some (a :: t, k)
  end.

Fixpoint get_json (fuel : nat) (l : list bool) : option (json * list bool) :=
  match fuel with
  | O => None
  | S fuel =>
      '(tag, l) ← (get l : option (nat * list bool));
      match tag with
      | 0%nat => Some (JNull, l)
      | 1%nat => '(b, k) ← get l; Some (JBool b, k)
      | 2%nat => '(n, k) ← get l; Some (JNumber n, k)
      | 3%nat => '(n, k) ← get l; Some (JFloat n, k)
      | 4%nat => '(s, k) ← get l; Some (JString s, k)
      | 5%nat => '(n, l) ← get l; '(vs, k) ← get_many (get_json fuel) n l; Some (JArray vs, k)
      | _ => '(n, l) ← get l;
             '(vs, k) ← get_many (λ l, '(key, l) ← get l; '(v, k) ← get_json fuel l; Some ((key, v), k)) n l;
             Some (JObject vs, k)
      end
  end.

Lemma get_many_foldr {A} (f : list bool → option (A * list bool)) (g : A → list bool → list bool) l k :
  (∀ a k, a ∈ l → f (g a k) = Some (a, k)) → get_many f (length l) (foldr g k l) = Some (l, k).
Proof.
  induction l as [|a l IH]; intros Hf; [done|]. cbn [length get_many foldr].
  rewrite Hf by left. cbn [mbind option_bind]. rewrite IH; [done|]. intros b j Hb. apply Hf. by right.
Qed.

Lemma depth_in_array v l : v ∈ l → (json_depth v < json_depth (JArray l))%nat.
Proof.
  cbn [json_depth]. induction l as [|x l IH]; [by inversion 1|].
  intros [->|Hv]%elem_of_cons; cbn [foldr]; [|specialize (IH Hv)]; lia.
Qed.

Lemma depth_in_object kv o : kv ∈ o → (json_depth kv.2 < json_depth (JObject o))%nat.
Proof.
  cbn [json_depth]. induction o as [|x o IH]; [by inversion 1|].
  intros [->|Hv]%elem_of_cons; cbn [foldr]; [|specialize (IH Hv)]; lia.
Qed.

Lemma get_put_json fuel v k : (json_depth v ≤ fuel)%nat → get_json fuel (put_json v k) = Some (v, k).
Proof.
  revert v k. induction fuel as [|fuel IH]; intros v k Hd; [destruct v; simpl in Hd; lia|].
  destruct v as [|b|n|n|s|l|o]; cbn [put_json get_json]; rewrite get_put; cbn [mbind option_bind];
    rewrite ?get_put; cbn [mbind option_bind]; try done.
  - rewrite get_many_foldr; [done|]. intros v j Hv. apply IH. pose proof (depth_in_array v l Hv). lia.
  - rewrite (get_many_foldr _ (λ kv k, put kv.1 (put_json kv.2 k))); [done|].
    intros [key v] j Hv. cbn [fst snd]. rewrite get_put. cbn [mbind option_bind].
    rewrite IH; [done|]. pose proof (depth_in_object (key, v) o Hv). simpl in *. lia.
Qed.

#[export] Instance tape_json : Tape json.
Proof.
  refine {| put v k := put (json_depth v) (put_json v k);
            get l := '(fuel, l) ← get l; get_json fuel l |}.
  intros v k. rewrite get_put. by apply get_put_json.
Defined.

#[export] Instance tape_envelope : Tape Envelope.
Proof.
  refine (tape_via (λ e, (env_op e, env_rid e, env_body e)) (λ x, mkEnvelope x.1.1 x.1.2 x.2) _).
  by intros [].
Defined.

(** ** The codec *)

Definition sample_to_vec (e : Envelope) : list Z := map (Z.b2z : bool → Z) (put e []).

Definition sample_from_slice (payload : list Z) : string + Envelope :=
  match (get (map (λ b, b =? 1) payload) : option (Envelope * list bool)) with
  | Some (e, _) =>
      if opt_ok u64_ok (env_rid e) then
        (* a repeated key keeps its last value *)
        if keys_unique (env_body e) then inr e else inr (mkEnvelope (env_op e) (env_rid e) (JObject []))
      else inl "expected u64"
  | None => inl "EOF while parsing a value"
  end.

Lemma bits_through l : map (λ b, b =? 1) (map (Z.b2z : bool → Z) l) = l.
Proof. induction l as [|[] l IH]; simpl; by rewrite ?IH. Qed.

Lemma sample_from_slice_to_vec op r body :
  keys_unique body = true → opt_ok u64_ok r = true →
  sample_from_slice (sample_to_vec (mkEnvelope op r body)) = inr (mkEnvelope op r body).
Proof.
  intros Hk Hr. unfold sample_from_slice, sample_to_vec. rewrite bits_through, get_put.
  cbn [env_rid env_body]. by rewrite Hr, Hk.
Qed.

Lemma sample_from_slice_keys payload op r o :
  sample_from_slice payload = inr (mkEnvelope op r (JObject o)) → NoDup (map fst o).
Proof.
  unfold sample_from_slice. destruct (get _) as [[e k]|]; [|done].
  destruct (opt_ok u64_ok (env_rid e)); [|done].
  destruct (keys_unique (env_body e)) eqn:Hk; intros [= He].
  - subst e. by apply bool_decide_eq_true in Hk.
  - subst o. apply NoDup_nil_2.
Qed.

Lemma sample_from_slice_rid payload e : sample_from_slice payload = inr e → opt_ok u64_ok (env_rid e) = true.
Proof.
  unfold sample_from_slice. destruct (get _) as [[f k]|]; [|done].
  destruct (opt_ok u64_ok (env_rid f)) eqn:Hr; [|done].
  destruct (keys_unique (env_body f)); intros [= <-]; done.
Qed.

Definition sample_text : EnvelopeText.
Proof.
  refine {| to_vec := sample_to_vec; from_slice := sample_from_slice;
            from_slice_keys := sample_from_slice_keys; from_slice_rid := sample_from_slice_rid |}.
  - intros e. unfold sample_to_vec. apply Forall_forall. intros b (x & -> & _)%list_elem_of_fmap.
    destruct x; simpl; lia.
  - intros op r body _ Hk _ Hr. exists body. split; [by apply sample_from_slice_to_vec|done].
Defined.

Definition sample_errors : BodyErrors := {| body_error := λ _, "missing field" |}.
Definition sample_unicode : Unicode := {| escaped := λ _, false |}.
Definition sample_debug : FrameDebug := {| debug_pieces := λ f, [frame_op f; " { .. }"] |}.
Definition sample_identity : Identity :=
  {| daemon_version := "0.1.0"; build_os := "linux"; binary_hash := None; instance_id := "test-daemon" |}.
