(* ===== verification/Witnesses.v ===== *)
(** * The table's properties on a concrete daemon

    A daemon that loads a ledger of two lost sessions, creates a session, gives it a
    tab and two clients, and each property of the session table evaluated there. *)

From S2P Require Import Prelude Text Layout Proto Outbound Stream Host Hub Ledger World Table Sessions TableSpecs TableInv Layouts Records Kills Clients Creation Status Restart Lifecycle Interleave Sample.
From stdpp Require Import options.
Open Scope Z_scope.

#[local] Existing Instance sample_codec.

Definition sample_request : CreateRequest :=
  mkCreate "ws-a" "/home/ade" "claude --resume" [] 80 24 "claude" "agent 3" None.

Section Calm.
#[local] Existing Instance sample_os.
#[local] Existing Instance line_grid.

Definition restarted : world bool := load sample_store status_config_default 0.
Definition sample_session : SessionId := new_session_id restarted.
Definition with_session : world bool := st_exec (run_op (OpCreate sample_request)) restarted.
Definition with_tab_open : world bool :=
  st_exec (run_op (OpUpdateLayout "ws-a" (single_terminal sample_session) 4 None)) with_session.
Definition with_view : world bool :=
  st_exec (run_op (OpAttach sample_session 7%N (sample_outbound 1) (Some "v1"))) with_tab_open.
Definition with_clients : world bool :=
  st_exec (run_op (OpResize sample_session 7%N 100 30)) with_view.
Definition sample_world : world bool :=
  st_exec (run_op (OpResize sample_session 8%N 90 40)) with_clients.

Lemma step_wf o (w : world bool) : op_ok o w → table_wf w → table_wf (st_exec (run_op o) w).
Proof. intros Hok Hwf. by apply wp_exec, run_op_wf. Qed.

Lemma restarted_wf : table_wf restarted.
Proof. apply load_facts. Qed.

Lemma sample_session_unused : op_ok (OpCreate sample_request) restarted.
Proof.
  cbn [op_ok]. split; [vm_compute; reflexivity|].
  assert (w_pending restarted = []) as -> by (vm_compute; reflexivity). set_solver.
Qed.

Lemma with_session_wf : table_wf with_session.
Proof. unfold with_session. apply step_wf; [exact sample_session_unused|exact restarted_wf]. Qed.

Lemma sample_world_wf : table_wf sample_world.
Proof.
  unfold sample_world, with_clients, with_view, with_tab_open.
  apply step_wf; [done|]. apply step_wf; [done|]. apply step_wf; [done|]. apply step_wf.
  - split; vm_compute; discriminate.
  - exact with_session_wf.
Qed.

(** The session's row before anything is done to it. *)
Definition sample_row : Session := default (lost_session (sample_persisted "" "") "" 0 0)
  (w_sessions sample_world !! sample_session).

Lemma sample_row_there : w_sessions sample_world !! sample_session = Some sample_row.
Proof. vm_compute. reflexivity. Qed.

Lemma every_reachable_table_is_wf_witness :
  size (w_sessions sample_world) = 3%nat ∧ table_wf sample_world.
Proof.
  split; [vm_compute; reflexivity|].
  apply (every_reachable_table_is_wf sample_store status_config_default 0).
  unfold sample_world, with_clients, with_view, with_tab_open, with_session.
  apply reach_step; [|done]. apply reach_step; [|done]. apply reach_step; [|done].
  apply reach_step; [|split; vm_compute; discriminate].
  apply reach_step; [|exact sample_session_unused].
  unfold restarted. apply reach_start.
Defined.

Lemma install_legacy_layout_converges_witness :
  let w' := (install_legacy_layout "ws-a" sample_session with_session).2 in
  (terminal_sessions ∘ wi_layout <$> w_workspaces with_session !! "ws-a") = Some ["s1"] ∧
  (terminal_sessions ∘ wi_layout <$> w_workspaces w' !! "ws-a") = Some ["s1"; sample_session] ∧
  ∃ i, w_workspaces w' !! "ws-a" = Some i ∧ sample_session ∈ terminal_sessions (wi_layout i).
Proof.
  split; [vm_compute; reflexivity|]. split; [vm_compute; reflexivity|].
  pose proof (install_legacy_layout_converges "ws-a" sample_session with_session with_session_wf) as Hi.
  assert ((install_legacy_layout "ws-a" sample_session with_session).1 = Ok ()) as Hok
    by (vm_compute; reflexivity).
  destruct (install_legacy_layout "ws-a" sample_session with_session) as [[a|e] w']; [|done].
  destruct Hi as [_ (i & Hi & Hin & _)]. by exists i.
Defined.

Lemma kill_removes_exactly_its_session_witness :
  let '(r, w') := kill sample_session sample_world in
  r = Ok () ∧ w_sessions w' !! sample_session = None ∧ size (w_sessions w') = 2%nat ∧
  (wi_layout_rev <$> w_workspaces w' !! "ws-a") = Some 5 ∧ table_wf w' ∧ durable w'.
Proof.
  pose proof (kill_removes_exactly_its_session sample_session sample_row sample_world
    sample_world_wf sample_row_there) as Hk.
  assert (let '(r, w') := kill sample_session sample_world in
    r = Ok () ∧ w_sessions w' !! sample_session = None ∧ size (w_sessions w') = 2%nat ∧
    (wi_layout_rev <$> w_workspaces w' !! "ws-a") = Some 5) as He by (vm_compute; by split_and!).
  destruct (kill sample_session sample_world) as [r w'].
  destruct He as (-> & ? & ? & ?), Hk as (_ & Hwf & _ & _ & Hd). by split_and!.
Defined.

Lemma kill_workspace_takes_everything_in_it_witness :
  let '(r, w') := kill_workspace "ws-a" sample_world in
  r = Ok () ∧ w_workspaces w' !! "ws-a" = None ∧ (map_to_list (w_sessions w')).*1 = ["s2"] ∧
  table_wf w' ∧ (kill_workspace "ws-a" w').1 = Err (no_workspace "ws-a").
Proof.
  pose proof (kill_workspace_takes_everything_in_it "ws-a" sample_world sample_world_wf) as [Hk _].
  assert (let '(r, w') := kill_workspace "ws-a" sample_world in
    r = Ok () ∧ w_workspaces w' !! "ws-a" = None ∧ (map_to_list (w_sessions w')).*1 = ["s2"])
    as He by (vm_compute; by split_and!).
  assert (bool_decide (is_Some (w_workspaces sample_world !! "ws-a")) = true) as Ht
    by (vm_compute; reflexivity).
  destruct (kill_workspace "ws-a" sample_world) as [r w'].
  destruct (w_workspaces sample_world !! "ws-a"); [|done].
  destruct He as (-> & ? & ?), Hk as (_ & Hwf & _ & Hn & _). by split_and!.
Defined.

Lemma resize_follows_the_asks_witness :
  let w' := (resize sample_session 9%N 70 50 sample_world).2 in
  current_size <$> w_sessions w' !! sample_session = Some (70, 30) ∧
  last (w_ptys w') = Some (PtyResize (s_handle sample_row) 70 30) ∧ table_wf w'.
Proof.
  split; [vm_compute; reflexivity|]. split; [vm_compute; reflexivity|].
  pose proof (resize_follows_the_asks sample_session 9%N 70 50 sample_row sample_world
    sample_world_wf sample_row_there) as Hr.
  destruct (resize sample_session 9%N 70 50 sample_world) as [r w']. by destruct Hr as (s' & _ & Hwf & _).
Defined.

Lemma detach_gives_the_size_back_witness :
  let w' := (detach sample_session 8%N sample_world).2 in
  current_size sample_row = (90, 30) ∧
  current_size <$> w_sessions w' !! sample_session = Some (100, 30) ∧ table_wf w'.
Proof.
  split; [vm_compute; reflexivity|]. split; [vm_compute; reflexivity|].
  assert (NoDup (map snd (s_view_ids sample_row))) as Hn.
  { assert (s_view_ids sample_row = [(7%N, "v1")]) as -> by (vm_compute; reflexivity).
    apply NoDup_singleton. }
  assert (settled sample_row) as Hset.
  { right. vm_compute. reflexivity. }
  pose proof (detach_gives_the_size_back sample_session 8%N sample_row sample_world
    sample_world_wf sample_row_there Hn Hset) as Hd.
  destruct (detach sample_session 8%N sample_world) as [r w']. by destruct Hd as (s' & _ & Hwf & _).
Defined.

Lemma create_gives_one_session_or_none_witness :
  let '(r, w') := create sample_request restarted in
  si_id <$> (match r with Ok info => Some info | Err _ => None end) = Some sample_session ∧
  table_wf w'.
Proof.
  pose proof (create_gives_one_session_or_none sample_request restarted restarted_wf
    sample_session_unused) as Hc.
  assert (is_ok (create sample_request restarted).1 = true) as Hok by (vm_compute; reflexivity).
  destruct (create sample_request restarted) as [[info|e] w']; [|done].
  destruct Hc as (Hid & _ & s & Hd). simpl. rewrite Hid. split; [reflexivity|apply Hd].
Defined.

Definition sample_workspace_request : WorkspaceRequest :=
  mkWorkspaceRequest "/home/ade/new/" None None None None.

Lemma ensure_workspace_creates_once_witness :
  let '(r, w') := ensure_workspace sample_workspace_request sample_world in
  match r with Ok (i, created) => wi_name i = "new" ∧ created = true | Err _ => False end ∧ table_wf w'.
Proof.
  assert (minted_unused sample_world) as Hun by (vm_compute; reflexivity).
  pose proof (ensure_workspace_creates_once sample_workspace_request sample_world sample_world_wf
    (λ _, Hun)) as He.
  assert (match (ensure_workspace sample_workspace_request sample_world).1 with
          | Ok (i, created) => wi_name i = "new" ∧ created = true
          | Err _ => False
          end) as Hr by (vm_compute; by split).
  destruct (ensure_workspace sample_workspace_request sample_world) as [r w']. split; [exact Hr|apply He].
Defined.

Lemma sweep_derives_every_status_witness :
  let w' := (sweep sample_world).2 in
  (si_status ∘ s_info <$> w_sessions sample_world !! sample_session) = Some Working ∧
  (si_status ∘ s_info <$> w_sessions w' !! sample_session) = Some Idle ∧ table_wf w'.
Proof.
  split; [vm_compute; reflexivity|]. split; [vm_compute; reflexivity|].
  apply (sweep_derives_every_status sample_world sample_world_wf).
Defined.

Lemma tombstones_reported_once_witness :
  let w' := load (store_new (sto_file (w_store restarted))) status_config_default 100 : world bool in
  map_to_list (w_sessions restarted) ≠ [] ∧ w_sessions w' = ∅.
Proof.
  split; [vm_compute; discriminate|].
  apply (tombstones_reported_once (Contents (render_state sample_file)) status_config_default
    status_config_default 0 100).
  - done.
  - vm_compute. reflexivity.
  - vm_compute. reflexivity.
Defined.

(** A ledger of the next schema, and one of no schema. *)
Lemma foreign_ledger_is_never_overwritten_witness :
  let newer := Contents (render_state (mkStateFile 2 (sf_sessions sample_file) [])) in
  let w := load (store_new newer) status_config_default 0 : world bool in
  sto_file (w_store (st_exec (run_op (OpEnsureWorkspace sample_workspace_request)) w)) = newer ∧
  foreign (Contents "no ledger").
Proof.
  split; [|vm_compute; done].
  apply (foreign_ledger_is_never_overwritten _ status_config_default 0); [vm_compute; reflexivity|].
  apply reach_step; [apply reach_start|]. intros _. vm_compute. reflexivity.
Defined.

End Calm.

(** The write of an empty layout, racing the kill of the only tab, on a full disk. *)
Lemma failed_layout_write_resurrects_a_killed_tab_witness :
  let r := @update_layout_during_kill bool sample_codec full_disk_os
             "ws-a" layout_empty 5 sample_session with_tab_open in
  is_ok r.1 = false ∧ w_sessions r.2 !! sample_session = None ∧ ¬ table_wf r.2.
Proof.
  cbv zeta. split; [vm_compute; reflexivity|].
  set (i := sample_workspace "ws-a" (single_terminal sample_session)).
  assert (∃ i s, w_workspaces with_tab_open !! "ws-a" = Some i ∧
    w_sessions with_tab_open !! sample_session = Some s ∧ s_workspace s = "ws-a" ∧
    terminal_sessions (wi_layout i) = [sample_session] ∧ wi_layout_rev i = 4) as
    (j & s & Hj & Hs & Hh & Ht & Hr) by (vm_compute; by eexists _, _).
  pose proof (@failed_layout_write_resurrects_a_killed_tab bool sample_codec full_disk_os
    "ws-a" layout_empty 5 sample_session j s with_tab_open Hj Hs Hh) as Hf.
  rewrite Ht, Hr in Hf. specialize (Hf ltac:(left) ltac:(lia) ltac:(by inversion 1)).
  assert (is_ok (@update_layout_during_kill bool sample_codec full_disk_os
             "ws-a" layout_empty 5 sample_session with_tab_open).1 = false) as Hok
    by (vm_compute; reflexivity).
  destruct (@update_layout_during_kill _ _ _ _ _ _ _ with_tab_open) as [[a|e] w']; [done|].
  destruct (Hf e eq_refl) as (? & ? & _). by split.
Defined.
