(* ===== verification/ServerWitnesses.v ===== *)
(** * The wire's and the server's properties on a concrete daemon

    Frames written and read back, connections that shake hands, create, ask for a
    shutdown and go away, each property evaluated there. *)

From S2P Require Import Prelude Text Layout Proto Outbound Stream Scanner Host Hub Ledger Wire Frames Framing Client World Table Sessions Dispatch TableSpecs TableInv Layouts Records Kills Creation Restart Lifecycle Legacy Server Sample WireSample Witnesses.
From stdpp Require Import options.
Open Scope Z_scope.

#[local] Existing Instance sample_codec.
#[local] Existing Instance sample_floats.
#[local] Existing Instance sample_text.
#[local] Existing Instance sample_errors.
#[local] Existing Instance sample_unicode.
#[local] Existing Instance sample_debug.
#[local] Existing Instance sample_identity.

(** ** The wire *)

Definition sample_frames : list Frame := [
  Frame_Kill "s-1" (Some 7);
  Frame_Write "s-1" [27; 91; 65];
  Frame_UpdateLayout "ws-a" (mkLayoutDoc 1 (Split Vertical (F32 1056964608) (Leaf [Terminal "s-1"] 0 true)
    (Leaf [Editor "/a"] 0 false))) 4 (Some 8);
  Frame_Created (mkSessionInfo "s-1" "ws-a" "shell" "" "/" 12 Working) false None ].

Definition sample_written : list (list Z) := default [] (mapM written_frame sample_frames).

Lemma frames_cross_the_stream_witness :
  let r := mkReader (concat sample_written) UnexpectedEof in
  read_all (S (length (rd_bytes r))) r =
    map inr sample_frames ++ [inl (Transport (ReadingLength UnexpectedEof))].
Proof.
  apply (frames_cross_the_stream sample_frames sample_written UnexpectedEof); vm_compute; reflexivity.
Defined.

Definition kill_payload : list Z :=
  sample_to_vec (mkEnvelope "kill" (Some 7) (JObject [("session_id", JString "s-1"); ("request_id", JNumber 9)])).

Lemma decode_outcome_witness :
  ∃ f, decode_frame kill_payload = inr f ∧ frame_op f = "kill" ∧
    (frame_request_id f = None ∨ frame_request_id f = Some 7).
Proof.
  pose proof (decode_outcome kill_payload) as Ho.
  assert (from_slice kill_payload = inr (mkEnvelope "kill" (Some 7)
    (JObject [("session_id", JString "s-1"); ("request_id", JNumber 9)]))) as Hp by (vm_compute; reflexivity).
  rewrite Hp in Ho. assert (is_Some (match decode_frame kill_payload with inr f => Some f | _ => None end)) as [f Hf]
    by (vm_compute; by eexists).
  destruct (decode_frame kill_payload) as [e|f']; [done|]. exists f'. by destruct Ho as (_ & ? & ?).
Defined.

Definition sample_payloads : list (list Z) := [[123; 125]; []; sample_to_vec (mkEnvelope "resize" None (JObject []))].

Lemma stream_reads_every_payload_witness :
  let r := mkReader (concat (map framed sample_payloads)) (IoFailed "reset") in
  read_all (S (length (rd_bytes r))) r =
    map decode_frame sample_payloads ++ [inl (Transport (ReadingLength (IoFailed "reset")))] ∧
  ∀ err, inl err ∈ map decode_frame sample_payloads → is_transport err = false.
Proof.
  apply (stream_reads_every_payload sample_payloads (IoFailed "reset")).
  repeat (apply List.Forall_cons; [vm_compute; discriminate|]). apply List.Forall_nil.
Defined.

Lemma cut_frame_is_a_transport_failure_witness :
  ∃ err, (read_frame (mkReader (take 5 (framed [123; 125])) UnexpectedEof)).1 = inl err ∧
    is_transport err = true ∧ (is_handshake_eof err = true ↔ UnexpectedEof = UnexpectedEof).
Proof. apply cut_frame_is_a_transport_failure; [vm_compute; discriminate|vm_compute; lia]. Defined.

(** ** The scanner *)

Definition sample_reads : list (list Z) := [[104; 27]; [91; 63; 49; 48; 49]; [53; 104; 27; 93; 50; 59; 97]; [98; 7]].

Lemma scanner_ignores_read_boundaries_witness :
  (scan_reads sample_reads scanner_default).1 = scan (concat sample_reads) scanner_default.
Proof. apply scanner_ignores_read_boundaries; [discriminate|vm_compute; reflexivity]. Defined.

Lemma scanner_carries_a_bounded_tail_witness :
  (length (pending (scan_reads sample_reads scanner_default).1) ≤ MAX_PENDING)%nat.
Proof. apply scanner_carries_a_bounded_tail. vm_compute. lia. Defined.

(** ** The server *)

Section Calm.
#[local] Existing Instance sample_os.
#[local] Existing Instance line_grid.

Lemma combined_create_is_one_outcome_witness :
  let '(reply, w') := combined_create 7%N "/home/ade" None None None [] None (Some 30) true (Some 9) restarted in
  whole_or_nothing true (Some 9) restarted reply w'.
Proof.
  apply combined_create_is_one_outcome; [exact restarted_wf|vm_compute; reflexivity|].
  split; [vm_compute; reflexivity|].
  assert (w_pending (st_exec (create_workspace (mkWorkspaceRequest "/home/ade" None None None None)) restarted) = [])
    as -> by (vm_compute; reflexivity). by intros r ?%elem_of_nil.
Defined.

Lemma auto_created_session_is_one_outcome_witness :
  let '(reply, w') := create_session LEGACY_GENERATION true "ws-new" "/home/ade" None None "" [] 80 24 "shell" ""
                        None (Some 9) restarted in
  session_or_nothing "ws-new" true (Some 9) restarted reply w'.
Proof.
  apply auto_created_session_is_one_outcome; [exact restarted_wf|vm_compute; reflexivity|discriminate|].
  split; [vm_compute; reflexivity|].
  assert (w_pending (st_exec (ensure_workspace (brought "ws-new" "/home/ade" "" None None)) restarted) = [])
    as -> by (vm_compute; reflexivity). by intros r ?%elem_of_nil.
Defined.

Lemma untouching_requests_change_nothing_witness :
  only_told sample_world (st_exec (handle_frame (Frame_Subscribe None) 9%N (sample_outbound 2) 3) sample_world).
Proof. apply untouching_requests_change_nothing. reflexivity. Defined.

(** Two clients: one is inside a request, finishes it and asks for a shutdown. *)
Definition before_shutdown : list server_event := [
  Accept 1; Greet 1 (inr (Frame_Hello (mkHello 2 3 [] (Some 1))));
  Accept 2; Greet 2 (inr (Frame_Hello (mkHello 2 2 [] None)));
  Receive 1 (Frame_Subscribe None); Receive 1 (Frame_Detach "s-none" None) ].
Definition sample_events : list server_event :=
  before_shutdown ++ [Finish 1; Receive 1 (Frame_Shutdown false (Some 2))].

Definition reached (es : list server_event) : server := default (start restarted) (run_events es (start restarted)).

Lemma runs_events allowed es s s' :
  Forall allowed es → runs allowed restarted s → run_events es s = Some s' → runs allowed restarted s'.
Proof.
  revert s. induction es as [|e es IH]; intros s Ha Hs; [by intros [= <-]|].
  apply Forall_cons in Ha as [He Ha]. cbn [run_events]. destruct (step e s) as [s1|] eqn:Hstep; [|done].
  cbn [mbind option_bind]. apply IH; [done|]. by eapply runs_step.
Qed.

Lemma runs_reached allowed es : Forall allowed es → runs allowed restarted (reached es).
Proof.
  intros Ha. unfold reached. destruct (run_events es (start restarted)) as [s|] eqn:Hr; [|apply runs_start].
  eapply runs_events; [exact Ha|apply runs_start|exact Hr].
Qed.

Definition nobody : conn := mkConn 0 0 no_outbound false Greeting.
Definition sample_conn (n : N) (es : list server_event) : conn := default nobody (sv_conns (reached es) !! n).

Lemma counters_are_balanced_witness : balanced (reached before_shutdown).
Proof.
  apply (counters_are_balanced (λ _, True) restarted); [vm_compute; reflexivity|].
  apply runs_reached. repeat (apply List.Forall_cons; [exact I|]). apply List.Forall_nil.
Defined.

Definition before_request : list server_event := take 5 before_shutdown.
Definition sample_request_event : server_event := Receive 1 (Frame_Detach "s-none" None).

Lemma nothing_begins_behind_the_gate_witness :
  (dc_shutting_down (sv_control (reached before_request)) = true →
   dc_shutting_down (sv_control (reached before_shutdown)) = true) ∧
  ((∃ c, sv_conns (reached before_request) !! 1%N = Some c ∧ handling c = true) ∨
   dc_shutting_down (sv_control (reached before_request)) = false ∧
     ∃ frame, sample_request_event = Receive 1 frame ∧ touches_state frame = true).
Proof.
  apply (nothing_begins_behind_the_gate sample_request_event (reached before_request)
    (reached before_shutdown) 1%N (sample_conn 1 before_shutdown)); vm_compute; reflexivity.
Defined.

Lemma polite_shutdown_waits_for_requests_witness : handling (sample_conn 2 sample_events) = false.
Proof.
  apply (polite_shutdown_waits_for_requests restarted (reached sample_events) 2%N).
  - vm_compute. reflexivity.
  - apply runs_reached. repeat (apply List.Forall_cons; [intros n rid; discriminate|]). apply List.Forall_nil.
  - vm_compute. reflexivity.
  - vm_compute. reflexivity.
Defined.

Lemma a_gone_client_is_let_go_witness :
  ∃ es, (length es ≤ 3)%nat ∧ lets_go 1 es (reached before_shutdown) ∧
    (handling (sample_conn 1 before_shutdown) = true → head es = Some (Finish 1)).
Proof. apply a_gone_client_is_let_go. vm_compute. reflexivity. Defined.
End Calm.
