(* ===== verification/Float32.v ===== *)
(** * Single-precision arithmetic

    What the pane tree computes with a split's ratio: [f32] operations are the
    standard library's executable IEEE 754 ones at 24 bits of precision. The lemmas say
    exactly what rounding does to the two flexes of a split. *)

From S2P Require Import Prelude Text Layout.
From Stdlib Require Import SpecFloat.
From stdpp Require Import options.
Open Scope Z_scope.

Abbreviation PREC := 24%Z.
Abbreviation EMAX := 128%Z.

(** ** Bit patterns *)

Definition f32_decode (r : f32) : spec_float :=
  let b := f32_bits r in
  let sign := Z.testbit b 31 in
  let exponent := Z.shiftr b 23 mod 256 in
  let fraction := b mod 2 ^ 23 in
  if exponent =? 255 then (if fraction =? 0 then S754_infinity sign else S754_nan)
  else if exponent =? 0 then
    match fraction with Zpos m => S754_finite sign m (-149) | _ => S754_zero sign end
  else match 2 ^ 23 + fraction with
       | Zpos m => S754_finite sign m (exponent - 150)
       | _ => S754_nan
       end.

Definition sign_bit (s : bool) : Z := if s then 2 ^ 31 else 0.

(** The payload of a NaN an operation makes is the platform's; this is the usual
    quiet one. *)
Definition f32_encode (x : spec_float) : f32 :=
  F32 match x with
      | S754_zero s => sign_bit s
      | S754_infinity s => sign_bit s + 255 * 2 ^ 23
      | S754_nan => 2143289344
      | S754_finite s m e =>
          if Zpos m <? 2 ^ 23 then sign_bit s + Zpos m
          else sign_bit s + (e + 150) * 2 ^ 23 + (Zpos m - 2 ^ 23)
      end.

(** ** Operators *)

Definition f32_add (a b : f32) : f32 :=
  f32_encode (SFadd PREC EMAX (f32_decode a) (f32_decode b)).
Definition f32_sub (a b : f32) : f32 :=
  f32_encode (SFsub PREC EMAX (f32_decode a) (f32_decode b)).
Definition f32_mul (a b : f32) : f32 :=
  f32_encode (SFmul PREC EMAX (f32_decode a) (f32_decode b)).
Definition f32_div (a b : f32) : f32 :=
  f32_encode (SFdiv PREC EMAX (f32_decode a) (f32_decode b)).
Definition f32_abs (a : f32) : f32 := f32_encode (SFabs (f32_decode a)).

Definition f32_eqb (a b : f32) : bool := SFeqb (f32_decode a) (f32_decode b).
Definition f32_ltb (a b : f32) : bool := SFltb (f32_decode a) (f32_decode b).
Definition f32_leb (a b : f32) : bool := SFleb (f32_decode a) (f32_decode b).

Definition f32_is_finite (a : f32) : bool :=
  match f32_decode a with S754_zero _ | S754_finite _ _ _ => true | _ => false end.

(** [f32::clamp]. *)
Definition f32_clamp (a low high : f32) : f32 :=
  if f32_ltb a low then low else if f32_ltb high a then high else a.

(** [Sum for f32] starts at [-0.0]. *)
Definition f32_sum (l : list f32) : f32 := fold_left f32_add l (f32_encode (S754_zero true)).

(** [n as f32] for a count. *)
Definition f32_of_nat (n : nat) : f32 :=
  f32_encode (binary_normalize PREC EMAX (Z.of_nat n) 0 false).

(** Literals of the source. *)
Definition f32_half : f32 := F32 1056964608.   (* 0.5 *)
Definition f32_one : f32 := F32 1065353216.    (* 1.0 *)
Definition f32_two : f32 := F32 1073741824.    (* 2.0 *)

(** A bit pattern of thirty-two bits. *)
Definition f32_ok (r : f32) : Prop := 0 ≤ f32_bits r < 2 ^ 32.

(** ** Encoding and decoding *)

(** The doubles of a positive normal number: 24 digits and an exponent in range. *)
Definition normal (m e : Z) : Prop := 2 ^ 23 ≤ m < 2 ^ 24 ∧ -149 ≤ e ≤ 104.

Definition pos_float (m e : Z) : spec_float := S754_finite false (Z.to_pos m) e.

Lemma f32_decode_normal m e :
  normal m e → f32_decode (F32 ((e + 150) * 2 ^ 23 + (m - 2 ^ 23))) = pos_float m e.
Proof.
  intros [Hm He]. unfold f32_decode, pos_float. cbn [f32_bits].
  set (b := (e + 150) * 2 ^ 23 + (m - 2 ^ 23)).
  assert (Hb : 0 ≤ b < 2 ^ 31) by (unfold b; lia).
  assert (Z.testbit b 31 = false) as ->.
  { apply Z.bits_above_log2; [lia|]. destruct (decide (b = 0)) as [->|]; [done|].
    apply Z.log2_lt_pow2; lia. }
  assert (Z.shiftr b 23 = e + 150) as ->.
  { rewrite Z.shiftr_div_pow2 by lia. unfold b. rewrite Z.div_add_l by lia.
    rewrite (Z.div_small (m - 2 ^ 23)) by lia. lia. }
  assert (b mod 2 ^ 23 = m - 2 ^ 23) as ->.
  { unfold b. rewrite Z.add_comm, Z.mod_add by lia. apply Z.mod_small. lia. }
  rewrite (Z.mod_small (e + 150)) by lia.
  rewrite (proj2 (Z.eqb_neq (e + 150) 255)) by lia.
  rewrite (proj2 (Z.eqb_neq (e + 150) 0)) by lia.
  replace (2 ^ 23 + (m - 2 ^ 23)) with m by lia.
  replace (e + 150 - 150) with e by lia. destruct m; [lia|done|lia].
Qed.

Lemma f32_encode_normal m e :
  normal m e → f32_encode (pos_float m e) = F32 ((e + 150) * 2 ^ 23 + (m - 2 ^ 23)).
Proof.
  intros [Hm He]. unfold f32_encode, pos_float, sign_bit. rewrite Z2Pos.id by lia.
  rewrite (proj2 (Z.ltb_ge m (2 ^ 23))) by lia. f_equal.
Qed.

Lemma f32_decode_encode m e : normal m e → f32_decode (f32_encode (pos_float m e)) = pos_float m e.
Proof. intros Hn. by rewrite f32_encode_normal, f32_decode_normal. Qed.

(** Where the bits of a normal number come from. *)
Lemma f32_encode_decode r m e :
  f32_ok r → f32_decode r = pos_float m e → 2 ^ 23 ≤ m < 2 ^ 24 → r = f32_encode (pos_float m e).
Proof.
  destruct r as [b]. unfold f32_ok, f32_decode, pos_float. cbn [f32_bits]. intros Hb Hd Hm.
  assert (Hdiv : b = 2 ^ 23 * Z.shiftr b 23 + b mod 2 ^ 23).
  { rewrite Z.shiftr_div_pow2 by lia. apply Z.div_mod. lia. }
  assert (Hfr : 0 ≤ b mod 2 ^ 23 < 2 ^ 23) by (apply Z.mod_pos_bound; lia).
  assert (Hsh : 0 ≤ Z.shiftr b 23 < 512).
  { rewrite Z.shiftr_div_pow2 by lia. split; [apply Z.div_pos; lia|].
    apply Z.div_lt_upper_bound; lia. }
  destruct (Z.testbit b 31) eqn:Ht.
  { repeat case_match; try discriminate Hd; naive_solver. }
  assert (Hlow : b < 2 ^ 31).
  { destruct (Z.lt_ge_cases b (2 ^ 31)) as [?|Hge]; [done|].
    assert (Z.testbit b 31 = true) as Ht'; [|congruence].
    replace b with (b - 2 ^ 31 + 1 * 2 ^ 31) by lia.
    rewrite Z.testbit_true by lia. rewrite Z.div_add by lia.
    rewrite Z.div_small by lia. done. }
  assert (Hsh' : Z.shiftr b 23 < 256).
  { rewrite Z.shiftr_div_pow2 by lia. apply Z.div_lt_upper_bound; lia. }
  rewrite (Z.mod_small (Z.shiftr b 23)) in Hd by lia.
  destruct (Z.shiftr b 23 =? 255) eqn:E1; [by case_match|].
  destruct (Z.shiftr b 23 =? 0) eqn:E2.
  { destruct (b mod 2 ^ 23) as [|p|p] eqn:Ef; try discriminate Hd.
    injection Hd as Hp _. assert (Zpos p = m) by (rewrite Hp; lia). lia. }
  destruct (2 ^ 23 + b mod 2 ^ 23) as [|p|p] eqn:Ef; try discriminate Hd.
  injection Hd as Hp He. assert (Hpm : Zpos p = m) by (rewrite Hp; lia).
  apply Z.eqb_neq in E1, E2.
  change (S754_finite false (Z.to_pos m) e) with (pos_float m e).
  rewrite f32_encode_normal by (split; lia). f_equal. lia.
Qed.

(** ** Rounding *)

Lemma digits2_pos_bounds p : 2 ^ (Zpos (digits2_pos p) - 1) ≤ Zpos p < 2 ^ Zpos (digits2_pos p).
Proof.
  assert (Hstep : ∀ q c, 2 ^ (Zpos (digits2_pos q) - 1) ≤ Zpos q < 2 ^ Zpos (digits2_pos q) →
    0 ≤ c ≤ 1 → 2 ^ (Zpos (Pos.succ (digits2_pos q)) - 1) ≤ 2 * Zpos q + c
              < 2 ^ Zpos (Pos.succ (digits2_pos q))).
  { intros q c Hq Hc. rewrite Pos2Z.inj_succ, Z.pow_succ_r by lia.
    replace (Z.succ (Zpos (digits2_pos q)) - 1) with (Z.succ (Zpos (digits2_pos q) - 1)) by lia.
    rewrite Z.pow_succ_r by lia. lia. }
  induction p as [p IH|p IH|]; cbn [digits2_pos].
  - rewrite (Pos2Z.inj_xI p). by apply Hstep.
  - rewrite (Pos2Z.inj_xO p), <- (Z.add_0_r (2 * Zpos p)). by apply Hstep.
  - simpl. lia.
Qed.

Lemma digits2_unique p d : 2 ^ (d - 1) ≤ Zpos p < 2 ^ d → Zpos (digits2_pos p) = d.
Proof.
  intros Hp. pose proof (digits2_pos_bounds p) as Hb. set (n := Zpos (digits2_pos p)) in *.
  assert (0 < n) by done.
  assert (0 ≤ d). { destruct (Z.lt_ge_cases d 0) as [Hd|]; [|done].
    rewrite (Z.pow_neg_r 2 d) in Hp by done. lia. }
  assert (n - 1 < d) by (apply (Z.pow_lt_mono_r_iff 2); lia).
  assert (d - 1 < n) by (apply (Z.pow_lt_mono_r_iff 2); lia). lia.
Qed.

Lemma Zdigits2_unique n d : 0 < n → 2 ^ (d - 1) ≤ n < 2 ^ d → Zdigits2 n = d.
Proof. destruct n as [|p|p]; [lia| |lia]. intros _. apply digits2_unique. Qed.

(** Where the bits shifted out of [n] lie. *)
Definition place (n : Z) (k : nat) : location :=
  let low := n mod 2 ^ Z.of_nat k in
  if low =? 0 then loc_Exact else loc_Inexact (2 * low ?= 2 ^ Z.of_nat k).

(** [n] over [2 ^ k], to the nearest and to even on a tie. *)
Definition near (n : Z) (k : nat) : Z := round_nearest_even (n / 2 ^ Z.of_nat k) (place n k).

Lemma iter_pos_nat {A} (f : A → A) p x : iter_pos f p x = Nat.iter (Pos.to_nat p) f x.
Proof.
  revert x. induction p as [p IH|p IH|]; intros x; cbn [iter_pos].
  - rewrite !IH, Pos2Nat.inj_xI, Nat.iter_succ_r, <- Nat.iter_add. f_equal. lia.
  - rewrite !IH, Pos2Nat.inj_xO, <- Nat.iter_add. f_equal. lia.
  - done.
Qed.

(** The record after [k] shifts: quotient, the last bit shifted out, and whether
    anything went before it. *)
Definition shifted (n : Z) (k : nat) (r : shr_record) : Prop :=
  shr_m r = n / 2 ^ Z.of_nat k ∧
  match k with
  | O => shr_r r = false ∧ shr_s r = false
  | S j => shr_r r = ((n / 2 ^ Z.of_nat j) mod 2 =? 1) ∧ shr_s r = negb (n mod 2 ^ Z.of_nat j =? 0)
  end.

Lemma shr_1_halves r : 0 ≤ shr_m r →
  shr_m (shr_1 r) = shr_m r / 2 ∧ shr_r (shr_1 r) = (shr_m r mod 2 =? 1) ∧
  shr_s (shr_1 r) = shr_r r || shr_s r.
Proof.
  destruct r as [m a s]. cbn [shr_m]. intros Hm. rewrite <- Z.div2_div.
  destruct m as [|[p|p|]|p]; try done; try lia; cbn [shr_1 shr_m shr_r shr_s];
    (split; [done|split; [|done]]).
  - by rewrite (Pos2Z.inj_xI p), Z.add_comm, Z.mul_comm, Z.mod_add by lia.
  - by rewrite (Pos2Z.inj_xO p), Z.mul_comm, Z.mod_mul by lia.
Qed.

Lemma mod_double n k : 0 ≤ n →
  n mod 2 ^ Z.of_nat (S k) = 2 ^ Z.of_nat k * ((n / 2 ^ Z.of_nat k) mod 2) + n mod 2 ^ Z.of_nat k.
Proof.
  intros Hn. rewrite Nat2Z.inj_succ, Z.pow_succ_r, Z.mul_comm by lia.
  rewrite Z.rem_mul_r by lia. lia.
Qed.

Lemma shr_iter n k : 0 ≤ n → shifted n k (Nat.iter k shr_1 (Build_shr_record n false false)).
Proof.
  intros Hn. induction k as [|k IH].
  { split; [cbn; by rewrite Z.div_1_r|done]. }
  rewrite Nat.iter_succ. destruct IH as [Hm Hrs].
  assert (0 ≤ n / 2 ^ Z.of_nat k) by (apply Z.div_pos; lia).
  edestruct shr_1_halves as (Hm' & Hr' & Hs'); [by rewrite Hm|].
  unfold shifted. rewrite Hm', Hr', Hs', Hm. split.
  { by rewrite Nat2Z.inj_succ, Z.pow_succ_r, Z.div_div, Z.mul_comm by lia. }
  split; [done|]. destruct k as [|k].
  { destruct Hrs as [-> ->]. cbn. by rewrite Z.mod_1_r. }
  destruct Hrs as [-> ->]. rewrite mod_double by done.
  pose proof (Z.mod_pos_bound (n / 2 ^ Z.of_nat k) 2 ltac:(lia)).
  pose proof (Z.mod_pos_bound n (2 ^ Z.of_nat k) ltac:(lia)).
  assert (0 < 2 ^ Z.of_nat k) by lia.
  destruct (Z.eqb_spec ((n / 2 ^ Z.of_nat k) mod 2) 1) as [->|];
    destruct (Z.eqb_spec (n mod 2 ^ Z.of_nat k) 0) as [->|]; simpl; symmetry;
    rewrite ?negb_true_iff, ?negb_false_iff, ?Z.eqb_neq, ?Z.eqb_eq; try lia.
  all: replace ((n / 2 ^ Z.of_nat k) mod 2) with 0 by lia; lia.
Qed.

Lemma loc_shr_iter n k : 0 ≤ n →
  loc_of_shr_record (Nat.iter k shr_1 (Build_shr_record n false false)) = place n k.
Proof.
  intros Hn. destruct (shr_iter n k Hn) as [_ Hrs].
  destruct (Nat.iter k shr_1 _) as [m r s]. cbn [shr_r shr_s] in Hrs. unfold place.
  destruct k as [|k]; [destruct Hrs as [-> ->]; cbn; by rewrite Z.mod_1_r|].
  destruct Hrs as [-> ->]. rewrite mod_double by done.
  assert (2 ^ Z.of_nat (S k) = 2 * 2 ^ Z.of_nat k) as ->.
  { rewrite Nat2Z.inj_succ, Z.pow_succ_r; lia. }
  pose proof (Z.mod_pos_bound (n / 2 ^ Z.of_nat k) 2 ltac:(lia)).
  pose proof (Z.mod_pos_bound n (2 ^ Z.of_nat k) ltac:(lia)).
  assert (0 < 2 ^ Z.of_nat k) by lia.
  destruct (Z.eqb_spec ((n / 2 ^ Z.of_nat k) mod 2) 1) as [->|];
    [|replace ((n / 2 ^ Z.of_nat k) mod 2) with 0 by lia];
    destruct (Z.eqb_spec (n mod 2 ^ Z.of_nat k) 0) as [->|]; simpl;
    try rewrite (proj2 (Z.eqb_neq _ 0)) by lia; rewrite ?Z.mul_0_r; try done;
    do 2 f_equal; symmetry;
    rewrite ?Z.compare_eq_iff, ?Z.compare_lt_iff, ?Z.compare_gt_iff; lia.
Qed.

Lemma near_bounds n k : 0 ≤ n → n / 2 ^ Z.of_nat k ≤ near n k ≤ n / 2 ^ Z.of_nat k + 1.
Proof.
  intros Hn. unfold near, round_nearest_even. destruct (place n k) as [|[]]; try lia.
  destruct (Z.even _); lia.
Qed.

(** What rounding may be off by: half of the last place. *)
Lemma near_close n k : 0 ≤ n → 2 * Z.abs (near n k * 2 ^ Z.of_nat k - n) ≤ 2 ^ Z.of_nat k.
Proof.
  intros Hn. unfold near, place. pose proof (Z.div_mod n (2 ^ Z.of_nat k) ltac:(lia)) as Hd.
  pose proof (Z.mod_pos_bound n (2 ^ Z.of_nat k) ltac:(lia)).
  set (q := n / 2 ^ Z.of_nat k) in *. set (low := n mod 2 ^ Z.of_nat k) in *.
  set (h := 2 ^ Z.of_nat k) in *.
  destruct (Z.eqb_spec low 0) as [->|]; cbn [round_nearest_even]; [lia|].
  destruct (Z.compare_spec (2 * low) h); [destruct (Z.even q)|..]; lia.
Qed.

Lemma near_exact n k : near (n * 2 ^ Z.of_nat k) k = n.
Proof.
  unfold near, place. rewrite Z.mod_mul, Z.div_mul by lia. done.
Qed.

Lemma shr_fexp_near n e k : 0 < n → 2 ^ (23 + Z.of_nat k) ≤ n < 2 ^ (24 + Z.of_nat k) →
  -149 ≤ e + Z.of_nat k →
  ∃ r, shr_fexp PREC EMAX n e loc_Exact = (r, e + Z.of_nat k) ∧
    shr_m r = n / 2 ^ Z.of_nat k ∧ loc_of_shr_record r = place n k.
Proof.
  intros Hn Hd He. unfold shr_fexp, fexp, emin.
  rewrite (Zdigits2_unique n (24 + Z.of_nat k)) by (try replace (24 + Z.of_nat k - 1) with (23 + Z.of_nat k); lia).
  replace (Z.max _ _ - e) with (Z.of_nat k) by lia. cbn [shr_record_of_loc].
  exists (Nat.iter k shr_1 (Build_shr_record n false false)). split.
  - destruct k as [|k]; [by rewrite Z.add_0_r|]. unfold shr. rewrite Nat2Z.inj_succ.
    destruct (Z.succ (Z.of_nat k)) as [|p|p] eqn:Ep; [lia| |lia].
    rewrite iter_pos_nat. by replace (Pos.to_nat p) with (S k) by lia.
  - split; [apply (shr_iter n k); lia|apply loc_shr_iter; lia].
Qed.

(** Rounding a mantissa of more than 24 digits. *)
Lemma binary_round_aux_near n e k : 2 ^ (23 + Z.of_nat k) ≤ n < 2 ^ (24 + Z.of_nat k) →
  -149 ≤ e + Z.of_nat k ≤ 103 →
  binary_round_aux PREC EMAX false n e loc_Exact =
    (if near n k <? 2 ^ 24 then pos_float (near n k) (e + Z.of_nat k)
     else pos_float (2 ^ 23) (e + Z.of_nat k + 1)).
Proof.
  intros Hn He. assert (0 < n). { pose proof (Z.pow_pos_nonneg 2 (23 + Z.of_nat k)). lia. }
  unfold binary_round_aux. destruct (shr_fexp_near n e k) as (r & -> & Hm & Hl); [lia..|].
  rewrite Hm, Hl. fold (near n k). pose proof (near_bounds n k ltac:(lia)) as Hb.
  assert (2 ^ 23 ≤ n / 2 ^ Z.of_nat k < 2 ^ 24).
  { rewrite !Z.pow_add_r in Hn by lia.
    split; [apply Z.div_le_lower_bound; lia|apply Z.div_lt_upper_bound; lia]. }
  destruct (Z.ltb_spec (near n k) (2 ^ 24)) as [Hlt|Hge].
  - destruct (shr_fexp_near (near n k) (e + Z.of_nat k) 0) as (r' & -> & Hm' & _); [lia..|].
    rewrite Hm'. cbn [Z.of_nat]. rewrite Z.pow_0_r, Z.div_1_r, Z.add_0_r.
    destruct (near n k) as [|p|p] eqn:Ep; [lia| |lia].
    rewrite (proj2 (Z.leb_le _ _)) by lia. done.
  - assert (near n k = 2 ^ 24) as -> by lia.
    destruct (shr_fexp_near (2 ^ 24) (e + Z.of_nat k) 1) as (r' & -> & Hm' & _); [lia..|].
    rewrite Hm'. change (2 ^ 24 / 2 ^ Z.of_nat 1) with (Zpos (2 ^ 23)). cbn [Z.of_nat Pos.of_succ_nat].
    rewrite (proj2 (Z.leb_le _ _)) by lia. done.
Qed.

Lemma iter_xO p d : Zpos (Pos.iter xO p d) = Zpos p * 2 ^ Zpos d.
Proof.
  induction d as [|d IH] using Pos.peano_ind; [cbn; lia|].
  rewrite Pos.iter_succ, Pos2Z.inj_succ, Z.pow_succ_r by lia.
  rewrite (Pos2Z.inj_xO (Pos.iter _ _ _)), IH. lia.
Qed.

(** Aligning a mantissa to a smaller exponent multiplies it. *)
Lemma shl_align_mul p e j : 0 ≤ j →
  Zpos (shl_align p e (e - j)).1 = Zpos p * 2 ^ j ∧ (shl_align p e (e - j)).2 = e - j.
Proof.
  intros Hj. unfold shl_align. replace (e - j - e) with (- j) by lia.
  destruct j as [|j|j]; [rewrite Z.pow_0_r; change (- 0) with 0; cbn [fst snd]; lia| |lia].
  change (- Zpos j) with (Zneg j). cbn [fst snd].
  by rewrite iter_xO.
Qed.

Lemma shl_align_stay p e e' : e ≤ e' → shl_align p e e' = (p, e).
Proof. intros He. unfold shl_align. by destruct (e' - e) eqn:E; [| |lia]. Qed.

(** A mantissa of at most 24 digits is represented exactly. *)
Lemma binary_round_small n e j : 2 ^ 23 ≤ Zpos n * 2 ^ Z.of_nat j < 2 ^ 24 →
  -149 ≤ e - Z.of_nat j ≤ 103 →
  binary_round PREC EMAX false n e = pos_float (Zpos n * 2 ^ Z.of_nat j) (e - Z.of_nat j).
Proof.
  intros Hn He. unfold binary_round, fexp, emin.
  assert (Hd : Zpos (digits2_pos n) = 24 - Z.of_nat j).
  { apply digits2_unique.
    assert (Hp : 0 < 2 ^ Z.of_nat j) by lia.
    assert (Z.of_nat j ≤ 23).
    { destruct (Z.le_gt_cases (Z.of_nat j) 23) as [?|Hgt]; [done|].
      assert (2 ^ 24 ≤ 2 ^ Z.of_nat j) by (apply Z.pow_le_mono_r; lia). nia. }
    split.
    - apply (Z.mul_le_mono_pos_r _ _ (2 ^ Z.of_nat j)); [done|].
      rewrite <- Z.pow_add_r by lia. replace (24 - Z.of_nat j - 1 + Z.of_nat j) with 23 by lia. lia.
    - apply (Z.mul_lt_mono_pos_r (2 ^ Z.of_nat j)); [done|].
      rewrite <- Z.pow_add_r by lia. replace (24 - Z.of_nat j + Z.of_nat j) with 24 by lia. lia. }
  rewrite Hd. replace (Z.max _ _) with (e - Z.of_nat j) by lia.
  destruct (shl_align_mul n e (Z.of_nat j)) as [Hm Hx]; [lia|].
  destruct (shl_align n e _) as [mz ez]. cbn [fst snd] in Hm, Hx. rewrite Hm, Hx.
  rewrite (binary_round_aux_near _ _ 0) by (cbn [Z.of_nat]; rewrite ?Z.add_0_r; lia).
  assert (near (Zpos n * 2 ^ Z.of_nat j) 0 = Zpos n * 2 ^ Z.of_nat j) as ->.
  { by rewrite <- (near_exact (Zpos n * 2 ^ Z.of_nat j) 0) at 2; rewrite Z.mul_1_r. }
  rewrite (proj2 (Z.ltb_lt _ _)) by lia. by rewrite Z.add_0_r.
Qed.

(** One of at least 24 digits is rounded. *)
Lemma binary_round_large n e k : 2 ^ (23 + Z.of_nat k) ≤ Zpos n < 2 ^ (24 + Z.of_nat k) →
  -149 ≤ e + Z.of_nat k ≤ 103 →
  binary_round PREC EMAX false n e = binary_round_aux PREC EMAX false (Zpos n) e loc_Exact.
Proof.
  intros Hn He. unfold binary_round, fexp, emin.
  rewrite (digits2_unique n (24 + Z.of_nat k)) by (try replace (24 + Z.of_nat k - 1) with (23 + Z.of_nat k); lia).
  rewrite shl_align_stay by lia. done.
Qed.

(** ** Doubling, halving and the complement to one *)

Lemma near_zero n : near n 0 = n.
Proof. rewrite <- (Z.mul_1_r n) at 1. apply (near_exact n 0). Qed.

(** A product with a power of two. *)
Lemma round_scaled m e k : normal m (e + Z.of_nat k) → e + Z.of_nat k ≤ 103 →
  binary_round_aux PREC EMAX false (m * 2 ^ Z.of_nat k) e loc_Exact = pos_float m (e + Z.of_nat k).
Proof.
  intros [Hm He] Hmax. rewrite (binary_round_aux_near _ _ k); [|split|lia].
  - rewrite near_exact, (proj2 (Z.ltb_lt _ _)) by lia. done.
  - rewrite Z.pow_add_r by lia. apply Z.mul_le_mono_nonneg_r; lia.
  - rewrite Z.pow_add_r by lia. apply Z.mul_lt_mono_pos_r; lia.
Qed.

Lemma double_float m e : normal m e → e ≤ 102 →
  SFmul PREC EMAX (pos_float (2 ^ 23) (-22)) (pos_float m e) = pos_float m (e + 1).
Proof.
  intros [Hm He] Hmax. unfold SFmul, pos_float. cbn [xorb].
  replace (Zpos (Z.to_pos (2 ^ 23) * Z.to_pos m)) with (m * 2 ^ Z.of_nat 23).
  2:{ rewrite Pos2Z.inj_mul, !Z2Pos.id by lia. cbn. lia. }
  rewrite (round_scaled m (-22 + e) 23) by (unfold normal; lia).
  unfold pos_float. f_equal. lia.
Qed.

Lemma halve_float m e : normal m e → -147 ≤ e ≤ 103 →
  SFdiv PREC EMAX (pos_float m e) (pos_float (2 ^ 23) (-22)) = pos_float m (e - 1).
Proof.
  intros [Hm He] Hmax. unfold SFdiv, pos_float, SFdiv_core_binary.
  rewrite (Zdigits2_unique (Zpos (Z.to_pos m)) 24), (Zdigits2_unique (Zpos (Z.to_pos (2 ^ 23))) 24)
    by (rewrite ?Z2Pos.id by lia; lia).
  unfold fexp, emin. rewrite !Z2Pos.id by lia.
  replace (Z.min (Z.max (24 + e - (24 + -22) - 24) (3 - 128 - 24)) (e - -22))
    with (e - 2) by lia.
  replace (e - -22 - (e - 2)) with 24 by lia. cbv beta iota zeta.
  rewrite Z.shiftl_mul_pow2 by lia.
  replace (m * 2 ^ 24) with (2 * m * 2 ^ 23) by lia.
  pose proof (Z.div_mod (2 * m * 2 ^ 23) (2 ^ 23)) as Hd.
  unfold Z.div, Z.modulo in Hd.
  pose proof (Z.div_mul (2 * m) (2 ^ 23) ltac:(lia)) as Hq.
  pose proof (Z.mod_mul (2 * m) (2 ^ 23) ltac:(lia)) as Hr.
  unfold Z.div, Z.modulo in Hq, Hr.
  destruct (Z.div_eucl (2 * m * 2 ^ 23) (2 ^ 23)) as [q r]. subst q r.
  unfold new_location, new_location_even. cbn [Z.eqb Z.even xorb].
  change (Z.even (2 ^ 23)) with true. cbv iota.
  replace (2 * m) with (m * 2 ^ Z.of_nat 1) by lia.
  change (0 =? 0) with true. cbv iota.
  rewrite (round_scaled m (e - 2) 1) by (unfold normal; lia). unfold pos_float. f_equal. lia.
Qed.

Lemma sub_from_one m e : 2 ^ 23 ≤ m < 2 ^ 24 → -40 ≤ e ≤ -24 →
  SFsub PREC EMAX (pos_float (2 ^ 23) (-23)) (pos_float m e) =
    binary_round PREC EMAX false (Z.to_pos (2 ^ (- e) - m)) e.
Proof.
  intros Hm He. unfold SFsub, pos_float. replace (Z.min (-23) e) with e by lia.
  rewrite (shl_align_stay _ e e) by lia. cbn [fst cond_Zopp].
  replace e with (-23 - (-23 - e)) at 1 by lia.
  rewrite (proj1 (shl_align_mul _ (-23) (-23 - e) ltac:(lia))).
  rewrite !Z2Pos.id, <- Z.pow_add_r by lia. replace (23 + (-23 - e)) with (- e) by lia.
  assert (2 ^ 24 ≤ 2 ^ (- e)) by (apply Z.pow_le_mono_r; lia).
  destruct (2 ^ (- e) - m) as [|p|p] eqn:E; [lia| |lia]. done.
Qed.

Lemma add_floats a ea b eb : 0 < a → 0 < b →
  let ez := Z.min ea eb in
  SFadd PREC EMAX (pos_float a ea) (pos_float b eb) =
    binary_round PREC EMAX false (Z.to_pos (a * 2 ^ (ea - ez) + b * 2 ^ (eb - ez))) ez.
Proof.
  intros Ha Hb ez. unfold SFadd, pos_float. fold ez. cbn [cond_Zopp].
  assert (Hal : ∀ x ex, 0 < x → ez ≤ ex →
    Zpos (shl_align (Z.to_pos x) ex ez).1 = x * 2 ^ (ex - ez)).
  { intros x ex Hx Hex. replace ez with (ex - (ex - ez)) at 1 by lia.
    rewrite (proj1 (shl_align_mul _ ex (ex - ez) ltac:(lia))). by rewrite Z2Pos.id. }
  rewrite !Hal by lia.
  assert (0 < a * 2 ^ (ea - ez)) by (apply Z.mul_pos_pos; lia).
  assert (0 < b * 2 ^ (eb - ez)) by (apply Z.mul_pos_pos; lia).
  destruct (a * 2 ^ (ea - ez) + b * 2 ^ (eb - ez)) as [|p|p] eqn:E; [lia| |lia]. done.
Qed.

(** A sum within half a last place of two is rounded to two. *)
Lemma round_to_two n k : (k ≤ 40)%nat →
  2 * Z.abs (n - 2 ^ (24 + Z.of_nat k)) ≤ 2 ^ Z.of_nat k →
  binary_round PREC EMAX false (Z.to_pos n) (- Z.of_nat k - 23) = pos_float (2 ^ 23) (-22).
Proof.
  intros Hk Hn. rewrite (Z.pow_add_r 2 24) in Hn by lia.
  set (h := 2 ^ Z.of_nat k) in *. assert (1 ≤ h) by (unfold h; lia).
  assert (Hs : 2 ^ Z.of_nat (S k) = 2 * h) by (unfold h; rewrite Nat2Z.inj_succ, Z.pow_succ_r; lia).
  destruct (Z.le_gt_cases (2 ^ 24 * h) n) as [Hge|Hlt].
  - assert (Hd : 2 ^ (23 + Z.of_nat (S k)) ≤ n < 2 ^ (24 + Z.of_nat (S k)))
      by (rewrite !Z.pow_add_r, Hs by lia; lia).
    rewrite (binary_round_large _ _ (S k)) by (rewrite ?Z2Pos.id by lia; lia).
    rewrite Z2Pos.id, (binary_round_aux_near _ _ (S k)) by lia.
    pose proof (near_close n (S k) ltac:(lia)) as Hc. rewrite Hs in Hc.
    assert (near n (S k) = 2 ^ 23) as -> by nia.
    rewrite (proj2 (Z.ltb_lt _ _)) by lia. f_equal. lia.
  - assert (Hd : 2 ^ (23 + Z.of_nat k) ≤ n < 2 ^ (24 + Z.of_nat k))
      by (rewrite !Z.pow_add_r by lia; fold h; lia).
    rewrite (binary_round_large _ _ k) by (rewrite ?Z2Pos.id by lia; lia).
    rewrite Z2Pos.id, (binary_round_aux_near _ _ k) by lia.
    assert (near n k = 2 ^ 24) as ->; [|rewrite (proj2 (Z.ltb_ge _ _)) by lia; f_equal; lia].
    pose proof (near_close n k ltac:(lia)) as Hc. fold h in Hc.
    destruct (Z.eq_dec (2 * (2 ^ 24 * h - n)) h) as [Htie|Hno]; [|nia].
    assert (Hlow : n mod h = 2 ^ 24 * h - n).
    { symmetry. apply (Z.mod_unique _ _ (2 ^ 24 - 1)); lia. }
    assert (Hquo : n / h = 2 ^ 24 - 1).
    { symmetry. apply (Z.div_unique _ _ _ (2 ^ 24 * h - n)); lia. }
    unfold near, place. fold h. rewrite Hlow, Hquo, (proj2 (Z.eqb_neq _ _)) by lia.
    rewrite Htie, Z.compare_refl. done.
Qed.

(** Below a half, one minus [m * 2 ^ e] is rounded; the rounding error is lost again in
    the sum. *)
Lemma complement_below_half m e : 2 ^ 23 ≤ m < 2 ^ 24 → -40 ≤ e ≤ -25 →
  let c := near (2 ^ (- e) - m) (Z.to_nat (- e - 24)) in
  SFsub PREC EMAX (pos_float (2 ^ 23) (-23)) (pos_float m e) = pos_float c (-24) ∧
  2 ^ 23 ≤ c < 2 ^ 24 ∧
  SFadd PREC EMAX (pos_float m (e + 1)) (pos_float c (-23)) = pos_float (2 ^ 23) (-22).
Proof.
  intros Hm He. rewrite sub_from_one by lia. set (n := 2 ^ (- e) - m).
  set (k := Z.to_nat (- e - 24)). intros c.
  assert (HE : - e = 24 + Z.of_nat k) by lia.
  set (h := 2 ^ Z.of_nat k). assert (Hpow : 2 ^ (- e) = 2 ^ 24 * h).
  { rewrite HE. by rewrite Z.pow_add_r by lia. }
  assert (Hh : 2 ≤ h ≤ 2 ^ 16).
  { unfold h. split; [change 2 with (2 ^ 1)|]; apply Z.pow_le_mono_r; lia. }
  assert (Hn : 2 ^ 23 * h ≤ n < 2 ^ 24 * h) by (unfold n; rewrite Hpow; lia).
  assert (Hd : 2 ^ (23 + Z.of_nat k) ≤ n < 2 ^ (24 + Z.of_nat k))
    by (rewrite !Z.pow_add_r by lia; fold h; lia).
  pose proof (near_close n k ltac:(lia)) as Hc. fold h c in Hc.
  assert (Hc' : 2 ^ 23 ≤ c < 2 ^ 24) by (unfold n in Hc; rewrite Hpow in Hc; nia).
  split; [|split; [done|]].
  - rewrite (binary_round_large _ _ k) by (rewrite ?Z2Pos.id by lia; lia).
    rewrite Z2Pos.id, (binary_round_aux_near _ _ k) by lia. fold c.
    rewrite (proj2 (Z.ltb_lt _ _)) by lia. f_equal. lia.
  - rewrite add_floats by lia. replace (Z.min (e + 1) (-23)) with (e + 1) by lia.
    rewrite Z.sub_diag, Z.pow_0_r, Z.mul_1_r. replace (-23 - (e + 1)) with (Z.of_nat k) by lia.
    fold h. replace (e + 1) with (- Z.of_nat k - 23) by lia.
    apply round_to_two; [lia|]. rewrite Z.pow_add_r by lia. fold h. unfold n in Hc. lia.
Qed.

(** From a half on it is exact. *)
Lemma complement_above_half m : 2 ^ 23 ≤ m ≤ 2 ^ 24 - 2 ^ 19 →
  ∃ c j, (j ≤ 4)%nat ∧
  SFsub PREC EMAX (pos_float (2 ^ 23) (-23)) (pos_float m (-24)) = pos_float c (-24 - Z.of_nat j) ∧
  2 ^ 23 ≤ c < 2 ^ 24 ∧
  SFadd PREC EMAX (pos_float m (-23)) (pos_float c (-23 - Z.of_nat j)) = pos_float (2 ^ 23) (-22).
Proof.
  intros Hm. rewrite sub_from_one by lia. change (2 ^ (- (-24))) with (2 ^ 24).
  set (n := 2 ^ 24 - m).
  assert (∃ j, (j ≤ 4)%nat ∧ 2 ^ 23 ≤ n * 2 ^ Z.of_nat j < 2 ^ 24) as (j & Hj & Hn).
  { destruct (decide (2 ^ 23 ≤ n)); [by exists 0%nat; lia|].
    destruct (decide (2 ^ 22 ≤ n)); [by exists 1%nat; lia|].
    destruct (decide (2 ^ 21 ≤ n)); [by exists 2%nat; lia|].
    destruct (decide (2 ^ 20 ≤ n)); [by exists 3%nat; lia|]. exists 4%nat. lia. }
  exists (n * 2 ^ Z.of_nat j), j. split; [done|]. split; [|split; [done|]].
  - rewrite (binary_round_small _ _ j) by (rewrite ?Z2Pos.id by lia; lia).
    by rewrite Z2Pos.id by lia.
  - rewrite add_floats by lia.
    replace (Z.min (-23) (-23 - Z.of_nat j)) with (- Z.of_nat j - 23) by lia.
    replace (-23 - (- Z.of_nat j - 23)) with (Z.of_nat j) by lia.
    replace (-23 - Z.of_nat j - (- Z.of_nat j - 23)) with 0 by lia.
    replace (m * 2 ^ Z.of_nat j + n * 2 ^ Z.of_nat j * 2 ^ 0) with (2 ^ (24 + Z.of_nat j)).
    2:{ rewrite Z.pow_add_r by lia. unfold n. lia. }
    apply round_to_two; [lia|]. rewrite Z.sub_diag. simpl Z.abs. lia.
Qed.

(** ** The flexes of a split *)

(** [r] is the number [m * 2 ^ e]. *)
Definition denotes (r : f32) (m e : Z) : Prop := r = f32_encode (pos_float m e) ∧ normal m e.

Lemma denotes_decode r m e : denotes r m e → f32_decode r = pos_float m e.
Proof. intros [-> Hn]. by apply f32_decode_encode. Qed.

Lemma denotes_double r m e : denotes r m e → e ≤ 102 →
  denotes (f32_mul f32_two r) m (e + 1) ∧ f32_mul r f32_two = f32_mul f32_two r.
Proof.
  intros Hr He. pose proof (denotes_decode _ _ _ Hr) as Hd. destruct Hr as [_ Hn].
  unfold f32_mul. rewrite Hd. change (f32_decode f32_two) with (pos_float (2 ^ 23) (-22)).
  rewrite (double_float m e) by done. split.
  - split; [done|]. unfold normal in *. lia.
  - rewrite <- (double_float m e) by done. unfold SFmul, pos_float.
    by rewrite Pos.mul_comm, Z.add_comm.
Qed.

Lemma denotes_halve r m e : denotes r m e → -147 ≤ e ≤ 103 →
  denotes (f32_div r f32_two) m (e - 1).
Proof.
  intros Hr He. pose proof (denotes_decode _ _ _ Hr) as Hd. destruct Hr as [_ Hn].
  unfold f32_div. rewrite Hd. change (f32_decode f32_two) with (pos_float (2 ^ 23) (-22)).
  rewrite halve_float by done. split; [done|]. unfold normal in *. lia.
Qed.

Lemma denotes_eq r r' m e e' : denotes r m e → denotes r' m e' → e = e' → r = r'.
Proof. intros [-> _] [-> _] ->. done. Qed.

Lemma f32_sum_pair a b m e : denotes a m e → f32_sum [a; b] = f32_add a b.
Proof.
  intros Ha. unfold f32_sum. cbn [fold_left]. f_equal. unfold f32_add at 1.
  rewrite (denotes_decode _ _ _ Ha).
  change (f32_decode (f32_encode (S754_zero true))) with (S754_zero true).
  destruct Ha as [-> _]. done.
Qed.

Definition ratio_low : f32 := F32 1028443341.   (* 0.05 *)
Definition ratio_high : f32 := f32_sub f32_one ratio_low.

Definition ratio_in_range (r : f32) : bool := f32_leb ratio_low r && f32_leb r ratio_high.

Lemma ratio_in_range_denotes r : f32_ok r → ratio_in_range r = true →
  ∃ m e, denotes r m e ∧ -28 ≤ e ≤ -24 ∧ (e = -24 → m ≤ 2 ^ 24 - 2 ^ 19).
Proof.
  intros Hok. unfold ratio_in_range, f32_leb, SFleb.
  change (f32_decode ratio_low) with (pos_float 13421773 (-28)).
  change (f32_decode ratio_high) with (pos_float 15938355 (-24)).
  intros [Hlo Hhi]%andb_prop. destruct (f32_decode r) as [s|[]| |[] m e] eqn:Hd; try done.
  unfold pos_float, SFcompare in Hlo, Hhi.
  assert (Hm : Zpos m < 2 ^ 24 ∧ (Zpos m < 2 ^ 23 → e = -149)).
  { unfold f32_decode in Hd. destruct r as [b]. cbn [f32_bits] in Hd.
    pose proof (Z.mod_pos_bound b (2 ^ 23) ltac:(lia)) as Hb.
    repeat case_match; try discriminate Hd; injection Hd as ? ? ?; subst; lia. }
  assert (Hrange : -28 ≤ e ≤ -24 ∧ (e = -24 → Zpos m ≤ 15938355)).
  { destruct (Z.compare_spec (-28) e); [| |done]; destruct (Z.compare_spec e (-24)); try done;
      split; try lia. intros _. change (Pos.compare_cont Eq) with Pos.compare in Hhi.
    destruct (Pos.compare_spec m (Z.to_pos 15938355)); [subst|..|done]; lia. }
  exists (Zpos m), e. split; [|lia]. split; [|unfold normal; lia].
  apply f32_encode_decode; [done| |lia]. rewrite Hd. unfold pos_float. done.
Qed.

(** A split's two flexes add up to two exactly, and give the ratio back exactly. *)
Lemma flexes_exact r : f32_ok r → ratio_in_range r = true →
  let first := f32_mul f32_two r in
  let second := f32_mul f32_two (f32_sub f32_one r) in
  f32_sum [first; second] = f32_two ∧
  f32_div first f32_two = r ∧
  f32_mul (f32_div first f32_two) f32_two = first ∧
  f32_mul (f32_div second f32_two) f32_two = second.
Proof.
  intros Hok Hr first second.
  destruct (ratio_in_range_denotes r Hok Hr) as (m & e & Hd & He & Hhigh).
  assert (∃ c x, denotes (f32_sub f32_one r) c x ∧ -28 ≤ x ≤ -24 ∧
    SFadd PREC EMAX (pos_float m (e + 1)) (pos_float c (x + 1)) = pos_float (2 ^ 23) (-22))
    as (c & x & Hc & Hx & Hsum).
  { pose proof (denotes_decode _ _ _ Hd) as Hdec. unfold f32_sub. rewrite Hdec.
    change (f32_decode f32_one) with (pos_float (2 ^ 23) (-23)).
    destruct Hd as [_ [Hm _]]. destruct (Z.eq_dec e (-24)) as [->|].
    - destruct (complement_above_half m) as (c & j & Hj & -> & Hc & Hsum); [lia|].
      exists c, (-24 - Z.of_nat j). repeat split; try (unfold normal; lia).
      by replace (-24 - Z.of_nat j + 1) with (-23 - Z.of_nat j) by lia.
    - destruct (complement_below_half m e) as (-> & Hc & Hsum); [lia..|].
      eexists _, (-24). repeat split; try (unfold normal; lia). done. }
  destruct (denotes_double _ _ _ Hd) as [Ha _]; [lia|]. fold first in Ha.
  destruct (denotes_double _ _ _ Hc) as [Hb _]; [lia|]. fold second in Hb.
  pose proof (denotes_halve _ _ _ Ha ltac:(lia)) as Ha'.
  pose proof (denotes_halve _ _ _ Hb ltac:(lia)) as Hb'.
  destruct (denotes_double _ _ _ Ha') as [Ha'' ->]; [lia|].
  destruct (denotes_double _ _ _ Hb') as [Hb'' ->]; [lia|].
  split_and!.
  - rewrite (f32_sum_pair _ _ _ _ Ha). unfold f32_add.
    rewrite (denotes_decode _ _ _ Ha), (denotes_decode _ _ _ Hb), Hsum. done.
  - apply (denotes_eq _ _ _ _ _ Ha' Hd). lia.
  - apply (denotes_eq _ _ _ _ _ Ha'' Ha). lia.
  - apply (denotes_eq _ _ _ _ _ Hb'' Hb). lia.
Qed.

Lemma SFcompare_antisym x y : SFcompare y x = CompOpp <$> SFcompare x y.
Proof.
  destruct x as [[]|[]| |[] m1 e1], y as [[]|[]| |[] m2 e2]; try done;
    cbn [SFcompare fmap option_fmap option_map]; rewrite (Z.compare_antisym e1 e2);
    change (Pos.compare_cont Eq) with Pos.compare; rewrite (Pos.compare_antisym m1 m2);
    by destruct (e1 ?= e2), (m1 ?= m2)%positive.
Qed.

Lemma f32_leb_not_ltb a b : f32_leb a b = true → f32_ltb b a = false.
Proof.
  unfold f32_leb, f32_ltb, SFleb, SFltb. rewrite (SFcompare_antisym (f32_decode a)).
  by destruct (SFcompare _ _) as [[]|].
Qed.

Lemma ratio_in_range_clamp r : ratio_in_range r = true → f32_clamp r ratio_low ratio_high = r.
Proof.
  intros [Hlo Hhi]%andb_prop. unfold f32_clamp.
  by rewrite (f32_leb_not_ltb _ _ Hlo), (f32_leb_not_ltb _ _ Hhi).
Qed.

Lemma ratio_in_range_finite r : ratio_in_range r = true → f32_is_finite r = true.
Proof.
  intros [Hlo Hhi]%andb_prop. unfold f32_is_finite, f32_leb, SFleb in *.
  change (f32_decode ratio_low) with (pos_float 13421773 (-28)) in Hlo.
  change (f32_decode ratio_high) with (pos_float 15938355 (-24)) in Hhi.
  by destruct (f32_decode r) as [|[]| |].
Qed.
