(* ===== verification/Panes.v ===== *)
(** * The pane tree a layout becomes, and back

    [crates/ade_workspaces/src/layout.rs]: a document unfolds into an [Arrangement]
    with its leaves numbered, becomes the window's n-ary pane tree, and is captured
    back as a binary document. [Member] and [PaneAxis::load] are
    [crates/workspace/src/pane_group.rs]'s. *)

From S2P Require Import Prelude Text Layout Float32.
From Stdlib Require Import Ascii.
From stdpp Require Import options.
#[local] Set Warnings "-register-all".
Open Scope Z_scope.

Definition MIN_SPLIT_RATIO : f32 := ratio_low.   (* 0.05 *)

(** [Leaf] of the source; the name is [LayoutNode]'s constructor here. *)
Record PaneLeaf : Type := mkPaneLeaf {
  pl_tabs : list Tab;
  pl_active : Z;
  pl_focused : bool
}.

Inductive Arrangement : Type :=
| ArrAxis (dir : SplitDir) (flexes : list f32) (members : list Arrangement)
| ArrPane (index : nat).

(** [gpui::Axis]. *)
Inductive Axis : Type := AxisHorizontal | AxisVertical.

(** [Member] of the pane group, over whatever a pane is. *)
Inductive Member (P : Type) : Type :=
| MAxis (axis : Axis) (flexes : list f32) (members : list (Member P))
| MPane (pane : P).
Arguments MAxis {P} _ _ _.
Arguments MPane {P} _.

(** ** From a document to an arrangement *)

Definition split_flexes (ratio : f32) : list f32 :=
  let ratio := if f32_is_finite ratio
               then f32_clamp ratio MIN_SPLIT_RATIO (f32_sub f32_one MIN_SPLIT_RATIO)
               else f32_half in
  [f32_mul f32_two ratio; f32_mul f32_two (f32_sub f32_one ratio)].

(** The inner [walk]: it numbers the leaves in tree order. *)
Fixpoint walk (node : LayoutNode) (leaves : list PaneLeaf) : Arrangement * list PaneLeaf :=
  match node with
  | Leaf tabs active focused =>
      (ArrPane (length leaves),
       leaves ++ [mkPaneLeaf tabs (Z.min active (Z.max 0 (Z.of_nat (length tabs) - 1))) focused])
  | Split dir ratio first second =>
      let '(a, leaves) := walk first leaves in
      let '(b, leaves) := walk second leaves in
      (ArrAxis dir (split_flexes ratio) [a; b], leaves)
  end.

Definition arrangement_from_layout (root : LayoutNode) : Arrangement * list PaneLeaf := walk root [].

(** ** From an arrangement to a document *)

(** What an axis keeps: members that came out, each with its flex or [1.0]. *)
Section Kept.
Context {A B : Type} (f : A → option B) (flexes : list f32).

Fixpoint kept (index : nat) (members : list A) : list (f32 * B) :=
  match members with
  | [] => []
  | member :: rest =>
      match f member with
      | Some b => (default f32_one (flexes !! index), b) :: kept (S index) rest
      | None => kept (S index) rest
      end
  end.
End Kept.

Definition f32_zero : f32 := F32 0.

Fixpoint fold (dir : SplitDir) (members : list (f32 * LayoutNode)) : option LayoutNode :=
  match members with
  | [] => None
  | [(_, node)] => Some node
  | (flex, first) :: rest =>
      let total := f32_sum (map fst members) in
      let ratio := if f32_is_finite total && f32_ltb f32_zero total
                   then f32_div flex total else f32_half in
      rest ← fold dir rest; Some (Split dir ratio first rest)
  end.

Fixpoint layout_from_arrangement (arrangement : Arrangement) (leaf : nat → option PaneLeaf) :
    option LayoutNode :=
  match arrangement with
  | ArrPane index =>
      leaf ← leaf index; Some (Leaf (pl_tabs leaf) (pl_active leaf) (pl_focused leaf))
  | ArrAxis dir flexes members =>
      fold dir (kept (λ member, layout_from_arrangement member leaf) flexes O members)
  end.

(** ** The window's tree *)

Definition axis_of (dir : SplitDir) : Axis :=
  match dir with Horizontal => AxisHorizontal | Vertical => AxisVertical end.
Definition dir_of (axis : Axis) : SplitDir :=
  match axis with AxisHorizontal => Horizontal | AxisVertical => Vertical end.

Definition normalized (flexes : list f32) : list f32 :=
  let count := f32_of_nat (length flexes) in
  let total := f32_sum flexes in
  if negb (f32_is_finite total) || f32_leb total f32_zero then replicate (length flexes) f32_one
  else map (λ flex, f32_mul (f32_div flex total) count) flexes.

Definition f32_thousandth : f32 := F32 981668463.   (* 0.001 *)

(** [PaneAxis::load]. *)
Definition pane_axis_load {P} (axis : Axis) (members : list (Member P))
    (flexes : option (list f32)) : Member P :=
  let ones := replicate (length members) f32_one in
  let flexes := default ones flexes in
  let off := f32_abs (f32_sub (f32_sum flexes) (f32_of_nat (length flexes))) in
  let flexes := if negb (Nat.eqb (length flexes) (length members)) || f32_leb f32_thousandth off
                then ones else flexes in
  MAxis axis flexes members.

Fixpoint member_of {P} (arrangement : Arrangement) (panes : list (option P)) : option (Member P) :=
  match arrangement with
  | ArrPane index => MPane <$> mjoin (panes !! index)
  | ArrAxis dir flexes members =>
      let both := kept (λ member, member_of member panes) flexes O members in
      match both with
      | [] => None
      | [(_, member)] => Some member
      | _ => Some (pane_axis_load (axis_of dir) (map snd both) (Some (normalized (map fst both))))
      end
  end.

(** The window's tree numbered again, its panes collected in that order. *)
Section ArrangementOf.
Context {P : Type} (arrangement_of : Member P → list P → Arrangement * list P).

Fixpoint arrangements_of (members : list (Member P)) (panes : list P) :
    list Arrangement * list P :=
  match members with
  | [] => ([], panes)
  | member :: rest =>
      let '(a, panes) := arrangement_of member panes in
      let '(rest, panes) := arrangements_of rest panes in
      (a :: rest, panes)
  end.
End ArrangementOf.

Fixpoint arrangement_of {P} (member : Member P) (panes : list P) : Arrangement * list P :=
  match member with
  | MPane pane => (ArrPane (length panes), panes ++ [pane])
  | MAxis axis flexes members =>
      let '(members, panes) := arrangements_of arrangement_of members panes in
      (ArrAxis (dir_of axis) flexes members, panes)
  end.

(** The tree part of [capture_layout], for panes that say what they hold with
    [leaf_of_pane]. *)
Definition capture_root {P} (leaf_of_pane : P → option PaneLeaf) (root : Member P) :
    option LayoutNode :=
  let '(arrangement, panes) := arrangement_of root [] in
  layout_from_arrangement arrangement (λ index, panes !! index ≫= leaf_of_pane).

(** ** The tree without numbers *)

(** An induction over members and the members of an axis. *)
Lemma Member_nested_ind {P} (Q : Member P → Prop) :
  (∀ pane, Q (MPane pane)) →
  (∀ axis flexes members, Forall Q members → Q (MAxis axis flexes members)) →
  ∀ m, Q m.
Proof.
  intros Hpane Haxis. fix IH 1. intros [axis flexes members|pane]; [|apply Hpane].
  apply Haxis. induction members as [|m members IHl]; constructor; [apply IH|apply IHl].
Qed.

(** What [capture_root] reads, straight off the tree. *)
Fixpoint captured {P} (leaf_of_pane : P → option PaneLeaf) (m : Member P) : option LayoutNode :=
  match m with
  | MPane pane =>
      leaf ← leaf_of_pane pane; Some (Leaf (pl_tabs leaf) (pl_active leaf) (pl_focused leaf))
  | MAxis axis flexes members => fold (dir_of axis) (kept (captured leaf_of_pane) flexes O members)
  end.

Fixpoint member_panes {P} (m : Member P) : list P :=
  match m with
  | MPane pane => [pane]
  | MAxis _ _ members => concat (map member_panes members)
  end.

Lemma kept_ext {A A' B} (f : A → option B) (g : A' → option B) flexes l l' i :
  Forall2 (λ a a', f a = g a') l l' → kept f flexes i l = kept g flexes i l'.
Proof.
  intros Hl. revert i. induction Hl as [|a a' l l' Ha Hl IH]; intros i; [done|].
  cbn [kept]. by rewrite Ha, IH.
Qed.

Section Numbering.
Context {P : Type} (leaf_of_pane : P → option PaneLeaf).

(** Numbering a member appends its panes, and every longer list reads it alike. *)
Definition numbered (m : Member P) : Prop :=
  ∀ panes, ∃ a, arrangement_of m panes = (a, panes ++ member_panes m) ∧
    ∀ more, layout_from_arrangement a
      (λ index, (panes ++ member_panes m ++ more) !! index ≫= leaf_of_pane) =
      captured leaf_of_pane m.

Lemma arrangements_numbered members panes : Forall numbered members →
  ∃ l, arrangements_of arrangement_of members panes = (l, panes ++ concat (map member_panes members)) ∧
    ∀ more, Forall2 (λ a m, layout_from_arrangement a
        (λ index, (panes ++ concat (map member_panes members) ++ more) !! index ≫= leaf_of_pane) =
        captured leaf_of_pane m) l members.
Proof.
  intros Hm. revert panes. induction Hm as [|m members Hm _ IH]; intros panes.
  { exists []. split; [by rewrite app_nil_r|constructor]. }
  destruct (Hm panes) as (a & Ha & Hread). destruct (IH (panes ++ member_panes m)) as (l & Hl & Hrest).
  exists (a :: l). cbn [arrangements_of map concat]. rewrite Ha, Hl, <- app_assoc.
  split; [done|]. intros more. constructor.
  - rewrite <- app_assoc. apply Hread.
  - specialize (Hrest more). by rewrite <- !app_assoc in *.
Qed.

Lemma arrangement_numbered m : numbered m.
Proof.
  induction m as [pane|axis flexes members IH] using Member_nested_ind; intros panes.
  - exists (ArrPane (length panes)). split; [done|]. intros more. cbn.
    by rewrite list_lookup_middle.
  - destruct (arrangements_numbered members panes IH) as (l & Hl & Hread).
    exists (ArrAxis (dir_of axis) flexes l). cbn [arrangement_of member_panes]. rewrite Hl.
    split; [done|]. intros more. cbn [layout_from_arrangement captured]. f_equal.
    apply kept_ext. apply Hread.
Qed.

Lemma capture_root_captured m : capture_root leaf_of_pane m = captured leaf_of_pane m.
Proof.
  unfold capture_root. destruct (arrangement_numbered m []) as (a & -> & Hread).
  specialize (Hread []). by rewrite app_nil_r in Hread.
Qed.
End Numbering.

(** ** What a capture says *)

Fixpoint node_leaves (node : LayoutNode) : list PaneLeaf :=
  match node with
  | Leaf tabs active focused => [mkPaneLeaf tabs active focused]
  | Split _ _ first second => node_leaves first ++ node_leaves second
  end.

Definition leaves_of (node : option LayoutNode) : list PaneLeaf := from_option node_leaves [] node.

Lemma fold_some dir members : members ≠ [] → is_Some (fold dir members).
Proof.
  induction members as [|[flex node] [|second rest] IH]; intros Hne; [done|by eexists|].
  destruct IH as [n Hn]; [done|]. cbn [fold] in *. rewrite Hn. by eexists.
Qed.

Lemma fold_leaves dir members :
  leaves_of (fold dir members) = concat (map (node_leaves ∘ snd) members).
Proof.
  induction members as [|[flex node] [|second rest] IH]; [done|cbn; by rewrite app_nil_r|].
  destruct (fold_some dir (second :: rest)) as [n Hn]; [done|].
  cbn [fold] in *. rewrite Hn in *. cbn [mbind option_bind leaves_of from_option node_leaves] in *.
  rewrite IH. done.
Qed.

Lemma kept_leaves {A} (f : A → option LayoutNode) flexes l i :
  concat (map (node_leaves ∘ snd) (kept f flexes i l)) = concat (map (λ a, leaves_of (f a)) l).
Proof.
  revert i. induction l as [|a l IH]; intros i; [done|]. cbn [kept map concat].
  destruct (f a); cbn; by rewrite IH.
Qed.

Lemma capture_leaves {P} (leaf_of_pane : P → option PaneLeaf) root :
  leaves_of (capture_root leaf_of_pane root) = omap leaf_of_pane (member_panes root).
Proof.
  rewrite capture_root_captured.
  induction root as [pane|axis flexes members IH] using Member_nested_ind; cbn.
  - by destruct (leaf_of_pane pane) as [[]|].
  - rewrite fold_leaves, kept_leaves.
    induction IH as [|m members Hm _ IHl]; [done|]. cbn. by rewrite IHl, omap_app, Hm.
Qed.

(** A captured document holds exactly the panes that hold something a document can
    name, each as it is, in the order of the window's tree, however its axes are nested
    and whatever their flexes are; there is no document exactly when there is no such
    pane. *)
Theorem capture_keeps_every_nameable_pane {P} (leaf_of_pane : P → option PaneLeaf) root :
  leaves_of (capture_root leaf_of_pane root) = omap leaf_of_pane (member_panes root) ∧
  (capture_root leaf_of_pane root = None ↔ omap leaf_of_pane (member_panes root) = []).
Proof.
  pose proof (capture_leaves leaf_of_pane root) as Hl.
  split; [done|]. rewrite <- Hl. destruct (capture_root leaf_of_pane root) as [node|]; [|done].
  split; [done|]. cbn. intros Hnil. exfalso. clear Hl. revert Hnil.
  induction node as [dir ratio a IHa b IHb|]; cbn; [|done]. intros [Ha _]%app_eq_nil. auto.
Qed.

(** ** A document built into a window and captured back *)

Fixpoint leaf_count (node : LayoutNode) : nat :=
  match node with
  | Leaf _ _ _ => 1
  | Split _ _ first second => leaf_count first + leaf_count second
  end.

(** Every ratio is an [f32] a split is built at unclamped. *)
Fixpoint ratios_in_range (node : LayoutNode) : Prop :=
  match node with
  | Leaf _ _ _ => True
  | Split _ ratio first second =>
      f32_ok ratio ∧ ratio_in_range ratio = true ∧ ratios_in_range first ∧ ratios_in_range second
  end.

(** The document with leaf [i] replaced by [contents i], collapsing where there is
    none. *)
Fixpoint refilled (contents : nat → option PaneLeaf) (i : nat) (node : LayoutNode) :
    option LayoutNode :=
  match node with
  | Leaf _ _ _ =>
      leaf ← contents i; Some (Leaf (pl_tabs leaf) (pl_active leaf) (pl_focused leaf))
  | Split dir ratio first second =>
      match refilled contents i first, refilled contents (i + leaf_count first) second with
      | Some first, Some second => Some (Split dir ratio first second)
      | Some only, None | None, Some only => Some only
      | None, None => None
      end
  end.

Lemma split_flexes_in_range r : ratio_in_range r = true →
  split_flexes r = [f32_mul f32_two r; f32_mul f32_two (f32_sub f32_one r)].
Proof.
  intros Hr. unfold split_flexes. rewrite ratio_in_range_finite by done.
  change MIN_SPLIT_RATIO with ratio_low. fold ratio_high. by rewrite ratio_in_range_clamp.
Qed.

Lemma normalized_split r : f32_ok r → ratio_in_range r = true →
  normalized (split_flexes r) = split_flexes r.
Proof.
  intros Hok Hr. rewrite split_flexes_in_range by done.
  destruct (flexes_exact r Hok Hr) as (Hsum & _ & Ha & Hb).
  unfold normalized. rewrite Hsum. change (length [_; _]) with 2%nat.
  change (f32_of_nat 2) with f32_two.
  change (f32_is_finite f32_two) with true. change (f32_leb f32_two f32_zero) with false.
  cbn [negb orb map]. by rewrite Ha, Hb.
Qed.

Lemma load_split {P} axis (a b : Member P) r : f32_ok r → ratio_in_range r = true →
  pane_axis_load axis [a; b] (Some (split_flexes r)) = MAxis axis (split_flexes r) [a; b].
Proof.
  intros Hok Hr. rewrite split_flexes_in_range by done.
  destruct (flexes_exact r Hok Hr) as (Hsum & _).
  unfold pane_axis_load. cbn [from_option id]. rewrite Hsum. done.
Qed.

Lemma fold_split dir r a b : f32_ok r → ratio_in_range r = true →
  fold dir [(f32_mul f32_two r, a); (f32_mul f32_two (f32_sub f32_one r), b)] =
    Some (Split dir r a b).
Proof.
  intros Hok Hr. destruct (flexes_exact r Hok Hr) as (Hsum & Hdiv & _).
  cbn [fold map fst mbind option_bind]. rewrite Hsum.
  change (f32_is_finite f32_two) with true. change (f32_ltb f32_zero f32_two) with true.
  cbn [andb]. by rewrite Hdiv.
Qed.

Lemma dir_of_axis_of dir : dir_of (axis_of dir) = dir.
Proof. by destruct dir. Qed.

Lemma walk_leaves node leaves : ∃ more, (walk node leaves).2 = leaves ++ more ∧
  length more = leaf_count node.
Proof.
  revert leaves. induction node as [dir ratio a IHa b IHb|tabs active focused]; intros leaves.
  - cbn. destruct (IHa leaves) as (m1 & H1 & L1). destruct (walk a leaves) as [x l1]. cbn in H1.
    destruct (IHb l1) as (m2 & H2 & L2). destruct (walk b l1) as [y l2]. cbn in H2 |- *. subst.
    exists (m1 ++ m2). rewrite length_app, app_assoc. split; [done|lia].
  - cbn. by eexists.
Qed.

(** Building the numbered tree over [panes] and reading it back refills the document. *)
Lemma captured_member_of {P} (leaf_of_pane : P → option PaneLeaf) panes node leaves :
  ratios_in_range node →
  (member_of (walk node leaves).1 panes ≫= captured leaf_of_pane) =
    refilled (λ i, mjoin (panes !! i) ≫= leaf_of_pane) (length leaves) node.
Proof.
  revert leaves. induction node as [dir ratio a IHa b IHb|tabs active focused]; intros leaves.
  - intros (Hok & Hr & Ha & Hb). cbn [walk refilled].
    destruct (walk_leaves a leaves) as (more & Hl & Hlen). specialize (IHa leaves Ha).
    destruct (walk a leaves) as [x l1]. cbn [fst snd] in *. subst l1.
    specialize (IHb (leaves ++ more) Hb). rewrite length_app, Hlen in IHb.
    destruct (walk b (leaves ++ more)) as [y l2]. cbn [fst snd] in *.
    rewrite <- IHa, <- IHb. cbn [member_of kept].
    destruct (member_of x panes) as [ma|], (member_of y panes) as [mb|];
      cbn [mbind option_bind map snd fst]; [|by case_match..|done].
    pose proof (split_flexes_in_range ratio Hr) as Hs.
    assert ([default f32_one (split_flexes ratio !! 0%nat);
             default f32_one (split_flexes ratio !! 1%nat)] = split_flexes ratio) as -> by by rewrite Hs.
    rewrite normalized_split, load_split by done. cbn [captured kept].
    rewrite dir_of_axis_of.
    destruct (captured leaf_of_pane ma), (captured leaf_of_pane mb); cbn [fold mbind]; try done.
    rewrite Hs. cbn [lookup list_lookup from_option id]. by apply fold_split.
  - intros _. cbn. by destruct (mjoin (panes !! length leaves)).
Qed.

(** What a pane shows of a leaf of which only the admitted tabs could be opened;
    [activate_layout_tabs] clamps the active index to the tabs there are. *)
Definition shown (keep : SessionId → bool) (leaf : PaneLeaf) : option PaneLeaf :=
  let tabs := List.filter (keep_tab keep) (pl_tabs leaf) in
  match tabs with
  | [] => None
  | _ => Some (mkPaneLeaf tabs (Z.min (pl_active leaf) (Z.of_nat (length tabs) - 1))
                 (pl_focused leaf))
  end.

Lemma walk_length node leaves : length (walk node leaves).2 = (length leaves + leaf_count node)%nat.
Proof. destruct (walk_leaves node leaves) as (more & -> & Hl). rewrite length_app. lia. Qed.

Lemma refilled_ext f g i node :
  (∀ j, (i ≤ j < i + leaf_count node)%nat → f j = g j) → refilled f i node = refilled g i node.
Proof.
  revert i. induction node as [dir ratio a IHa b IHb|tabs active focused]; cbn; intros i Hfg.
  - rewrite (IHa i), (IHb (i + leaf_count a)%nat); [done|intros; apply Hfg; lia..].
  - rewrite Hfg by lia. done.
Qed.

Lemma refilled_shown keep node leaves more : 
  refilled (λ i, ((walk node leaves).2 ++ more) !! i ≫= shown keep) (length leaves) node =
    pruned keep node.
Proof.
  revert leaves more. induction node as [dir ratio a IHa b IHb|tabs active focused]; intros leaves more.
  - cbn [walk refilled pruned]. pose proof (walk_length a leaves) as La.
    destruct (walk_leaves b (walk a leaves).2) as (mb & Hb & _).
    specialize (IHa leaves). specialize (IHb (walk a leaves).2 more). rewrite La in IHb.
    destruct (walk a leaves) as [x l1]. cbn [snd] in *. destruct (walk b l1) as [y l2].
    cbn [snd] in *. rewrite IHb. subst l2. rewrite <- app_assoc, IHa. done.
  - cbn [walk snd refilled pruned]. rewrite <- app_assoc. cbn [app].
    rewrite list_lookup_middle by done. cbn [mbind option_bind]. unfold shown. cbn [pl_tabs pl_active pl_focused].
    pose proof (List.filter_length_le (keep_tab keep) tabs) as Hle.
    destruct (List.filter (keep_tab keep) tabs) as [|t rest]; [done|].
    cbn [length mbind option_bind pl_tabs pl_active pl_focused] in *. do 2 f_equal. lia.
Qed.

Lemma window_prunes {P} (leaf_of_pane : P → option PaneLeaf) keep root panes :
  ratios_in_range root →
  (∀ i, (i < length (walk root []).2)%nat →
    mjoin (panes !! i) ≫= leaf_of_pane = (walk root []).2 !! i ≫= shown keep) →
  (member_of (walk root []).1 panes ≫= capture_root leaf_of_pane) = pruned keep root.
Proof.
  intros Hr Hshow. pose proof (captured_member_of leaf_of_pane panes root [] Hr) as Hc.
  pose proof (refilled_shown keep root [] []) as Hs. pose proof (walk_length root []) as Hl.
  rewrite app_nil_r in Hs. cbn [length] in *.
  rewrite <- Hs, <- (refilled_ext (λ i, mjoin (panes !! i) ≫= leaf_of_pane)); [|intros; apply Hshow; lia].
  rewrite <- Hc. destruct (member_of _ panes); [|done]. cbn. apply capture_root_captured.
Qed.

(** A document is built into a window and captured back without loss: a window whose
    panes show, of each leaf, the tabs [keep] admits captures as the very document the
    daemon's own pruning by [keep] leaves, with every surviving split's ratio the same
    bit pattern after the [f32] arithmetic of both directions; so one that shows every
    tab of a canonical document captures that document. *)
Theorem window_captures_what_was_built {P} (leaf_of_pane : P → option PaneLeaf) keep root panes :
  ratios_in_range root →
  let '(arrangement, leaves) := arrangement_from_layout root in
  (∀ i, (i < length leaves)%nat →
    mjoin (panes !! i) ≫= leaf_of_pane = leaves !! i ≫= shown keep) →
  (member_of arrangement panes ≫= capture_root leaf_of_pane) = pruned keep root ∧
  (canonical root → (∀ s, keep s = true) →
    (member_of arrangement panes ≫= capture_root leaf_of_pane) = Some root).
Proof.
  intros Hr. pose proof (window_prunes leaf_of_pane keep root panes Hr) as Hw.
  unfold arrangement_from_layout. destruct (walk root []) as [a leaves]. cbn [fst snd] in *.
  intros Hshow. rewrite Hw by done. split; [done|]. intros Hcan Hkeep. by apply pruned_all.
Qed.

(** ** Panes and their items *)

(** What the translation asks an item: the task id of a terminal view, the tab of a
    placeholder, and the absolute path of what has a file behind it. *)
Record Item : Type := mkItem {
  it_id : N;
  it_task : option string;
  it_missing : option Tab;
  it_path : option string
}.

(** [Pane], as far as a layout can say. *)
Record Pane : Type := mkPane {
  pn_id : N;
  pn_items : list Item;
  pn_active_item : nat
}.

Inductive PathStyle : Type := Unix | Windows.

Definition SESSION_TASK_PREFIX : string := "ade-session:".

Definition session_task_id (session_id : string) : string := SESSION_TASK_PREFIX ++ session_id.

(** [str::str_strip_prefix]. *)
Definition str_strip_prefix (p s : string) : option string :=
  if String.prefix p s then Some (str_drop (String.length p) s) else None.

Definition session_of_item (item : Item) : option string :=
  id ← it_task item; str_strip_prefix SESSION_TASK_PREFIX id.

Fixpoint replace_char (a b : ascii) (s : string) : string :=
  match s with
  | EmptyString => EmptyString
  | String c s => String (if Ascii.eqb c a then b else c) (replace_char a b s)
  end.

Definition portable_layout_path (path : string) (style : PathStyle) : string :=
  match style with
  | Windows => replace_char "\"%char "/"%char path
  | Unix => path
  end.

Definition portable_layout_tab (tab : Tab) (style : PathStyle) : Tab :=
  match tab with
  | Editor path => Editor (portable_layout_path path style)
  | Terminal _ => tab
  end.

Definition tab_of_item (style : PathStyle) (item : Item) : option Tab :=
  match session_of_item item with
  | Some session_id => Some (Terminal session_id)
  | None =>
      match it_missing item with
      | Some tab => Some (portable_layout_tab tab style)
      | None => path ← it_path item; Some (Editor (portable_layout_path path style))
      end
  end.

(** The loop of [leaf_of_pane] over its enumerated items. *)
Fixpoint named_tabs (style : PathStyle) (active_item index : nat) (items : list Item)
    (tabs : list Tab) (active : Z) : list Tab * Z :=
  match items with
  | [] => (tabs, active)
  | item :: rest =>
      match tab_of_item style item with
      | None => named_tabs style active_item (S index) rest tabs active
      | Some tab =>
          let active := if Nat.eqb index active_item then Z.of_nat (length tabs) else active in
          named_tabs style active_item (S index) rest (tabs ++ [tab]) active
      end
  end.

Definition leaf_of_pane (style : PathStyle) (active_pane : N) (pane : Pane) : option PaneLeaf :=
  let '(tabs, active) := named_tabs style (pn_active_item pane) O (pn_items pane) [] 0 in
  match tabs with
  | [] => None
  | _ => Some (mkPaneLeaf tabs active (N.eqb (pn_id pane) active_pane))
  end.

(** The centre of a window: its tree and which pane is active. *)
Record Center : Type := mkCenter { ce_root : Member Pane; ce_active : N }.

Definition capture_layout (style : PathStyle) (c : Center) : option LayoutDoc :=
  layout_new <$> capture_root (leaf_of_pane style (ce_active c)) (ce_root c).

Definition capture_persistable_layout (style : PathStyle) (c : Center) : option LayoutDoc :=
  match capture_layout style c with
  | Some doc => Some doc
  | None =>
      if forallb (λ pane, Nat.eqb (length (pn_items pane)) 0) (member_panes (ce_root c))
      then Some layout_empty else None
  end.

(** ** Building a document into a window *)

Section Building.
(** [Workspace::open_path] into a pane of these items: its items once the file is
    open, or [None] when it will not open. *)
Context (open_path : list Item → string → option (list Item)) (fresh : nat → N).

Definition placeholder (items : list Item) (tab : Tab) : list Item :=
  items ++ [mkItem (fresh (length items)) None (Some tab) None].

(** [open_editor_tab] and [add_placeholder]. *)
Definition fill_tab (items : list Item) (tab : Tab) : list Item :=
  match tab with
  | Terminal _ => placeholder items tab
  | Editor path => default (placeholder items tab) (open_path items path)
  end.

Definition fill_pane (leaf : PaneLeaf) : list Item := foldl fill_tab [] (pl_tabs leaf).

(** A staged pane with its active tab restored, or [None] for one that came out
    empty. *)
Definition staged (id : N) (leaf : PaneLeaf) : option Pane :=
  let items := fill_pane leaf in
  match items with
  | [] => None
  | _ => Some (mkPane id items (Nat.min (Z.to_nat (pl_active leaf)) (length items - 1)))
  end.

Fixpoint staged_from (id : N) (leaves : list PaneLeaf) : list (option Pane) :=
  match leaves with
  | [] => []
  | leaf :: rest => staged id leaf :: staged_from (id + 1) rest
  end.

(** [leaves.iter().position(|leaf| leaf.focused)]. *)
Fixpoint focused_position (leaves : list PaneLeaf) : option nat :=
  match leaves with
  | [] => None
  | leaf :: rest => if pl_focused leaf then Some O else S <$> focused_position rest
  end.

(** [render_layout] into a window that has nothing else to keep; [id] is the first of
    the panes it makes. *)
Definition render_layout (id : N) (layout : LayoutDoc) : Center :=
  let '(arrangement, leaves) := arrangement_from_layout (root layout) in
  let kept := staged_from id leaves in
  let root := default (MPane (mkPane (id + N.of_nat (length leaves)) [] 0))
                (member_of arrangement kept) in
  let focused := index ← focused_position leaves; mjoin (kept !! index) in
  let first := default id (pn_id <$> head (member_panes root)) in
  mkCenter root (default first (pn_id <$> focused)).
End Building.

(** ** Rendering and capturing *)

Lemma walk_node_leaves node leaves : canonical node → (walk node leaves).2 = leaves ++ node_leaves node.
Proof.
  revert leaves. induction node as [dir ratio a IHa b IHb|tabs active focused]; intros leaves.
  - intros [Ha Hb]. cbn. specialize (IHa leaves Ha). destruct (walk a leaves) as [x l1].
    cbn in IHa. subst l1. specialize (IHb (leaves ++ node_leaves a) Hb).
    destruct (walk b _) as [y l2]. cbn in IHb |- *. by rewrite IHb, app_assoc.
  - cbn. intros Hact. do 3 f_equal. lia.
Qed.

Lemma canonical_leaves node leaf : canonical node → leaf ∈ node_leaves node →
  0 ≤ pl_active leaf < Z.of_nat (length (pl_tabs leaf)).
Proof.
  induction node as [dir ratio a IHa b IHb|tabs active focused]; cbn.
  - intros [Ha Hb] [H|H]%elem_of_app; auto.
  - intros Hact ->%list_elem_of_singleton. done.
Qed.

Lemma shown_everything keep leaf : (∀ s, keep s = true) →
  0 ≤ pl_active leaf < Z.of_nat (length (pl_tabs leaf)) → shown keep leaf = Some leaf.
Proof.
  intros Hkeep Hact. unfold shown.
  assert (List.filter (keep_tab keep) (pl_tabs leaf) = pl_tabs leaf) as ->.
  { apply filter_all. intros [s|p] _; simpl; auto. }
  destruct leaf as [[|t tabs] active focused]; cbn [pl_tabs pl_active pl_focused length] in *; [lia|].
  do 2 f_equal. lia.
Qed.

Lemma named_tabs_all style items names act i tabs active :
  map (tab_of_item style) items = map Some names →
  named_tabs style act i items tabs active =
    (tabs ++ names,
     if (decide (i ≤ act < i + length names)%nat) then Z.of_nat (length tabs + (act - i)) else active).
Proof.
  revert names i tabs active. induction items as [|item items IH]; intros [|t names] i tabs active; try done.
  - intros _. cbn. rewrite app_nil_r, decide_False by lia. done.
  - intros [= Ht Hrest]. cbn [named_tabs]. rewrite Ht, (IH names) by done.
    rewrite <- app_assoc, length_app. cbn [app length]. f_equal.
    destruct (Nat.eqb_spec i act) as [->|]; repeat case_decide; try lia.
Qed.

Lemma focused_position_one leaves : length (List.filter pl_focused leaves) = 1%nat →
  ∃ j, focused_position leaves = Some j ∧ (j < length leaves)%nat ∧
    ∀ i leaf, leaves !! i = Some leaf → pl_focused leaf = Nat.eqb i j.
Proof.
  induction leaves as [|leaf leaves IH]; [done|]. cbn [List.filter focused_position].
  destruct (pl_focused leaf) eqn:Hf; cbn [length].
  - intros [= Hnil%nil_length_inv]. exists O. split; [done|]. split; [lia|].
    intros [|i] leaf' Hi; cbn in Hi; [by injection Hi as <-|].
    destruct (pl_focused leaf') eqn:Hf'; [|done]. exfalso.
    assert (In leaf' (List.filter pl_focused leaves)) as Hin.
    { apply filter_In. split; [|done]. apply list_elem_of_In. by eapply list_elem_of_lookup_2. }
    by rewrite Hnil in Hin.
  - intros H1. destruct (IH H1) as (j & Hj & Hlt & Hall). exists (S j). rewrite Hj.
    split; [done|]. split; [lia|]. intros [|i] leaf' Hi; cbn in Hi; [|by apply Hall].
    injection Hi as <-. done.
Qed.

Section RenderThenCapture.
Context (open_path : list Item → string → option (list Item)) (fresh : nat → N) (style : PathStyle).

(** A file that opens in a pane not yet showing it becomes one more item, which says
    that file. *)
Hypothesis open_path_appends : ∀ items path items',
  (∀ item, item ∈ items → tab_of_item style item ≠ Some (Editor (portable_layout_path path style))) →
  open_path items path = Some items' →
  ∃ item, items' = items ++ [item] ∧
    tab_of_item style item = Some (Editor (portable_layout_path path style)).

Definition spelled (tab : Tab) : Prop := portable_layout_tab tab style = tab.

Lemma fill_tab_names items tab done :
  map (tab_of_item style) items = map Some done → spelled tab → tab ∉ done →
  map (tab_of_item style) (fill_tab open_path fresh items tab) = map Some (done ++ [tab]).
Proof using Type*.
  intros Hitems Hsp Hnew. rewrite map_app, <- Hitems.
  assert (Hph : map (tab_of_item style) (placeholder fresh items tab) =
    map (tab_of_item style) items ++ [Some tab]).
  { unfold placeholder. rewrite map_app. cbn. by rewrite Hsp. }
  destruct tab as [s|path]; cbn [fill_tab]; [exact Hph|].
  destruct (open_path items path) as [items'|] eqn:Ho; cbn [from_option id]; [|exact Hph].
  apply open_path_appends in Ho as (item & -> & Ht).
  - rewrite map_app. cbn. rewrite Ht. by injection Hsp as ->.
  - intros item Hin Ht. apply Hnew. injection Hsp as Hp. rewrite Hp in Ht.
    assert (Some (Editor path) ∈ map Some done) as Hd.
    { rewrite <- Hitems, <- Ht. by apply list_elem_of_fmap_2. }
    apply list_elem_of_fmap in Hd as (t & [= <-] & ?). done.
Qed.

Lemma fill_pane_names leaf : Forall spelled (pl_tabs leaf) → NoDup (pl_tabs leaf) →
  map (tab_of_item style) (fill_pane open_path fresh leaf) = map Some (pl_tabs leaf).
Proof using Type*.
  intros Hsp Hnd. unfold fill_pane.
  enough (∀ items done, map (tab_of_item style) items = map Some done →
    NoDup (done ++ pl_tabs leaf) →
    map (tab_of_item style) (foldl (fill_tab open_path fresh) items (pl_tabs leaf)) =
      map Some (done ++ pl_tabs leaf)) as H by by apply (H [] []).
  clear Hnd. induction Hsp as [|tab tabs Htab Hsp IH]; intros items done Hitems Hnd.
  - cbn. by rewrite app_nil_r.
  - cbn [foldl]. rewrite (IH _ (done ++ [tab])); [by rewrite <- app_assoc| |by rewrite <- app_assoc].
    apply fill_tab_names; [done..|]. apply NoDup_app in Hnd as (_ & Hnd & _). set_solver.
Qed.

Lemma staged_shows id leaf active_pane :
  Forall spelled (pl_tabs leaf) → NoDup (pl_tabs leaf) →
  0 ≤ pl_active leaf < Z.of_nat (length (pl_tabs leaf)) →
  pl_focused leaf = N.eqb id active_pane →
  ∃ pane, staged open_path fresh id leaf = Some pane ∧ pn_id pane = id ∧
    leaf_of_pane style active_pane pane = Some leaf.
Proof using Type*.
  intros Hsp Hnd Hact Hfoc. pose proof (fill_pane_names leaf Hsp Hnd) as Hn.
  assert (Hlen : length (fill_pane open_path fresh leaf) = length (pl_tabs leaf)).
  { apply (f_equal length) in Hn. by rewrite !length_map in Hn. }
  unfold staged. destruct (fill_pane open_path fresh leaf) as [|item items] eqn:E;
    [cbn in Hlen; lia|]. eexists. split; [done|]. split; [done|].
  unfold leaf_of_pane. cbn [pn_items pn_active_item pn_id].
  rewrite (named_tabs_all _ _ _ _ _ _ _ Hn). rewrite decide_True by lia.
  destruct leaf as [[|t tabs] active focused]; cbn [pl_tabs pl_active pl_focused app length] in *; [lia|].
  subst focused. do 2 f_equal. lia.
Qed.

Lemma staged_from_lookup id leaves i :
  staged_from open_path fresh id leaves !! i = (λ leaf, staged open_path fresh (id + N.of_nat i) leaf) <$> leaves !! i.
Proof.
  revert id i. induction leaves as [|leaf leaves IH]; intros id [|i]; try done; cbn.
  - by rewrite N.add_0_r.
  - rewrite IH. replace (id + N.of_nat (S i))%N with (id + 1 + N.of_nat i)%N by lia. done.
Qed.

End RenderThenCapture.

(** ** A concrete document *)

(** Three panes: ratios 0.3 and 0.7. *)
Definition sample_root : LayoutNode :=
  Split Horizontal (F32 1050253722)
    (Leaf [Terminal "s1"; Editor "/src/lib.rs"] 1 false)
    (Split Vertical (F32 1060320051)
      (Leaf [Terminal "s2"] 0 true) (Leaf [Editor "/src/main.rs"; Terminal "s1"] 0 false)).

(** One file opens; the others get their placeholders. *)
Definition sample_open (items : list Item) (path : string) : option (list Item) :=
  if String.eqb path "/src/main.rs"
  then Some (items ++ [mkItem 90 None None (Some path)]) else None.

Lemma sample_open_appends items path items' :
  (∀ item, item ∈ items → tab_of_item Unix item ≠ Some (Editor (portable_layout_path path Unix))) →
  sample_open items path = Some items' →
  ∃ item, items' = items ++ [item] ∧
    tab_of_item Unix item = Some (Editor (portable_layout_path path Unix)).
Proof. intros _. unfold sample_open. case_match; [|done]. intros [= <-]. by eexists. Qed.

Lemma sample_ratios : ratios_in_range sample_root.
Proof. repeat split; by vm_compute. Qed.

Lemma window_captures_what_was_built_witness :
  (member_of (arrangement_from_layout sample_root).1
     [Some (mkPaneLeaf [Editor "/src/lib.rs"] 0 false); Some (mkPaneLeaf [Terminal "s2"] 0 true);
      Some (mkPaneLeaf [Editor "/src/main.rs"] 0 false)] ≫= capture_root Some) =
    pruned (λ s, negb (String.eqb s "s1")) sample_root.
Proof.
  refine (proj1 (window_captures_what_was_built Some (λ s, negb (String.eqb s "s1")) sample_root
    _ sample_ratios _)).
  intros [|[|[|i]]] Hi; [reflexivity..|]. cbn in Hi. lia.
Defined.

