(* ===== verification/Sync.v ===== *)
(** * Keeping a window and a stored layout in step

    [LayoutSync] of [crates/ade_workspaces/src/layout.rs]: one window's handlers, and
    the system they make with the daemon that stores the layout, the replies in flight
    and the event stream, whose parts move in any order. *)

From S2P Require Import Prelude Text Layout Float32 Panes.
From stdpp Require Import options.
#[local] Set Warnings "-register-all".
Open Scope Z_scope.

(** ** Comparing documents

    [PartialEq] is derived, so ratios and flexes compare as [f32]s do. *)

Fixpoint node_eqb (a b : LayoutNode) : bool :=
  match a, b with
  | Leaf tabs active focused, Leaf tabs' active' focused' =>
      bool_decide (tabs = tabs') && (active =? active') && Bool.eqb focused focused'
  | Split dir ratio a1 a2, Split dir' ratio' b1 b2 =>
      bool_decide (dir = dir') && f32_eqb ratio ratio' && node_eqb a1 b1 && node_eqb a2 b2
  | _, _ => false
  end.

Definition doc_eqb (a b : LayoutDoc) : bool :=
  (schema_version a =? schema_version b) && node_eqb (root a) (root b).

Section ListEqb.
Context {A : Type} (eqb : A → A → bool).

Fixpoint list_eqb (l l' : list A) : bool :=
  match l, l' with
  | [], [] => true
  | a :: l, b :: l' => eqb a b && list_eqb l l'
  | _, _ => false
  end.
End ListEqb.

Fixpoint arrangement_eqb (a b : Arrangement) : bool :=
  match a, b with
  | ArrPane i, ArrPane j => Nat.eqb i j
  | ArrAxis dir flexes members, ArrAxis dir' flexes' members' =>
      bool_decide (dir = dir') && list_eqb f32_eqb flexes flexes' &&
      list_eqb arrangement_eqb members members'
  | _, _ => false
  end.

Definition same_layout_structure (left right : LayoutDoc) : bool :=
  let '(left_arrangement, left_leaves) := arrangement_from_layout (root left) in
  let '(right_arrangement, right_leaves) := arrangement_from_layout (root right) in
  (schema_version left =? schema_version right) &&
  arrangement_eqb left_arrangement right_arrangement &&
  bool_decide (map pl_tabs left_leaves = map pl_tabs right_leaves).

Definition same_layout_except_focus (left right : LayoutDoc) : bool :=
  if negb (same_layout_structure left right) then false
  else bool_decide (map pl_active (arrangement_from_layout (root left)).2 =
                    map pl_active (arrangement_from_layout (root right)).2).

(** ** Broadcasts *)

Record LayoutEvent : Type := mkLayoutEvent {
  le_workspace_id : string;
  le_layout : LayoutDoc;
  le_rev : Z
}.

Inductive Broadcast : Type := Ignore | Rerender.

Definition broadcast_action (workspace_id : string) (rev : Z) (event : LayoutEvent) : Broadcast :=
  if negb (String.eqb (le_workspace_id event) workspace_id) || (le_rev event <=? rev)
  then Ignore else Rerender.

(** ** One window's sync *)

(** The fields of [LayoutSync] that change. [pending] is whether a debounce is armed. *)
Record LayoutSync : Type := mkLayoutSync {
  sy_rev : Z;
  sy_known : LayoutDoc;
  sy_pending : bool;
  sy_rendering : bool;
  sy_queued : option (LayoutDoc * Z);
  sy_queued_is_reset : bool
}.

(** [LayoutSync::new]. *)
Definition sync_new (layout : LayoutDoc) (rev : Z) : LayoutSync :=
  mkLayoutSync rev layout false false None false.

(** A push in flight: what it stores, and what it puts back if it is refused. *)
Record Push : Type := mkPush {
  pu_stored : LayoutDoc;
  pu_rev : Z;
  pu_previous_rev : Z;
  pu_previous_known : LayoutDoc
}.

Definition schedule (s : LayoutSync) : LayoutSync :=
  if sy_rendering s then s
  else mkLayoutSync (sy_rev s) (sy_known s) true (sy_rendering s) (sy_queued s) (sy_queued_is_reset s).

(** In the handlers below [local] is what [capture_persistable_layout] answers. *)
Definition push (local : option LayoutDoc) (s : LayoutSync) : LayoutSync * option Push :=
  match local with
  | None => (s, None)
  | Some layout =>
      if doc_eqb layout (sy_known s) then (s, None)
      else
        let rev := wrap64 (sy_rev s + 1) in
        (mkLayoutSync rev layout (sy_pending s) (sy_rendering s) (sy_queued s) (sy_queued_is_reset s),
         Some (mkPush layout rev (sy_rev s) (sy_known s)))
  end.

(** The refused branch of [push]'s task; a refetch follows it. *)
Definition push_refused (p : Push) (s : LayoutSync) : LayoutSync :=
  if (sy_rev s =? pu_rev p) && doc_eqb (sy_known s) (pu_stored p)
  then mkLayoutSync (pu_previous_rev p) (pu_previous_known p) (sy_pending s) (sy_rendering s)
         (sy_queued s) (sy_queued_is_reset s)
  else s.

(** [apply] up to the render it spawns; the answer's second half is the layout to
    render. *)
Definition apply (layout : LayoutDoc) (rev : Z) (s : LayoutSync) : LayoutSync * option LayoutDoc :=
  (mkLayoutSync rev layout false true (sy_queued s) (sy_queued_is_reset s), Some layout).

Definition accept (local : option LayoutDoc) (layout : LayoutDoc) (rev : Z) (s : LayoutSync) :
    LayoutSync * option LayoutDoc :=
  if rev <=? sy_rev s then (s, None)
  else if sy_rendering s then
    match sy_queued s with
    | Some (_, queued_rev) =>
        if queued_rev <? rev
        then (mkLayoutSync (sy_rev s) (sy_known s) (sy_pending s) (sy_rendering s)
                (Some (layout, rev)) false, None)
        else (s, None)
    | None => (mkLayoutSync (sy_rev s) (sy_known s) (sy_pending s) (sy_rendering s)
                 (Some (layout, rev)) false, None)
    end
  else if same_layout_structure layout (sy_known s) then
    (mkLayoutSync rev (default layout local) (sy_pending s) (sy_rendering s) (sy_queued s)
       (sy_queued_is_reset s), None)
  else apply layout rev s.

(** The answer of [refetch]. *)
Definition refetched (local : option LayoutDoc) (layout : LayoutDoc) (rev : Z) (s : LayoutSync) :
    LayoutSync * option LayoutDoc :=
  if rev <=? sy_rev s then (s, None) else accept local layout rev s.

Definition on_layout_event (workspace_id : string) (local : option LayoutDoc) (event : LayoutEvent)
    (s : LayoutSync) : LayoutSync * option LayoutDoc :=
  match broadcast_action workspace_id (sy_rev s) event with
  | Ignore => (s, None)
  | Rerender =>
      let changed := match local with
                     | Some local => negb (doc_eqb local (sy_known s))
                     | None => false
                     end in
      if negb (sy_rendering s) && changed then
        (schedule (mkLayoutSync (le_rev event) (le_layout event) (sy_pending s) (sy_rendering s)
           (sy_queued s) (sy_queued_is_reset s)), None)
      else accept local (le_layout event) (le_rev event) s
  end.

Definition on_workspace_reset (workspace_id : string) (event : LayoutEvent) (s : LayoutSync) :
    LayoutSync * option LayoutDoc :=
  if negb (String.eqb (le_workspace_id event) workspace_id) then (s, None)
  else
    let s := mkLayoutSync (le_rev event) (le_layout event) false (sy_rendering s) (sy_queued s)
               (sy_queued_is_reset s) in
    if sy_rendering s then
      (mkLayoutSync (sy_rev s) (sy_known s) (sy_pending s) (sy_rendering s)
         (Some (le_layout event, le_rev event)) true, None)
    else apply (le_layout event) (le_rev event) s.

(** What [apply]'s task does once its render is over. *)
Definition rendered (workspace_id : string) (local : option LayoutDoc) (s : LayoutSync) :
    LayoutSync * option LayoutDoc :=
  let s := mkLayoutSync (sy_rev s) (sy_known s) (sy_pending s) false (sy_queued s)
             (sy_queued_is_reset s) in
  let '(s, render) :=
    match sy_queued s with
    | None => (s, None)
    | Some (layout, rev) =>
        let reset := sy_queued_is_reset s in
        let s := mkLayoutSync (sy_rev s) (sy_known s) (sy_pending s) (sy_rendering s) None false in
        if reset then apply layout rev s
        else on_layout_event workspace_id local (mkLayoutEvent workspace_id layout rev) s
    end in
  (schedule s, render).

(** ** The window, its replies and the daemon *)

(** A push on its way: not yet with the daemon, or taken or refused by it. *)
Inductive push_state : Type := Travelling | Stored | Refused.

Record system : Type := mkSystem {
  sn_sync : LayoutSync;
  sn_local : option LayoutDoc;               (* what a capture of the window answers *)
  sn_pushes : list (Push * push_state);
  sn_refetches : list (option (LayoutDoc * Z));   (* [None] until the daemon answered *)
  sn_events : list (LayoutDoc * Z);          (* the event stream, oldest first *)
  sn_stored : LayoutDoc * Z;                 (* the daemon's document and revision *)
  sn_render : option LayoutDoc;              (* the render under way *)
  (* What happened: the documents this window took over or stored, and those its
     stored writes replaced. *)
  sn_taken : list (LayoutDoc * Z);
  sn_replaced : list (LayoutDoc * Z)
}.

Inductive sync_event : Type :=
| Edited (local : option LayoutDoc)
| Settled
| Arrived (i : nat) (valid : bool)
| Replied (i : nat) (lost : bool)
| FetchAnswered (i : nat)
| FetchReplied (i : nat) (failed : bool)
| OtherWrote (layout : LayoutDoc) (rev : Z)
| Delivered
| Rendered (result : option (option LayoutDoc))
| DaemonReset (layout : LayoutDoc) (rev : Z).

Section System.
Context (workspace_id : string).

(** A handler run on what the daemon said: the window took the document over when its
    revision became the document's. *)
Definition took (doc : LayoutDoc * Z) (before : LayoutSync) (after : LayoutSync * option LayoutDoc)
    (n : system) : system :=
  mkSystem after.1 (sn_local n) (sn_pushes n) (sn_refetches n) (sn_events n) (sn_stored n)
    (match after.2 with Some layout => Some layout | None => sn_render n end)
    (if sy_rev before =? sy_rev after.1 then sn_taken n else doc :: sn_taken n) (sn_replaced n).

Definition with_sync (s : LayoutSync) (n : system) : system :=
  mkSystem s (sn_local n) (sn_pushes n) (sn_refetches n) (sn_events n) (sn_stored n) (sn_render n)
    (sn_taken n) (sn_replaced n).

Definition with_pushes (pushes : list (Push * push_state)) (n : system) : system :=
  mkSystem (sn_sync n) (sn_local n) pushes (sn_refetches n) (sn_events n) (sn_stored n) (sn_render n)
    (sn_taken n) (sn_replaced n).

Definition with_refetches (refetches : list (option (LayoutDoc * Z))) (n : system) : system :=
  mkSystem (sn_sync n) (sn_local n) (sn_pushes n) refetches (sn_events n) (sn_stored n) (sn_render n)
    (sn_taken n) (sn_replaced n).

(** The daemon stores a document: every subscriber's stream gets it, the writer's
    too. *)
Definition store (layout : LayoutDoc) (rev : Z) (n : system) : system :=
  mkSystem (sn_sync n) (sn_local n) (sn_pushes n) (sn_refetches n) (sn_events n ++ [(layout, rev)])
    (layout, rev) (sn_render n) (sn_taken n) (sn_replaced n).

(** This window's document is stored over [sn_stored]. *)
Definition store_own (layout : LayoutDoc) (rev : Z) (n : system) : system :=
  let replaced := sn_stored n in
  let n := store layout rev n in
  mkSystem (sn_sync n) (sn_local n) (sn_pushes n) (sn_refetches n) (sn_events n) (sn_stored n)
    (sn_render n) ((layout, rev) :: sn_taken n) (replaced :: sn_replaced n).

Definition step (e : sync_event) (n : system) : option system :=
  let s := sn_sync n in
  match e with
  | Edited local =>
      (* The window changed and notified. *)
      Some (mkSystem (schedule s) local (sn_pushes n) (sn_refetches n) (sn_events n) (sn_stored n)
              (sn_render n) (sn_taken n) (sn_replaced n))
  | Settled =>
      (* The debounce ran out. *)
      if sy_pending s then
        let '(s, pushed) := push (sn_local n)
          (mkLayoutSync (sy_rev s) (sy_known s) false (sy_rendering s) (sy_queued s) (sy_queued_is_reset s)) in
        Some (with_pushes (sn_pushes n ++ option_list ((λ p, (p, Travelling)) <$> pushed)) (with_sync s n))
      else None
  | Arrived i valid =>
      (* [update_layout] of the session table: only a later revision, and only a
         document it can store. *)
      match sn_pushes n !! i with
      | Some (p, Travelling) =>
          if valid && ((sn_stored n).2 <? pu_rev p)
          then Some (with_pushes (<[i := (p, Stored)]> (sn_pushes n))
                       (store_own (pu_stored p) (pu_rev p) n))
          else Some (with_pushes (<[i := (p, Refused)]> (sn_pushes n)) n)
      | _ => None
      end
  | Replied i lost =>
      (* The task hears back; a stored write whose reply was lost is an error too. *)
      match sn_pushes n !! i with
      | Some (p, st) =>
          let rest := delete i (sn_pushes n) in
          match st with
          | Travelling => None
          | Stored => if lost then
              Some (with_refetches (sn_refetches n ++ [None]) (with_pushes rest (with_sync (push_refused p s) n)))
              else Some (with_pushes rest n)
          | Refused =>
              Some (with_refetches (sn_refetches n ++ [None]) (with_pushes rest (with_sync (push_refused p s) n)))
          end
      | None => None
      end
  | FetchAnswered i =>
      match sn_refetches n !! i with
      | Some None => Some (with_refetches (<[i := Some (sn_stored n)]> (sn_refetches n)) n)
      | _ => None
      end
  | FetchReplied i failed =>
      match sn_refetches n !! i with
      | Some answer =>
          let n' := with_refetches (delete i (sn_refetches n)) n in
          match answer with
          | Some (layout, rev) =>
              if failed then Some n'
              else Some (took (layout, rev) s (refetched (sn_local n) layout rev s) n')
          | None => if failed then Some n' else None
          end
      | None => None
      end
  | OtherWrote layout rev => if (sn_stored n).2 <? rev then Some (store layout rev n) else None
  | Delivered =>
      match sn_events n with
      | [] => None
      | (layout, rev) :: events =>
          let n' := mkSystem s (sn_local n) (sn_pushes n) (sn_refetches n) events (sn_stored n)
                      (sn_render n) (sn_taken n) (sn_replaced n) in
          Some (took (layout, rev) s
                  (on_layout_event workspace_id (sn_local n) (mkLayoutEvent workspace_id layout rev) s) n')
      end
  | Rendered result =>
      (* A render either gave way to a change of the window or replaced its panes. *)
      match sn_render n with
      | None => None
      | Some _ =>
          let local := default (sn_local n) result in
          let n' := mkSystem s local (sn_pushes n) (sn_refetches n) (sn_events n) (sn_stored n)
                      None (sn_taken n) (sn_replaced n) in
          let queued := default (sn_stored n) (sy_queued s) in
          Some (took queued s (rendered workspace_id local s) n')
      end
  | DaemonReset layout rev =>
      (* Another daemon answers: its document, a new stream. *)
      let n' := mkSystem s (sn_local n) (sn_pushes n) (sn_refetches n) [] (layout, rev)
                  (sn_render n) ((layout, rev) :: sn_taken n) (sn_replaced n) in
      let after := on_workspace_reset workspace_id (mkLayoutEvent workspace_id layout rev) s in
      Some (took (layout, rev) s after n')
  end.

Fixpoint run (trace : list sync_event) (n : system) : option system :=
  match trace with
  | [] => Some n
  | e :: trace => n ← step e n; run trace n
  end.

(** A window that has just been built from the stored document. *)
Definition in_step (layout : LayoutDoc) (rev : Z) : system :=
  mkSystem (sync_new layout rev) (Some layout) [] [] [] (layout, rev) None [(layout, rev)] [].

(** Nothing is under way and nothing is owed. *)
Definition at_rest (n : system) : Prop :=
  sn_pushes n = [] ∧ sn_refetches n = [] ∧ sn_events n = [] ∧
  sy_rendering (sn_sync n) = false ∧ sy_pending (sn_sync n) = false.
End System.

(** ** Two writes in flight *)

Definition tabs_doc (names : list string) : LayoutDoc :=
  layout_new (Leaf (map Terminal names) 0 true).

(** Somebody else's tab arrives at revision 2 while this window's own second write is
    still on its way; the third write leaves before the refusal is heard. *)
Definition overwriting_trace : list sync_event :=
  [OtherWrote (tabs_doc ["a"; "theirs"]) 2;
   Edited (Some (tabs_doc ["a"; "b"])); Settled; Arrived 0 true;
   Edited (Some (tabs_doc ["a"; "b"; "c"])); Settled; Arrived 1 true;
   Delivered; Delivered; Replied 0 false; Replied 0 false; FetchAnswered 0; FetchReplied 0 false].

(** The same, with the third write refused as well. *)
Definition stranding_trace : list sync_event :=
  [OtherWrote (tabs_doc ["a"; "theirs"]) 2;
   Edited (Some (tabs_doc ["a"; "b"])); Settled; Edited (Some (tabs_doc ["a"; "b"; "c"])); Settled;
   Arrived 0 true; Arrived 1 false; Delivered; Replied 0 false; FetchAnswered 0; FetchReplied 0 false;
   Replied 0 false; FetchAnswered 0; FetchReplied 0 false].


(** ** One write at a time *)

(** What a paced run keeps to: no push leaves while another is unanswered, no fetch
    fails, the daemon stays the same one, and no ratio on screen is a NaN. *)
Definition calm (e : sync_event) (n : system) : bool :=
  match e with
  | Settled => match sn_pushes n with [] => true | _ => false end
  | FetchReplied _ failed => negb failed
  | DaemonReset _ _ => false
  | Edited (Some local) | Rendered (Some (Some local)) => doc_eqb local local
  | OtherWrote _ rev => rev <? 2 ^ 64
  | _ => true
  end.

Section Paced.
Context (workspace_id : string).

Fixpoint paced_run (trace : list sync_event) (n : system) : option system :=
  match trace with
  | [] => Some n
  | e :: trace => if calm e n then n ← step workspace_id e n; paced_run trace n else None
  end.

(** A document on its way to the window, or already there, is at most as new as the
    daemon's, and is the daemon's when it is as new. *)
Definition fits (n : system) (d : LayoutDoc * Z) : Prop :=
  0 ≤ d.2 ≤ (sn_stored n).2 ∧ (d.2 = (sn_stored n).2 → d = sn_stored n).

(** The newest revision the window has or has set aside. *)
Definition level (s : LayoutSync) : Z :=
  Z.max (sy_rev s) (from_option snd (sy_rev s) (sy_queued s)).

Definition vouched (n : system) (rev : Z) : Prop := ∃ layout, (layout, rev) ∈ sn_taken n.

(** The daemon's revision is with the window or on its way. *)
Definition coming (n : system) : Prop :=
  (sn_stored n).2 ≤ level (sn_sync n) ∨ (∃ d, d ∈ sn_events n ∧ d.2 = (sn_stored n).2) ∨
  (∃ a, a ∈ sn_refetches n ∧ from_option (λ d, (sn_stored n).2 ≤ d.2) True a).

(** What holds of the one push that may be in flight. *)
Definition push_ok (n : system) (p : Push) (st : push_state) : Prop :=
  vouched n (pu_previous_rev p) ∧ pu_rev p = wrap64 (pu_previous_rev p + 1) ∧
  pu_rev p ≤ sy_rev (sn_sync n) ∧
  (sy_rev (sn_sync n) = pu_rev p → sy_known (sn_sync n) = pu_stored p) ∧
  (sy_rev (sn_sync n) = pu_rev p ∨ vouched n (sy_rev (sn_sync n))) ∧
  doc_eqb (pu_stored p) (pu_stored p) = true ∧
  (st = Stored → vouched n (pu_rev p)).

(** The invariant, but for what the window is owed. *)
Record held (n : system) : Prop := {
  pc_stored : 0 ≤ (sn_stored n).2 < 2 ^ 64;
  pc_events : Forall (fits n) (sn_events n);
  pc_refetches : Forall (from_option (fits n) True) (sn_refetches n);
  pc_queued : from_option (fits n) True (sy_queued (sn_sync n));
  pc_taken : Forall (fits n) (sn_taken n);
  pc_local : from_option (λ d, doc_eqb d d = true) True (sn_local n);
  pc_pushes : match sn_pushes n with
              | [] => vouched n (sy_rev (sn_sync n))
              | [(p, st)] => push_ok n p st
              | _ => False
              end;
  pc_replaced : ∀ d, d ∈ sn_replaced n → d ∈ sn_taken n;
  pc_reset : sy_queued_is_reset (sn_sync n) = false;
  pc_idle : sy_rendering (sn_sync n) = false → sy_queued (sn_sync n) = None
}.

(** A push that may yet be refused brings a fetch with it. *)
Definition refusable (n : system) : Prop := ∃ p st, sn_pushes n = [(p, st)] ∧ st ≠ Stored.

Definition paced (n : system) : Prop := held n ∧ (refusable n ∨ coming n).

Lemma in_step_paced layout rev : 0 ≤ rev < 2 ^ 64 → doc_eqb layout layout = true →
  paced (in_step layout rev).
Proof.
  intros Hrev Heq. split; [split; cbn; try done|].
  - constructor; [|done]. unfold fits. cbn. split; [lia|done].
  - exists layout. set_solver.
  - intros d H. by apply not_elem_of_nil in H.
  - right. left. unfold level. cbn. lia.
Qed.

(** *** The handlers *)

(** What a handler given a document from the daemon may do: keep its revision, or move
    strictly forward to that document's; set aside only that document; and end up with
    at least its revision, had or set aside. *)
Definition takes (d : LayoutDoc * Z) (s s' : LayoutSync) : Prop :=
  (sy_rev s' = sy_rev s ∧ sy_known s' = sy_known s ∨ sy_rev s < d.2 ∧ sy_rev s' = d.2) ∧
  (sy_queued s' = sy_queued s ∨ sy_queued s' = Some d) ∧
  Z.max (level s) d.2 ≤ level s' ∧
  (sy_queued_is_reset s = false → sy_queued_is_reset s' = false) ∧
  (sy_rendering s = false → sy_queued s' = sy_queued s) ∧
  (sy_rendering s = true → sy_rendering s' = true).

Lemma takes_refl d s : d.2 ≤ sy_rev s → takes d s s.
Proof. unfold takes, level. intros. split_and!; auto; lia. Qed.

Lemma accept_takes local layout rev s : takes (layout, rev) s (accept local layout rev s).1.
Proof.
  unfold accept. destruct (Z.leb_spec rev (sy_rev s)); [by apply takes_refl|].
  destruct (sy_rendering s) eqn:Hr.
  - destruct (sy_queued s) as [[l q]|] eqn:Hq; [destruct (Z.ltb_spec q rev)|];
      unfold takes, level; cbn; rewrite ?Hq; cbn; split_and!; auto; try lia; congruence.
  - destruct (same_layout_structure _ _); unfold takes, level; cbn; split_and!; auto;
      try lia; try congruence; destruct (sy_queued s) as [[]|]; cbn; lia.
Qed.

Lemma refetched_takes local layout rev s : takes (layout, rev) s (refetched local layout rev s).1.
Proof.
  unfold refetched. destruct (Z.leb_spec rev (sy_rev s)); [by apply takes_refl|apply accept_takes].
Qed.

Lemma on_layout_event_takes local layout rev s :
  takes (layout, rev) s
    (on_layout_event workspace_id local (mkLayoutEvent workspace_id layout rev) s).1.
Proof.
  unfold on_layout_event, broadcast_action. cbn [le_workspace_id le_rev le_layout].
  rewrite String.eqb_refl. cbn [negb orb].
  destruct (Z.leb_spec rev (sy_rev s)); [by apply takes_refl|].
  destruct (negb (sy_rendering s) && _) eqn:Hl; [|apply accept_takes].
  apply andb_prop in Hl as [Hr%negb_true_iff _]. cbn [fst]. unfold schedule. cbn [sy_rendering].
  rewrite Hr. unfold takes, level; cbn; rewrite ?Hr; split_and!; auto; try lia; try congruence.
  destruct (sy_queued s) as [[]|]; cbn; lia.
Qed.

Lemma vouched_took doc s after n rev : vouched n rev → vouched (took doc s after n) rev.
Proof. intros [l Hl]. exists l. cbn. case_match; [done|]. set_solver. Qed.

(** Handing the window a document that fits keeps the invariant. *)
Lemma took_paced d after n : held n → fits n d → takes d (sn_sync n) after.1 →
  refusable n ∨ coming n ∨ (sn_stored n).2 ≤ d.2 → paced (took d (sn_sync n) after n).
Proof.
  intros [Hst Hev Hre Hqu Hta Hlo Hpu Hrep Hres Hidle] Hd (Hrev & Hq & Hlev & Hres' & Hrend & Hrend') Howed.
  assert (Hnew : vouched n (sy_rev (sn_sync n)) ∨ sy_rev after.1 = d.2 ∧ sy_rev (sn_sync n) < d.2 →
    vouched (took d (sn_sync n) after n) (sy_rev after.1)).
  { intros Hv. destruct Hrev as [[Heq _]|[Hlt Heq]].
    - rewrite Heq. apply vouched_took. destruct Hv as [?|[]]; [done|lia].
    - exists d.1. cbn. rewrite Heq. rewrite (proj2 (Z.eqb_neq _ _)) by lia.
      destruct d. cbn. set_solver. }
  split; [split|]; cbn [took sn_sync sn_local sn_pushes sn_refetches sn_events sn_stored sn_render
                        sn_taken sn_replaced]; try done.
  - destruct Hq as [->| ->]; done.
  - destruct (_ =? _); [exact Hta|constructor; [exact Hd|exact Hta]].
  - destruct (sn_pushes n) as [|[p st] [|]]; [..|done].
    + apply Hnew. by left.
    + destruct Hpu as (Hv & Hw & Hle & Hkn & Hor & Hself & Hsto). split_and!; cbn; try done.
      * by apply vouched_took.
      * destruct Hrev as [[-> _]|[]]; lia.
      * intros Hp. destruct Hrev as [[Hr ->]|[Hlt Hr]]; [apply Hkn; congruence|lia].
      * destruct Hrev as [[Hr Hk]|[Hlt Hr]].
        -- rewrite Hr. destruct Hor as [?|?]; [by left|right; by apply vouched_took].
        -- right. apply Hnew. right. by split.
      * intros ->. apply vouched_took. by apply Hsto.
  - intros x Hx. destruct (_ =? _); [by apply Hrep|]. apply elem_of_cons. right. by apply Hrep.
  - by apply Hres'.
  - intros Hr. destruct (sy_rendering (sn_sync n)) eqn:E; [by rewrite Hrend' in Hr|].
    rewrite Hrend by done. by apply Hidle.
  - destruct Howed as [Hrf|Hco]; [by left|right].
    unfold coming. cbn. destruct Hco as [[Hco|[Hco|Hco]]|Hco]; [left; lia|by right; left|by do 2 right|left; lia].
Qed.

(** *** The steps *)

(** Arming a debounce, and the window changing, are nothing to the invariant. *)
Lemma quiet_paced s' local n : 
  sy_rev s' = sy_rev (sn_sync n) → sy_known s' = sy_known (sn_sync n) →
  sy_queued s' = sy_queued (sn_sync n) → sy_queued_is_reset s' = sy_queued_is_reset (sn_sync n) →
  sy_rendering s' = sy_rendering (sn_sync n) →
  from_option (λ d, doc_eqb d d = true) True local → paced n →
  paced (mkSystem s' local (sn_pushes n) (sn_refetches n) (sn_events n) (sn_stored n) (sn_render n)
           (sn_taken n) (sn_replaced n)).
Proof.
  intros Hr Hk Hq Hres Hren Hlo [[Hst Hev Hre Hqu Hta Hlo' Hpu Hrep Hres' Hidle] Howed].
  split; [split|]; cbn; rewrite ?Hq, ?Hres, ?Hren; try done.
  - destruct (sn_pushes n) as [|[p st] [|]]; [by rewrite Hr| |done].
    unfold push_ok in *. cbn. by rewrite Hr, Hk.
  - destruct Howed as [?|Hco]; [by left|right]. unfold coming, level in *. cbn. by rewrite Hr, Hq.
Qed.

Lemma edited_paced local n : from_option (λ d, doc_eqb d d = true) True local → paced n →
  paced (mkSystem (schedule (sn_sync n)) local (sn_pushes n) (sn_refetches n) (sn_events n)
           (sn_stored n) (sn_render n) (sn_taken n) (sn_replaced n)).
Proof.
  intros Hl Hn. apply quiet_paced; try done; unfold schedule;
    destruct (sy_rendering (sn_sync n)) eqn:E; cbn; congruence.
Qed.

Lemma settled_paced n n' : paced n → calm Settled n = true →
  step workspace_id Settled n = Some n' → paced n'.
Proof.
  intros [[Hst Hev Hre Hqu Hta Hlo Hpu Hrep Hres Hidle] Howed] Hcalm Hstep. cbn in Hcalm, Hstep.
  destruct (sn_pushes n) eqn:Hp; [|done]. destruct (sy_pending _); [|done].
  unfold push in Hstep. cbn in Hstep.
  assert (Howed' : coming n).
  { destruct Howed as [(p & st & Hp' & _)|Hco]; [congruence|done]. }
  destruct (sn_local n) as [local|] eqn:El; [destruct (doc_eqb local _) eqn:Eq|].
  1,3: injection Hstep as <-; split; [split; cbn; rewrite ?Hp, ?El; try done|right; exact Howed'].
  injection Hstep as <-. split; [split; cbn; rewrite ?Hp, ?El; try done|].
  - unfold push_ok. cbn. split_and!; try done; try lia; by left.
  - left. by eexists _, _.
Qed.

Lemma fits_later n layout rev d : (sn_stored n).2 < rev → fits n d → fits (store layout rev n) d.
Proof. unfold fits, store. cbn. intros Hlt [Hle _]. split; [lia|]. intros. lia. Qed.

Lemma other_wrote_paced layout rev n : paced n → (sn_stored n).2 < rev < 2 ^ 64 →
  paced (store layout rev n).
Proof.
  intros [[Hst Hev Hre Hqu Hta Hlo Hpu Hrep Hres Hidle] Howed] Hrev.
  assert (Hf : ∀ d, fits n d → fits (store layout rev n) d) by (intros d; apply fits_later; lia).
  split; [split; cbn; try done|].
  - lia.
  - apply Forall_app. split; [eauto using Forall_impl|]. constructor; [|done].
    unfold fits. cbn. split; [lia|done].
  - eapply Forall_impl; [done|]. intros [d|]; cbn; auto.
  - destruct (sy_queued _); cbn in *; auto.
  - eauto using Forall_impl.
  - right. right. left. exists (layout, rev). cbn. split; [set_solver|done].
Qed.

Lemma arrived_paced i valid n n' : paced n → step workspace_id (Arrived i valid) n = Some n' → paced n'.
Proof.
  intros [[Hst Hev Hre Hqu Hta Hlo Hpu Hrep Hres Hidle] Howed] Hstep. cbn in Hstep.
  destruct (sn_pushes n) as [|[p st] [|]] eqn:Hp; [done| |done].
  destruct i as [|i]; [|done]. cbn in Hstep. destruct st; try done.
  destruct (valid && _) eqn:Hv; injection Hstep as <-.
  - apply andb_prop in Hv as [_ Hlt%Z.ltb_lt].
    destruct Hpu as (Hpv & Hpw & Hple & Hpk & Hpor & Hself & _).
    destruct (Hpv) as [lp Hlp]. rewrite Forall_forall in Hta. pose proof (Hta _ Hlp) as [Hr1 Hr2].
    cbn in Hr1, Hr2.
    assert (Hnext : pu_rev p = pu_previous_rev p + 1).
    { rewrite Hpw in *. unfold wrap64 in *. change 18446744073709551616 with (2 ^ 64) in *.
      destruct (Z.eq_dec (pu_previous_rev p + 1) (2 ^ 64)) as [Heq|]; [|apply Z.mod_small; lia].
      rewrite Heq, Z.mod_same in Hlt by lia. lia. }
    assert (Hf : ∀ d, fits n d → fits (store_own (pu_stored p) (pu_rev p) n) d).
    { intros d Hd. by apply (fits_later n (pu_stored p) (pu_rev p)) in Hd. }
    assert (Hown : fits (store_own (pu_stored p) (pu_rev p) n) (pu_stored p, pu_rev p)).
    { unfold fits. cbn. split; [lia|done]. }
    assert (Hlast : pu_rev p < 2 ^ 64).
    { pose proof (wrap64_range (pu_previous_rev p + 1)). unfold u64_max in *. lia. }
    split; [split; cbn [with_pushes sn_sync sn_local sn_pushes sn_refetches sn_events sn_stored sn_render
                          sn_taken sn_replaced store_own store]; try done|].
    + cbn. lia.
    + apply Forall_app. split; [eapply Forall_impl; [done|apply Hf]|]. by constructor.
    + eapply Forall_impl; [done|]. intros [d|]; cbn; auto. apply Hf.
    + destruct (sy_queued _); cbn in *; [by apply Hf|done].
    + constructor; [done|]. rewrite Forall_forall. intros d Hd. apply Hf. auto.
    + unfold push_ok. cbn. split_and!; try done.
      * exists lp. set_solver.
      * destruct Hpor as [?|[l Hl]]; [by left|right]. exists l. set_solver.
      * intros _. exists (pu_stored p). set_solver.
    + intros d [->|Hd]%elem_of_cons; [|set_solver].
      assert (sn_stored n = (lp, pu_previous_rev p)) as -> by (symmetry; apply Hr2; lia). set_solver.
    + right. right. left. exists (pu_stored p, pu_rev p). cbn. split; [set_solver|done].
  - split; [split; cbn; try done|left; by eexists _, _].
    destruct Hpu as (? & ? & ? & ? & ? & ? & _). by split_and!.
Qed.

(** Giving a refused push's revision back leaves a revision the window has taken over. *)
Lemma refused_vouched p st n : held n → push_ok n p st → vouched n (sy_rev (push_refused p (sn_sync n))).
Proof.
  intros Hn (Hv & _ & _ & Hk & Hor & Hself & _). unfold push_refused.
  destruct (Z.eqb_spec (sy_rev (sn_sync n)) (pu_rev p)) as [Heq|Hne].
  - rewrite (Hk Heq), Hself. done.
  - cbn [andb]. by destruct Hor.
Qed.

Lemma replied_paced i lost n n' : paced n → step workspace_id (Replied i lost) n = Some n' → paced n'.
Proof.
  intros [Hheld Howed] Hstep. cbn in Hstep.
  pose proof (pc_pushes _ Hheld) as Hpu.
  destruct (sn_pushes n) as [|[p st] [|]] eqn:Hp; [done| |done]. destruct i as [|i]; [|done]. cbn in Hstep.
  pose proof (refused_vouched p st n Hheld Hpu) as Hback.
  assert (Hwaiting : ∀ s, sy_queued s = sy_queued (sn_sync n) →
    sy_queued_is_reset s = sy_queued_is_reset (sn_sync n) →
    sy_rendering s = sy_rendering (sn_sync n) → vouched n (sy_rev s) →
    paced (with_refetches (sn_refetches n ++ [None]) (with_pushes [] (with_sync s n)))).
  { intros s Hq Hr Hren Hv. destruct Hheld. split; [split; cbn; rewrite ?Hq, ?Hr, ?Hren; try done|].
    - apply Forall_app. split; [done|]. by constructor.
    - right. right. right. exists None. cbn. split; [set_solver|done]. }
  assert (Hgo : paced (with_refetches (sn_refetches n ++ [None])
    (with_pushes [] (with_sync (push_refused p (sn_sync n)) n)))).
  { apply Hwaiting; [unfold push_refused; by destruct (_ && _)..|done]. }
  destruct st; [done| |by injection Hstep as <-].
  destruct lost; injection Hstep as <-; [done|].
  destruct Hheld. split; [split; cbn; try done|].
  - destruct Hpu as (_ & _ & _ & _ & [->|?] & _ & Hs); [by apply Hs|done].
  - right. destruct Howed as [(p' & st' & Hp' & Hst')|Hco]; [|done]. congruence.
Qed.

Lemma fetch_answered_paced i n n' : paced n → step workspace_id (FetchAnswered i) n = Some n' → paced n'.
Proof.
  intros [[Hst Hev Hre Hqu Hta Hlo Hpu Hrep Hres Hidle] Howed] Hstep. cbn in Hstep.
  destruct (sn_refetches n !! i) as [[|]|] eqn:Hi; try done. injection Hstep as <-.
  assert (Hlen : (i < length (sn_refetches n))%nat) by by eapply lookup_lt_Some.
  split; [split; cbn; try done|].
  - apply Forall_insert; [done|]. cbn. unfold fits. cbn. split; [lia|done].
  - destruct Howed as [?|Hco]; [by left|right].
    destruct Hco as [?|[?|_]]; [by left|by right; left|]. right. right.
    exists (Some (sn_stored n)). cbn. split; [|lia].
    apply (list_elem_of_lookup_2 _ i). by apply list_lookup_insert_eq.
Qed.

Lemma fetch_replied_paced i n n' : paced n → step workspace_id (FetchReplied i false) n = Some n' → paced n'.
Proof.
  intros [Hheld Howed] Hstep. cbn in Hstep.
  destruct (sn_refetches n !! i) as [[[layout rev]|]|] eqn:Hi; try done. injection Hstep as <-.
  assert (Hfit : fits n (layout, rev)).
  { destruct Hheld. apply (Forall_lookup_1 _ _ _ _ pc_refetches0 Hi). }
  set (n' := with_refetches (delete i (sn_refetches n)) n).
  apply (took_paced (layout, rev) _ n'); [|done|apply refetched_takes|].
  - destruct Hheld. split; try done. cbn. by apply Forall_delete.
  - destruct Howed as [?|[?|[?|(a & Ha & Hle)]]]; [by left|right; left; by left|by right; left; right; left|].
    apply list_elem_of_lookup_1 in Ha as [j Hj].
    destruct (decide (j = i)) as [->|Hne].
    + right. right. rewrite Hi in Hj. by injection Hj as <-.
    + right. left. right. right. exists a. split; [|done]. cbn.
      destruct (decide (j < i)%nat).
      * apply (list_elem_of_lookup_2 _ j). by rewrite list_lookup_delete_lt.
      * apply (list_elem_of_lookup_2 _ (j - 1)). rewrite list_lookup_delete_ge by lia.
        by replace (S (j - 1)) with j by lia.
Qed.

Lemma delivered_paced n n' : paced n → step workspace_id Delivered n = Some n' → paced n'.
Proof.
  intros [Hheld Howed] Hstep. cbn in Hstep.
  destruct (sn_events n) as [|[layout rev] events] eqn:He; [done|]. injection Hstep as <-.
  pose proof (pc_events _ Hheld) as Hev. rewrite He in Hev. apply Forall_cons in Hev as [Hfit Hev].
  set (n' := mkSystem _ _ _ _ events _ _ _ _).
  apply (took_paced (layout, rev) _ n'); [|done|apply on_layout_event_takes|].
  - destruct Hheld. by split.
  - destruct Howed as [?|[?|[(d & Hd & Heq)|?]]]; [by left|right; left; by left| |by right; left; right; right].
    rewrite He in Hd. apply elem_of_cons in Hd as [->|Hd].
    + right. right. cbn in *. lia.
    + right. left. right. left. by exists d.
Qed.

(** The queue is empty or holds a document that fits. *)
Lemma rendered_takes local s d : sy_queued_is_reset s = false → sy_queued s = Some d →
  let s0 := mkLayoutSync (sy_rev s) (sy_known s) (sy_pending s) false None false in
  ∃ s1, takes d s0 s1 ∧ (rendered workspace_id local s).1 = schedule s1.
Proof.
  intros Hres Hq s0. unfold rendered. cbn. rewrite Hq, Hres. destruct d as [layout rev].
  pose proof (on_layout_event_takes local layout rev s0) as Ht. unfold s0 in Ht.
  destruct (on_layout_event _ _ _ _) as [s1 r]. by exists s1.
Qed.

(** The system once the render's own flag is down, its queue taken. *)
Definition unqueued (local : option LayoutDoc) (n : system) : system :=
  let s := sn_sync n in
  mkSystem (mkLayoutSync (sy_rev s) (sy_known s) (sy_pending s) false None false)
    local (sn_pushes n) (sn_refetches n) (sn_events n) (sn_stored n) None (sn_taken n) (sn_replaced n).

Lemma unqueued_held local n : held n → from_option (λ d, doc_eqb d d = true) True local →
  held (unqueued local n).
Proof. intros [] Hl. by split. Qed.

Lemma sy_rev_schedule s : sy_rev (schedule s) = sy_rev s.
Proof. unfold schedule. by destruct (sy_rendering s). Qed.

Lemma rendered_paced result n n' : paced n → calm (Rendered result) n = true →
  step workspace_id (Rendered result) n = Some n' → paced n'.
Proof.
  intros [Hheld Howed] Hcalm Hstep. cbn [step] in Hstep. destruct (sn_render n); [|done].
  set (local := default (sn_local n) result) in *.
  assert (Hlocal : from_option (λ d, doc_eqb d d = true) True local).
  { unfold local. destruct result as [[d|]|]; [done|done|]. apply (pc_local _ Hheld). }
  pose proof (unqueued_held local n Hheld Hlocal) as Hn0. set (n0 := unqueued local n) in *.
  injection Hstep as <-. destruct (sy_queued (sn_sync n)) as [d|] eqn:Hq.
  - destruct (rendered_takes local (sn_sync n) d (pc_reset _ Hheld) Hq) as (s1 & Ht & Hs1).
    pose proof (pc_queued _ Hheld) as Hfit. rewrite Hq in Hfit. cbn in Hfit.
    assert (Hp : paced (took d (sn_sync n0) (s1, (rendered workspace_id local (sn_sync n)).2) n0)).
    { apply took_paced; [done|done|exact Ht|].
      destruct Howed as [?|[Hlev|Hco]]; [by left| |by right; left; right].
      unfold level in Hlev. rewrite Hq in Hlev. cbn in Hlev.
      destruct (Z.le_gt_cases (sn_stored n).2 d.2); [by right; right|].
      right. left. left. unfold level. cbn. lia. }
    pose proof (edited_paced local _ Hlocal Hp) as Hdone.
    unfold took in Hdone |- *. cbn [default from_option id sn_sync sn_local sn_pushes sn_refetches sn_events
      sn_stored sn_render sn_taken sn_replaced n0 unqueued fst snd] in *.
    rewrite Hs1, sy_rev_schedule. exact Hdone.
  - assert (Hp : paced n0).
    { split; [done|]. destruct Howed as [?|[Hlev|Hco]]; [by left| |by right; right].
      right. left. unfold level in *. rewrite Hq in Hlev. exact Hlev. }
    pose proof (edited_paced local _ Hlocal Hp) as Hdone.
    unfold took, rendered. cbn [sy_queued]. rewrite Hq. cbn [fst snd sy_rev].
    rewrite sy_rev_schedule. cbn [sy_rev]. rewrite Z.eqb_refl.
    rewrite (pc_reset _ Hheld). exact Hdone.
Qed.

Lemma step_paced e n n' : paced n → calm e n = true → step workspace_id e n = Some n' → paced n'.
Proof.
  intros Hn Hc Hs. destruct e as [local| |i valid|i lost|i|i failed|layout rev| |result|layout rev].
  - injection Hs as <-. apply edited_paced; [|done]. by destruct local.
  - by eapply settled_paced.
  - by eapply arrived_paced.
  - by eapply replied_paced.
  - by eapply fetch_answered_paced.
  - destruct failed; [done|]. by eapply fetch_replied_paced.
  - cbn in Hs, Hc. destruct (Z.ltb_spec (sn_stored n).2 rev); [|done]. injection Hs as <-.
    apply other_wrote_paced; [done|]. apply Z.ltb_lt in Hc. lia.
  - by eapply delivered_paced.
  - by eapply rendered_paced.
  - done.
Qed.

Lemma paced_run_paced trace n n' : paced n → paced_run trace n = Some n' → paced n'.
Proof.
  revert n. induction trace as [|e trace IH]; intros n Hn Hr; cbn in Hr; [by injection Hr as <-|].
  destruct (calm e n) eqn:Hc; [|done]. destruct (step workspace_id e n) as [n1|] eqn:Hs; [|done].
  apply (IH n1); [by eapply step_paced|done].
Qed.

End Paced.

(** A race lost politely: refused, fetched, rendered, echoed. *)
Definition polite_trace : list sync_event :=
  [OtherWrote (tabs_doc ["a"; "theirs"]) 2;
   Edited (Some (tabs_doc ["a"; "b"])); Settled; Arrived 0 true; Delivered; Replied 0 false;
   FetchAnswered 0; FetchReplied 0 false; Rendered (Some (Some (tabs_doc ["a"; "theirs"])));
   Settled; Edited (Some (tabs_doc ["a"; "theirs"; "b"])); Settled; Arrived 0 true; Delivered;
   Replied 0 false].


(** ** Closing and moving tabs *)

(** [sessions_by_item], and what the spawned checks found to kill. *)
Definition remember_sessions (panes : list Pane) : gmap N string :=
  foldl (λ sessions item,
    match session_of_item item with
    | Some session => <[it_id item := session]> sessions
    | None => sessions
    end) ∅ (concat (map pn_items panes)).

Definition item_added (item : Item) (sessions : gmap N string) : gmap N string :=
  match session_of_item item with
  | Some session => <[it_id item := session]> sessions
  | None => sessions
  end.

Definition item_shows (item_id : N) (session : string) (item : Item) : bool :=
  N.eqb (it_id item) item_id || bool_decide (session_of_item item = Some session) ||
  bool_decide (it_missing item = Some (Terminal session)).

(** [None] is a window that is already gone. *)
Definition still_open (panes : option (list Pane)) (item_id : N) (session : string) : bool :=
  match panes with
  | Some panes => existsb (λ pane, existsb (item_shows item_id session) (pn_items pane)) panes
  | None => true
  end.

(** The task a removed item spawns, run once the window has settled: the map after, and
    the session to kill. *)
Definition close_check (panes : option (list Pane)) (item_id : N) (session : string)
    (sessions : gmap N string) : gmap N string * option string :=
  if still_open panes item_id session then (sessions, None)
  else (delete item_id sessions, Some session).

(** [ItemRemoved]: the session to check for, if the item was one's. *)
Definition item_removed (item_id : N) (sessions : gmap N string) : option string :=
  sessions !! item_id.

Lemma terminals_leaves node : terminals node = concat (map (omap tab_session ∘ pl_tabs) (node_leaves node)).
Proof.
  induction node as [dir ratio a IHa b IHb|]; cbn; [by rewrite IHa, IHb, map_app, concat_app|].
  by rewrite app_nil_r.
Qed.

Lemma named_tabs_from style act i items tabs active tab :
  tab ∈ (named_tabs style act i items tabs active).1 →
  tab ∈ tabs ∨ ∃ item, item ∈ items ∧ tab_of_item style item = Some tab.
Proof.
  revert i tabs active. induction items as [|item items IH]; intros i tabs active; cbn; [by left|].
  destruct (tab_of_item style item) as [t|] eqn:Ht; intros Hin; apply IH in Hin as [Hin|(it & Hit & Htab)].
  - apply elem_of_app in Hin as [?|Hin%list_elem_of_singleton]; [by left|right].
    subst t. exists item. split; [by left|done].
  - right. exists it. split; [by right|done].
  - by left.
  - right. exists it. split; [by right|done].
Qed.

Lemma tab_of_item_terminal style item session : tab_of_item style item = Some (Terminal session) →
  session_of_item item = Some session ∨ it_missing item = Some (Terminal session).
Proof.
  unfold tab_of_item. destruct (session_of_item item) as [s|]; [intros [= ->]; by left|].
  destruct (it_missing item) as [[s|p]|]; cbn; [intros [= ->]; by right|done|].
  by destruct (it_path item).
Qed.

(** Closing a tab kills its session only when the window has let go of it: whatever
    happened between the removal and the check, the session killed is the one the
    removed item showed, no item of the window has it, and the layout the window
    captures at that moment has no tab for it; a tab dragged elsewhere, a placeholder
    that stands for it and a window that is gone kill nothing. *)
Theorem closing_kills_only_what_the_window_let_go panes item_id session sessions style root active_pane :
  (∀ shown, panes = Some shown → ∀ pane, pane ∈ member_panes root → pane ∈ shown) →
  let '(after, killed) := close_check panes item_id session sessions in
  match killed with
  | Some s =>
      s = session ∧ after = delete item_id sessions ∧ is_Some panes ∧
      (∀ doc, capture_layout style (mkCenter root active_pane) = Some doc → s ∉ terminal_sessions doc)
  | None =>
      after = sessions ∧
      (panes = None ∨ ∃ shown pane item, panes = Some shown ∧ pane ∈ shown ∧ item ∈ pn_items pane ∧
         item_shows item_id session item = true)
  end.
Proof.
  intros Hroot. unfold close_check. destruct (still_open panes item_id session) eqn:Ho; cbn.
  - split; [done|]. destruct panes as [shown|]; [right|by left]. cbn in Ho.
    apply existsb_exists in Ho as (pane & Hpane & (item & Hitem & Hs)%existsb_exists).
    exists shown, pane, item. by rewrite !list_elem_of_In.
  - destruct panes as [shown|]; [|done]. split; [done|]. split; [done|]. split; [by eexists|].
    intros doc Hdoc Hin. unfold capture_layout in Hdoc. cbn [ce_root ce_active] in Hdoc.
    pose proof (capture_leaves (leaf_of_pane style active_pane) root) as Hl.
    destruct (capture_root _ root) as [node|]; [|done]. injection Hdoc as <-.
    rewrite terminal_sessions_spec in Hin. cbn [Layout.root layout_new] in Hin.
    cbn [leaves_of from_option] in Hl. rewrite terminals_leaves, Hl in Hin.
    apply list_elem_of_In, in_concat in Hin as (l & (leaf & <- & Hleaf)%in_map_iff & Hs).
    apply list_elem_of_In, list_elem_of_omap in Hleaf as (pane & Hpane & Hof).
    apply list_elem_of_In, list_elem_of_omap in Hs as (tab & Htab & Hts).
    unfold leaf_of_pane in Hof.
    pose proof (named_tabs_from style (pn_active_item pane) 0 (pn_items pane) [] 0 tab) as Hfrom.
    destruct (named_tabs _ _ _ _ _ _) as [tabs act]. cbn [fst] in Hfrom.
    assert (tab ∈ tabs) as Htt by (destruct tabs; [done|injection Hof as <-; exact Htab]).
    destruct (Hfrom Htt) as [?%not_elem_of_nil|(item & Hitem & Hti)]; [done|].
    destruct tab as [s|p]; [injection Hts as ->|done].
    assert (item_shows item_id session item = true) as Hshow.
    { unfold item_shows. apply tab_of_item_terminal in Hti as [H|H]; rewrite (bool_decide_eq_true_2 _ H);
        by rewrite ?orb_true_r. }
    cbn in Ho. apply not_true_iff_false in Ho. apply Ho, existsb_exists. exists pane.
    split; [apply list_elem_of_In; by apply (Hroot shown)|].
    apply existsb_exists. exists item. by rewrite <- list_elem_of_In.
Qed.

(** A session dragged from pane 1 to pane 2 stays; closed, it goes. *)
Lemma closing_kills_only_what_the_window_let_go_witness :
  let item := mkItem 7 (Some (session_task_id "s1")) None None in
  let other := mkItem 8 (Some (session_task_id "s2")) None None in
  let panes := [mkPane 1 [other] 0; mkPane 2 [] 0] in
  (close_check (Some [mkPane 1 [other] 0; mkPane 2 [item] 0]) 7 "s1" {[ 7%N := "s1" ]}).2 = None ∧
  (close_check (Some panes) 7 "s1" {[ 7%N := "s1" ]}).2 = Some "s1" ∧
  (∀ doc, capture_layout Unix (mkCenter (MAxis AxisHorizontal [] (map MPane panes)) 1) = Some doc →
     "s1" ∉ terminal_sessions doc).
Proof.
  intros item other panes. split; [reflexivity|]. split; [reflexivity|].
  apply (closing_kills_only_what_the_window_let_go (Some panes) 7 "s1" {[ 7%N := "s1" ]} Unix
           (MAxis AxisHorizontal [] (map MPane panes)) 1).
  intros shown [= <-] pane Hpane. exact Hpane.
Defined.
