(* ===== verification/Attach.v ===== *)
(** * The attached terminal

    [crates/ade_session_daemon/src/attach.rs]: a client that connects, attaches to one
    session and moves bytes, [stdin] to the daemon and the daemon's frames to [stdout],
    over one transport after another. *)

From S2P Require Import Prelude Text Layout Proto Ledger Wire Frames Framing Client World Table Sessions Dispatch Sample WireSample.
From stdpp Require Import options pretty.
Open Scope Z_scope.

Definition INPUT_CHUNK_BYTES : Z := 8192.
Definition OUTBOUND_QUEUE_FRAMES : nat := 64.

(** ["\x1bc"]. *)
Definition RESET_TERMINAL : list Z := [27; 99].

Definition PRE_CUT_DIAGNOSIS : string :=
  "the daemon on this host most likely predates the protocol cut and should be replaced".

Record AttachConfig : Type := mkAttachConfig {
  ac_address : string;                       (* [DaemonAddress], displayed *)
  ac_session_id : SessionId;
  ac_view_id : option string;
  ac_expected_daemon_id : option string
}.

Definition attach_hello (view_id : option string) : Hello :=
  match view_id with
  | Some _ => hello_current
  | None => mkHello (h_min_generation hello_current) LEGACY_GENERATION
              (h_capabilities hello_current) (h_request_id hello_current)
  end.

(** ** Transports *)

(** What a connection still has for the client, what the client wrote to it, how many
    more frames it will take before a write fails ([None]: it never does), and what that
    failure says. *)
Record transport : Type := mkTransport {
  tr_received : list (ReadFrameError + Frame);
  tr_sent : list Frame;
  tr_writes : option nat;
  tr_broken : string
}.

Definition with_received (received : list (ReadFrameError + Frame)) (t : transport) : transport :=
  mkTransport received (tr_sent t) (tr_writes t) (tr_broken t).

(** The receipts of a byte stream. *)
Definition receipts `{EnvelopeText, BodyErrors} (r : reader) : list (ReadFrameError + Frame) :=
  read_all (length (rd_bytes r)) r.

(** Why a step of the attach failed: the cause in the error's chain that decides what
    the client does about it. *)
Inductive attach_cause : Type :=
| WriteFailed (text : string)              (* an [io::Error] *)
| EncodeFailed (text : string)
| ReadFailed (e : ReadFrameError)
| Other (text : string).

Definition cause_text `{Unicode} (c : attach_cause) : string :=
  match c with
  | WriteFailed text | EncodeFailed text | Other text => text
  | ReadFailed e => read_error_text e
  end.

Definition handshake_ended_in_eof (c : attach_cause) : bool :=
  match c with ReadFailed e => is_handshake_eof e | _ => false end.

Inductive AttachFailure : Type :=
| ATransport (text : string)
| ARejected (code message : string)
| AFatal (text : string).

(** [AttachFailure::from_error], under a context. *)
Definition from_error `{Unicode} (context : string) (c : attach_cause) : AttachFailure :=
  let text := context +:+ ": " +:+ cause_text c in
  match c with
  | WriteFailed _ | ReadFailed (Transport _) => ATransport text
  | _ => AFatal text
  end.

Definition into_initial_error (session_id : SessionId) (f : AttachFailure) : string :=
  match f with
  | ATransport text | AFatal text => text
  | ARejected code message =>
      "cannot attach to session " +:+ session_id +:+ " [" +:+ bounded code +:+ "]: " +:+ bounded message
  end.

Definition identity_matches (expected : string) (actual : option string) : result string () :=
  match actual with
  | Some actual =>
      if String.eqb actual expected then Ok ()
      else Err ("expected daemon " +:+ bounded expected +:+ ", but daemon " +:+ bounded actual +:+
                " answered; refusing to attach")
  | None => Err ("expected daemon " +:+ bounded expected +:+
                 ", but the daemon reports no instance id; refusing to attach")
  end.

Section Attach.
Context `{EnvelopeText, BodyErrors, Unicode, FrameDebug}.

Definition send (frame : Frame) : st transport (result attach_cause ()) := λ t,
  match write_frame frame with
  | inl text => (Err (EncodeFailed text), t)
  | inr _ =>
      match tr_writes t with
      | Some O => (Err (WriteFailed (tr_broken t)), t)
      | writes => (Ok (), mkTransport (tr_received t) (tr_sent t ++ [frame]) (pred <$> writes) (tr_broken t))
      end
  end.

Definition recv : st transport (ReadFrameError + Frame) := λ t,
  match tr_received t with
  | [] => (inl (Transport (ReadingLength UnexpectedEof)), t)
  | r :: rest => (r, with_received rest t)
  end.

Definition report_undecodable (error : ReadFrameError) : option Frame := rejection_frame error.

(** ** Connecting *)

(** [Connection::handshake], with what its errors have in their chains. *)
Definition attach_handshake (hello : Hello) : st transport (result attach_cause HelloAck) :=
  _ ←? send (Frame_Hello hello);
  reply ← recv;
  mret match reply with
       | inl e => Err (ReadFailed e)
       | inr reply => match accept_reply hello reply with
                      | inl text => Err (Other text)
                      | inr ack => Ok ack
                      end
       end.

(** The loop of [handshaken]. [connect n] is the [n]-th connection tried, [retries] the
    ones left ([retried] of the source, counted down); the transports used come back in
    the order they were tried. *)
Fixpoint handshaken_loop (config : AttachConfig) (connect : nat → result string transport)
    (diagnose_pre_cut : bool) (retries n : nat) :
    list transport * result AttachFailure (transport * Z) :=
  match connect n with
  | Err text => ([], Err (ATransport ("no ADE session daemon is listening on " +:+
                            ac_address config +:+ ": " +:+ text)))
  | Ok t =>
      let '(outcome, t) := attach_handshake (attach_hello (ac_view_id config)) t in
      match outcome with
      | Ok ack =>
          match (match ac_expected_daemon_id config with
                 | Some expected => identity_matches expected (ack_instance_id ack)
                 | None => Ok ()
                 end) with
          | Err error => ([t], Err (AFatal error))
          | Ok _ => ([t], Ok (t, ack_generation ack))
          end
      | Err cause =>
          if negb (handshake_ended_in_eof cause) || negb diagnose_pre_cut
          then ([t], Err (from_error "handshaking with the session daemon" cause))
          else match retries with
               | O => ([t], Err (AFatal ("handshaking with the session daemon: " +:+
                             PRE_CUT_DIAGNOSIS +:+ ": " +:+ cause_text cause)))
               | S retries =>
                   let '(tried, outcome) := handshaken_loop config connect diagnose_pre_cut retries (S n) in
                   (t :: tried, outcome)
               end
      end
  end.

Definition handshaken (config : AttachConfig) (connect : nat → result string transport)
    (diagnose_pre_cut : bool) : list transport * result AttachFailure (transport * Z) :=
  handshaken_loop config connect diagnose_pre_cut 1 0.

(** ** Standard output *)

(** The bytes that reached the terminal, and how many more writes it takes. *)
Record stdout : Type := mkStdout { so_bytes : list Z; so_writes : option nat; so_broken : string }.

Definition write_out (bytes : list Z) : st stdout (result string ()) := λ o,
  match so_writes o with
  | Some O => (Err ("writing to stdout: " +:+ so_broken o), o)
  | writes => (Ok (), mkStdout (so_bytes o ++ bytes) (pred <$> writes) (so_broken o))
  end.

(** ** Attaching *)

(** [await_replay] over what the connection has received; the rest stays for the
    pump. *)
Fixpoint await_replay (received : list (ReadFrameError + Frame)) (session_id : SessionId)
    (reconnecting : bool) (t : transport) (o : stdout) :
    result AttachFailure () * (transport * stdout) :=
  match received with
  | [] => (Err (ATransport "waiting for the replay: reading frame length: unexpected end of file"),
           (with_received [] t, o))
  | inl (Transport e) :: rest =>
      (Err (ATransport ("waiting for the replay: " +:+ transport_error_text e)),
       (with_received rest t, o))
  | inl error :: rest =>
      match report_undecodable error with
      | Some reply =>
          match send reply t with
          | (Ok _, t) => await_replay rest session_id reconnecting t o
          | (Err cause, t) => (Err (from_error "answering an undecodable frame" cause),
                               (with_received rest t, o))
          end
      | None => await_replay rest session_id reconnecting t o
      end
  | inr frame :: rest =>
      let t' := with_received rest t in
      match frame with
      | Frame_Replay id bytes _ =>
          if String.eqb id session_id then
            match (if reconnecting then write_out RESET_TERMINAL o else (Ok (), o)) with
            | (Err text, o) => (Err (AFatal text), (t', o))
            | (Ok _, o) =>
                match write_out bytes o with
                | (Err text, o) => (Err (AFatal text), (t', o))
                | (Ok _, o) => (Ok (), (t', o))
                end
            end
          else await_replay rest session_id reconnecting t o
      | Frame_Error id _ code message (Some 1) =>
          if match id with None => true | Some id => String.eqb id session_id end
          then (Err (ARejected code message), (t', o))
          else await_replay rest session_id reconnecting t o
      | _ => await_replay rest session_id reconnecting t o
      end
  end.

Definition send_or (context : string) (frame : Frame) : st transport (result AttachFailure ()) := λ t,
  match send frame t with
  | (Ok _, t) => (Ok (), t)
  | (Err cause, t) => (Err (from_error context cause), t)
  end.

(** The terminal's size goes first, when it has one. *)
Definition send_size (config : AttachConfig) (size : option (Z * Z)) :
    st transport (result AttachFailure ()) :=
  match size with
  | Some (cols, rows) =>
      send_or "sending the terminal size" (Frame_Resize (ac_session_id config) cols rows)
  | None => mret (Ok ())
  end.

(** [connect_and_attach]; [size] is the terminal's. *)
Definition connect_and_attach (config : AttachConfig) (connect : nat → result string transport)
    (size : option (Z * Z)) (reconnecting : bool) (o : stdout) :
    result AttachFailure transport * stdout :=
  match (handshaken config connect (negb reconnecting)).2 with
  | Err failure => (Err failure, o)
  | Ok (t, generation) =>
      let '(sized, t) := send_size config size t in
      match sized with
      | Err failure => (Err failure, o)
      | Ok _ =>
          let view_id := if LEGACY_GENERATION <? generation then ac_view_id config else None in
          match send_or "sending Attach" (Frame_Attach (ac_session_id config) view_id (Some 1)) t with
          | (Err failure, _) => (Err failure, o)
          | (Ok _, t) =>
              let '(replayed, (t, o)) :=
                await_replay (tr_received t) (ac_session_id config) reconnecting t o in
              match replayed with
              | Err failure => (Err failure, o)
              | Ok _ => (Ok t, o)
              end
          end
      end
  end.

(** ** Pumping output *)

Definition rejected_ending (code message : string) : string :=
  if bool_decide (code = error_code.NOT_FOUND) then "[ade: session was killed]"
  else "[ade: " +:+ bounded message +:+ " (" +:+ bounded code +:+ ")]".

Inductive PumpResult : Type := Reconnect | Ended (ending : string).

Definition TERMINAL_CLOSED : string := "[ade: terminal closed]".

(** [pump_output] over what the connection receives: its result, the replies it queued
    and the terminal. [outbound] is whether the queue still takes a reply. *)
Fixpoint pump_output (received : list (ReadFrameError + Frame)) (session_id : SessionId)
    (outbound : bool) (o : stdout) : PumpResult * list Frame * stdout :=
  match received with
  | [] => (Reconnect, [], o)
  | inl (Transport _) :: _ => (Reconnect, [], o)
  | inl error :: rest =>
      match report_undecodable error with
      | Some reply =>
          if outbound then
            let '(r, replies, o) := pump_output rest session_id outbound o in
            (r, reply :: replies, o)
          else (Ended TERMINAL_CLOSED, [], o)
      | None => pump_output rest session_id outbound o
      end
  | inr frame :: rest =>
      if match frame_session_id frame with
         | Some id => negb (String.eqb id session_id)
         | None => false
         end
      then pump_output rest session_id outbound o
      else match frame with
           | Frame_Output _ bytes | Frame_Replay _ bytes _ =>
               match write_out bytes o with
               | (Ok _, o) => pump_output rest session_id outbound o
               | (Err _, o) => (Ended TERMINAL_CLOSED, [], o)
               end
           | Frame_Exited _ (Some code) =>
               (Ended ("[ade: session exited with status " +:+ pretty code +:+ "]"), [], o)
           | Frame_Exited _ None => (Ended "[ade: session exited]", [], o)
           | Frame_Removed _ => (Ended "[ade: session was killed]", [], o)
           | Frame_Error _ _ code message _ =>
               if error_code.is_request_scoped code then pump_output rest session_id outbound o
               else (Ended ("[ade: " +:+ bounded message +:+ " (" +:+ bounded code +:+ ")]"), [], o)
           | _ => pump_output rest session_id outbound o
           end
  end.
End Attach.

(** ** Input over one transport after another *)

Inductive QueuedFrame : Type :=
| Persistent (frame : Frame)
| Connected (generation : Z) (frame : Frame).   (* [QueuedFrame::Connection] *)

Definition queued_frame (q : QueuedFrame) : Frame :=
  match q with Persistent frame | Connected _ frame => frame end.

(** [size] is what [terminal_size] answers now. *)
Definition is_stale (generation : Z) (size : option (Z * Z)) (q : QueuedFrame) : bool :=
  match q with
  | Connected queued _ => negb (queued =? generation)
  | Persistent (Frame_Resize _ cols rows) =>
      match size with Some current => bool_decide (current ≠ (cols, rows)) | None => false end
  | Persistent _ => false
  end.

(** [size_change]. *)
Definition size_change (last size : option (Z * Z)) : option (Z * Z) * option (Z * Z) :=
  match size with
  | Some s => if bool_decide (Some s = last) then (None, last) else (Some s, size)
  | None => (None, last)
  end.

(** What the tasks of [attached] share: the channel, the frame the writer holds, the
    transport's generation, and whether a transport is up. [at_handed] are the frames
    handed to transports, each under its transport's generation; [at_typed] the chunks
    read from [stdin]. *)
Record attachment : Type := mkAttachment {
  at_queue : list QueuedFrame;
  at_pending : option QueuedFrame;
  at_generation : Z;
  at_up : bool;
  at_last_size : option (Z * Z);
  at_handed : list (Z * QueuedFrame);
  at_typed : list (list Z)
}.

Definition attachment_new (size : option (Z * Z)) : attachment := mkAttachment [] None 0 true size [] [].

Inductive attach_event : Type :=
| Typed (bytes : list Z)                       (* [pump_input] read a chunk *)
| Winched (size : option (Z * Z))              (* [pump_resize] looked *)
| Undecodable (error : ReadFrameError)         (* [pump_output] queues its rejection *)
| WriterTurn (size : option (Z * Z)) (sent : bool)   (* one round of [pump_writer] *)
| TransportLost                                (* [pump_output] answered [Reconnect] *)
| Reattached.

(** The input a queued frame carries. *)
Definition written (q : QueuedFrame) : option (list Z) :=
  match q with Persistent (Frame_Write _ bytes) => Some bytes | _ => None end.

Section Input.
Context `{Unicode} (session_id : SessionId).

Definition enqueue (q : QueuedFrame) (a : attachment) : option attachment :=
  if (length (at_queue a) <? OUTBOUND_QUEUE_FRAMES)%nat
  then Some (mkAttachment (at_queue a ++ [q]) (at_pending a) (at_generation a) (at_up a)
               (at_last_size a) (at_handed a) (at_typed a))
  else None.

(** [PumpResult::Reconnect]: the next generation, and a pending reply to the old
    transport dropped. *)
Definition lost (a : attachment) : attachment :=
  mkAttachment (at_queue a)
    (match at_pending a with Some (Connected _ _) => None | p => p end)
    (wrap64 (at_generation a + 1)) false (at_last_size a) (at_handed a) (at_typed a).

Definition writer_turn (size : option (Z * Z)) (sent : bool) (a : attachment) : option attachment :=
  let '(pending, queue) := match at_pending a, at_queue a with
                           | None, q :: rest => (Some q, rest)
                           | p, queue => (p, queue)
                           end in
  match pending with
  | None => None      (* it waits for the channel *)
  | Some q =>
      if is_stale (at_generation a) size q then
        Some (mkAttachment queue None (at_generation a) (at_up a) (at_last_size a) (at_handed a) (at_typed a))
      else
        let a := mkAttachment queue None (at_generation a) (at_up a) (at_last_size a)
                   (at_handed a ++ [(at_generation a, q)]) (at_typed a) in
        Some (if sent then a else lost a)
  end.

Definition attach_step (e : attach_event) (a : attachment) : option attachment :=
  match e with
  | Typed bytes =>
      if bool_decide (bytes = []) || (INPUT_CHUNK_BYTES <? Z.of_nat (length bytes)) then None
      else a ← enqueue (Persistent (Frame_Write session_id bytes)) a;
           Some (mkAttachment (at_queue a) (at_pending a) (at_generation a) (at_up a)
                   (at_last_size a) (at_handed a) (at_typed a ++ [bytes]))
  | Winched size =>
      let '(changed, last) := size_change (at_last_size a) size in
      match changed with
      | None => Some a
      | Some (cols, rows) =>
          a ← enqueue (Persistent (Frame_Resize session_id cols rows)) a;
          Some (mkAttachment (at_queue a) (at_pending a) (at_generation a) (at_up a)
                  last (at_handed a) (at_typed a))
      end
  | Undecodable error =>
      if at_up a then
        match report_undecodable error with
        | Some reply => enqueue (Connected (at_generation a) reply) a
        | None => Some a
        end
      else None
  | WriterTurn size sent => if at_up a then writer_turn size sent a else None
  | TransportLost => if at_up a then Some (lost a) else None
  | Reattached =>
      if at_up a then None
      else Some (mkAttachment (at_queue a) (at_pending a) (at_generation a) true (at_last_size a)
                   (at_handed a) (at_typed a))
  end.

Fixpoint attach_run (trace : list attach_event) (a : attachment) : option attachment :=
  match trace with
  | [] => Some a
  | e :: trace => a ← attach_step e a; attach_run trace a
  end.

(** *** What the tasks keep *)

Definition chunks (l : list QueuedFrame) : list (list Z) := omap written l.

Record orderly (a : attachment) : Prop := {
  od_input : chunks (map snd (at_handed a)) ++ chunks (at_queue a) = at_typed a;
  od_pending : at_pending a = None;
  od_replies : ∀ g g' f, (g, Connected g' f) ∈ at_handed a → g = g'
}.

Lemma chunks_app l l' : chunks (l ++ l') = chunks l ++ chunks l'.
Proof. apply omap_app. Qed.

Lemma enqueue_orderly q a a' : orderly a → enqueue q a = Some a' →
  chunks (map snd (at_handed a')) ++ chunks (at_queue a') = at_typed a ++ chunks [q] ∧
  at_pending a' = None ∧ at_handed a' = at_handed a ∧ at_typed a' = at_typed a.
Proof.
  intros [Hi Hp _]. unfold enqueue. destruct (_ <? _)%nat; [|done]. intros [= <-].
  cbn [at_queue at_pending at_handed at_typed]. by rewrite chunks_app, app_assoc, Hi.
Qed.

(** A stale frame of the keyboard there is none: only a size or a reply goes stale. *)
Lemma stale_writes_nothing g size q : is_stale g size q = true → chunks [q] = [].
Proof. by destruct q as [[]|]. Qed.

Lemma lost_orderly a : orderly a → orderly (lost a).
Proof. intros [Hi Hp Hr]. split; [exact Hi|cbn; by rewrite Hp|exact Hr]. Qed.

Lemma writer_turn_orderly size sent a a' : orderly a → writer_turn size sent a = Some a' → orderly a'.
Proof.
  intros [Hi Hp Hr]. unfold writer_turn. rewrite Hp.
  destruct (at_queue a) as [|q queue] eqn:Hq; [done|].
  change (q :: queue) with ([q] ++ queue) in Hi. rewrite chunks_app in Hi.
  destruct (is_stale _ size q) eqn:Hs.
  - intros [= <-]. split; cbn [at_queue at_pending at_handed at_typed]; [|done|exact Hr].
    by rewrite (stale_writes_nothing _ _ _ Hs) in Hi.
  - set (a1 := mkAttachment _ _ _ _ _ _ _). intros [= <-].
    assert (Ha1 : orderly a1).
    { split; cbn [a1 at_queue at_pending at_handed at_typed]; [|done|].
      - by rewrite map_app, chunks_app, <- app_assoc.
      - intros g g' f [Hin|Heq%list_elem_of_singleton]%elem_of_app; [by eapply Hr|].
        injection Heq as -> <-. cbn in Hs. by apply negb_false_iff, Z.eqb_eq in Hs. }
    destruct sent; [done|by apply lost_orderly].
Qed.

Lemma attach_step_orderly e a a' : orderly a → attach_step e a = Some a' → orderly a'.
Proof.
  intros Ha. assert (Hmono : ∀ q a1, enqueue q a = Some a1 → chunks [q] = [] → orderly a1).
  { intros q a1 Hq Hc. destruct (enqueue_orderly q a a1 Ha Hq) as (Hi & Hp & Hh & Ht).
    split; [by rewrite Hi, Hc, app_nil_r, Ht|done|]. rewrite Hh. apply (od_replies _ Ha). }
  destruct e as [bytes|size|error|size sent| |]; cbn.
  - destruct (_ || _); [done|]. destruct (enqueue _ a) as [a1|] eqn:Hq; [|done]. intros [= <-].
    destruct (enqueue_orderly _ _ _ Ha Hq) as (Hi & Hp & Hh & Ht).
    split; cbn [at_queue at_pending at_handed at_typed]; [by rewrite Hi, Ht|done|].
    rewrite Hh. apply (od_replies _ Ha).
  - destruct (size_change _ size) as [[[cols rows]|] last]; [|by intros [= <-]].
    destruct (enqueue _ a) as [a1|] eqn:Hq; [|done]. intros [= <-].
    destruct (Hmono _ _ Hq eq_refl) as [? ? ?]. by split.
  - destruct (at_up a); [|done]. destruct (report_undecodable error) as [reply|]; [|by intros [= <-]].
    intros Hq. by apply (Hmono _ _ Hq).
  - destruct (at_up a); [|done]. by apply writer_turn_orderly.
  - destruct (at_up a); [|done]. intros [= <-]. by apply lost_orderly.
  - destruct (at_up a); [done|]. intros [= <-]. by destruct Ha as [? ? ?]; split.
Qed.

(** C11. Keystrokes survive a lost transport without being repeated: over any interleaving
    of typing, window changes, undecodable frames, writes that fail and transports that
    come and go, the chunks handed to transports, followed by those still queued, are
    exactly what was typed, in order and each once; a reply to a frame of one transport
    never reaches another; and no frame is left between the queue and a transport when
    the writer is interrupted. *)
Theorem input_is_handed_over_once_in_order trace size a :
  attach_run trace (attachment_new size) = Some a →
  chunks (map snd (at_handed a)) ++ chunks (at_queue a) = at_typed a ∧
  (∀ g g' f, (g, Connected g' f) ∈ at_handed a → g = g') ∧
  at_pending a = None.
Proof.
  assert (Hrun : ∀ a0, orderly a0 → attach_run trace a0 = Some a → orderly a).
  { induction trace as [|e trace IH]; intros a0 Ha0; cbn; [by intros [= <-]|].
    destruct (attach_step e a0) as [a1|] eqn:Hs; [|done]. apply IH. by eapply attach_step_orderly. }
  intros [Hi Hp Hr]%Hrun; [done|]. split; [done|done|]. intros g g' f Hin. by apply not_elem_of_nil in Hin.
Qed.
End Input.

Section Fence.
Context `{EnvelopeText, BodyErrors, Unicode, FrameDebug}.

(** *** The handshake *)

(** What the first frame a fresh connection has decides. *)
Definition answered_with (t : transport) (ack : HelloAck) : Prop :=
  ∃ rest, tr_received t = inr (Frame_HelloAck ack) :: rest.

Definition ended_in_eof (t : transport) : Prop :=
  tr_received t = [] ∨ ∃ e rest, tr_received t = inl e :: rest ∧ is_handshake_eof e = true.

Lemma accept_reply_ok hello reply ack : accept_reply hello reply = inr ack →
  reply = Frame_HelloAck ack ∧ h_min_generation hello ≤ ack_generation ack ≤ h_max_generation hello.
Proof.
  unfold accept_reply. destruct reply; try done. destruct (_ || _) eqn:Hb; [done|]. intros [= <-].
  apply orb_false_iff in Hb as [Hl%Z.ltb_ge Hh%Z.ltb_ge]. done.
Qed.

Lemma attach_handshake_sends hello t : tr_sent t = [] →
  let '(outcome, t') := attach_handshake hello t in
  (tr_sent t' = [] ∨ tr_sent t' = [Frame_Hello hello]) ∧
  match outcome with
  | Ok ack => answered_with t ack ∧ tr_sent t' = [Frame_Hello hello] ∧
              h_min_generation hello ≤ ack_generation ack ≤ h_max_generation hello
  | Err cause => handshake_ended_in_eof cause = true → ended_in_eof t
  end.
Proof.
  intros Ht. unfold attach_handshake, bind_ok, mbind, st_bind, mret, st_ret, send, recv. destruct (write_frame _) as [text|bytes].
  { cbn. by split; [left|]. }
  destruct (tr_writes t) as [[|k]|]; cbn.
  { by split; [left|]. }
  all: destruct (tr_received t) as [|[e|reply] rest] eqn:Hr; cbn; rewrite ?Ht;
    [split; [by right|intros _; by left]|split; [by right|intros He; right; eauto]|].
  all: destruct (accept_reply hello reply) as [text|ack] eqn:Ha; cbn; rewrite ?Ht; [by split; [right|]|].
  all: apply accept_reply_ok in Ha as [-> Hg]; split; [by right|]; split; [by eexists|done].
Qed.

(** The highest generation a client offers: one without a view stays on the legacy
    one. *)
Definition offered (config : AttachConfig) : Z :=
  match ac_view_id config with Some _ => MAX_GENERATION | None => LEGACY_GENERATION end.

Lemma attach_hello_range config :
  h_min_generation (attach_hello (ac_view_id config)) = MIN_GENERATION ∧
  h_max_generation (attach_hello (ac_view_id config)) = offered config.
Proof. unfold offered, attach_hello. by destruct (ac_view_id config). Qed.

(** Everything one run of the loop may do. *)
Definition fenced (config : AttachConfig) (connect : nat → result string transport) (retries n : nat)
    (diagnose : bool) (tried : list transport) (outcome : result AttachFailure (transport * Z)) : Prop :=
  (length tried ≤ S retries)%nat ∧
  (∀ t, t ∈ tried → tr_sent t = [] ∨ tr_sent t = [Frame_Hello (attach_hello (ac_view_id config))]) ∧
  ((1 < length tried)%nat → diagnose = true ∧ ∃ t0, connect n = Ok t0 ∧ ended_in_eof t0) ∧
  match outcome with
  | Err _ => True
  | Ok (t, generation) => ∃ k t0 ack, connect k = Ok t0 ∧ answered_with t0 ack ∧
      last tried = Some t ∧ generation = ack_generation ack ∧
      MIN_GENERATION ≤ generation ≤ offered config ∧
      (∀ expected, ac_expected_daemon_id config = Some expected → ack_instance_id ack = Some expected)
  end.

Lemma one_fenced config connect diagnose retries n t failure :
  tr_sent t = [] ∨ tr_sent t = [Frame_Hello (attach_hello (ac_view_id config))] →
  fenced config connect retries n diagnose [t] (Err failure).
Proof. intros Ht. split_and!; cbn; [lia|by intros x ->%list_elem_of_singleton|lia|done]. Qed.

Lemma accepted_fenced config connect diagnose retries n t0 t ack :
  connect n = Ok t0 →
  tr_sent t = [] ∨ tr_sent t = [Frame_Hello (attach_hello (ac_view_id config))] →
  answered_with t0 ack ∧ tr_sent t = [Frame_Hello (attach_hello (ac_view_id config))] ∧
    h_min_generation (attach_hello (ac_view_id config)) ≤ ack_generation ack
      ≤ h_max_generation (attach_hello (ac_view_id config)) →
  let '(tried, outcome) :=
    match (match ac_expected_daemon_id config with
           | Some expected => identity_matches expected (ack_instance_id ack)
           | None => Ok ()
           end) with
    | Err error => ([t], Err (AFatal error))
    | Ok _ => ([t], Ok (t, ack_generation ack))
    end in
  fenced config connect retries n diagnose tried outcome.
Proof.
  intros Hc Hsent (Hans & _ & Hg). destruct (attach_hello_range config) as [Hlo Hhi]. rewrite Hlo, Hhi in Hg.
  assert (Hid : ∀ u, match ac_expected_daemon_id config with
                     | Some expected => identity_matches expected (ack_instance_id ack)
                     | None => Ok ()
                     end = Ok u →
    ∀ expected, ac_expected_daemon_id config = Some expected → ack_instance_id ack = Some expected).
  { intros u Hu expected He. rewrite He in Hu. unfold identity_matches in Hu.
    destruct (ack_instance_id ack) as [actual|]; [|done].
    destruct (String.eqb_spec actual expected); [congruence|done]. }
  destruct (match ac_expected_daemon_id config with Some _ => _ | None => _ end) as [u|error] eqn:Hm;
    [|by apply one_fenced].
  split_and!; cbn; [lia|by intros x ->%list_elem_of_singleton|lia|].
  exists n, t0, ack. split_and!; try done; try lia. by apply (Hid u).
Qed.

Lemma handshaken_loop_fenced config connect diagnose retries n :
  (∀ k t, connect k = Ok t → tr_sent t = []) →
  let '(tried, outcome) := handshaken_loop config connect diagnose retries n in
  fenced config connect retries n diagnose tried outcome.
Proof.
  intros Hfresh. revert n. induction retries as [|retries IH]; intros n; cbn [handshaken_loop].
  all: destruct (connect n) as [t0|text] eqn:Hc;
    [|split_and!; cbn; [lia|intros t Hin; by apply not_elem_of_nil in Hin|lia|done]].
  all: pose proof (attach_handshake_sends (attach_hello (ac_view_id config)) t0 (Hfresh _ _ Hc)) as Hs.
  all: destruct (attach_handshake _ t0) as [[ack|cause] t]; destruct Hs as [Hsent Hout].
  1,3: by apply (accepted_fenced config connect diagnose _ n t0).
  all: destruct (negb _ || negb diagnose) eqn:Hb; [by apply one_fenced|].
  - by apply one_fenced.
  - apply orb_false_iff in Hb as [He%negb_false_iff Hd%negb_false_iff].
    specialize (IH (S n)). destruct (handshaken_loop _ _ _ _ _) as [tried outcome].
    destruct IH as (Hlen & Hall & Hmore & Hok). split_and!.
    + cbn. lia.
    + intros x [->|Hx]%elem_of_cons; auto.
    + intros _. split; [done|]. exists t0. auto.
    + destruct outcome as [[t' g]|]; [|done]. destruct Hok as (k & t1 & ack & ? & ? & Hlast & ?).
      exists k, t1, ack. split_and!; try tauto. destruct tried; [done|exact Hlast].
Qed.

End Fence.

(** ** What the terminal shows *)

Section Shows.
Context `{EnvelopeText, BodyErrors, Unicode, FrameDebug}.

(** The bytes one receipt puts on the terminal of a session, and whether it ends the
    pump. *)
Definition screen_bytes (session_id : SessionId) (r : ReadFrameError + Frame) : list Z :=
  match r with
  | inr (Frame_Output id bytes) | inr (Frame_Replay id bytes _) =>
      if String.eqb id session_id then bytes else []
  | _ => []
  end.

Definition ending_of (session_id : SessionId) (r : ReadFrameError + Frame) : option PumpResult :=
  match r with
  | inl (Transport _) => Some Reconnect
  | inl _ => None
  | inr frame =>
      match frame_session_id frame with
      | Some id => if String.eqb id session_id then
          match frame with
          | Frame_Exited _ (Some code) =>
              Some (Ended ("[ade: session exited with status " +:+ pretty code +:+ "]"))
          | Frame_Exited _ None => Some (Ended "[ade: session exited]")
          | Frame_Removed _ => Some (Ended "[ade: session was killed]")
          | Frame_Error _ _ code message _ =>
              if error_code.is_request_scoped code then None
              else Some (Ended ("[ade: " +:+ bounded message +:+ " (" +:+ bounded code +:+ ")]"))
          | _ => None
          end else None
      | None =>
          match frame with
          | Frame_Error _ _ code message _ =>
              if error_code.is_request_scoped code then None
              else Some (Ended ("[ade: " +:+ bounded message +:+ " (" +:+ bounded code +:+ ")]"))
          | _ => None
          end
      end
  end.

(** The receipts before the first ending, and that ending; a connection with nothing
    more to read has lost its transport. *)
Fixpoint until_ending (session_id : SessionId) (rs : list (ReadFrameError + Frame)) :
    list (ReadFrameError + Frame) * PumpResult :=
  match rs with
  | [] => ([], Reconnect)
  | r :: rest =>
      match ending_of session_id r with
      | Some e => ([], e)
      | None => let '(live, e) := until_ending session_id rest in (r :: live, e)
      end
  end.

Definition rejections (rs : list (ReadFrameError + Frame)) : list Frame :=
  omap (λ r, match r with inl e => rejection_frame e | inr _ => None end) rs.

Lemma write_out_open bytes o : so_writes o = None →
  write_out bytes o = (Ok (), mkStdout (so_bytes o ++ bytes) None (so_broken o)).
Proof. intros Ho. unfold write_out. by rewrite Ho. Qed.

Lemma pump_output_shows rs session_id o : so_writes o = None →
  let '(live, ending) := until_ending session_id rs in
  pump_output rs session_id true o =
    (ending, rejections live,
     mkStdout (so_bytes o ++ concat (map (screen_bytes session_id) live)) None (so_broken o)).
Proof.
  revert o. induction rs as [|r rs IH]; intros [b w br] Ho; cbn in Ho; subst w; cbn [until_ending].
  { cbn. by rewrite app_nil_r. }
  destruct r as [e|frame].
  - destruct e as [e|d|op [rid|]|op [rid|] d]; cbn [ending_of]; [cbn; by rewrite app_nil_r|..].
    all: specialize (IH (mkStdout b None br) eq_refl); destruct (until_ending session_id rs) as [live e'];
      cbn [pump_output report_undecodable rejection_frame fmap option_fmap option_map]; rewrite IH; done.
  - pose proof (IH (mkStdout b None br) eq_refl) as IHb.
    assert (IHo : ∀ bytes, _) by (intros bytes; exact (IH (mkStdout (b ++ bytes) None br) eq_refl)).
    destruct (until_ending session_id rs) as [live e'].
    destruct frame; cbn [ending_of frame_session_id pump_output];
      repeat match goal with |- context [match ?o with Some _ => _ | None => _ end] => is_var o; destruct o end;
      try destruct (String.eqb _ session_id) eqn:Heq; cbn [negb];
      try destruct (error_code.is_request_scoped _);
      rewrite ?IHb; cbn; rewrite ?Heq, ?app_nil_r; try done.
    all: rewrite IHo; cbn; by rewrite <- app_assoc.
Qed.

Lemma send_ok frame t t' : send frame t = (Ok (), t') →
  tr_sent t' = tr_sent t ++ [frame] ∧ tr_received t' = tr_received t.
Proof.
  unfold send. destruct (write_frame frame); [done|].
  by destruct (tr_writes t) as [[|k]|]; intros [= <-].
Qed.

Lemma send_or_ok context frame t t' : send_or context frame t = (Ok (), t') →
  tr_sent t' = tr_sent t ++ [frame] ∧ tr_received t' = tr_received t.
Proof.
  unfold send_or. destruct (send frame t) as [[[]|cause] t1] eqn:Hs; [|done]. intros [= <-].
  by apply send_ok.
Qed.

(** A replay that is awaited comes first: what was received before it is answered or
    passed over. *)
Lemma await_replay_shows rs session_id reconnecting t o t' o' : so_writes o = None →
  await_replay rs session_id reconnecting t o = (Ok (), (t', o')) →
  ∃ before replay truncated,
    rs = before ++ inr (Frame_Replay session_id replay truncated) :: tr_received t' ∧
    (∀ bytes tr, inr (Frame_Replay session_id bytes tr) ∉ before) ∧
    tr_sent t' = tr_sent t ++ rejections before ∧
    o' = mkStdout (so_bytes o ++ (if reconnecting then RESET_TERMINAL else []) ++ replay) None (so_broken o).
Proof.
  intros Ho. revert t. induction rs as [|r rs IH]; intros t; [done|].
  assert (Hmore : ∀ t1, tr_sent t1 = tr_sent t ++ rejections [r] →
    (∀ bytes tr, r ≠ inr (Frame_Replay session_id bytes tr)) →
    await_replay rs session_id reconnecting t1 o = (Ok (), (t', o')) →
    ∃ before replay truncated,
      r :: rs = before ++ inr (Frame_Replay session_id replay truncated) :: tr_received t' ∧
      (∀ bytes tr, inr (Frame_Replay session_id bytes tr) ∉ before) ∧
      tr_sent t' = tr_sent t ++ rejections before ∧
      o' = mkStdout (so_bytes o ++ (if reconnecting then RESET_TERMINAL else []) ++ replay) None (so_broken o)).
  { intros t1 Ht1 Hr Haw. destruct (IH t1 Haw) as (before & replay & truncated & -> & Hnone & Hsent & ->).
    exists (r :: before), replay, truncated. split_and!; [done| | |done].
    - intros bytes tr [Heq|Hin]%elem_of_cons; [by apply (Hr bytes tr)|by apply (Hnone bytes tr)].
    - rewrite Hsent, Ht1, <- app_assoc. by unfold rejections; rewrite <- omap_app. }
  destruct r as [e|frame]; cbn [await_replay].
  - destruct e as [e|d|op rid|op rid d]; [done|..];
      (destruct (report_undecodable _) as [reply|] eqn:Hrep;
       [destruct (send reply t) as [[[]|cause] t1] eqn:Hs; [|done]; apply send_ok in Hs as [Hs _];
        apply Hmore; [|done]|apply Hmore; [|done]]);
      unfold rejections, report_undecodable in *; cbn [omap list_omap]; rewrite Hrep, ?app_nil_r; done.
  - destruct frame; try (by apply Hmore; [rewrite app_nil_r|]).
    + destruct (String.eqb_spec session_id0 session_id) as [->|Hne].
      2: { apply Hmore; [by rewrite app_nil_r|]. congruence. }
      destruct reconnecting; rewrite !write_out_open by done; cbn [so_bytes so_broken]; intros [= <- <-];
        exists [], bytes, truncated; (split_and!; [done|intros ? ?; apply not_elem_of_nil|by rewrite app_nil_r|]);
        by rewrite <- ?app_assoc.
    + destruct request_id as [[|[]|]|]; try (by apply Hmore; [rewrite app_nil_r|]).
      destruct (match session_id0 with Some _ => _ | None => _ end); [done|].
      by apply Hmore; [rewrite app_nil_r|].
Qed.

(** An attached terminal shows its session and nothing else, in order: after the
    hello the client sends its size, then one attach, naming its view only on a
    generation that has views; the terminal gets the replay the attach was answered with,
    on a fresh screen when it reconnects, then the bytes of every output frame of the
    session up to the frame that ends it or the loss of the transport; frames of other
    sessions, frames this build cannot read and refusals of single requests are answered
    or passed over and end nothing. *)
Theorem attached_terminal_shows_the_session config connect size reconnecting o t generation t' o' :
  (handshaken config connect (negb reconnecting)).2 = Ok (t, generation) →
  so_writes o = None →
  connect_and_attach config connect size reconnecting o = (Ok t', o') →
  ∃ before replay truncated,
    tr_received t = before ++ inr (Frame_Replay (ac_session_id config) replay truncated) :: tr_received t' ∧
    (∀ bytes tr, inr (Frame_Replay (ac_session_id config) bytes tr) ∉ before) ∧
    tr_sent t' = tr_sent t ++
      (match size with Some (cols, rows) => [Frame_Resize (ac_session_id config) cols rows] | None => [] end) ++
      [Frame_Attach (ac_session_id config)
         (if LEGACY_GENERATION <? generation then ac_view_id config else None) (Some 1)] ++
      rejections before ∧
    let '(live, ending) := until_ending (ac_session_id config) (tr_received t') in
    let '(result, replies, o2) := pump_output (tr_received t') (ac_session_id config) true o' in
    result = ending ∧ replies = rejections live ∧
    so_bytes o2 = so_bytes o ++ (if reconnecting then RESET_TERMINAL else []) ++ replay ++
                  concat (map (screen_bytes (ac_session_id config)) live).
Proof.
  intros Hhs Ho. unfold connect_and_attach. rewrite Hhs.
  set (view := if LEGACY_GENERATION <? generation then _ else _).
  set (resize := match size with Some (cols, rows) => [Frame_Resize _ cols rows] | None => [] end).
  destruct (send_size config size t) as [[[]|failure] t1] eqn:Hs1; [|done].
  assert (tr_sent t1 = tr_sent t ++ resize ∧ tr_received t1 = tr_received t) as [Hsent1 Hr1].
  { unfold send_size in Hs1. unfold resize. destruct size as [[cols rows]|]; [by eapply send_or_ok|].
    injection Hs1 as <-. by rewrite app_nil_r. }
  destruct (send_or "sending Attach" _ t1) as [[[]|failure] t2] eqn:Hs2; [|done].
  apply send_or_ok in Hs2 as [Hs2 Hr2].
  destruct (await_replay _ _ _ t2 o) as [[[]|failure] [t3 o3]] eqn:Haw; [|done]. intros [= <- <-].
  apply await_replay_shows in Haw as (before & replay & truncated & Hrec & Hnone & Hsent & ->); [|done].
  exists before, replay, truncated. split_and!; [congruence|done| |].
  - by rewrite Hsent, Hs2, Hsent1, <- !app_assoc.
  - pose proof (pump_output_shows (tr_received t3) (ac_session_id config)
      (mkStdout (so_bytes o ++ (if reconnecting then RESET_TERMINAL else []) ++ replay) None (so_broken o))
      eq_refl) as Hp.
    destruct (until_ending _ _) as [live e]. rewrite Hp. cbn [so_bytes]. by rewrite <- !app_assoc.
Qed.
End Shows.

(** ** A concrete attach *)

#[local] Existing Instance sample_floats.
#[local] Existing Instance sample_text.
#[local] Existing Instance sample_errors.
#[local] Existing Instance sample_unicode.
#[local] Existing Instance sample_debug.

Definition sample_config : AttachConfig := mkAttachConfig "/run/ade.sock" "s1" (Some "v1") (Some "d1").

Definition attach_ack (instance : string) : HelloAck :=
  mkHelloAck "1.0" 3 "linux" 2 3 3 [] false None None (Some instance) None.

Definition sample_transport (received : list (ReadFrameError + Frame)) : transport :=
  mkTransport received [] None "broken pipe".

(** The first connection closes unanswered; the second is the daemon, with a frame from
    the future before its replay. *)
Definition sample_connect (n : nat) : result string transport :=
  match n with
  | O => Ok (sample_transport [])
  | _ => Ok (sample_transport
      [inr (Frame_HelloAck (attach_ack "d1")); inl (UnknownOp "sparkle" (Some 9));
       inr (Frame_Replay "s1" [104; 105] false); inr (Frame_Output "s2" [1]);
       inr (Frame_Output "s1" [33]); inr (Frame_Exited "s1" (Some 0))])
  end.

Lemma sample_connect_fresh k t : sample_connect k = Ok t → tr_sent t = [].
Proof. destruct k; by intros [= <-]. Qed.


(** The terminal shows [hi!] and the client has sent its size, its attach and its
    rejection. *)
Lemma attached_terminal_shows_the_session_witness :
  ∃ t' o',
    connect_and_attach sample_config sample_connect (Some (80, 24)) false (mkStdout [] None "closed") =
      (Ok t', o') ∧
    (pump_output (tr_received t') "s1" true o').1.1 = Ended "[ade: session exited with status 0]" ∧
    so_bytes (pump_output (tr_received t') "s1" true o').2 = [104; 105; 33] ∧
    ∃ before replay truncated,
      [inl (UnknownOp "sparkle" (Some 9)); inr (Frame_Replay "s1" [104; 105] false);
       inr (Frame_Output "s2" [1]); inr (Frame_Output "s1" [33]); inr (Frame_Exited "s1" (Some 0))] =
        before ++ inr (Frame_Replay "s1" replay truncated) :: tr_received t' ∧
      tr_sent t' = [Frame_Hello hello_current] ++ [Frame_Resize "s1" 80 24] ++
        [Frame_Attach "s1" (Some "v1") (Some 1)] ++ rejections before.
Proof.
  destruct (handshaken sample_config sample_connect true).2 as [[t generation]|f] eqn:Hh;
    [|vm_compute in Hh; discriminate Hh].
  assert (Ht : tr_received t = [inl (UnknownOp "sparkle" (Some 9));
      inr (Frame_Replay "s1" [104; 105] false); inr (Frame_Output "s2" [1]);
      inr (Frame_Output "s1" [33]); inr (Frame_Exited "s1" (Some 0))] ∧
      tr_sent t = [Frame_Hello hello_current] ∧ generation = 3)
    by (vm_compute in Hh; injection Hh as <- <-; repeat split).
  destruct Ht as (Ht & Hs & ->).
  eexists _, _. split; [vm_compute; reflexivity|]. split; [vm_compute; reflexivity|].
  split; [vm_compute; reflexivity|].
  destruct (attached_terminal_shows_the_session sample_config sample_connect (Some (80, 24)) false
    (mkStdout [] None "closed") t 3 _ _ Hh eq_refl ltac:(vm_compute; reflexivity))
    as (before & replay & truncated & Hr & _ & Hsent & _).
  exists before, replay, truncated. rewrite <- Ht. split; [exact Hr|]. rewrite <- Hs. exact Hsent.
Defined.

(** A chunk is typed while the transport is down, another write fails, and a rejection
    of the old transport's frame goes stale. *)
Definition sample_trace : list attach_event :=
  [Typed [97]; WriterTurn (Some (80, 24)) true; Undecodable (UnknownOp "sparkle" (Some 9)); TransportLost;
   Typed [98]; Winched (Some (100, 30)); Reattached; WriterTurn (Some (100, 30)) true;
   WriterTurn (Some (100, 30)) false; Typed [99]; Reattached; WriterTurn (Some (100, 30)) true].

Lemma input_is_handed_over_once_in_order_witness :
  ∃ a, attach_run "s1" sample_trace (attachment_new (Some (80, 24))) = Some a ∧
    at_generation a = 2 ∧ at_typed a = [[97]; [98]; [99]] ∧ chunks (map snd (at_handed a)) = [[97]; [98]] ∧
    chunks (map snd (at_handed a)) ++ chunks (at_queue a) = at_typed a.
Proof.
  eexists. split; [vm_compute; reflexivity|]. do 3 (split; [vm_compute; reflexivity|]).
  apply (input_is_handed_over_once_in_order "s1" sample_trace (Some (80, 24))). vm_compute. reflexivity.
Defined.
