(* ===== verification/Shell.v ===== *)
(** * Quoting for a shell

    [shell_quote] of [crates/ade_session/src/deploy.rs]: every command for a host is put
    through a POSIX shell, the probes by [sh -c] and everything over ssh by the remote
    login shell. What a shell reads is the law [PosixShell] states. *)

From S2P Require Import Prelude Text.
From Stdlib Require Import Ascii.
From stdpp Require Import options.

(** [text.replace('\'', r"'\''")] between single quotes. *)
Definition quote : ascii := "'"%char.
Definition backslash : ascii := "\"%char.

Fixpoint escape_quotes (text : string) : string :=
  match text with
  | EmptyString => EmptyString
  | String c rest =>
      if decide (c = quote)
      then String quote (String backslash (String quote (String quote (escape_quotes rest))))
      else String c (escape_quotes rest)
  end.

Definition shell_quote (text : string) : string :=
  String quote (escape_quotes text +:+ String quote "").


(** What ssh hands the remote shell: everything after the destination, joined with
    spaces. *)
Definition joined (argv : list string) : string := join " " argv.

(** ** What a POSIX shell reads

    [words w s] are the words of the rest [s] of a command, [w] being the word read so
    far, if one was begun; [None] for a command that is not a list of words. The laws
    are sections 2.2.1, 2.2.2 and 2.3 of the shell's grammar, for the characters
    [shell_quote] makes. *)
Fixpoint str_free (c : ascii) (s : string) : Prop :=
  match s with EmptyString => True | String x s => x ≠ c ∧ str_free c s end.

Class PosixShell (words : option string → string → option (list string)) : Prop := {
  shell_end w : words w "" = Some (option_list w);
  shell_blank w s : words w (String " " s) = app (option_list w) <$> words None s;
  shell_quoted w t s : str_free quote t →
    words w (String quote (t +:+ String quote s)) = words (Some (default "" w +:+ t)) s;
  shell_escaped w c s : c ≠ LF →
    words w (String backslash (String c s)) = words (Some (default "" w +:+ String c "")) s
}.

Lemma str_app_cons c s t : String c s +:+ t = String c (s +:+ t).
Proof. reflexivity. Qed.

Lemma str_app_nil_l s : "" +:+ s = s.
Proof. reflexivity. Qed.

Lemma str_app_assoc a b c : a +:+ b +:+ c = (a +:+ b) +:+ c.
Proof. induction a as [|x a IH]; [done|]. by rewrite !str_app_cons, IH. Qed.

Lemma str_app_nil_r a : a +:+ "" = a.
Proof. induction a as [|x a IH]; [done|]. by rewrite str_app_cons, IH. Qed.

Lemma str_free_snoc c s x : str_free c s → x ≠ c → str_free c (s +:+ String x "").
Proof.
  induction s as [|y s IH]; [done|]. rewrite str_app_cons. intros [??] ?. split; [done|by apply IH].
Qed.

Section Reading.
Context `{PosixShell words}.

Lemma read_escaped text : ∀ w t s, str_free quote t →
  words w (String quote (t +:+ escape_quotes text +:+ String quote s)) =
  words (Some (default "" w +:+ t +:+ text)) s.
Proof using Type*.
  induction text as [|c text IH]; intros w t s Ht.
  - change (escape_quotes "") with "". rewrite str_app_nil_l, str_app_nil_r. by apply shell_quoted.
  - cbn [escape_quotes]. case_decide as Hc.
    + subst c. rewrite !str_app_cons, shell_quoted, shell_escaped by done.
      rewrite <- (str_app_nil_l (escape_quotes text +:+ _)), IH by done.
      cbn [default from_option id]. by rewrite str_app_nil_l, <- !str_app_assoc, str_app_cons, str_app_nil_l.
    + specialize (IH w (t +:+ String c "") s (str_free_snoc _ _ _ Ht Hc)).
      by rewrite <- !str_app_assoc in IH.
Qed.

Lemma read_quoted text w s : words w (shell_quote text +:+ s) = words (Some (default "" w +:+ text)) s.
Proof using Type*.
  unfold shell_quote. rewrite str_app_cons, <- str_app_assoc. exact (read_escaped text w "" s I).
Qed.

(** Quoted words joined with spaces are those words. *)
Lemma read_joined argv : words None (joined (map shell_quote argv)) = Some argv.
Proof using Type*.
  unfold joined. induction argv as [|a [|b argv] IH].
  - exact (shell_end None).
  - cbn [map join]. rewrite <- (str_app_nil_r (shell_quote a)), read_quoted. exact (shell_end _).
  - change (join " " (map shell_quote (a :: b :: argv)))
      with (shell_quote a +:+ String " " (join " " (map shell_quote (b :: argv)))).
    by rewrite read_quoted, shell_blank, IH.
Qed.
End Reading.

(** ** A shell that reads so *)

Fixpoint sh_words (quoted : bool) (w : option string) (s : string) : option (list string) :=
  match s with
  | EmptyString => if quoted then None else Some (option_list w)
  | String c s =>
      if quoted then
        if decide (c = quote) then sh_words false w s
        else sh_words true (Some (default "" w +:+ String c "")) s
      else if decide (c = quote) then sh_words true (Some (default "" w)) s
      else if decide (c = backslash) then
        match s with
        | String c s => sh_words false (Some (default "" w +:+ String c "")) s
        | EmptyString => None
        end
      else if decide (c = " "%char) then app (option_list w) <$> sh_words false None s
      else sh_words false (Some (default "" w +:+ String c "")) s
  end.

Lemma sh_words_quoted t : ∀ w s, str_free quote t →
  sh_words true (Some w) (t +:+ String quote s) = sh_words false (Some (w +:+ t)) s.
Proof.
  induction t as [|c t IH]; intros w s Ht.
  - by rewrite str_app_nil_r.
  - destruct Ht as [Hc Ht]. rewrite str_app_cons. cbn [sh_words]. rewrite decide_False by done.
    cbn [default from_option id]. rewrite IH by done. by rewrite <- str_app_assoc.
Qed.

#[export] Instance sh_words_posix : PosixShell (sh_words false).
Proof.
  split.
  - done.
  - intros w s. done.
  - intros w t s Ht. change (sh_words true (Some (default "" w)) (t +:+ String quote s) =
      sh_words false (Some (default "" w +:+ t)) s). by apply sh_words_quoted.
  - intros w c s _. done.
Qed.
