(* ===== verification/Words.v ===== *)
(** * Words and numbers of a line

    What the client reads of the lines a host prints: [str::split_whitespace], trimming a
    character, parts between a character, and decimal numbers with their printing. *)

From S2P Require Import Prelude Text Shell.
From Stdlib Require Import Ascii NArith.
From stdpp Require Import options.

(** [str::split_whitespace], as the words of the bytes; [w] is the word so far. A step
    takes at least a byte, so the length is fuel enough. *)
Definition flush (w : list ascii) : list (list ascii) := match w with [] => [] | _ => [w] end.

Fixpoint words_from (fuel : nat) (w l : list ascii) : list (list ascii) :=
  match fuel with
  | O => flush w
  | S fuel =>
      match strip_one whitespace l with
      | Some rest => flush w ++ words_from fuel [] rest
      | None => match l with
                | [] => flush w
                | c :: rest => words_from fuel (w ++ [c]) rest
                end
      end
  end.

Definition split_whitespace (s : string) : list string :=
  map of_bytes (words_from (String.length s) [] (to_bytes s)).

Example split_whitespace_words : split_whitespace "  ab  c " = ["ab"; "c"].
Proof. reflexivity. Qed.

(** [trim_start_matches(c)] and [trim_end_matches(c)]. *)
Fixpoint trim_start_matches (c : ascii) (s : string) : string :=
  match s with
  | String x rest => if decide (x = c) then trim_start_matches c rest else s
  | EmptyString => s
  end.

Definition trim_end_matches (c : ascii) (s : string) : string :=
  of_bytes (rev (to_bytes (trim_start_matches c (of_bytes (rev (to_bytes s)))))).

(** ** The words of a line of ASCII *)

Definition is_ascii (c : ascii) : bool := (N_of_ascii c <? 128)%N.

Definition is_blank (c : ascii) : bool :=
  bool_decide (N_of_ascii c = 32%N) || ((9 <=? N_of_ascii c) && (N_of_ascii c <=? 13))%N.

Definition word_char (c : ascii) : bool := is_ascii c && negb (is_blank c).

Lemma strip_one_ascii c l : is_ascii c = true →
  strip_one whitespace (c :: l) = if is_blank c then Some l else None.
Proof. destruct c as [[] [] [] [] [] [] [] []]; intros H; solve [reflexivity|discriminate H]. Qed.

Lemma words_from_blank post fuel w : Forall (λ c, is_ascii c && is_blank c = true) post →
  (length post ≤ fuel)%nat → words_from fuel w post = flush w.
Proof.
  revert fuel w. induction post as [|c post IH]; intros fuel w Hp Hf; [by destruct fuel|].
  destruct fuel as [|fuel]; [simpl in Hf; lia|].
  apply Forall_cons in Hp as [[Ha Hb]%andb_true_iff Hp]. cbn [words_from].
  rewrite strip_one_ascii by done. rewrite Hb. rewrite IH; [apply app_nil_r|done|simpl in Hf; lia].
Qed.

Lemma words_from_word tok : ∀ fuel w l, Forall (λ c, word_char c = true) tok →
  (length tok ≤ fuel)%nat →
  words_from fuel w (tok ++ l) = words_from (fuel - length tok) (w ++ tok) l.
Proof.
  induction tok as [|c tok IH]; intros fuel w l Ht Hf.
  - cbn [length app]. by rewrite Nat.sub_0_r, app_nil_r.
  - destruct fuel as [|fuel]; [simpl in Hf; lia|]. apply Forall_cons in Ht as [[Ha Hb]%andb_true_iff Ht].
    cbn [words_from app length]. rewrite strip_one_ascii by done.
    rewrite (proj1 (negb_true_iff _) Hb). rewrite IH; [by rewrite <- app_assoc|done|simpl in Hf; lia].
Qed.

(** The last word, whatever words come before it. *)
Lemma words_from_last pre : ∀ c tok post fuel w, Forall (λ c, is_ascii c = true) pre →
  is_ascii c && is_blank c = true → tok ≠ [] → Forall (λ c, word_char c = true) tok →
  Forall (λ c, is_ascii c && is_blank c = true) post →
  (length (pre ++ c :: tok ++ post) ≤ fuel)%nat →
  last (words_from fuel w (pre ++ c :: tok ++ post)) = Some tok.
Proof.
  induction pre as [|x pre IH]; intros c tok post fuel w Hpre Hc Hne Htok Hpost Hf.
  - destruct fuel as [|fuel]; [simpl in Hf; lia|]. apply andb_true_iff in Hc as [Ha Hb].
    cbn [app words_from]. cbn [app length] in Hf. rewrite length_app in Hf. rewrite strip_one_ascii by done. rewrite Hb.
    rewrite words_from_word; [|done|lia]. cbn [app].
    rewrite words_from_blank; [|done|lia].
    destruct tok; [done|]. cbn [flush]. by rewrite last_snoc.
  - destruct fuel as [|fuel]; [simpl in Hf; lia|]. apply Forall_cons in Hpre as [Ha Hpre].
    cbn [app words_from]. cbn [app length] in Hf. rewrite strip_one_ascii by done.
    destruct (is_blank x); [|apply IH; (done || lia)].
    pose proof (IH c tok post fuel [] Hpre Hc Hne Htok Hpost ltac:(lia)) as Hl.
    destruct (words_from fuel [] _) eqn:Hw; [done|]. rewrite last_app. by rewrite Hl.
Qed.

(** ** Decimal numbers *)

Lemma pretty_digit n : (n < 10)%N →
  is_ascii_digit (pretty_N_char n) = true ∧ N_of_ascii (pretty_N_char n) = (48 + n)%N.
Proof.
  intros Hn. assert (n = 0 ∨ n = 1 ∨ n = 2 ∨ n = 3 ∨ n = 4 ∨ n = 5 ∨ n = 6 ∨ n = 7 ∨ n = 8 ∨ n = 9)%N as H by lia.
  by destruct_or!; subst.
Qed.

Lemma digits_value_go n : ∀ s, digits_value 0 (pretty_N_go n s) = digits_value (Z.of_N n) s.
Proof.
  induction (N.lt_wf_0 n) as [n _ IH]. intros s. destruct (decide (n = 0)%N) as [->|Hn]; [done|].
  rewrite pretty_N_go_step by lia. rewrite IH by (apply N.div_lt; lia). cbn [digits_value].
  destruct (pretty_digit (n mod 10)) as [-> ->]; [by apply N.mod_lt|].
  f_equal. pose proof (N.div_mod n 10 ltac:(lia)). lia.
Qed.

Lemma pretty_go_all (p : ascii → bool) n : (∀ c, is_ascii_digit c = true → p c = true) →
  ∀ s, str_all p s = true → str_all p (pretty_N_go n s) = true.
Proof.
  intros Hp. induction (N.lt_wf_0 n) as [n _ IH]. intros s Hs.
  destruct (decide (n = 0)%N) as [->|Hn]; [done|].
  rewrite pretty_N_go_step by lia. apply IH; [apply N.div_lt; lia|]. cbn [str_all].
  rewrite Hp, Hs; [done|]. apply pretty_digit, N.mod_lt. lia.
Qed.

Lemma pretty_Z_N (z : Z) : (0 ≤ z)%Z → pretty z = pretty (Z.to_N z).
Proof. by destruct z. Qed.

Lemma pretty_Z_digits (z : Z) : (0 ≤ z)%Z → str_all is_ascii_digit (pretty z) = true.
Proof.
  intros Hz. rewrite pretty_Z_N by done. unfold pretty, pretty_N. case_decide; [done|]. by apply pretty_go_all.
Qed.

Lemma digits_value_pretty (z : Z) : (0 ≤ z)%Z → digits_value 0 (pretty z) = Some z.
Proof.
  intros Hz. rewrite pretty_Z_N by done. unfold pretty, pretty_N. case_decide as H0.
  - by replace z with 0%Z by lia.
  - rewrite digits_value_go. cbn. f_equal. lia.
Qed.

Lemma pretty_Z_nonempty (z : Z) : (0 ≤ z)%Z → pretty z ≠ "".
Proof. intros Hz He. pose proof (digits_value_pretty z Hz) as Hv. rewrite He in Hv. injection Hv as <-. discriminate He. Qed.

Lemma parse_unsigned_pretty max (z : Z) : (0 ≤ z ≤ max)%Z → parse_unsigned max (pretty z) = Some z.
Proof.
  intros [H0 Hm]. pose proof (pretty_Z_digits z H0) as Hd. pose proof (digits_value_pretty z H0) as Hv.
  pose proof (pretty_Z_nonempty z H0) as Hne. unfold parse_unsigned.
  destruct (pretty z) as [|c s]; [done|]. cbn [str_all] in Hd. apply andb_true_iff in Hd as [Hc _].
  assert (match String c s with String "+" rest => rest | _ => String c s end = String c s) as ->.
  { destruct c as [[] [] [] [] [] [] [] []]; solve [reflexivity|discriminate Hc]. }
  rewrite Hv. cbn. rewrite (proj2 (Z.leb_le _ _)) by done. done.
Qed.

(** ** Parts *)

Lemma str_all_free p c s : p c = false → str_all p s = true → str_free c s.
Proof.
  intros Hc. induction s as [|x s IH]; [done|]. cbn. intros [Hx Hs]%andb_true_iff.
  split; [intros ->; congruence|by apply IH].
Qed.

Lemma split_on_free c s : str_free c s → split_on c s = [s].
Proof.
  induction s as [|x s IH]; [done|]. intros [Hx Hs]. cbn [split_on]. rewrite decide_False by done. by rewrite IH.
Qed.

Lemma split_on_app c s t : str_free c s → split_on c (s +:+ String c t) = s :: split_on c t.
Proof.
  induction s as [|x s IH]; intros Hs.
  - rewrite str_app_nil_l. cbn [split_on]. by rewrite decide_True.
  - destruct Hs as [Hx Hs]. rewrite str_app_cons. cbn [split_on]. rewrite decide_False by done. by rewrite IH.
Qed.

Lemma to_bytes_app s t : to_bytes (s +:+ t) = to_bytes s ++ to_bytes t.
Proof. induction s as [|c s IH]; [done|]. rewrite str_app_cons. cbn. by rewrite IH. Qed.

Lemma length_to_bytes s : length (to_bytes s) = String.length s.
Proof. induction s as [|c s IH]; [done|]. cbn. by rewrite IH. Qed.

Lemma of_to_bytes s : of_bytes (to_bytes s) = s.
Proof. apply Stdlib.Strings.String.string_of_list_ascii_of_string. Qed.

Lemma str_all_bytes p s : str_all p s = true ↔ Forall (λ c, p c = true) (to_bytes s).
Proof.
  induction s as [|c s IH]; [by split|]. cbn [str_all Stdlib.Strings.String.list_ascii_of_string].
  rewrite andb_true_iff, Forall_cons, IH. done.
Qed.

Lemma str_all_impl (p q : ascii → bool) s : (∀ c, p c = true → q c = true) → str_all p s = true → str_all q s = true.
Proof. intros Hpq. induction s as [|c s IH]; [done|]. cbn. rewrite !andb_true_iff. naive_solver. Qed.

Lemma str_all_app p s t : str_all p (s +:+ t) = str_all p s && str_all p t.
Proof. induction s as [|c s IH]; [done|]. rewrite str_app_cons. cbn. by rewrite IH, andb_assoc. Qed.
