(* ===== verification/Deploy.v ===== *)
(** * Getting the daemon binary onto a host

    [crates/ade_session/src/deploy.rs]: the version of an installed binary, the paths a
    deployment is about, and [ensure_daemon] and [replace_daemon] as computations over
    the calls they make. The host is whatever answers those calls. *)

From S2P Require Import Prelude Text Shell Words.
From Stdlib Require Import Ascii.
From stdpp Require Import options.
Open Scope Z_scope.

(** ** Versions *)

Record Version : Type := mkVersion { v_major : Z; v_minor : Z; v_patch : Z }.

#[export] Instance Version_eq_dec : EqDecision Version.
Proof. solve_decision. Defined.

(** The derived [Ord]: field by field. *)
Definition version_cmp (a b : Version) : comparison :=
  match v_major a ?= v_major b with
  | Eq => match v_minor a ?= v_minor b with
          | Eq => v_patch a ?= v_patch b
          | c => c
          end
  | c => c
  end.

(** [Display]. *)
Definition version_text (v : Version) : string :=
  pretty (v_major v) +:+ "." +:+ pretty (v_minor v) +:+ "." +:+ pretty (v_patch v).

Definition version_parse (text : string) : option Version :=
  token ← last (split_whitespace text);
  match split_on "." (trim_start_matches "v" token) with
  | major :: rest =>
      major ← parse_unsigned u64_max major;
      match rest with
      | minor :: rest =>
          minor ← parse_unsigned u64_max minor;
          match rest with
          | patch :: rest =>
              patch ← parse_unsigned u64_max patch;
              match rest with [] => Some (mkVersion major minor patch) | _ => None end
          | [] => None
          end
      | [] => None
      end
  | [] => None
  end.

Definition version_default : Version := mkVersion 0 0 0.

Example version_parse_prefixed : version_parse "ade-daemon v1.20.3" = Some (mkVersion 1 20 3).
Proof. reflexivity. Qed.
Example version_parse_strict : version_parse "ade-daemon 1.2.3-rc1" = None.
Proof. reflexivity. Qed.

(** ** Paths *)

(** [Path::parent] on Unix: the path up to its last component, without the separators
    and the [.] components around it. *)
Fixpoint drop_blank_parts (parts : list string) : list string :=
  match parts with
  | [] => []
  | [first] => [first]
  | p :: rest => if decide (p = "" ∨ p = ".") then drop_blank_parts rest else parts
  end.

Definition path_parent (path : string) : option string :=
  match drop_blank_parts (rev (split_on "/" path)) with
  | [first] => if decide (first = "") then None else Some ""
  | _ :: rest =>
      match drop_blank_parts rest with
      | [first] => if decide (first = "") then Some "/" else Some first
      | parts => Some (join "/" (rev parts))
      end
  | [] => None
  end.

Example path_parent_nested : path_parent "/home/me/.ade/bin//ade-daemon" = Some "/home/me/.ade/bin".
Proof. reflexivity. Qed.
Example path_parent_root : path_parent "/ade" = Some "/".
Proof. reflexivity. Qed.
Example path_parent_bare : path_parent "ade" = Some "".
Proof. reflexivity. Qed.
Example path_parent_none : path_parent "/" = None.
Proof. reflexivity. Qed.

(** ** The deployment *)

Definition DEFAULT_BIN_PATH : string := "~/.ade/bin/ade-daemon".
Definition DEFAULT_SOCKET_PATH : string := "~/.ade/daemon.sock".
Definition DEFAULT_STATE_DIR : string := "~/.ade/daemon".
Definition BINARY_MODE : Z := 493.   (* 0o755 *)

Record ExecOutput : Type := mkExecOutput { eo_exit_code : Z; eo_stdout : string; eo_stderr : string }.

Definition success (o : ExecOutput) : bool := eo_exit_code o =? 0.

Record DeployConfig : Type := mkDeployConfig {
  dc_binary : list Z;
  dc_expected_version : Version;
  dc_bin_path : string;
  dc_socket_path : string;
  dc_state_dir : string
}.

Definition deploy_config_new (binary : list Z) (expected_version : Version) : DeployConfig :=
  mkDeployConfig binary expected_version DEFAULT_BIN_PATH DEFAULT_SOCKET_PATH DEFAULT_STATE_DIR.

Inductive DeployOutcome : Type :=
| Installed
| AlreadyCurrent (version : Version)
| Replaced (previous : Version)
| KeptOlder (version : Version)
| KeptNewer (version : Version)
| KeptUnknown (output : string)
| NotAttempted.

#[export] Instance DeployOutcome_eq_dec : EqDecision DeployOutcome.
Proof. solve_decision. Defined.

Definition wrote_binary (outcome : DeployOutcome) : bool :=
  match outcome with Installed | Replaced _ => true | _ => false end.

Record DaemonEndpoint : Type := mkDaemonEndpoint {
  de_bin_path : string;
  de_socket_path : string;
  de_state_dir : string;
  de_version : option Version;
  de_outcome : DeployOutcome
}.

Definition preinstalled (bin_path socket_path state_dir : string) : DaemonEndpoint :=
  mkDaemonEndpoint bin_path socket_path state_dir None NotAttempted.

Definition proxy_argv (e : DaemonEndpoint) : list string :=
  [de_bin_path e; "--stdio-proxy"; "--socket"; de_socket_path e; "--state-dir"; de_state_dir e].

Definition shell (command : string) : list string := ["sh"; "-c"; command].

Definition needs_home (config : DeployConfig) : bool :=
  existsb (String.prefix "~") [dc_bin_path config; dc_socket_path config; dc_state_dir config].

Definition expand_home (path : string) (home : option string) : string :=
  match home with
  | Some home =>
      if String.prefix "~/" path then trim_end_matches "/" home +:+ "/" +:+ str_drop 2 path else path
  | None => path
  end.

(** What a deployment asks of a host, and a host ([HostExec]): its answers may depend
    on everything it was asked before. *)
Inductive call : Type :=
| Run (argv : list string)
| Upload (bytes : list Z) (remote_path : string).

Class HostExec : Type := {
  host_run : list call → list string → result string ExecOutput;
  host_upload : list call → list Z → string → result string ()
}.

Section Deploy.
Context `{HostExec}.

(** The state is the calls made, the last one last. *)
Definition exec (argv : list string) : st (list call) (result string ExecOutput) :=
  λ calls, (host_run calls argv, calls ++ [Run argv]).

Definition upload (bytes : list Z) (remote_path : string) : st (list call) (result string ()) :=
  λ calls, (host_upload calls bytes remote_path, calls ++ [Upload bytes remote_path]).

(** [printf %s "$HOME"]. *)
Definition HOME_COMMAND : string := "printf %s " +:+ String (byte 34) ("$HOME" +:+ String (byte 34) "").

Definition host_home : st (list call) (result string string) :=
  output ←? exec (shell HOME_COMMAND);
  mret (if negb (success output) || bool_decide (trim (eo_stdout output) = "")
        then Err ("could not read $HOME on the host: " +:+ eo_stderr output)
        else Ok (trim (eo_stdout output))).

Definition home_for (config : DeployConfig) : st (list call) (result string (option string)) :=
  if needs_home config then home ←? host_home; mret (Ok (Some home)) else mret (Ok None).

Definition version_probe (bin_path : string) : list string :=
  shell (shell_quote bin_path +:+ " --version").

Definition socket_test (socket_path : string) : list string :=
  shell ("test -S " +:+ shell_quote socket_path).

Definition daemon_socket_exists (socket_path : string) : st (list call) (result string bool) :=
  output ←? exec (socket_test socket_path);
  mret (Ok (success output)).

Definition install (config : DeployConfig) (bin_path : string) : st (list call) (result string ()) :=
  _ ←? match path_parent bin_path with
       | Some parent =>
           if decide (parent = "") then mret (Ok ())
           else
             made ←? exec ["mkdir"; "-p"; parent];
             mret (if success made then Ok ()
                   else Err ("could not create " +:+ parent +:+ " on the host: " +:+ eo_stderr made))
       | None => mret (Ok ())
       end;
  upload (dc_binary config) bin_path.

Definition ensure_daemon (config : DeployConfig) : st (list call) (result string DaemonEndpoint) :=
  home ←? home_for config;
  let bin_path := expand_home (dc_bin_path config) home in
  let socket_path := expand_home (dc_socket_path config) home in
  let state_dir := expand_home (dc_state_dir config) home in
  probe ←? exec (version_probe bin_path);
  if negb (success probe) then
    _ ←? install config bin_path;
    mret (Ok (mkDaemonEndpoint bin_path socket_path state_dir (Some (dc_expected_version config)) Installed))
  else
    match version_parse (eo_stdout probe) with
    | None =>
        mret (Ok (mkDaemonEndpoint bin_path socket_path state_dir None (KeptUnknown (eo_stdout probe))))
    | Some installed =>
        outcome ←? match version_cmp installed (dc_expected_version config) with
                   | Eq => mret (Ok (AlreadyCurrent installed))
                   | Gt => mret (Ok (KeptNewer installed))
                   | Lt =>
                       exists_ ←? daemon_socket_exists socket_path;
                       if exists_ : bool then mret (Ok (KeptOlder installed))
                       else _ ←? install config bin_path; mret (Ok (Replaced installed))
                   end;
        let version := if wrote_binary outcome then dc_expected_version config else installed in
        mret (Ok (mkDaemonEndpoint bin_path socket_path state_dir (Some version) outcome))
    end.

Definition replace_daemon (config : DeployConfig) : st (list call) (result string DaemonEndpoint) :=
  home ←? home_for config;
  let bin_path := expand_home (dc_bin_path config) home in
  let socket_path := expand_home (dc_socket_path config) home in
  let state_dir := expand_home (dc_state_dir config) home in
  exists_ ←? daemon_socket_exists socket_path;
  if exists_ : bool then
    mret (Err ("a daemon socket exists at " +:+ socket_path +:+
               "; refusing to replace the binary under a daemon that may be running"))
  else
    probe ←? exec (version_probe bin_path);
    let previous := default version_default (version_parse (eo_stdout probe)) in
    _ ←? install config bin_path;
    mret (Ok (mkDaemonEndpoint bin_path socket_path state_dir (Some (dc_expected_version config))
                (Replaced previous))).
End Deploy.

(** ** What a deployment may do *)

Definition uploads (calls : list call) : list (list Z * string) :=
  omap (λ c, match c with Upload bytes path => Some (bytes, path) | Run _ => None end) calls.

Lemma uploads_app a b : uploads (a ++ b) = uploads a ++ uploads b.
Proof. apply omap_app. Qed.

Lemma uploads_run calls argv : uploads (calls ++ [Run argv]) = uploads calls.
Proof. rewrite uploads_app. apply app_nil_r. Qed.

Section Policy.
Context `{HostExec}.

(** The host answered [o] to [argv] in the course of [calls]. *)
Definition answered (calls : list call) (argv : list string) (o : ExecOutput) : Prop :=
  ∃ before, before ++ [Run argv] `prefix_of` calls ∧ host_run before argv = Ok o.

(** No daemon socket is there. *)
Definition no_socket (socket_path : string) (calls : list call) : Prop :=
  ∃ o, answered calls (socket_test socket_path) o ∧ success o = false.

(** Nothing runnable is installed, or something older is and no daemon socket is
    there. *)
Definition absent_or_idle (config : DeployConfig) (bin_path socket_path : string) (calls : list call) : Prop :=
  ∃ probe, answered calls (version_probe bin_path) probe ∧
    (success probe = false ∨
     (∃ v, version_parse (eo_stdout probe) = Some v ∧
        version_cmp v (dc_expected_version config) = Lt) ∧ no_socket socket_path calls).

(** The calls a deployment may make. *)
Definition expected_call (config : DeployConfig) (bin_path socket_path : string) (c : call) : Prop :=
  match c with
  | Run argv =>
      argv = shell HOME_COMMAND ∨ argv = version_probe bin_path ∨ argv = socket_test socket_path ∨
      ∃ parent, path_parent bin_path = Some parent ∧ argv = ["mkdir"; "-p"; parent]
  | Upload bytes path => bytes = dc_binary config ∧ path = bin_path
  end.

Lemma answered_app calls calls' argv o : answered calls argv o → answered (calls ++ calls') argv o.
Proof. intros (before & Hp & Ha). exists before. split; [by apply prefix_app_r|done]. Qed.

Lemma answered_last calls argv o : host_run calls argv = Ok o → answered (calls ++ [Run argv]) argv o.
Proof. intros Ha. exists calls. split; [done|exact Ha]. Qed.

Lemma wp_asked argv (Q : result string ExecOutput → list call → Prop) calls :
  Q (host_run calls argv) (calls ++ [Run argv]) → wp (exec argv) Q calls.
Proof. done. Qed.

Lemma wp_upload bytes path (Q : result string () → list call → Prop) calls :
  Q (host_upload calls bytes path) (calls ++ [Upload bytes path]) → wp (upload bytes path) Q calls.
Proof. done. Qed.

Definition made_directory (bin_path : string) : list call :=
  match path_parent bin_path with
  | Some parent => if decide (parent = "") then [] else [Run ["mkdir"; "-p"; parent]]
  | None => []
  end.

(** [install] makes the directory, and uploads once that went well. *)
Lemma wp_install config bin_path (Q : result string () → list call → Prop) calls :
  (∀ e, Q (Err e) (calls ++ made_directory bin_path)) →
  Q (host_upload (calls ++ made_directory bin_path) (dc_binary config) bin_path)
    (calls ++ made_directory bin_path ++ [Upload (dc_binary config) bin_path]) →
  wp (install config bin_path) Q calls.
Proof.
  intros Herr Hup. unfold install. apply wp_bind_ok. unfold made_directory in *.
  destruct (path_parent bin_path) as [parent|]; [case_decide|].
  1,3: apply wp_ret, wp_upload; rewrite app_nil_r in Hup; exact Hup.
  apply wp_bind_ok, wp_asked. destruct (host_run calls _) as [made|e]; [|by apply Herr].
  apply wp_ret. destruct (success made); [|by apply Herr]. apply wp_upload.
  by rewrite <- app_assoc.
Qed.

Lemma wp_home_for config (Q : result string (option string) → list call → Prop) calls :
  (∀ r asked, asked = [] ∨ asked = [Run (shell HOME_COMMAND)] → Q r (calls ++ asked)) →
  wp (home_for config) Q calls.
Proof.
  intros HQ. unfold home_for. destruct (needs_home config).
  - apply wp_bind_ok. unfold host_home. apply wp_bind_ok, wp_asked.
    destruct (host_run calls _) as [o|e]; [|by apply HQ; right].
    apply wp_ret. destruct (_ || _); [by apply HQ; right|]. apply wp_ret, HQ. by right.
  - apply wp_ret. rewrite <- (app_nil_r calls). apply HQ. by left.
Qed.

(** The outcome of a deployment that wrote only what and when it may. *)
Definition spared (free : list call → Prop) (config : DeployConfig) (bin_path socket_path : string)
    (r : result string DaemonEndpoint) (calls : list call) : Prop :=
  Forall (expected_call config bin_path socket_path) calls ∧
  (uploads calls = [] ∧ (∀ e, r = Ok e → wrote_binary (de_outcome e) = false) ∨
   free calls ∧ ∃ before, calls = before ++ [Upload (dc_binary config) bin_path] ∧ uploads before = [] ∧
     match r with
     | Ok e => wrote_binary (de_outcome e) = true ∧ de_bin_path e = bin_path ∧
         host_upload before (dc_binary config) bin_path = Ok ()
     | Err e => host_upload before (dc_binary config) bin_path = Err e
     end).

Lemma made_directory_asked config bin_path socket_path :
  Forall (expected_call config bin_path socket_path) (made_directory bin_path).
Proof.
  unfold made_directory. destruct (path_parent bin_path) as [parent|] eqn:Hp; [|done].
  case_decide; [done|]. apply Forall_singleton. cbn. eauto 6.
Qed.

Lemma made_directory_uploads bin_path : uploads (made_directory bin_path) = [].
Proof. unfold made_directory. by repeat case_match. Qed.

(** Installing where that is allowed. *)
Lemma spared_install (free : list call → Prop) config bin_path socket_path endpoint calls :
  (∀ more, free (calls ++ more)) → Forall (expected_call config bin_path socket_path) calls →
  uploads calls = [] → de_bin_path endpoint = bin_path → wrote_binary (de_outcome endpoint) = true →
  wp (_ ←? install config bin_path; mret (Ok endpoint)) (spared free config bin_path socket_path) calls.
Proof.
  intros Hfree Hcalls Hups Hbin Hwrote. apply wp_bind_ok, wp_install.
  - intros e. split; [apply Forall_app_2; [done|apply made_directory_asked]|left].
    split; [|done]. by rewrite uploads_app, Hups, made_directory_uploads.
  - assert (Hall : Forall (expected_call config bin_path socket_path)
               (calls ++ made_directory bin_path ++ [Upload (dc_binary config) bin_path])).
    { repeat apply Forall_app_2; [done|apply made_directory_asked|by apply Forall_singleton]. }
    assert (Hu : uploads (calls ++ made_directory bin_path) = []).
    { by rewrite uploads_app, Hups, made_directory_uploads. }
    destruct (host_upload _ _ _) as [[]|e] eqn:Hup; [apply wp_ret|].
    all: split; [done|right; split; [apply Hfree|]].
    all: eexists; rewrite app_assoc; split_and!; [done|done|..]; done.
Qed.

(** A deployment that ends without writing. *)
Lemma spared_kept free config bin_path socket_path r calls :
  Forall (expected_call config bin_path socket_path) calls → uploads calls = [] →
  (∀ e, r = Ok e → wrote_binary (de_outcome e) = false) → spared free config bin_path socket_path r calls.
Proof. intros ???. split; [done|by left]. Qed.

Lemma asked_call config bin_path socket_path calls argv :
  Forall (expected_call config bin_path socket_path) calls →
  expected_call config bin_path socket_path (Run argv) →
  Forall (expected_call config bin_path socket_path) (calls ++ [Run argv]).
Proof. intros. apply Forall_app_2; [done|by apply Forall_singleton]. Qed.

Lemma no_socket_app socket_path calls more : no_socket socket_path calls → no_socket socket_path (calls ++ more).
Proof. intros (o & Ho & ?). exists o. split; [by apply answered_app|done]. Qed.

Lemma absent_or_idle_app config bin_path socket_path calls more :
  absent_or_idle config bin_path socket_path calls → absent_or_idle config bin_path socket_path (calls ++ more).
Proof.
  intros (probe & Hp & Hor). exists probe. split; [by apply answered_app|].
  destruct Hor as [?|[? ?]]; [by left|right]. split; [done|by apply no_socket_app].
Qed.

Lemma wp_spared_home (free : option string → list call → Prop) config
    (k : option string → st (list call) (result string DaemonEndpoint)) :
  (∀ home calls,
     let bin_path := expand_home (dc_bin_path config) home in
     let socket_path := expand_home (dc_socket_path config) home in
     Forall (expected_call config bin_path socket_path) calls → uploads calls = [] →
     wp (k home) (spared (free home) config bin_path socket_path) calls) →
  wp (home ←? home_for config; k home) (λ r calls, ∃ home,
    spared (free home) config (expand_home (dc_bin_path config) home)
      (expand_home (dc_socket_path config) home) r calls) [].
Proof.
  intros Hk. apply wp_bind_ok, wp_home_for. intros r asked Hasked.
  assert (Hfirst : ∀ b s, Forall (expected_call config b s) ([] ++ asked)).
  { intros b s. destruct Hasked as [->| ->]; [done|]. apply Forall_singleton. by left. }
  assert (Hnone : uploads ([] ++ asked) = []) by (destruct Hasked as [->| ->]; done).
  destruct r as [home|e]; [|by exists None; apply spared_kept].
  eapply wp_mono; [by apply Hk|]. intros r calls Hr. by exists home.
Qed.

(** Writing over an older binary once the socket was found missing, and then the
    endpoint. *)
Lemma wp_socket config bin_path socket_path (free : list call → Prop)
    (k : bool → st (list call) (result string DaemonEndpoint)) calls :
  Forall (expected_call config bin_path socket_path) calls → uploads calls = [] →
  (∀ exists_ calls', let calls' := calls ++ calls' in
     Forall (expected_call config bin_path socket_path) calls' → uploads calls' = [] →
     (exists_ = false → no_socket socket_path calls') →
     wp (k exists_) (spared free config bin_path socket_path) calls') →
  wp (exists_ ←? daemon_socket_exists socket_path; k exists_)
    (spared free config bin_path socket_path) calls.
Proof.
  intros Hcalls Hups Hk. unfold daemon_socket_exists. apply wp_bind_ok, wp_bind_ok, wp_asked.
  assert (Hf : Forall (expected_call config bin_path socket_path) (calls ++ [Run (socket_test socket_path)])).
  { apply asked_call; [done|]. cbn. auto. }
  assert (Hu : uploads (calls ++ [Run (socket_test socket_path)]) = []) by by rewrite uploads_run.
  destruct (host_run calls (socket_test socket_path)) as [o|e] eqn:Ho; [|by apply spared_kept].
  apply wp_ret, Hk; [done..|]. intros Hs. exists o. split; [by apply answered_last|done].
Qed.

Lemma bind_ok_assoc {A B C} (m : st (list call) (result string A))
    (f : A → st (list call) (result string B)) (g : B → st (list call) (result string C)) calls :
  bind_ok (bind_ok m f) g calls = bind_ok m (λ a, bind_ok (f a) g) calls.
Proof. unfold bind_ok. by destruct (m calls) as [[a|e] calls']. Qed.

Lemma wp_bind_ok_assoc {A B C} (m : st (list call) (result string A))
    (f : A → st (list call) (result string B)) (g : B → st (list call) (result string C)) Q calls :
  wp (bind_ok m (λ a, bind_ok (f a) g)) Q calls → wp (bind_ok (bind_ok m f) g) Q calls.
Proof. unfold wp. by rewrite bind_ok_assoc. Qed.

Lemma ensure_daemon_spares config :
  wp (ensure_daemon config) (λ r calls, ∃ home, spared
      (absent_or_idle config (expand_home (dc_bin_path config) home) (expand_home (dc_socket_path config) home))
      config (expand_home (dc_bin_path config) home) (expand_home (dc_socket_path config) home) r calls) [].
Proof.
  apply (wp_spared_home (λ home, absent_or_idle config (expand_home (dc_bin_path config) home)
    (expand_home (dc_socket_path config) home))).
  intros home calls. set (b := expand_home (dc_bin_path config) home).
  set (s := expand_home (dc_socket_path config) home). cbv zeta. intros Hf Hu.
  apply wp_bind_ok, wp_asked.
  assert (Hf1 : Forall (expected_call config b s) (calls ++ [Run (version_probe b)])).
  { apply asked_call; [done|]. cbn. auto. }
  assert (Hu1 : uploads (calls ++ [Run (version_probe b)]) = []) by by rewrite uploads_run.
  destruct (host_run calls (version_probe b)) as [probe|e] eqn:Hprobe; [|by apply spared_kept].
  pose proof (answered_last _ _ _ Hprobe) as Hans.
  destruct (success probe) eqn:Hs; cbn [negb].
  2: { apply spared_install; [|done..]. intros more. apply absent_or_idle_app. exists probe. split; [done|by left]. }
  destruct (version_parse (eo_stdout probe)) as [v|] eqn:Hv; [|by apply spared_kept; [..|intros ? [= <-]]].
  destruct (version_cmp v (dc_expected_version config)) eqn:Hc;
    [by apply spared_kept; [..|intros ? [= <-]]| |by apply spared_kept; [..|intros ? [= <-]]].
  apply wp_bind_ok_assoc, wp_socket; [done..|]. intros [] calls2 calls3 Hf2 Hu2 Hno.
  - by apply spared_kept; [..|intros ? [= <-]].
  - apply wp_bind_ok_assoc. apply (spared_install _ config b s (mkDaemonEndpoint b s
      (expand_home (dc_state_dir config) home) (Some (dc_expected_version config)) (Replaced v))); [|done..].
    intros more. apply absent_or_idle_app. exists probe. split; [by apply answered_app|right].
    split; [by eexists|by apply Hno].
Qed.

Lemma replace_daemon_spares config :
  wp (replace_daemon config) (λ r calls, ∃ home, spared
      (no_socket (expand_home (dc_socket_path config) home))
      config (expand_home (dc_bin_path config) home) (expand_home (dc_socket_path config) home) r calls) [].
Proof.
  apply (wp_spared_home (λ home, no_socket (expand_home (dc_socket_path config) home))).
  intros home calls. set (b := expand_home (dc_bin_path config) home).
  set (s := expand_home (dc_socket_path config) home). cbv zeta. intros Hf Hu.
  apply wp_socket; [done..|]. intros [] calls2 calls3 Hf2 Hu2 Hno.
  { by apply spared_kept. }
  apply wp_bind_ok, wp_asked. set (calls4 := calls3 ++ [Run (version_probe b)]).
  assert (Hf4 : Forall (expected_call config b s) calls4). { apply asked_call; [done|]. cbn. auto. }
  assert (Hu4 : uploads calls4 = []) by by unfold calls4; rewrite uploads_run.
  destruct (host_run calls3 (version_probe b)) as [probe|e]; [|by apply spared_kept].
  apply spared_install; [|done..]. intros more. do 2 apply no_socket_app. by apply Hno.
Qed.

(** A deployment disturbs no running daemon: whatever the host answers, it asks only
    for [$HOME], the installed version, the daemon socket and the directory, writes
    nothing but the configured bytes at the configured path, once and as its last act,
    and only after the version probe failed or reported an older version with no socket
    there ([replace_daemon]: with no socket there); the outcome says whether it wrote. *)
Theorem deployment_spares_a_running_daemon config :
  let '(r, calls) := ensure_daemon config [] in
  let '(r', calls') := replace_daemon config [] in
  (∃ home, let bin_path := expand_home (dc_bin_path config) home in
     let socket_path := expand_home (dc_socket_path config) home in
     spared (absent_or_idle config bin_path socket_path) config bin_path socket_path r calls) ∧
  (∃ home, let bin_path := expand_home (dc_bin_path config) home in
     let socket_path := expand_home (dc_socket_path config) home in
     spared (no_socket socket_path) config bin_path socket_path r' calls').
Proof.
  pose proof (ensure_daemon_spares config) as Hens. pose proof (replace_daemon_spares config) as Hrep.
  unfold wp in Hens, Hrep. by destruct (ensure_daemon config []), (replace_daemon config []).
Qed.
End Policy.

(** ** Hosts that answer as documented *)

(** What the bytes at a path are after these calls. *)
Definition installed_at (initial : string → option (list Z)) (calls : list call) (path : string) :
    option (list Z) :=
  foldl (λ installed c, match c with
                        | Upload bytes p => if decide (p = path) then Some bytes else installed
                        | Run _ => installed
                        end) (initial path) calls.

Lemma installed_at_app initial calls calls' path :
  installed_at initial (calls ++ calls') path =
  foldl (λ installed c, match c with
                        | Upload bytes p => if decide (p = path) then Some bytes else installed
                        | Run _ => installed
                        end) (installed_at initial calls path) calls'.
Proof. apply foldl_app. Qed.

(** A host with a POSIX shell: [home] is its [$HOME], [initial] the files there,
    [version_of] what an executable prints for [--version], [sockets] where sockets are;
    nothing else changes while it is deployed to. *)
Class HonestHost `{HostExec} (home : string) (initial : string → option (list Z))
    (version_of : list Z → ExecOutput) (sockets : string → bool) : Prop := {
  honest_home calls : host_run calls (shell HOME_COMMAND) = Ok (mkExecOutput 0 home "");
  honest_probe calls path : ∃ missing, success missing = false ∧
    host_run calls (version_probe path) =
    Ok (match installed_at initial calls path with Some bytes => version_of bytes | None => missing end);
  honest_socket calls path :
    host_run calls (socket_test path) = Ok (mkExecOutput (if sockets path then 0 else 1) "" "");
  honest_mkdir calls path : host_run calls ["mkdir"; "-p"; path] = Ok (mkExecOutput 0 "" "");
  honest_upload calls bytes path : host_upload calls bytes path = Ok ()
}.

(** What the policy says of an installed version and a socket. *)
Definition policy (installed : option ExecOutput) (socket : bool) (expected : Version) : DeployOutcome :=
  match installed with
  | None => Installed
  | Some probe =>
      if negb (success probe) then Installed
      else match version_parse (eo_stdout probe) with
           | None => KeptUnknown (eo_stdout probe)
           | Some v => match version_cmp v expected with
                       | Eq => AlreadyCurrent v
                       | Gt => KeptNewer v
                       | Lt => if socket then KeptOlder v else Replaced v
                       end
           end
  end.

Lemma version_cmp_refl v : version_cmp v v = Eq.
Proof. unfold version_cmp. by rewrite !Z.compare_refl. Qed.

Lemma version_cmp_eq a b : version_cmp a b = Eq → a = b.
Proof.
  destruct a as [a1 a2 a3], b as [b1 b2 b3]. unfold version_cmp. cbn.
  destruct (a1 ?= b1) eqn:H1, (a2 ?= b2) eqn:H2; try done. intros H3.
  by rewrite (Z.compare_eq _ _ H1), (Z.compare_eq _ _ H2), (Z.compare_eq _ _ H3).
Qed.

Section Honest.
Context `{HonestHost} (config : DeployConfig).

(** The configured paths on this host. *)
Definition at_home (path : string) : string := expand_home path (Some (trim home)).

Context (Hhome : trim home ≠ "").

Lemma expand_home_unneeded path h : String.prefix "~" path = false → expand_home path h = path.
Proof.
  unfold expand_home. destruct h; [|done]. destruct path as [|c path]; [done|]. cbn [String.prefix].
  destruct (ascii_dec "~" c); [by destruct path|done].
Qed.

Lemma home_for_honest calls : ∃ h asked, home_for config calls = (Ok h, calls ++ asked) ∧
  uploads asked = [] ∧
  (∀ path, path ∈ [dc_bin_path config; dc_socket_path config; dc_state_dir config] →
     expand_home path h = at_home path).
Proof using Type*.
  unfold home_for. destruct (needs_home config) eqn:Hn.
  - exists (Some (trim home)), [Run (shell HOME_COMMAND)]. split_and!; [|done|done].
    unfold host_home, bind_ok, exec. rewrite honest_home. cbn [success eo_exit_code Z.eqb negb orb eo_stdout].
    by rewrite bool_decide_eq_false_2.
  - exists None, []. rewrite app_nil_r. split_and!; [done..|]. intros path Hp.
    assert (String.prefix "~" path = false) as Hpre.
    { unfold needs_home in Hn. apply not_true_iff_false. intros Ht.
      apply not_true_iff_false in Hn. apply Hn, existsb_exists. exists path. by rewrite <- list_elem_of_In. }
    unfold at_home. by rewrite !expand_home_unneeded.
Qed.

Lemma install_honest bin_path calls : ∃ asked,
  install config bin_path calls = (Ok (), calls ++ asked ++ [Upload (dc_binary config) bin_path]) ∧
  uploads asked = [].
Proof using Type*.
  exists (made_directory bin_path). split; [|apply made_directory_uploads].
  unfold install, made_directory. destruct (path_parent bin_path) as [parent|]; [case_decide|];
    unfold bind_ok, mret, st_ret, upload, exec; [by rewrite honest_upload| |by rewrite honest_upload].
  rewrite honest_mkdir. cbn [success eo_exit_code Z.eqb]. rewrite honest_upload. by rewrite <- app_assoc.
Qed.

Lemma installed_at_uploads calls asked path : uploads asked = [] →
  installed_at initial (calls ++ asked) path = installed_at initial calls path.
Proof.
  rewrite installed_at_app. generalize (installed_at initial calls path).
  induction asked as [|[argv|bytes p] asked IH]; intros o; cbn; [done|apply IH|done].
Qed.

Lemma installed_at_uploaded calls bytes path : installed_at initial (calls ++ [Upload bytes path]) path = Some bytes.
Proof. rewrite installed_at_app. cbn. by rewrite decide_True. Qed.

(** The version an endpoint carries. *)
Definition known_version (outcome : DeployOutcome) (expected : Version) : option Version :=
  match outcome with
  | Installed | Replaced _ => Some expected
  | AlreadyCurrent v | KeptOlder v | KeptNewer v => Some v
  | KeptUnknown _ | NotAttempted => None
  end.

Lemma ensure_daemon_honest calls :
  let bin_path := at_home (dc_bin_path config) in
  let outcome := policy (version_of <$> installed_at initial calls bin_path)
                   (sockets (at_home (dc_socket_path config))) (dc_expected_version config) in
  ∃ asked,
    ensure_daemon config calls =
      (Ok (mkDaemonEndpoint bin_path (at_home (dc_socket_path config)) (at_home (dc_state_dir config))
             (known_version outcome (dc_expected_version config)) outcome), calls ++ asked) ∧
    uploads asked = (if wrote_binary outcome then [(dc_binary config, bin_path)] else []) ∧
    installed_at initial (calls ++ asked) bin_path =
      (if wrote_binary outcome then Some (dc_binary config) else installed_at initial calls bin_path).
Proof using Type*.
  intros bin_path outcome. destruct (home_for_honest calls) as (h & asked & Hh & Hu & Hpaths).
  unfold ensure_daemon, bind_ok at 1. rewrite Hh. rewrite !Hpaths by set_solver.
  fold bin_path. unfold bind_ok at 1, exec at 1.
  destruct (honest_probe (calls ++ asked) bin_path) as (missing & Hm & Hrun). rewrite Hrun.
  rewrite installed_at_uploads by done. unfold outcome, policy.
  set (seen := (calls ++ asked) ++ [Run (version_probe bin_path)]).
  assert (Hseen : seen = calls ++ asked ++ [Run (version_probe bin_path)]) by by unfold seen; rewrite app_assoc.
  assert (Hu1 : uploads (asked ++ [Run (version_probe bin_path)]) = []) by by rewrite uploads_run.
  assert (Hwrites : ∀ more, uploads more = [] → ∃ asked',
    install config bin_path (calls ++ more) = (Ok (), calls ++ asked') ∧
    uploads asked' = [(dc_binary config, bin_path)] ∧
    installed_at initial (calls ++ asked') bin_path = Some (dc_binary config)).
  { intros more Hmore. destruct (install_honest bin_path (calls ++ more)) as (made & Hi & Hmade).
    exists (more ++ made ++ [Upload (dc_binary config) bin_path]).
    rewrite Hi, !uploads_app, Hmore, Hmade, !app_assoc. split_and!; [done..|apply installed_at_uploaded]. }
  assert (Hkeeps : ∀ more, uploads more = [] → uploads more = [] ∧
    installed_at initial (calls ++ more) bin_path = installed_at initial calls bin_path).
  { intros more Hmore. split; [done|by apply installed_at_uploads]. }
  destruct (installed_at initial calls bin_path) as [bytes|] eqn:Hin; cbn [fmap option_fmap option_map].
  2: { rewrite Hm. cbn [negb]. destruct (Hwrites _ Hu1) as (asked' & Hi & Hup & Hat). exists asked'.
       unfold bind_ok. by rewrite Hseen, Hi. }
  destruct (success (version_of bytes)); cbn [negb].
  2: { destruct (Hwrites _ Hu1) as (asked' & Hi & Hup & Hat). exists asked'.
       unfold bind_ok. by rewrite Hseen, Hi. }
  destruct (version_parse _) as [v|].
  2: { exists (asked ++ [Run (version_probe bin_path)]). rewrite Hseen. by split; [|apply Hkeeps]. }
  destruct (version_cmp v _) eqn:Hc.
  1,3: exists (asked ++ [Run (version_probe bin_path)]); rewrite Hseen; by split; [|apply Hkeeps].
  unfold daemon_socket_exists, bind_ok, mret, st_ret, exec. rewrite honest_socket, Hseen.
  set (more := asked ++ [Run (version_probe bin_path)]) in *.
  assert (Hu2 : uploads (more ++ [Run (socket_test (at_home (dc_socket_path config)))]) = [])
    by by rewrite uploads_run.
  destruct (sockets _); cbn [success eo_exit_code Z.eqb].
  - eexists. rewrite <- app_assoc. by split; [|apply Hkeeps].
  - destruct (Hwrites _ Hu2) as (asked' & Hi & Hup & Hat). exists asked'. by rewrite <- app_assoc, Hi.
Qed.

(** C31. On a host that answers as documented a deployment follows the policy: absent or
    unrunnable is installed, older is replaced unless a socket is there, current, newer
    and unintelligible are kept; the endpoint names the expanded paths and the version
    now there, and the binary at the path is the configured one exactly when the outcome
    says it was written. Deploying again writes nothing, if the binary reports the
    version it is deployed as. *)
Theorem deployment_follows_the_policy calls :
  let bin_path := at_home (dc_bin_path config) in
  let socket_path := at_home (dc_socket_path config) in
  let state_dir := at_home (dc_state_dir config) in
  let expected := dc_expected_version config in
  let outcome := policy (version_of <$> installed_at initial calls bin_path) (sockets socket_path) expected in
  ∃ asked,
    ensure_daemon config calls =
      (Ok (mkDaemonEndpoint bin_path socket_path state_dir (known_version outcome expected) outcome),
       calls ++ asked) ∧
    installed_at initial (calls ++ asked) bin_path =
      (if wrote_binary outcome then Some (dc_binary config) else installed_at initial calls bin_path) ∧
    (success (version_of (dc_binary config)) = true →
     version_parse (eo_stdout (version_of (dc_binary config))) = Some expected →
     let outcome' := if wrote_binary outcome then AlreadyCurrent expected else outcome in
     ∃ again, ensure_daemon config (calls ++ asked) =
       (Ok (mkDaemonEndpoint bin_path socket_path state_dir (known_version outcome' expected) outcome'),
        (calls ++ asked) ++ again) ∧ uploads again = []).
Proof using Type*.
  intros bin_path socket_path state_dir expected outcome.
  destruct (ensure_daemon_honest calls) as (asked & Hrun & Hup & Hat). exists asked.
  split_and!; [exact Hrun|exact Hat|]. intros Hok Hreports outcome'.
  destruct (ensure_daemon_honest (calls ++ asked)) as (again & Hrun' & Hup' & _). exists again.
  fold bin_path socket_path expected outcome in Hat, Hrun', Hup'. rewrite Hat in Hrun', Hup'.
  assert (Heq : policy (version_of <$> (if wrote_binary outcome then Some (dc_binary config)
                   else installed_at initial calls bin_path)) (sockets socket_path) expected = outcome').
  { unfold outcome'. destruct (wrote_binary outcome) eqn:Hw; [|done].
    cbn [fmap option_fmap option_map policy]. rewrite Hok. cbn [negb]. by rewrite Hreports, version_cmp_refl. }
  rewrite Heq in Hrun', Hup'. split; [exact Hrun'|]. rewrite Hup'. unfold outcome'.
  by destruct (wrote_binary outcome) eqn:Hw; [|rewrite Hw].
Qed.
End Honest.

(** ** What a version's printing says *)

Definition version_ok (v : Version) : Prop :=
  0 ≤ v_major v ≤ u64_max ∧ 0 ≤ v_minor v ≤ u64_max ∧ 0 ≤ v_patch v ≤ u64_max.

Lemma digit_word c : is_ascii_digit c = true → word_char c = true.
Proof. destruct c as [[] [] [] [] [] [] [] []]; intros H; solve [reflexivity|discriminate H]. Qed.

Lemma version_text_word v : version_ok v → str_all word_char (version_text v) = true.
Proof.
  intros (H1 & H2 & H3). unfold version_text. rewrite !str_all_app. cbn [str_all].
  rewrite !(str_all_impl is_ascii_digit word_char) by (auto using digit_word; by apply pretty_Z_digits; lia).
  done.
Qed.

Lemma version_text_parts v : version_ok v →
  split_on "." (version_text v) = [pretty (v_major v); pretty (v_minor v); pretty (v_patch v)].
Proof.
  intros (H1 & H2 & H3). unfold version_text.
  assert (Hfree : ∀ z : Z, 0 ≤ z → str_free "." (pretty z)).
  { intros z Hz. eapply str_all_free; [|by apply pretty_Z_digits]. done. }
  rewrite !(str_app_cons "."), !str_app_nil_l. rewrite !split_on_app by (apply Hfree; lia).
  by rewrite split_on_free by (apply Hfree; lia).
Qed.

Lemma version_text_first v : version_ok v → ∃ c s, version_text v = String c s ∧ is_ascii_digit c = true.
Proof.
  intros (H1 & _). unfold version_text. pose proof (pretty_Z_nonempty (v_major v) ltac:(lia)) as Hne.
  pose proof (pretty_Z_digits (v_major v) ltac:(lia)) as Hd.
  destruct (pretty (v_major v)) as [|c s]; [done|]. cbn in Hd. apply andb_true_iff in Hd as [Hd _].
  rewrite str_app_cons. eauto.
Qed.

Lemma trim_versioned n s c rest : s = String c rest → is_ascii_digit c = true →
  trim_start_matches "v" (Nat.iter n (String "v") s) = s.
Proof.
  intros -> Hc. induction n as [|n IH]; cbn.
  - rewrite decide_False; [done|]. intros ->. discriminate Hc.
  - exact IH.
Qed.

(** A version survives its printing: the last word of a line, after any words before
    it, any number of [v]s and before any blanks, is parsed as the version printed
    there. *)
Theorem version_survives_its_printing v pre blank n post :
  version_ok v → str_all is_ascii pre = true → is_ascii blank && is_blank blank = true →
  str_all (λ c, is_ascii c && is_blank c) post = true →
  version_parse (pre +:+ String blank (Nat.iter n (String "v") (version_text v) +:+ post)) = Some v ∧
  version_parse (version_text v) = Some v.
Proof.
  intros Hv Hpre Hblank Hpost.
  destruct (version_text_first v Hv) as (c & rest & Hfirst & Hdigit).
  assert (Hparse : ∀ s, (∃ k, last (split_whitespace s) = Some (Nat.iter k (String "v") (version_text v))) →
    version_parse s = Some v).
  { intros s [k Hk]. unfold version_parse. rewrite Hk. cbn [mbind option_bind].
    rewrite (trim_versioned k _ c rest) by done. rewrite version_text_parts by done.
    destruct Hv as (H1 & H2 & H3). rewrite !parse_unsigned_pretty by done. by destruct v. }
  assert (Hword : ∀ k, Forall (λ c, word_char c = true) (to_bytes (Nat.iter k (String "v") (version_text v)))).
  { intros k. induction k as [|k IH]; [by apply str_all_bytes, version_text_word|]. by constructor. }
  assert (Hne : ∀ k, to_bytes (Nat.iter k (String "v") (version_text v)) ≠ []).
  { intros [|k]; [|done]. cbn. by rewrite Hfirst. }
  split; apply Hparse.
  - exists n. set (tok := Nat.iter n (String "v") (version_text v)) in *.
    unfold split_whitespace. change (map of_bytes) with (fmap (M:=list) of_bytes). rewrite fmap_last.
    rewrite to_bytes_app. change (to_bytes (String blank (tok +:+ post))) with (blank :: to_bytes (tok +:+ post)).
    rewrite to_bytes_app, words_from_last; [by cbn; rewrite of_to_bytes|..]; try done.
    + by apply str_all_bytes.
    + apply Hne.
    + apply Hword.
    + by apply str_all_bytes.
    + rewrite !length_app. cbn [length]. rewrite !length_app, !length_to_bytes, !length_str_app.
      cbn [String.length]. rewrite length_str_app. lia.
  - exists O. unfold split_whitespace. change (map of_bytes) with (fmap (M:=list) of_bytes). rewrite fmap_last.
    rewrite <- (app_nil_r (to_bytes _)), <- length_to_bytes.
    rewrite words_from_word; [|apply (Hword 0%nat)|done].
    rewrite Nat.sub_diag. cbn [words_from app]. pose proof (Hne 0%nat) as Hnil. cbn [Nat.iter] in *.
    destruct (to_bytes (version_text v)) eqn:Hb; [done|]. cbn [flush last fmap option_fmap option_map].
    by rewrite <- Hb, of_to_bytes.
Qed.

Lemma version_survives_its_printing_witness :
  version_ok (mkVersion 1 20 3) ∧
  version_parse ("ade-daemon" +:+ String " " ("v1.20.3" +:+ String LF "")) = Some (mkVersion 1 20 3).
Proof.
  split; [unfold version_ok, u64_max; cbn; lia|].
  refine (proj1 (version_survives_its_printing (mkVersion 1 20 3) "ade-daemon" " " 1 (String LF "") _ _ _ _));
    [unfold version_ok, u64_max; cbn; lia|reflexivity..].
Defined.

(** ** A host with a shell *)

Section Box.
Context (home : string) (initial : string → option (list Z)) (version_of : list Z → ExecOutput)
  (sockets : string → bool).

Definition not_found : ExecOutput := mkExecOutput 127 "" "not found".

Definition box_run (calls : list call) (argv : list string) : ExecOutput :=
  match argv with
  | ["sh"; "-c"; command] =>
      if decide (command = HOME_COMMAND) then mkExecOutput 0 home ""
      else match sh_words false None command with
           | Some [path; flag] =>
               if decide (flag = "--version") then default not_found (version_of <$> installed_at initial calls path)
               else not_found
           | Some [command; flag; path] =>
               if decide (command = "test" ∧ flag = "-S")
               then mkExecOutput (if sockets path then 0 else 1) "" "" else not_found
           | _ => not_found
           end
  | ["mkdir"; "-p"; _] => mkExecOutput 0 "" ""
  | _ => not_found
  end.

Definition box : HostExec :=
  {| host_run calls argv := Ok (box_run calls argv); host_upload _ _ _ := Ok () |}.

Lemma box_honest : @HonestHost box home initial version_of sockets.
Proof.
  split; try done.
  - intros calls path. exists not_found. split; [done|]. cbn [host_run box]. f_equal.
    unfold version_probe, shell. cbn [box_run]. rewrite decide_False.
    + assert (sh_words false None (shell_quote path +:+ " --version") = Some [path; "--version"]) as ->.
      { rewrite read_quoted. change (" --version") with (String " " "--version"). by rewrite shell_blank. }
      cbv iota beta. rewrite decide_True by done. by destruct (installed_at initial calls path).
    + unfold shell_quote, HOME_COMMAND. rewrite str_app_cons. discriminate.
  - intros calls path. cbn [host_run box]. f_equal. unfold socket_test, shell. cbn [box_run].
    rewrite decide_False by (unfold HOME_COMMAND; rewrite !str_app_cons; discriminate).
    assert (sh_words false None ("test -S " +:+ shell_quote path) = Some ["test"; "-S"; path]) as ->; [|cbv iota beta; by rewrite decide_True].
    change (app ["test"] <$> (app ["-S"] <$> sh_words false None (shell_quote path)) = Some ["test"; "-S"; path]).
    rewrite <- (str_app_nil_r (shell_quote path)), read_quoted. by rewrite shell_end.
Qed.
End Box.

Definition sample_version_of (bytes : list Z) : ExecOutput :=
  match bytes with
  | [n] => mkExecOutput 0 ("ade-daemon 0." +:+ pretty n +:+ ".0") ""
  | _ => mkExecOutput 126 "" "cannot execute"
  end.

(** An older daemon whose socket is gone is replaced, and then is current. *)
Lemma deployment_follows_the_policy_witness :
  let initial p := if decide (p = "/home/me/.ade/bin/ade-daemon") then Some [2] else None in
  let config := deploy_config_new [3] (mkVersion 0 3 0) in
  let host := box "/home/me/" initial sample_version_of (λ _, false) in
  ∃ asked again,
    (@ensure_daemon host config []).2 = asked ∧
    installed_at initial asked "/home/me/.ade/bin/ade-daemon" = Some [3] ∧
    @ensure_daemon host config asked =
      (Ok (mkDaemonEndpoint "/home/me/.ade/bin/ade-daemon" "/home/me/.ade/daemon.sock" "/home/me/.ade/daemon"
             (Some (mkVersion 0 3 0)) (AlreadyCurrent (mkVersion 0 3 0))), asked ++ again) ∧
    uploads again = [].
Proof.
  intros initial config host.
  pose proof (@deployment_follows_the_policy host _ _ _ _
    (box_honest "/home/me/" initial sample_version_of (λ _, false)) config) as H.
  destruct (H ltac:(discriminate) []) as (asked & Hrun & Hat & Hagain).
  destruct (Hagain ltac:(reflexivity) ltac:(reflexivity)) as (again & Hrun' & Hup).
  exists asked, again. split; [by rewrite Hrun|]. split; [exact Hat|]. split; [exact Hrun'|exact Hup].
Defined.

(** ** Deploying to a host that was asked things before *)

(** The host as it is after [before]. *)
Definition host_after (host : HostExec) (before : list call) : HostExec :=
  {| host_run calls argv := @host_run host (before ++ calls) argv;
     host_upload calls bytes path := @host_upload host (before ++ calls) bytes path |}.

(** A computation that asks and looks at nothing but answers. *)
Definition shifts {A} (m : HostExec → st (list call) A) : Prop :=
  ∀ host before calls, m host (before ++ calls) =
    let '(a, calls') := m (host_after host before) calls in (a, before ++ calls').

Lemma shifts_ret {A} (a : A) : shifts (λ _, mret a).
Proof. done. Qed.

Lemma shifts_exec argv : shifts (λ host, @exec host argv).
Proof. intros host before calls. unfold exec, upload. by rewrite <- app_assoc. Qed.

Lemma shifts_upload bytes path : shifts (λ host, @upload host bytes path).
Proof. intros host before calls. unfold exec, upload. by rewrite <- app_assoc. Qed.

Lemma shifts_bind_ok {A B} (m : HostExec → st (list call) (result string A))
    (k : HostExec → A → st (list call) (result string B)) :
  shifts m → (∀ a, shifts (λ host, k host a)) → shifts (λ host, bind_ok (m host) (k host)).
Proof.
  intros Hm Hk host before calls. unfold bind_ok. rewrite Hm.
  destruct (m _ calls) as [[a|e] calls']; [apply Hk|done].
Qed.

Create HintDb shifting discriminated.
#[export] Hint Resolve shifts_ret shifts_exec shifts_upload : shifting.

Ltac shifting :=
  repeat first
    [ done
    | solve [auto with shifting]
    | apply shifts_bind_ok; [|intros]
    | match goal with |- shifts (λ host, match ?x with _ => _ end) => destruct x end
    | match goal with |- shifts (λ host, if ?x then _ else _) => destruct x end ].

Lemma shifts_install config bin_path : shifts (λ host, @install host config bin_path).
Proof. unfold install. shifting. Qed.

Lemma shifts_home_for config : shifts (λ host, @home_for host config).
Proof. unfold home_for, host_home. shifting. Qed.

Lemma shifts_socket path : shifts (λ host, @daemon_socket_exists host path).
Proof. unfold daemon_socket_exists. shifting. Qed.
#[export] Hint Resolve shifts_install shifts_home_for shifts_socket : shifting.

Lemma shifts_ensure_daemon config : shifts (λ host, @ensure_daemon host config).
Proof. unfold ensure_daemon. shifting. Qed.

Lemma shifts_replace_daemon config : shifts (λ host, @replace_daemon host config).
Proof. unfold replace_daemon. shifting. Qed.
#[export] Hint Resolve shifts_ensure_daemon shifts_replace_daemon : shifting.

(** What it does to a host asked nothing says what it does to any. *)
Lemma wp_shift {A} (m : HostExec → st (list call) A) host (Q : A → list call → Prop) before :
  shifts m → wp (m (host_after host before)) Q [] →
  wp (m host) (λ a calls, ∃ more, calls = before ++ more ∧ Q a more) before.
Proof.
  intros Hm HQ. unfold wp in *. pose proof (Hm host before []) as Heq. rewrite app_nil_r in Heq.
  rewrite Heq. destruct (m (host_after host before) []) as [a more]. by exists more.
Qed.

Lemma answered_after host before calls argv o :
  @answered (host_after host before) calls argv o → @answered host (before ++ calls) argv o.
Proof.
  intros (asked & Hp & Ha). exists (before ++ asked). split; [|exact Ha].
  rewrite <- app_assoc. by apply prefix_app.
Qed.
