(* ===== verification/Platform.v ===== *)
(** * What a host is, and which binary runs there

    [crates/ade_session/src/source.rs]: the platform a host reports, its target triple, and
    the reading of ELF and Mach-O headers that fences a binary to the host it is for.
    Reading files, the environment and the build are arguments of [daemon_binary]. *)

From S2P Require Import Prelude Text Words Deploy.
From Stdlib Require Import Ascii.
From stdpp Require Import options.
Open Scope Z_scope.

Inductive HostOs : Type := Linux | MacOs.

#[export] Instance HostOs_eq_dec : EqDecision HostOs.
Proof. solve_decision. Defined.

(** [HostOs::as_str]. *)
Definition os_str (os : HostOs) : string := match os with Linux => "linux" | MacOs => "macos" end.

Record HostPlatform : Type := mkHostPlatform { hp_os : HostOs; hp_arch : string }.

#[export] Instance HostPlatform_eq_dec : EqDecision HostPlatform.
Proof. solve_decision. Defined.

Section Unames.
(** The text of [{:?}] on a string. *)
Context (debug : string → string).

(** [HostPlatform::parse]. *)
Definition parse_uname (uname : string) : result string HostPlatform :=
  match split_whitespace uname with
  | kernel :: machine :: _ =>
      let os := if decide (kernel = "Linux") then Ok Linux
                else if decide (kernel = "Darwin") then Ok MacOs
                else Err ("ade-daemon deployment targets unix hosts; this host reports " +:+ debug kernel +:+
                          ", so build and install ade-daemon there by hand") in
      match os with
      | Err e => Err e
      | Ok os =>
          if decide (machine ∈ ["x86_64"; "amd64"]) then Ok (mkHostPlatform os "x86_64")
          else if decide (machine ∈ ["aarch64"; "arm64"]) then Ok (mkHostPlatform os "aarch64")
          else Err ("there is no ade-daemon target for the host architecture " +:+ debug machine)
      end
  | _ => Err ("could not read `uname -sm` output " +:+ debug uname)
  end.

(** [HostPlatform::probe]. *)
Definition probe_platform `{HostExec} : st (list call) (result string HostPlatform) :=
  output ←? exec ["uname"; "-sm"];
  mret (if negb (success output)
        then Err ("could not read the host's platform: `uname -sm` exited " +:+ pretty (eo_exit_code output) +:+
                  ": " +:+ trim (eo_stderr output) +:+ ". ade-daemon deployment targets unix hosts")
        else parse_uname (eo_stdout output)).
End Unames.

Definition target_triple (p : HostPlatform) : string :=
  match hp_os p with
  | Linux => hp_arch p +:+ "-unknown-linux-musl"
  | MacOs => hp_arch p +:+ "-apple-darwin"
  end.

(** [ARCH] and [OS] are [std::env::consts]. *)
Definition is_this_machine (ARCH OS : string) (p : HostPlatform) : bool :=
  bool_decide (hp_arch p = ARCH) && bool_decide (os_str (hp_os p) = OS).

Definition current_platform (ARCH OS : string) : option HostPlatform :=
  os ← (if decide (OS = "linux") then Some Linux else if decide (OS = "macos") then Some MacOs else None);
  arch ← (if decide (ARCH = "x86_64") then Some "x86_64"
          else if decide (ARCH = "aarch64") then Some "aarch64" else None);
  Some (mkHostPlatform os arch).

Definition from_target_triple (triple : string) : option HostPlatform :=
  if decide (triple = "x86_64-unknown-linux-musl") then Some (mkHostPlatform Linux "x86_64")
  else if decide (triple = "aarch64-unknown-linux-musl") then Some (mkHostPlatform Linux "aarch64")
  else if decide (triple = "x86_64-apple-darwin") then Some (mkHostPlatform MacOs "x86_64")
  else if decide (triple = "aarch64-apple-darwin") then Some (mkHostPlatform MacOs "aarch64")
  else None.

(** ** Reading a binary *)

(** [bytes.get(from..to)]. *)
Definition slice (from to : Z) (bytes : list Z) : option (list Z) :=
  if (0 <=? from) && (from <=? to) && (to <=? Z.of_nat (length bytes))
  then Some (take (Z.to_nat (to - from)) (drop (Z.to_nat from) bytes)) else None.

(** [u16::from_le_bytes] and its wider and big-endian kin. *)
Fixpoint from_le_bytes (bytes : list Z) : Z :=
  match bytes with [] => 0 | b :: bytes => b + 256 * from_le_bytes bytes end.

Definition from_be (bytes : list Z) : Z := from_le_bytes (rev bytes).

(** The bytes of a header at a position, of a list known to be long enough. *)
Definition at_ (from to : Z) (bytes : list Z) : list Z := default [] (slice from to bytes).

Definition byte_at (i : Z) (bytes : list Z) : Z := default 0 (bytes !! Z.to_nat i).

Definition checked_add (a b : Z) : option Z := if a + b <=? u64_max then Some (a + b) else None.
Definition checked_mul (a b : Z) : option Z := if a * b <=? u64_max then Some (a * b) else None.

(** [chunks_exact(n)]; a chunk is not empty, so the length is fuel enough. *)
Fixpoint chunks_from (fuel n : nat) (bytes : list Z) : list (list Z) :=
  match fuel with
  | O => []
  | S fuel => if (n <=? length bytes)%nat then take n bytes :: chunks_from fuel n (drop n bytes) else []
  end.

Definition chunks_exact (n : Z) (bytes : list Z) : list (list Z) :=
  chunks_from (length bytes) (Z.to_nat n) bytes.

Definition ELF64_HEADER_SIZE : Z := 64.
Definition ELF64_PROGRAM_HEADER_SIZE : Z := 56.
Definition PT_LOAD : Z := 1.
Definition PT_INTERP : Z := 3.

(** The loop over the program headers: [None] at an interpreter. *)
Fixpoint has_load (found : bool) (entries : list (list Z)) : option bool :=
  match entries with
  | [] => Some found
  | entry :: entries =>
      let type := from_le_bytes (at_ 0 4 entry) in
      if type =? PT_LOAD then has_load true entries
      else if type =? PT_INTERP then None
      else has_load found entries
  end.

Definition elf_machine (machine : Z) : option string :=
  if machine =? 62 then Some "x86_64" else if machine =? 183 then Some "aarch64" else None.

Definition static_elf_platform (bytes : list Z) : option HostPlatform :=
  header ← slice 0 ELF64_HEADER_SIZE bytes;
  if negb (byte_at 4 header =? 2) || negb (byte_at 5 header =? 1)
     || negb ((byte_at 7 header =? 0) || (byte_at 7 header =? 3))
     || negb ((from_le_bytes (at_ 16 18 header) =? 2) || (from_le_bytes (at_ 16 18 header) =? 3))
  then None
  else
    let header_size := from_le_bytes (at_ 52 54 header) in
    let table_offset := from_le_bytes (at_ 32 40 header) in
    let entry_size := from_le_bytes (at_ 54 56 header) in
    let entry_count := from_le_bytes (at_ 56 58 header) in
    if (header_size <? ELF64_HEADER_SIZE) || (table_offset <? header_size)
       || (entry_size <? ELF64_PROGRAM_HEADER_SIZE) || (entry_count =? 0)
    then None
    else
      table_len ← checked_mul entry_count entry_size;
      table_end ← checked_add table_offset table_len;
      table ← slice table_offset table_end bytes;
      load ← has_load false (chunks_exact entry_size table);
      if negb load then None
      else arch ← elf_machine (from_le_bytes (at_ 18 20 header)); Some (mkHostPlatform Linux arch).

Definition ELF_MAGIC : list Z := [127; 69; 76; 70].

Definition binary_platform (bytes : list Z) : option HostPlatform :=
  if bool_decide (take 4 bytes = ELF_MAGIC) then static_elf_platform bytes
  else
    header ← slice 0 20 bytes;
    if negb (bool_decide (at_ 0 4 header = [207; 250; 237; 254])) then None
    else
      let cpu_type := from_le_bytes (at_ 4 8 header) in
      arch ← (if cpu_type =? 16777223 then Some "x86_64"
              else if cpu_type =? 16777228 then Some "aarch64" else None);
      Some (mkHostPlatform MacOs arch).

(** One entry of a fat binary's table: is its slice a binary for [p]? *)
Definition fat_entry_matches (bytes : list Z) (p : HostPlatform) (wide : bool) (entry : list Z) : bool :=
  let '(offset, size) := if wide then (from_be (at_ 8 16 entry), from_be (at_ 16 24 entry))
                         else (from_be (at_ 8 12 entry), from_be (at_ 12 16 entry)) in
  match checked_add offset size with
  | None => false
  | Some last => bool_decide (slice offset last bytes ≫= binary_platform = Some p)
  end.

Definition fat_mach_o_matches_platform (bytes : list Z) (p : HostPlatform) : bool :=
  if negb (bool_decide (hp_os p = MacOs)) then false
  else match slice 0 8 bytes with
       | None => false
       | Some header =>
           let shape := if bool_decide (at_ 0 4 header = [202; 254; 186; 190]) then Some (20, false)
                        else if bool_decide (at_ 0 4 header = [202; 254; 186; 191]) then Some (32, true)
                        else None in
           match shape with
           | None => false
           | Some (entry_size, wide) =>
               let count := from_be (at_ 4 8 header) in
               match (table_len ← checked_mul count entry_size;
                      table_end ← checked_add 8 table_len;
                      slice 8 table_end bytes) with
               | None => false
               | Some table => existsb (fat_entry_matches bytes p wide) (chunks_exact entry_size table)
               end
           end
       end.

Definition daemon_binary_matches_platform (bytes : list Z) (p : HostPlatform) : bool :=
  bool_decide (binary_platform bytes = Some p) || fat_mach_o_matches_platform bytes p.

(** The override first, then the build: [override] is a non-empty [ADE_COPY_DAEMON],
    [read] the file system, [build] what [build_daemon] answers. *)
Definition daemon_binary (override : option string) (read : string → result string (list Z))
    (build : HostPlatform → result string string) (p : HostPlatform) : result string (list Z) :=
  let built :=
    match build p with
    | Err e => Err e
    | Ok path =>
        match read path with
        | Err e => Err e
        | Ok bytes =>
            if daemon_binary_matches_platform bytes p then Ok bytes
            else Err ("cargo produced an ade-daemon at " +:+ path +:+ " that is not for " +:+ target_triple p)
        end
    end in
  match override with
  | None => built
  | Some path =>
      match read path with
      | Err e => Err e
      | Ok bytes => if daemon_binary_matches_platform bytes p then Ok bytes else built
      end
  end.

(** ** The names of a platform *)

Definition supported (p : HostPlatform) : Prop := hp_arch p ∈ ["x86_64"; "aarch64"].

(** C0. The target triple names a platform and back: a supported platform's triple is
    read back as it, only the triples of supported platforms are read at all, and what a
    host's [uname] or this process says is always a supported platform, this process's
    being this machine's. *)
Theorem platform_names_round_trip :
  (∀ p, supported p → from_target_triple (target_triple p) = Some p) ∧
  (∀ triple p, from_target_triple triple = Some p → supported p ∧ target_triple p = triple) ∧
  (∀ debug uname p, parse_uname debug uname = Ok p → supported p) ∧
  (∀ ARCH OS p, current_platform ARCH OS = Some p → supported p ∧ is_this_machine ARCH OS p = true).
Proof.
  unfold supported. split_and!.
  - intros [[] arch] Hp; cbn [hp_arch] in Hp; apply elem_of_cons in Hp as [Hp|Hp%list_elem_of_singleton]; by subst.
  - intros triple p. unfold from_target_triple.
    repeat case_decide; intros [= <-]; subst; (split; [apply (bool_decide_unpack _); reflexivity|reflexivity]).
  - intros debug uname p. unfold parse_uname. destruct (split_whitespace uname) as [|kernel [|machine rest]]; [done..|].
    repeat case_decide; intros [= <-]; apply (bool_decide_unpack _); reflexivity.
  - intros ARCH OS p. unfold current_platform.
    repeat case_decide; intros [= <-]; subst; (split; [apply (bool_decide_unpack _); reflexivity|reflexivity]).
Qed.

(** ** What a Linux host accepts *)

(** A little-endian number of the file. *)
Definition field (from to : Z) (bytes : list Z) : Z :=
  from_le_bytes (take (Z.to_nat (to - from)) (drop (Z.to_nat from) bytes)).

(** Where the [i]-th program header starts. *)
Definition header_at (bytes : list Z) (i : nat) : Z :=
  field 32 40 bytes + Z.of_nat i * field 54 56 bytes.

(** A 64-bit little-endian ELF executable or shared object for this machine, whose
    program headers are all inside the file, ask for no interpreter and load
    something. *)
Record static_elf (bytes : list Z) (arch : string) : Prop := {
  se_long : (64 ≤ length bytes)%nat;
  se_magic : take 4 bytes = ELF_MAGIC;
  se_class : byte_at 4 bytes = 2;
  se_endian : byte_at 5 bytes = 1;
  se_abi : byte_at 7 bytes = 0 ∨ byte_at 7 bytes = 3;
  se_type : field 16 18 bytes = 2 ∨ field 16 18 bytes = 3;
  se_machine : elf_machine (field 18 20 bytes) = Some arch;
  se_sizes : 64 ≤ field 52 54 bytes ≤ field 32 40 bytes ∧ 56 ≤ field 54 56 bytes ∧ 1 ≤ field 56 58 bytes;
  se_inside : header_at bytes (Z.to_nat (field 56 58 bytes)) ≤ Z.of_nat (length bytes);
  se_static i : Z.of_nat i < field 56 58 bytes → field (header_at bytes i) (header_at bytes i + 4) bytes ≠ PT_INTERP;
  se_loads : ∃ i, Z.of_nat i < field 56 58 bytes ∧ field (header_at bytes i) (header_at bytes i + 4) bytes = PT_LOAD
}.

Lemma slice_Some from to bytes part : slice from to bytes = Some part ↔
  (0 ≤ from ≤ to ∧ to ≤ Z.of_nat (length bytes)) ∧ part = take (Z.to_nat (to - from)) (drop (Z.to_nat from) bytes).
Proof.
  unfold slice. destruct (Z.leb_spec 0 from), (Z.leb_spec from to), (Z.leb_spec to (Z.of_nat (length bytes)));
    cbn [andb]; split; try (intros [= <-]); try (intros [? ->]); try done; lia || (split; [lia|done]).
Qed.

Lemma at_field from to n bytes : 0 ≤ from ≤ to → to ≤ Z.of_nat n → (n ≤ length bytes)%nat →
  from_le_bytes (at_ from to (take n bytes)) = field from to bytes.
Proof.
  intros Hf Ht Hn. unfold at_, field.
  assert (slice from to (take n bytes) =
    Some (take (Z.to_nat (to - from)) (drop (Z.to_nat from) (take n bytes)))) as ->.
  { apply slice_Some. split; [rewrite length_take; lia|done]. }
  cbn [default from_option id]. f_equal. rewrite skipn_firstn_comm, firstn_firstn. f_equal. lia.
Qed.

Lemma byte_at_take i n bytes : (Z.to_nat i < n)%nat → byte_at i (take n bytes) = byte_at i bytes.
Proof. intros Hi. unfold byte_at. by rewrite lookup_take_lt. Qed.

Lemma chunks_from_map n count : ∀ fuel table, (0 < n)%nat → length table = (count * n)%nat →
  (length table ≤ fuel)%nat →
  chunks_from fuel n table = map (λ i, take n (drop (i * n) table)) (seq 0 count).
Proof.
  induction count as [|count IH]; intros fuel table Hn Hl Hf.
  - destruct table; [|done]. destruct fuel; [done|]. cbn [chunks_from length]. by rewrite (proj2 (Nat.leb_gt _ _)).
  - destruct fuel as [|fuel]; [lia|]. cbn [chunks_from seq map]. rewrite (proj2 (Nat.leb_le _ _)) by lia.
    f_equal. rewrite IH; [|done|rewrite length_drop; lia|rewrite length_drop; lia].
    rewrite <- seq_shift, map_map. apply map_ext. intros i. rewrite drop_drop. do 2 f_equal.
Qed.

Lemma has_load_spec entries : ∀ found,
  let types := map (λ entry, from_le_bytes (at_ 0 4 entry)) entries in
  has_load found entries = (if decide (PT_INTERP ∈ types) then None
                            else Some (found || bool_decide (PT_LOAD ∈ types))).
Proof.
  induction entries as [|entry entries IH]; intros found; cbn [map has_load].
  - by rewrite decide_False, bool_decide_eq_false_2, orb_false_r by apply not_elem_of_nil.
  - cbn in IH. set (types := map _ entries) in *. set (type := from_le_bytes (at_ 0 4 entry)).
    destruct (Z.eqb_spec type PT_LOAD) as [Hl|Hl]; [|destruct (Z.eqb_spec type PT_INTERP) as [Hi|Hi]].
    + rewrite IH, Hl, (bool_decide_eq_true_2 (PT_LOAD ∈ PT_LOAD :: types)), orb_true_r by left.
      cbn [orb]. apply decide_ext. rewrite elem_of_cons. split; [by right|by intros [?|?]].
    + by rewrite Hi, decide_True by left.
    + rewrite IH.
      rewrite (bool_decide_ext (PT_LOAD ∈ type :: types) (PT_LOAD ∈ types)).
      * apply decide_ext. rewrite elem_of_cons. split; [by right|by intros [?|?]; subst].
      * rewrite elem_of_cons. split; [by intros [?|?]; subst|by right].
Qed.

Definition bytes_ok (bytes : list Z) : Prop := Forall (λ b, 0 ≤ b < 256) bytes.

Lemma from_le_bytes_range bytes : bytes_ok bytes → 0 ≤ from_le_bytes bytes < 256 ^ Z.of_nat (length bytes).
Proof.
  induction 1 as [|b bytes Hb _ IH]; cbn [from_le_bytes length]; [lia|].
  rewrite Nat2Z.inj_succ, Z.pow_succ_r by lia. lia.
Qed.

Lemma field_range from to bytes : bytes_ok bytes → 0 ≤ from ≤ to →
  0 ≤ field from to bytes < 256 ^ (to - from).
Proof.
  intros Hb Hft. unfold field.
  set (part := take (Z.to_nat (to - from)) (drop (Z.to_nat from) bytes)).
  assert (Hp : bytes_ok part) by by apply Forall_take, Forall_drop.
  pose proof (from_le_bytes_range part Hp) as [H0 H1]. split; [done|].
  eapply Z.lt_le_trans; [exact H1|]. apply Z.pow_le_mono_r; [lia|].
  unfold part. rewrite length_take. lia.
Qed.

(** The table's entries are the program headers. *)
Lemma table_types off size count bytes table : 0 ≤ off → 4 ≤ size → 0 ≤ count →
  slice off (off + count * size) bytes = Some table →
  map (λ entry, from_le_bytes (at_ 0 4 entry)) (chunks_exact size table) =
  map (λ i, field (off + Z.of_nat i * size) (off + Z.of_nat i * size + 4) bytes) (seq 0 (Z.to_nat count)).
Proof.
  intros Ho Hs Hc [[Hr Hl] ->]%slice_Some. unfold chunks_exact.
  set (table := take _ _). assert (Hlen : length table = (Z.to_nat count * Z.to_nat size)%nat).
  { unfold table. rewrite length_take, length_drop, <- Z2Nat.inj_mul by lia. lia. }
  rewrite (chunks_from_map (Z.to_nat size) (Z.to_nat count)) by lia.
  rewrite map_map. apply map_ext_in. intros i [_ Hi]%in_seq.
  assert (Hi' : (i * Z.to_nat size + Z.to_nat size <= Z.to_nat count * Z.to_nat size)%nat) by nia.
  unfold table. rewrite skipn_firstn_comm, firstn_firstn, drop_drop.
  replace (Nat.min (Z.to_nat size) (Z.to_nat (off + count * size - off) - i * Z.to_nat size))%nat with (Z.to_nat size) by lia.
  rewrite at_field; [|lia|lia|rewrite length_drop; nia].
  unfold field. rewrite drop_drop. do 2 f_equal; [lia|]. f_equal. nia.
Qed.

Lemma has_load_true (types : nat → Z) count entries :
  map (λ entry, from_le_bytes (at_ 0 4 entry)) entries = map types (seq 0 count) →
  has_load false entries = Some true ↔
  (∀ i, (i < count)%nat → types i ≠ PT_INTERP) ∧ (∃ i, (i < count)%nat ∧ types i = PT_LOAD).
Proof.
  intros Htypes. rewrite has_load_spec. cbv zeta. rewrite Htypes.
  assert (Hin : ∀ t, t ∈ map types (seq 0 count) ↔ ∃ i, (i < count)%nat ∧ types i = t).
  { intros t. rewrite list_elem_of_In, in_map_iff. split; intros (i & H1 & H2); exists i.
    - apply in_seq in H2. split; [lia|done].
    - split; [done|]. apply in_seq. lia. }
  case_decide as Hi; cbn [orb].
  - split; [done|]. intros [Hno _]. apply Hin in Hi as (i & Hlt & Hti). by destruct (Hno i Hlt).
  - split.
    + intros [= Hl%bool_decide_eq_true]. split; [|by apply Hin]. intros i Hlt Hti. apply Hi, Hin. eauto.
    + intros [_ Hl]. f_equal. by apply bool_decide_eq_true, Hin.
Qed.

(** From the table on. *)
Lemma elf_table off size count machine bytes p :
  0 ≤ off → 4 ≤ size ≤ 65535 → 0 ≤ count ≤ 65535 → Z.of_nat (length bytes) ≤ u64_max →
  (table_len ← checked_mul count size;
   table_end ← checked_add off table_len;
   table ← slice off table_end bytes;
   load ← has_load false (chunks_exact size table);
   if negb load then None else arch ← elf_machine machine; Some (mkHostPlatform Linux arch)) = Some p ↔
  hp_os p = Linux ∧ elf_machine machine = Some (hp_arch p) ∧ off + count * size ≤ Z.of_nat (length bytes) ∧
  (∀ i, Z.of_nat i < count →
     field (off + Z.of_nat i * size) (off + Z.of_nat i * size + 4) bytes ≠ PT_INTERP) ∧
  (∃ i, Z.of_nat i < count ∧
     field (off + Z.of_nat i * size) (off + Z.of_nat i * size + 4) bytes = PT_LOAD).
Proof.
  intros Ho Hs Hc Hmax. assert (Hmul : 0 ≤ count * size ≤ 65535 * 65535) by nia.
  unfold checked_mul, checked_add. rewrite (proj2 (Z.leb_le (count * size) _)) by (unfold u64_max; lia).
  cbn [mbind option_bind].
  destruct (Z.leb_spec (off + count * size) u64_max) as [Hle|Hgt]; [|split; [done|intros (_ & _ & ? & _); lia]].
  cbn [mbind option_bind]. destruct (slice off (off + count * size) bytes) as [table|] eqn:Ht.
  2: { split; [done|]. intros (_ & _ & Hin & _). unfold slice in Ht.
       by rewrite (proj2 (Z.leb_le 0 off)), (proj2 (Z.leb_le off _)), (proj2 (Z.leb_le _ _) Hin) in Ht by lia. }
  pose proof (table_types off size count bytes table Ho ltac:(lia) ltac:(lia) Ht) as Htypes.
  pose proof (has_load_true _ _ _ Htypes) as Hload. apply slice_Some in Ht as [[_ Hin] _].
  assert (Hspec : has_load false (chunks_exact size table) = Some true ↔
    (∀ i, Z.of_nat i < count →
       field (off + Z.of_nat i * size) (off + Z.of_nat i * size + 4) bytes ≠ PT_INTERP) ∧
    (∃ i, Z.of_nat i < count ∧
       field (off + Z.of_nat i * size) (off + Z.of_nat i * size + 4) bytes = PT_LOAD)).
  { rewrite Hload. split; intros [Hno (i & Hi & Hl)]; (split; [intros k Hk; apply Hno; lia|exists i; split; [lia|done]]). }
  cbn [mbind option_bind]. destruct (has_load false (chunks_exact size table)) as [[]|] eqn:Hl; cbn [mbind option_bind negb].
  - destruct (elf_machine machine) as [arch|]; cbn [mbind option_bind]; [|split; [done|naive_solver]].
    split; [intros [= <-]; naive_solver|]. intros (Hos & [= ->] & _). destruct p; simpl in *. by subst.
  - split; [done|]. intros (_ & _ & _ & H). by apply Hspec in H.
  - split; [done|]. intros (_ & _ & _ & H). by apply Hspec in H.
Qed.

Lemma static_elf_iff bytes p : bytes_ok bytes → Z.of_nat (length bytes) ≤ u64_max →
  take 4 bytes = ELF_MAGIC →
  static_elf_platform bytes = Some p ↔ hp_os p = Linux ∧ static_elf bytes (hp_arch p).
Proof.
  intros Hbytes Hmax Hmagic. unfold static_elf_platform.
  destruct (slice 0 ELF64_HEADER_SIZE bytes) as [header|] eqn:Hh.
  2: { split; [done|]. intros [_ [Hlong _ _ _ _ _ _ _ _ _ _]]. exfalso.
       unfold slice, ELF64_HEADER_SIZE in Hh. rewrite (proj2 (Z.leb_le 64 _)) in Hh by lia. done. }
  apply slice_Some in Hh as [[_ Hlong] ->]. unfold ELF64_HEADER_SIZE in Hlong.
  change (Z.to_nat (ELF64_HEADER_SIZE - 0)) with 64%nat. change (drop (Z.to_nat 0) bytes) with bytes.
  cbn [mbind option_bind]. rewrite !at_field, !byte_at_take by lia.
  pose proof (field_range 32 40 bytes Hbytes ltac:(lia)) as Hoff.
  pose proof (field_range 54 56 bytes Hbytes ltac:(lia)) as Hsize.
  pose proof (field_range 56 58 bytes Hbytes ltac:(lia)) as Hcount.
  change (256 ^ (56 - 54)) with 65536 in Hsize. change (256 ^ (58 - 56)) with 65536 in Hcount.
  split.
  - repeat case_match; try done. rewrite !orb_false_iff, !negb_false_iff in *.
    rewrite !orb_true_iff, !Z.eqb_eq, !Z.ltb_ge, !Z.eqb_neq in *. unfold ELF64_HEADER_SIZE, ELF64_PROGRAM_HEADER_SIZE in *.
    intros Htail. apply elf_table in Htail as (Hos & Hm & Hin & Hno & Hl); [|lia..].
    split; [done|]. destruct_and!. split; try done; try lia. unfold header_at. lia.
  - intros [Hos [_ _ Hcl Hen Habi Hty Hm (Hs1 & Hs2 & Hs3) Hin Hno Hl]]. unfold header_at in *.
    rewrite (proj2 (Z.eqb_eq (byte_at 4 bytes) 2) Hcl), (proj2 (Z.eqb_eq (byte_at 5 bytes) 1) Hen). cbn [negb orb].
    assert ((byte_at 7 bytes =? 0) || (byte_at 7 bytes =? 3) = true) as ->
      by (rewrite orb_true_iff, !Z.eqb_eq; done).
    assert ((field 16 18 bytes =? 2) || (field 16 18 bytes =? 3) = true) as ->
      by (rewrite orb_true_iff, !Z.eqb_eq; done).
    cbn [negb orb]. unfold ELF64_HEADER_SIZE, ELF64_PROGRAM_HEADER_SIZE.
    rewrite !(proj2 (Z.ltb_ge _ _)), (proj2 (Z.eqb_neq (field 56 58 bytes) 0)) by lia. cbn [orb].
    apply elf_table; [lia..|]. split_and!; try done. rewrite Z2Nat.id in Hin by lia. lia.
Qed.

Lemma linux_binary_iff bytes p : bytes_ok bytes → Z.of_nat (length bytes) ≤ u64_max → hp_os p = Linux →
  daemon_binary_matches_platform bytes p = true ↔ static_elf bytes (hp_arch p).
Proof.
  intros Hb Hm Hos. unfold daemon_binary_matches_platform, fat_mach_o_matches_platform, binary_platform.
  rewrite (bool_decide_eq_false_2 (hp_os p = MacOs)) by (rewrite Hos; done). cbn [negb].
  rewrite orb_false_r, bool_decide_eq_true. case_bool_decide as Hmagic.
  - rewrite static_elf_iff by done. naive_solver.
  - split; [|intros [_ ? _ _ _ _ _ _ _ _ _]; done].
    destruct (slice 0 20 bytes); cbn [mbind option_bind]; [|done]. case_bool_decide; [|done]. cbn [negb].
    repeat case_match; cbn [mbind option_bind]; intros [= <-]; done.
Qed.

(** What is shipped to a host runs there: the bytes [daemon_binary] answers are for the
    host's platform, the override's when those are and the build's otherwise; for a
    Linux host that means exactly a 64-bit static ELF for its machine, whose program
    headers lie inside the file, name no interpreter and load something. *)
Theorem shipped_binary_is_for_its_host override read build p bytes :
  (∀ path b, read path = Ok b → bytes_ok b ∧ Z.of_nat (length b) ≤ u64_max) →
  daemon_binary override read build p = Ok bytes →
  daemon_binary_matches_platform bytes p = true ∧
  (hp_os p = Linux → static_elf bytes (hp_arch p)) ∧
  ((∃ path, override = Some path ∧ read path = Ok bytes) ∨
   (∃ path, build p = Ok path ∧ read path = Ok bytes ∧
      (∀ path' b, override = Some path' → read path' = Ok b → hp_os p = Linux → ¬ static_elf b (hp_arch p)))).
Proof.
  intros Hread Hbin.
  assert (Hcases : daemon_binary_matches_platform bytes p = true ∧
    ((∃ path, override = Some path ∧ read path = Ok bytes) ∨
     (∃ path, build p = Ok path ∧ read path = Ok bytes ∧
        (∀ path' b, override = Some path' → read path' = Ok b → daemon_binary_matches_platform b p = false)))).
  { unfold daemon_binary in Hbin. cbv zeta in Hbin.
    destruct override as [path'|]; [destruct (read path') as [b|] eqn:Hr; [|done]|].
    - destruct (daemon_binary_matches_platform b p) eqn:Hm; [injection Hbin as <-; eauto|].
      repeat case_match; simplify_eq. split; [done|right]. eexists. split_and!; [done..|].
      intros path0 b0 [= <-] Hr0. by rewrite Hr in Hr0; injection Hr0 as <-.
    - repeat case_match; simplify_eq. split; [done|right]. eexists. by split_and!. }
  destruct Hcases as [Hm Hfrom]. split; [done|]. split.
  - intros Hos. assert (∃ path, read path = Ok bytes) as [path Hr] by naive_solver.
    destruct (Hread _ _ Hr). by apply linux_binary_iff.
  - destruct Hfrom as [?|(path & Hb & Hr & Hno)]; [by left|right]. exists path. split_and!; [done..|].
    intros path' b Ho Hr' Hos Helf. destruct (Hread _ _ Hr').
    apply (linux_binary_iff b p) in Helf; [|done..]. by rewrite (Hno path' b Ho Hr') in Helf.
Qed.

(** The smallest static executable, and one with an interpreter. *)
Definition zeros (n : nat) : list Z := repeat 0 n.
Definition sample_header (machine count : Z) : list Z :=
  ELF_MAGIC ++ [2; 1; 1; 0] ++ zeros 8 ++ [2; 0; machine; 0] ++ zeros 12 ++ [64] ++ zeros 19 ++ [64; 0; 56; 0; count; 0]
  ++ zeros 6.
Definition sample_elf (machine : Z) (types : list Z) : list Z :=
  sample_header machine (Z.of_nat (length types)) ++ concat (map (λ t, t :: zeros 55) types).

Example sample_static : binary_platform (sample_elf 62 [1]) = Some (mkHostPlatform Linux "x86_64").
Proof. reflexivity. Qed.
Example sample_dynamic : binary_platform (sample_elf 62 [1; 3]) = None.
Proof. reflexivity. Qed.

Lemma shipped_binary_is_for_its_host_witness :
  let p := mkHostPlatform Linux "aarch64" in
  let read path := Ok (if decide (path = "mine") then sample_elf 62 [1] else sample_elf 183 [6; 1]) in
  daemon_binary (Some "mine") read (λ _, Ok "built") p = Ok (sample_elf 183 [6; 1]) ∧
  static_elf (sample_elf 183 [6; 1]) "aarch64".
Proof.
  intros p read. assert (Hrun : daemon_binary (Some "mine") read (λ _, Ok "built") p = Ok (sample_elf 183 [6; 1]))
    by (vm_compute; reflexivity).
  split; [exact Hrun|].
  refine (proj1 (proj2 (shipped_binary_is_for_its_host (Some "mine") read (λ _, Ok "built") p _ _ Hrun)) eq_refl).
  intros path b. unfold read. intros [= <-]. unfold bytes_ok.
  case_decide; (split; [apply (bool_decide_unpack _); vm_compute; done|vm_compute; discriminate]).
Defined.
