(* ===== verification/Ssh.v ===== *)
(** * Reaching a host over ssh

    [crates/ade_session/src/ssh.rs]: the command lines, running a command on a host
    through its login shell, starting its daemon, and waiting for the forward. Spawning
    [ssh] and the sockets it binds are arguments. *)

From S2P Require Import Prelude Text Shell Words Deploy.
From Stdlib Require Import Ascii.
From stdpp Require Import options.
Open Scope Z_scope.

(** [windows] is the platform this client is built for. *)
Definition SSH_BASE_FLAGS (windows : bool) : list string :=
  ["-o"; "BatchMode=yes"] ++ (if windows then ["-o"; "ControlMaster=no"; "-o"; "ControlPath=none"] else []).

Record SshHost : Type := mkSshHost { sh_destination : string; sh_extra_args : list string }.

(** [SshHost::ssh_argv]. *)
Definition ssh_argv (windows : bool) (host : SshHost) : list string :=
  ["ssh"] ++ SSH_BASE_FLAGS windows ++ sh_extra_args host ++ [sh_destination host].

Definition run_argv (windows : bool) (host : SshHost) (argv : list string) : list string :=
  ssh_argv windows host ++ ["--"] ++ map shell_quote argv.

(** [HostExec::run] of an [SshHost]; [spawn] runs [ssh] and reads what it prints. *)
Definition ssh_run (spawn : list call → list string → result string ExecOutput) (windows : bool)
    (host : SshHost) (calls : list call) (argv : list string) : result string ExecOutput :=
  match argv with
  | [] => Err "an empty argv cannot be run"
  | _ => spawn calls (run_argv windows host argv)
  end.

(** ** Starting the daemon *)

Definition EXIT_NOT_FOUND : Z := 127.
Definition EXIT_NOT_EXECUTABLE : Z := 126.

Definition is_nothing_runnable (exit_code : Z) : bool :=
  (exit_code =? EXIT_NOT_FOUND) || (exit_code =? EXIT_NOT_EXECUTABLE).

Inductive EnsureOutcome : Type :=
| Listening (line : string)
| NotInstalled.

Definition ensure_argv (bin_path socket state_dir : string) : list string :=
  [bin_path; "--ensure"; "--socket"; socket; "--state-dir"; state_dir].

Definition ensure_remote_daemon `{HostExec} (destination bin_path socket state_dir : string) :
    st (list call) (result string EnsureOutcome) :=
  output ←? exec (ensure_argv bin_path socket state_dir);
  mret (if is_nothing_runnable (eo_exit_code output) then Ok NotInstalled
        else if negb (success output)
        then Err ("ade-daemon --ensure failed on " +:+ destination +:+ ": " +:+ trim (eo_stderr output))
        else Ok (Listening (trim (eo_stdout output)))).

(** ** The forward *)

Definition LOOPBACK_ADDRESS : string := "127.0.0.1".

Inductive LocalEndpoint : Type :=
| Socket (path : string)
| Loopback (port : Z).

Definition forward_spec (local : LocalEndpoint) (remote_socket : string) : string :=
  match local with
  | Socket path => path +:+ ":" +:+ remote_socket
  | Loopback port => LOOPBACK_ADDRESS +:+ ":" +:+ pretty port +:+ ":" +:+ remote_socket
  end.

(** [HostForward::argv]. *)
Definition forward_argv (windows : bool) (host : SshHost) (remote_socket : string) (local : LocalEndpoint) :
    list string :=
  ["ssh"; "-N"; "-o"; "ExitOnForwardFailure=yes"] ++ SSH_BASE_FLAGS windows ++ sh_extra_args host
  ++ ["-L"; forward_spec local remote_socket; sh_destination host].

(** Milliseconds. *)
Definition READY_TIMEOUT : Z := 5000.
Definition FIRST_RETRY_DELAY : Z := 25.
Definition MAX_RETRY_DELAY : Z := 250.

Inductive forward_end : Type :=
| Ready (probes : nat)
| ExitedEarly (status : string)
| WaitFailed (error : string)
| TimedOut.   (* the child is killed and reaped *)

Section Forward.
(** What the [n]-th round finds: whether the child has exited, whether the local end
    accepts, and the time the round takes beside the sleep at its end. *)
Context (try_wait : nat → result string (option string)) (accepts : nat → bool) (spent : nat → Z).

(** [wait_until_ready]; [now] is the time since it began, [delay] the next sleep. *)
Fixpoint wait_until_ready (fuel n : nat) (now delay : Z) : option forward_end :=
  match fuel with
  | O => None
  | S fuel =>
      match try_wait n with
      | Err e => Some (WaitFailed e)
      | Ok (Some status) => Some (ExitedEarly status)
      | Ok None =>
          if accepts n then Some (Ready n)
          else
            let now := now + spent n in
            if READY_TIMEOUT <=? now then Some TimedOut
            else wait_until_ready fuel (S n) (now + delay) (Z.min (delay * 2) MAX_RETRY_DELAY)
      end
  end.

(** How long the sleeps after [n] rounds have been at least. *)
Fixpoint slept (n : nat) (delay : Z) : Z :=
  match n with O => 0 | S n => delay + slept n (Z.min (delay * 2) MAX_RETRY_DELAY) end.

(** What an end says of the rounds, the first of them being [n]. *)
Definition end_ok (first : nat) (e : forward_end) (last : nat) : Prop :=
  (first ≤ last)%nat ∧
  (∀ k, (first ≤ k < last)%nat → try_wait k = Ok None ∧ accepts k = false) ∧
  match e with
  | Ready k => k = last ∧ try_wait k = Ok None ∧ accepts k = true
  | ExitedEarly status => try_wait last = Ok (Some status)
  | WaitFailed error => try_wait last = Err error
  | TimedOut => try_wait last = Ok None ∧ accepts last = false
  end.

Context (Hspent : ∀ n, 0 ≤ spent n).

Lemma wait_ends fuel : ∀ n now delay, 0 ≤ delay → READY_TIMEOUT ≤ now + slept (pred fuel) delay → fuel ≠ O →
  ∃ e last, wait_until_ready fuel n now delay = Some e ∧ end_ok n e last ∧ (last < n + fuel)%nat.
Proof using Type*.
  induction fuel as [|fuel IH]; intros n now delay Hd Ht Hf; [done|]. cbn [wait_until_ready].
  destruct (try_wait n) as [[status|]|error] eqn:Hw.
  1,3: eexists _, n; split_and!; [done| |lia]; split_and!; [lia|lia|done].
  destruct (accepts n) eqn:Ha.
  { eexists _, n. split_and!; [done| |lia]. split_and!; [lia|lia|done..]. }
  pose proof (Hspent n) as Hs. cbv zeta. destruct (Z.leb_spec READY_TIMEOUT (now + spent n)) as [Hle|Hgt].
  { eexists _, n. split_and!; [done| |lia]. split_and!; [lia|lia|done..]. }
  assert (fuel ≠ O) as Hne by (intros ->; cbn [pred slept] in Ht; lia).
  destruct (IH (S n) (now + spent n + delay) (Z.min (delay * 2) MAX_RETRY_DELAY)) as (e & last & He & (Hl & Hall & Hend) & Hlt).
  { unfold MAX_RETRY_DELAY. lia. }
  { cbn [pred] in *. destruct fuel; [done|]. cbn [slept pred] in *. lia. }
  { done. }
  exists e, last. split; [done|]. split; [split_and!|lia]; [lia| |done].
  intros k Hk. destruct (decide (k = n)) as [->|]; [done|]. apply Hall. lia.
Qed.

(** Waiting for the forward ends: whatever the child and the local end do, 24 rounds
    are enough, the forward is taken for ready only in a round whose child had not
    exited, at the first round whose local end accepts, and an exited child ends the
    wait whoever accepts. *)
Theorem waiting_for_the_forward_ends :
  ∃ e last, wait_until_ready 24 0 0 FIRST_RETRY_DELAY = Some e ∧ end_ok 0 e last ∧ (last < 24)%nat.
Proof using Type*.
  apply (wait_ends 24 0 0 FIRST_RETRY_DELAY); [done| |done]. vm_compute. discriminate.
Qed.
End Forward.

Lemma waiting_for_the_forward_ends_witness :
  let accepts n := (5 <=? n)%nat in
  wait_until_ready (λ _, Ok None) accepts (λ _, 3) 24 0 0 FIRST_RETRY_DELAY = Some (Ready 5) ∧
  ∃ e last, wait_until_ready (λ _, Ok None) (λ _, false) (λ _, 3) 24 0 0 FIRST_RETRY_DELAY = Some e ∧
    end_ok (λ _, Ok None) (λ _, false) 0 e last ∧ (last < 24)%nat.
Proof.
  split; [reflexivity|]. apply (waiting_for_the_forward_ends (λ _, Ok None) (λ _, false) (λ _, 3)).
  intros n. lia.
Defined.

(** ** A command over ssh *)

(** What ssh does with a command: everything after the destination is joined with spaces
    and run by the login shell of the far host, whose words [far] executes. *)
Class SshTransport (words : option string → string → option (list string)) (far : HostExec)
    (spawn : list call → list string → result string ExecOutput) (windows : bool) (host : SshHost) : Prop := {
  transport_shell :: PosixShell words;
  transport_runs calls ws argv : words None (joined ws) = Some argv → argv ≠ [] →
    spawn calls (ssh_argv windows host ++ ["--"] ++ ws) = @host_run far calls argv
}.

(** The host a deployment over ssh sees; [upload] is [SshHost::upload]. *)
Definition ssh_host (spawn : list call → list string → result string ExecOutput) (windows : bool) (host : SshHost)
    (upload : list call → list Z → string → result string ()) : HostExec :=
  {| host_run := ssh_run spawn windows host; host_upload := upload |}.

Section Remote.
Context (words : option string → string → option (list string)) (far : HostExec)
  (spawn : list call → list string → result string ExecOutput) (windows : bool) (host : SshHost).
Context (Hssh : SshTransport words far spawn windows host).

Lemma ssh_run_far calls argv : argv ≠ [] → ssh_run spawn windows host calls argv = @host_run far calls argv.
Proof using Type*.
  intros Hne. unfold ssh_run, run_argv. destruct argv as [|a argv]; [done|].
  pose proof (@transport_shell _ _ _ _ _ Hssh).
  apply (@transport_runs _ _ _ _ _ Hssh); [apply read_joined|done].
Qed.

(** C32. A host over ssh is that host: every command, whatever is in its words, is executed
    there word for word, so a host that answers as documented does so over ssh, and a
    deployment over ssh is the deployment there. *)
Theorem a_host_over_ssh_is_that_host home initial version_of sockets :
  @HonestHost far home initial version_of sockets →
  let near := ssh_host spawn windows host (@host_upload far) in
  (∀ calls argv, argv ≠ [] → @host_run near calls argv = @host_run far calls argv) ∧
  @HonestHost near home initial version_of sockets ∧
  ∀ config, trim home ≠ "" →
    (@ensure_daemon near config []).1 = (@ensure_daemon far config []).1.
Proof using Type*.
  intros Hfar near.
  assert (Hrun : ∀ calls argv, argv ≠ [] → @host_run near calls argv = @host_run far calls argv)
    by (intros; by apply ssh_run_far).
  assert (Hnear : @HonestHost near home initial version_of sockets).
  { split; intros; rewrite ?Hrun by done; apply Hfar. }
  split_and!; [done..|]. intros config Hhome.
  destruct (@ensure_daemon_honest near _ _ _ _ Hnear config Hhome []) as (? & -> & _).
  by destruct (@ensure_daemon_honest far _ _ _ _ Hfar config Hhome []) as (? & -> & _).
Qed.
End Remote.

(** An ssh that drops its own arguments and lets the shell read the rest. *)
Definition sample_spawn (far : HostExec) (windows : bool) (host : SshHost) (calls : list call) (argv : list string) :
    result string ExecOutput :=
  match sh_words false None (joined (drop (length (ssh_argv windows host) + 1) argv)) with
  | Some (a :: argv) => @host_run far calls (a :: argv)
  | _ => Ok (mkExecOutput 255 "" "")
  end.

Lemma sample_transport far windows host :
  SshTransport (sh_words false) far (sample_spawn far windows host) windows host.
Proof.
  split; [apply _|]. intros calls ws argv Hws Hne. unfold sample_spawn.
  rewrite app_assoc, drop_app_length' by by rewrite length_app.
  rewrite Hws. by destruct argv.
Qed.

Lemma a_host_over_ssh_is_that_host_witness :
  let far := box "/home/me" (λ _, None) sample_version_of (λ _, false) in
  let host := mkSshHost "me@there" ["-p"; "2222"] in
  let near := ssh_host (sample_spawn far false host) false host (@host_upload far) in
  run_argv false host ["echo"; "it's here"] =
    ["ssh"; "-o"; "BatchMode=yes"; "-p"; "2222"; "me@there"; "--"; "'echo'"; "'it'\''s here'"] ∧
  (@ensure_daemon near (deploy_config_new [3] (mkVersion 0 3 0)) []).1 =
    Ok (mkDaemonEndpoint "/home/me/.ade/bin/ade-daemon" "/home/me/.ade/daemon.sock" "/home/me/.ade/daemon"
          (Some (mkVersion 0 3 0)) Installed).
Proof.
  intros far host near. split; [reflexivity|].
  destruct (a_host_over_ssh_is_that_host (sh_words false) far (sample_spawn far false host) false host
    (sample_transport far false host) "/home/me" (λ _, None) sample_version_of (λ _, false)
    (box_honest _ _ _ _)) as (_ & _ & Hsame).
  rewrite (Hsame _ ltac:(discriminate)). vm_compute. reflexivity.
Defined.
