(* ===== verification/Link.v ===== *)
(** * One host's link

    [HostLink] of [crates/ade_workspaces/src/daemon_backend.rs]: the single ssh connection
    to a host, starting or deploying its daemon, what is known of the daemon's build, and
    the upgrade an operator asks for. What the host answers is a [HostExec]; the
    binary this client would deploy, the forward and the shutdown channel are
    arguments. *)

From S2P Require Import Prelude Text Proto Shell Words Deploy Platform Ssh.
From Stdlib Require Import Ascii.
From stdpp Require Import options.
Open Scope Z_scope.

Record RemotePaths : Type := mkRemotePaths { rp_bin : string; rp_socket : string; rp_state_dir : string }.

(** The value of the first word of a line with this prefix that has one. *)
Definition token_value (prefix line : string) : option string :=
  head (omap (λ token, if String.prefix prefix token
                       then let value := str_drop (String.length prefix) token in
                            if decide (value = "") then None else Some value
                       else None) (split_whitespace line)).

Definition daemon_hash (line : string) : option string := token_value "hash=" line.

Definition daemon_platform (line : string) : option HostPlatform :=
  value ← token_value "platform=" line; from_target_triple value.

Definition expand_remote (path home : string) : string :=
  if String.prefix "~/" path then home +:+ "/" +:+ str_drop 2 path else path.

Inductive DaemonUpgradeOutcome : Type := Upgraded | UpToDate.

#[export] Instance DaemonUpgradeOutcome_eq_dec : EqDecision DaemonUpgradeOutcome.
Proof. solve_decision. Defined.

Definition FRESHNESS_UNKNOWN : Z := 0.
Definition FRESHNESS_CURRENT : Z := 1.
Definition FRESHNESS_STALE : Z := 2.

(** [HostLink] with its [HostLinkState]; [hl_calls] is what was asked of the host,
    [hl_announced] how often the observers were told. *)
Record HostLink : Type := mkHostLink {
  hl_paths : option RemotePaths;
  hl_forward : bool;
  hl_daemon_ensured : bool;
  hl_freshness : Z;
  hl_generation : Z;
  hl_compared_hash : option string;
  hl_announced : nat;
  hl_calls : list call
}.

Definition link_new : HostLink := mkHostLink None false false FRESHNESS_UNKNOWN 0 None 0 [].

Definition set_state (paths : option RemotePaths) (forward ensured : bool) (l : HostLink) : HostLink :=
  mkHostLink paths forward ensured (hl_freshness l) (hl_generation l) (hl_compared_hash l)
    (hl_announced l) (hl_calls l).

Definition set_freshness (verdict generation : Z) (compared : option string) (announced : nat)
    (l : HostLink) : HostLink :=
  mkHostLink (hl_paths l) (hl_forward l) (hl_daemon_ensured l) verdict generation compared announced (hl_calls l).

Definition on_host {A} (m : st (list call) A) : st HostLink A := λ l,
  let '(a, calls) := m (hl_calls l) in
  (a, mkHostLink (hl_paths l) (hl_forward l) (hl_daemon_ensured l) (hl_freshness l) (hl_generation l)
        (hl_compared_hash l) (hl_announced l) calls).

(** ** What is known of the build *)

Definition note_hash_verdict (stale : bool) : st HostLink () := st_modify (λ l,
  let value := if stale then FRESHNESS_STALE else FRESHNESS_CURRENT in
  set_freshness value (hl_generation l) (hl_compared_hash l)
    (if hl_freshness l =? value then hl_announced l else S (hl_announced l)) l).

Definition note_comparison (local_hash remote_hash : string) : st HostLink bool :=
  let stale := negb (bool_decide (local_hash = remote_hash)) in
  st_modify (λ l, set_freshness (hl_freshness l) (hl_generation l) (Some remote_hash) (hl_announced l) l);;
  note_hash_verdict stale;;
  mret stale.

Definition note_probe (generation : Z) (remote_hash : string) (local_hash : result string string) :
    st HostLink () :=
  l ← st_get;
  if negb (hl_generation l =? generation) then mret ()
  else match local_hash with
       | Ok local_hash => note_comparison local_hash remote_hash;; mret ()
       | Err _ => mret ()
       end.

Definition daemon_stale (l : HostLink) : bool := hl_freshness l =? FRESHNESS_STALE.

(** [note_freshness]: the probe it spawns, if it does. *)
Definition note_freshness (ensure_line : string) : st HostLink (option (Z * string)) :=
  match daemon_hash ensure_line with
  | None => note_hash_verdict true;; mret None
  | Some remote_hash =>
      l ← st_get;
      if bool_decide (hl_compared_hash l = Some remote_hash) then mret None
      else
        let generation := wrap64 (hl_generation l + 1) in
        st_put (set_freshness (hl_freshness l) generation (hl_compared_hash l) (hl_announced l) l);;
        mret (Some (generation, remote_hash))
  end.

(** ** Starting, deploying and upgrading *)

Definition dq : string := String (byte 34) "".

Definition pre_cut_kill_script (state_dir socket : string) : string :=
  String.concat "" (map (λ line, String.concat "" line +:+ String LF "") [
    ["pidfile="; shell_quote (state_dir +:+ "/daemon.pid")];
    ["socket="; shell_quote socket];
    ["if [ ! -f "; dq; "$pidfile"; dq; " ]; then"];
    ["  echo "; dq; "no pidfile at $pidfile; stop the daemon by hand"; dq; " >&2; exit 3"];
    ["fi"];
    ["pid=$(cat "; dq; "$pidfile"; dq; ")"];
    ["case "; dq; "$pid"; dq; " in ''|*[!0-9]*)"];
    ["  echo "; dq; "the pidfile at $pidfile does not hold a pid: $pid"; dq; " >&2; exit 3;;"];
    ["esac"];
    ["if kill -0 "; dq; "$pid"; dq; " 2>/dev/null; then"];
    ["  case "; dq; "$(ps -o comm= -p "; dq; "$pid"; dq; ")"; dq; " in"];
    ["    *ade-daemon*) ;;"];
    ["    *) echo "; dq; "pid $pid is not an ade-daemon; stop the daemon by hand"; dq; " >&2; exit 4;;"];
    ["  esac"];
    ["  kill "; dq; "$pid"; dq];
    ["  i=0"];
    ["  while kill -0 "; dq; "$pid"; dq; " 2>/dev/null && [ "; dq; "$i"; dq; " -lt 50 ]; do i=$((i+1)); sleep 0.1; done"];
    ["  if kill -0 "; dq; "$pid"; dq; " 2>/dev/null; then"];
    ["    kill -9 "; dq; "$pid"; dq];
    ["    i=0"];
    ["    while kill -0 "; dq; "$pid"; dq; " 2>/dev/null && [ "; dq; "$i"; dq; " -lt 20 ]; do i=$((i+1)); sleep 0.1; done"];
    ["  fi"];
    ["  if kill -0 "; dq; "$pid"; dq; " 2>/dev/null; then"];
    ["    echo "; dq; "pid $pid did not exit"; dq; " >&2; exit 5"];
    ["  fi"];
    ["fi"];
    ["rm -f "; dq; "$socket"; dq]
  ]).

Definition proxy_command (paths : RemotePaths) : list string :=
  [rp_bin paths; "--stdio-proxy"; "--socket"; rp_socket paths; "--state-dir"; rp_state_dir paths].

(** What the shutdown channel came to: it could not handshake, it found a daemon from
    before the protocol cut, the request could not be sent, or it was answered with these
    (decodable) frames and then ended. *)
Inductive shutdown_channel : Type :=
| ChannelFailed (error : string)
| PreCutDaemon
| SendFailed (error : string)
| Answers (frames : list Frame) (ended : string).

(** The wait of [request_shutdown]. *)
Fixpoint shutdown_answer (frames : list Frame) (ended : string) : result string () :=
  match frames with
  | [] => Err ("waiting for the shutdown answer: " +:+ ended)
  | Frame_ShutdownAck _ :: _ => Ok ()
  | Frame_Error _ _ code message (Some 1) :: _ => Err (bounded code +:+ ": " +:+ bounded message)
  | _ :: frames => shutdown_answer frames ended
  end.

Section Link.
Context `{HostExec} (debug : string → string) (destination : string).
(** This client's binary for a platform with its hash, the version it is deployed as,
    the forward to the host, whether a forward is still alive, and the shutdown
    channel. *)
Context (local_binary : HostPlatform → result string (list Z * string)) (daemon_version : Version)
  (establish : list call → result string ()) (forward_alive : list call → bool)
  (shutdown : list call → shutdown_channel).

Definition remote_paths : st HostLink (result string RemotePaths) :=
  output ←? on_host (exec (shell HOME_COMMAND));
  mret (if negb (success output) || bool_decide (trim (eo_stdout output) = "")
        then Err ("could not read $HOME on " +:+ destination +:+ ": " +:+ trim (eo_stderr output))
        else let home := trim_end_matches "/" (trim (eo_stdout output)) in
             Ok (mkRemotePaths (expand_remote DEFAULT_BIN_PATH home) (expand_remote DEFAULT_SOCKET_PATH home)
                   (expand_remote DEFAULT_STATE_DIR home))).

(** The paths, asked for once. *)
Definition known_paths : st HostLink (result string RemotePaths) :=
  l ← st_get;
  match hl_paths l with
  | Some paths => mret (Ok paths)
  | None =>
      paths ←? remote_paths;
      st_modify (λ l, set_state (Some paths) (hl_forward l) (hl_daemon_ensured l) l);;
      mret (Ok paths)
  end.

Definition ensure_once (paths : RemotePaths) : st HostLink (result string EnsureOutcome) :=
  on_host (ensure_remote_daemon destination (rp_bin paths) (rp_socket paths) (rp_state_dir paths)).

Definition deploy_config (binary : list Z) (paths : RemotePaths) : DeployConfig :=
  mkDeployConfig binary daemon_version (rp_bin paths) (rp_socket paths) (rp_state_dir paths).

Definition deploy_daemon (paths : RemotePaths) : st HostLink (result string ()) :=
  platform ←? on_host (probe_platform debug);
  '(binary, _) ←? mret (local_binary platform);
  _ ←? on_host (ensure_daemon (deploy_config binary paths));
  mret (Ok ()).

Definition ensure_installed (paths : RemotePaths) : st HostLink (result string string) :=
  outcome ←? ensure_once paths;
  match outcome with
  | Listening line => mret (Ok line)
  | NotInstalled =>
      _ ←? deploy_daemon paths;
      outcome ←? ensure_once paths;
      mret match outcome with
           | Listening line => Ok line
           | NotInstalled => Err ("ade-daemon was deployed to " +:+ rp_bin paths +:+ " on " +:+ destination +:+
                                  " but still will not run there")
           end
  end.

Definition ensure_ready : st HostLink (result string (option string)) :=
  l ← st_get;
  let alive := hl_forward l && forward_alive (hl_calls l) in
  if alive && hl_daemon_ensured l then mret (Ok None)
  else
    paths ←? known_paths;
    line ←? (if negb (hl_daemon_ensured l) then
               version ←? ensure_installed paths;
               st_modify (λ l, set_state (hl_paths l) (hl_forward l) true l);;
               mret (Ok (Some version))
             else mret (Ok None));
    if negb alive then
      st_modify (λ l, set_state (hl_paths l) false (hl_daemon_ensured l) l);;
      l ← st_get;
      match establish (hl_calls l) with
      | Ok _ => st_modify (λ l, set_state (hl_paths l) true (hl_daemon_ensured l) l);; mret (Ok line)
      | Err e => mret (Err ("forwarding the daemon socket on " +:+ destination +:+ ": " +:+ e))
      end
    else mret (Ok line).

Definition needs_ensure : st HostLink () := st_modify (λ l, set_state (hl_paths l) false false l).

Definition ensure_after_upgrade (paths : RemotePaths) : st HostLink (result string string) :=
  outcome ←? ensure_once paths;
  mret match outcome with
       | Listening line => Ok line
       | NotInstalled => Err ("the upgraded ade-daemon at " +:+ rp_bin paths +:+ " will not run on " +:+ destination)
       end.

Definition kill_pre_cut_daemon (paths : RemotePaths) : st HostLink (result string ()) :=
  output ←? on_host (exec (shell (pre_cut_kill_script (rp_state_dir paths) (rp_socket paths))));
  mret (if success output then Ok ()
        else Err ("terminating the pre-cut daemon on " +:+ destination +:+ ": " +:+ trim (eo_stderr output))).

(** The channel is a command on the host like any other, spoken to over its pipes. *)
Definition request_shutdown (paths : RemotePaths) : st HostLink (result string ()) :=
  l ← st_get;
  st_put (mkHostLink (hl_paths l) (hl_forward l) (hl_daemon_ensured l) (hl_freshness l) (hl_generation l)
            (hl_compared_hash l) (hl_announced l) (hl_calls l ++ [Run (proxy_command paths)]));;
  match shutdown (hl_calls l) with
  | ChannelFailed e => mret (Err ("handshaking for the shutdown request: " +:+ e))
  | PreCutDaemon => kill_pre_cut_daemon paths
  | SendFailed e => mret (Err ("sending Shutdown: " +:+ e))
  | Answers frames ended => mret (shutdown_answer frames ended)
  end.

Definition upgrade_to_local_binary (paths : RemotePaths) (remote_hash : string) (platform : HostPlatform) :
    st HostLink (result string DaemonUpgradeOutcome) :=
  '(binary, local_hash) ←? mret (local_binary platform);
  stale ← note_comparison local_hash remote_hash;
  if negb stale then mret (Ok UpToDate)
  else
    _ ←? request_shutdown paths;
    _ ←? on_host (replace_daemon (deploy_config binary paths));
    note_comparison local_hash local_hash;;
    mret (Ok Upgraded).

Definition host_platform (ensure_line : string) : st HostLink (result string HostPlatform) :=
  match daemon_platform ensure_line with
  | Some platform => mret (Ok platform)
  | None => on_host (probe_platform debug)
  end.

Definition upgrade_on_demand : st HostLink (result string DaemonUpgradeOutcome) :=
  paths ←? known_paths;
  line ←? ensure_installed paths;
  match daemon_hash line with
  | None => mret (Err ("the daemon on " +:+ destination +:+
              " predates binary identity and cannot be upgraded in place; stop it by hand"))
  | Some remote_hash =>
      platform ←? host_platform line;
      st_modify (λ l, set_freshness (hl_freshness l) (wrap64 (hl_generation l + 1)) (hl_compared_hash l)
                        (hl_announced l) l);;
      outcome ←? upgrade_to_local_binary paths remote_hash platform;
      match outcome with
      | Upgraded => _ ←? ensure_after_upgrade paths; mret (Ok Upgraded)
      | UpToDate => mret (Ok UpToDate)
      end
  end.
End Link.

(** ** What a link asks of its host *)

(** [Q] of the answer, the calls made and the link after. *)
Definition wpc {A} (m : st HostLink A) (Q : A → list call → HostLink → Prop) (l : HostLink) : Prop :=
  wp m (λ a l', ∃ more, hl_calls l' = hl_calls l ++ more ∧ Q a more l') l.

Definition with_calls (calls : list call) (l : HostLink) : HostLink :=
  mkHostLink (hl_paths l) (hl_forward l) (hl_daemon_ensured l) (hl_freshness l) (hl_generation l)
    (hl_compared_hash l) (hl_announced l) calls.

Section Calls.
Context {A B : Type}.

Lemma wpc_ret (a : A) (Q : A → list call → HostLink → Prop) l : Q a [] l → wpc (mret a) Q l.
Proof. intros HQ. apply wp_ret. exists []. by rewrite app_nil_r. Qed.

Lemma wpc_get (Q : HostLink → list call → HostLink → Prop) l : Q l [] l → wpc st_get Q l.
Proof. intros HQ. apply wp_get. exists []. by rewrite app_nil_r. Qed.

Lemma wpc_modify f (Q : () → list call → HostLink → Prop) l :
  hl_calls (f l) = hl_calls l → Q () [] (f l) → wpc (st_modify f) Q l.
Proof. intros Hf HQ. apply wp_modify. exists []. by rewrite app_nil_r. Qed.

Lemma wpc_bind (m : st HostLink A) (k : A → st HostLink B) Q l :
  wpc m (λ a more l', wpc (k a) (λ b more', Q b (more ++ more')) l') l → wpc (m ≫= k) Q l.
Proof.
  intros (more & Hl & more' & Hl' & HQ). unfold wpc, wp. rewrite st_bind_unfold.
  exists (more ++ more'). by rewrite Hl', Hl, app_assoc.
Qed.

Lemma wpc_bind_ok (m : st HostLink (result string A)) (k : A → st HostLink (result string B)) Q l :
  wpc m (λ r more l', match r with
                      | Ok a => wpc (k a) (λ b more', Q b (more ++ more')) l'
                      | Err e => Q (Err e) more l'
                      end) l →
  wpc (bind_ok m k) Q l.
Proof.
  unfold wpc, wp, bind_ok. destruct (m l) as [[a|e] l1]; [|done].
  intros (more & Hl & more' & Hl' & HQ). cbn [fst snd] in *. exists (more ++ more').
  by rewrite Hl', Hl, app_assoc.
Qed.

Lemma wpc_mono (m : st HostLink A) (Q R : A → list call → HostLink → Prop) l :
  wpc m Q l → (∀ a more l', hl_calls l' = hl_calls l ++ more → Q a more l' → R a more l') → wpc m R l.
Proof. intros (more & Hl & HQ) HR. exists more. auto. Qed.

Lemma wpc_on_host (m : HostExec → st (list call) A) host (Q : A → list call → HostLink → Prop) l :
  shifts m →
  wp (m (host_after host (hl_calls l))) (λ a more, Q a more (with_calls (hl_calls l ++ more) l)) [] →
  wpc (on_host (m host)) Q l.
Proof.
  intros Hm HQ. pose proof (wp_shift m host _ (hl_calls l) Hm HQ) as (more & Hcalls & Hmore).
  unfold wpc, wp, on_host. destruct (m host (hl_calls l)) as [a calls]. cbn in *. subst calls.
  exists more. split; [done|exact Hmore].
Qed.
End Calls.

(** A call that ends no process and starts at most a daemon. *)
Definition harmless (c : call) : Prop :=
  match c with
  | Upload _ _ => True
  | Run argv =>
      argv = shell HOME_COMMAND ∨ argv = ["uname"; "-sm"] ∨
      (∃ bin socket state_dir, argv = ensure_argv bin socket state_dir) ∨
      (∃ path, argv = version_probe path) ∨ (∃ path, argv = socket_test path) ∨
      (∃ path, argv = ["mkdir"; "-p"; path])
  end.

Lemma expected_harmless config bin_path socket_path calls :
  Forall (expected_call config bin_path socket_path) calls → Forall harmless calls.
Proof.
  intros Hall. eapply Forall_impl; [exact Hall|]. intros [argv|bytes path]; cbn; [|done].
  intros [->|[->|[->|(parent & _ & ->)]]]; eauto 10.
Qed.

Lemma shifts_probe debug : shifts (λ host, @probe_platform debug host).
Proof. unfold probe_platform. shifting. Qed.

Lemma shifts_ensure_remote destination bin socket state_dir :
  shifts (λ host, @ensure_remote_daemon host destination bin socket state_dir).
Proof. unfold ensure_remote_daemon. shifting. Qed.

Section Connecting.
Context `{host : HostExec} (debug : string → string) (destination : string)
  (local_binary : HostPlatform → result string (list Z * string)) (daemon_version : Version)
  (establish : list call → result string ()) (forward_alive : list call → bool)
  (shutdown : list call → shutdown_channel).

(** The call made, what it was answered with, and what that says. *)
Lemma wpc_ensure_once paths (Q : result string EnsureOutcome → list call → HostLink → Prop) l :
  let argv := ensure_argv (rp_bin paths) (rp_socket paths) (rp_state_dir paths) in
  let l' := with_calls (hl_calls l ++ [Run argv]) l in
  (∀ e, Q (Err e) [Run argv] l') →
  (∀ o, host_run (hl_calls l) argv = Ok o → is_nothing_runnable (eo_exit_code o) = true →
     Q (Ok NotInstalled) [Run argv] l') →
  (∀ o, host_run (hl_calls l) argv = Ok o → success o = true →
     Q (Ok (Listening (trim (eo_stdout o)))) [Run argv] l') →
  wpc (ensure_once destination paths) Q l.
Proof.
  intros argv l' He Hn Hl. unfold ensure_once.
  apply (wpc_on_host (λ host, @ensure_remote_daemon host destination (rp_bin paths) (rp_socket paths) (rp_state_dir paths)));
    [apply shifts_ensure_remote|].
  unfold ensure_remote_daemon. apply wp_bind_ok, wp_asked. cbn [host_run host_after app].
  rewrite app_nil_r. destruct (host_run (hl_calls l) _) as [o|e] eqn:Ho; [|apply He].
  apply wp_ret. destruct (is_nothing_runnable _) eqn:Hno; [by eapply Hn|].
  destruct (success o) eqn:Hs; cbn [negb]; [by eapply Hl|apply He].
Qed.

(** Between [l] and [l'] only calls were made. *)
Definition only_calls (more : list call) (l l' : HostLink) : Prop := l' = with_calls (hl_calls l ++ more) l.

Lemma only_calls_app a b l l1 l2 : only_calls a l l1 → only_calls b l1 l2 → only_calls (a ++ b) l l2.
Proof. unfold only_calls, with_calls. intros -> ->. cbn. by rewrite app_assoc. Qed.

Lemma wpc_probe (Q : result string HostPlatform → list call → HostLink → Prop) l :
  (∀ r, (∀ platform, r = Ok platform → ∃ o, host_run (hl_calls l) ["uname"; "-sm"] = Ok o ∧ success o = true ∧
             parse_uname debug (eo_stdout o) = Ok platform) →
     Q r [Run ["uname"; "-sm"]] (with_calls (hl_calls l ++ [Run ["uname"; "-sm"]]) l)) →
  wpc (on_host (probe_platform debug)) Q l.
Proof.
  intros HQ. apply (wpc_on_host (λ host, @probe_platform debug host)); [apply shifts_probe|].
  unfold probe_platform. apply wp_bind_ok, wp_asked. cbn [app host_run host_after]. rewrite app_nil_r.
  destruct (host_run _ _) as [o|e]; [apply wp_ret|by apply HQ]. apply HQ. intros platform.
  destruct (success o) eqn:Hs; cbn [negb]; [eauto|done].
Qed.

Lemma wpc_ensure_daemon config (Q : result string DaemonEndpoint → list call → HostLink → Prop) l :
  (∀ r more, Forall harmless more → Q r more (with_calls (hl_calls l ++ more) l)) →
  wpc (on_host (ensure_daemon config)) Q l.
Proof.
  intros HQ. apply (wpc_on_host (λ host, @ensure_daemon host config)); [apply shifts_ensure_daemon|].
  eapply wp_mono; [exact (@ensure_daemon_spares (host_after host (hl_calls l)) config)|].
  intros r more (home & Hcalls & _). apply HQ. by eapply expected_harmless.
Qed.

(** The last [--ensure] of [calls] said a daemon listens. *)
Definition listening (paths : RemotePaths) (calls : list call) (line : string) : Prop :=
  let argv := ensure_argv (rp_bin paths) (rp_socket paths) (rp_state_dir paths) in
  ∃ before o, calls = before ++ [Run argv] ∧ host_run before argv = Ok o ∧ success o = true ∧
    line = trim (eo_stdout o).

(** An [--ensure] of [calls] found nothing runnable. *)
Definition missing (paths : RemotePaths) (calls : list call) : Prop :=
  ∃ o, answered calls (ensure_argv (rp_bin paths) (rp_socket paths) (rp_state_dir paths)) o ∧
    is_nothing_runnable (eo_exit_code o) = true.

Lemma ensure_harmless bin socket state_dir : harmless (Run (ensure_argv bin socket state_dir)).
Proof. cbn. eauto 10. Qed.

Lemma wpc_deploy_daemon paths l :
  wpc (deploy_daemon debug local_binary daemon_version paths)
    (λ _ more l', Forall harmless more ∧ only_calls more l l') l.
Proof.
  assert (Hasked : Forall harmless [Run ["uname"; "-sm"]]) by (apply Forall_singleton; cbn; auto).
  unfold deploy_daemon. apply wpc_bind_ok, wpc_probe. intros [platform|e] _; [|done].
  apply wpc_bind_ok, wpc_ret. rewrite app_nil_r.
  destruct (local_binary platform) as [[binary hash]|e]; [|done].
  apply wpc_bind_ok, wpc_ensure_daemon. intros r deployed Hd.
  assert (Hend : Forall harmless ([Run ["uname"; "-sm"]] ++ deployed) ∧
    only_calls ([Run ["uname"; "-sm"]] ++ deployed) l
      (with_calls (hl_calls (with_calls (hl_calls l ++ [Run ["uname"; "-sm"]]) l) ++ deployed)
         (with_calls (hl_calls l ++ [Run ["uname"; "-sm"]]) l))).
  { split; [by apply Forall_app_2|by eapply only_calls_app]. }
  destruct r; [|exact Hend]. apply wpc_ret. by rewrite app_nil_r.
Qed.

Lemma wpc_ensure_installed paths l :
  wpc (ensure_installed debug destination local_binary daemon_version paths) (λ r more l',
    Forall harmless more ∧ only_calls more l l' ∧
    (uploads more = [] ∨ missing paths (hl_calls l ++ more)) ∧
    (∀ line, r = Ok line → listening paths (hl_calls l ++ more) line)) l.
Proof.
  set (argv := ensure_argv (rp_bin paths) (rp_socket paths) (rp_state_dir paths)).
  assert (Hh : Forall harmless [Run argv]) by (apply Forall_singleton, ensure_harmless).
  apply wpc_bind_ok, wpc_ensure_once.
  - intros e. split_and!; [done..|by left|done].
  - intros o Ho Hn. set (l1 := with_calls _ l).
    assert (Hmiss : ∀ more, missing paths (hl_calls l ++ [Run argv] ++ more)).
    { intros more. exists o. split; [|done]. rewrite app_assoc. by apply answered_app, answered_last. }
    apply wpc_bind_ok. eapply wpc_mono; [apply wpc_deploy_daemon|]. intros r deployed l2 _ [Hd H12].
    assert (H02 : only_calls ([Run argv] ++ deployed) l l2) by by eapply only_calls_app.
    assert (Hc2 : hl_calls l2 = hl_calls l ++ [Run argv] ++ deployed) by by rewrite H02.
    assert (Hd2 : Forall harmless ([Run argv] ++ deployed)) by by apply Forall_app_2.
    destruct r as [[]|e]; [|split_and!; [done..|by right|done]].
    assert (Hall : Forall harmless ([Run argv] ++ deployed ++ [Run argv])).
    { rewrite app_assoc. by apply Forall_app_2. }
    assert (H03 : only_calls ([Run argv] ++ deployed ++ [Run argv]) l (with_calls (hl_calls l2 ++ [Run argv]) l2)).
    { rewrite app_assoc. by eapply only_calls_app. }
    apply wpc_bind_ok, wpc_ensure_once.
    + intros e. split_and!; [done..|by right|done].
    + intros o' Ho' _. apply wpc_ret. rewrite app_nil_r. split_and!; [done..|by right|done].
    + intros o' Ho' Hs. apply wpc_ret. rewrite app_nil_r. split_and!; [done..|by right|].
      intros line [= <-]. exists (hl_calls l2), o'. split_and!; [|done..].
      by rewrite Hc2, <- !app_assoc.
  - intros o Ho Hs. apply wpc_ret. rewrite app_nil_r. split_and!; [done..|by left|].
    intros line [= <-]. exists (hl_calls l), o. by split_and!.
Qed.

(** The paths become known, and nothing else changes. *)
Lemma wpc_known_paths l :
  wpc (known_paths destination) (λ r more l',
    Forall harmless more ∧ uploads more = [] ∧
    l' = set_state (hl_paths l') (hl_forward l) (hl_daemon_ensured l) (with_calls (hl_calls l ++ more) l) ∧
    (∀ paths, r = Ok paths → hl_paths l' = Some paths)) l.
Proof.
  unfold known_paths. apply wpc_bind, wpc_get. cbn [app].
  destruct (hl_paths l) as [paths|] eqn:Hp.
  { apply wpc_ret. split_and!; [done..| |by intros ? [= <-]]. rewrite app_nil_r. by destruct l. }
  assert (Hasked : Forall harmless [Run (shell HOME_COMMAND)]) by (apply Forall_singleton; by left).
  apply wpc_bind_ok. unfold remote_paths. apply wpc_bind_ok.
  apply (wpc_on_host (λ host, @exec host (shell HOME_COMMAND))); [apply shifts_exec|]. apply wp_asked.
  cbn [app]. destruct (host_run _ _) as [o|e]; [apply wpc_ret; destruct (_ || _)|]; rewrite ?app_nil_r.
  1,3: by split_and!.
  apply wpc_bind, wpc_modify; [done|]. apply wpc_ret. rewrite app_nil_r. split_and!; [done..|by intros ? [= <-]].
Qed.

Lemma set_state_paths p f e l : hl_paths (set_state p f e l) = p.
Proof. done. Qed.

(** The forward is established, or not. *)
Lemma wpc_establish (line : option string) l (Q : result string (option string) → list call → HostLink → Prop) :
  Q (Ok line) [] (set_state (hl_paths l) true (hl_daemon_ensured l) l) →
  (∀ e, Q (Err e) [] (set_state (hl_paths l) false (hl_daemon_ensured l) l)) →
  wpc (st_modify (λ l, set_state (hl_paths l) false (hl_daemon_ensured l) l);;
       l ← st_get;
       match establish (hl_calls l) with
       | Ok _ => st_modify (λ l, set_state (hl_paths l) true (hl_daemon_ensured l) l);; mret (Ok line)
       | Err e => mret (Err ("forwarding the daemon socket on " +:+ destination +:+ ": " +:+ e))
       end) Q l.
Proof.
  intros Hok Herr. apply wpc_bind, wpc_modify; [done|]. apply wpc_bind, wpc_get. cbn [app hl_calls set_state].
  destruct (establish (hl_calls l)) as [[]|e]; [|apply wpc_ret, Herr].
  apply wpc_bind, wpc_modify; [done|]. apply wpc_ret, Hok.
Qed.

End Connecting.

(** ** Upgrading *)

Section Upgrading.
Context `{host : HostExec} (debug : string → string) (destination : string)
  (local_binary : HostPlatform → result string (list Z * string)) (daemon_version : Version)
  (shutdown : list call → shutdown_channel).

Definition kill_command (paths : RemotePaths) : list string :=
  shell (pre_cut_kill_script (rp_state_dir paths) (rp_socket paths)).

(** The daemon said it would exit, or was too old to and was killed: what the shutdown
    request made after [before] came to, [asked] being asked for it. *)
Definition stopped (paths : RemotePaths) (before asked : list call) : Prop :=
  match shutdown before with
  | Answers frames _ => asked = [Run (proxy_command paths)] ∧
      ∃ skipped rid rest, frames = skipped ++ Frame_ShutdownAck rid :: rest ∧
        Forall (λ f, match f with
                     | Frame_ShutdownAck _ | Frame_Error _ _ _ _ (Some 1) => False
                     | _ => True
                     end) skipped
  | PreCutDaemon => asked = [Run (proxy_command paths); Run (kill_command paths)] ∧
      ∃ o, host_run (before ++ [Run (proxy_command paths)]) (kill_command paths) = Ok o ∧ success o = true
  | _ => False
  end.

Lemma shutdown_answer_ok frames ended : shutdown_answer frames ended = Ok () →
  ∃ skipped rid rest, frames = skipped ++ Frame_ShutdownAck rid :: rest ∧
    Forall (λ f, match f with
                 | Frame_ShutdownAck _ | Frame_Error _ _ _ _ (Some 1) => False
                 | _ => True
                 end) skipped.
Proof.
  induction frames as [|f frames IH]; [done|]. cbn [shutdown_answer]. intros Ha.
  assert (Hack : (∃ rid, f = Frame_ShutdownAck rid) ∨
    match f with
    | Frame_ShutdownAck _ | Frame_Error _ _ _ _ (Some 1) => False
    | _ => shutdown_answer frames ended = Ok ()
    end).
  { destruct f; eauto. repeat case_match; eauto; discriminate. }
  destruct Hack as [[rid ->]|Hf]; [by eexists [], rid, frames|].
  destruct (IH ltac:(repeat case_match; done)) as (skipped & rid & rest & -> & Hs).
  exists (f :: skipped), rid, rest. split; [done|]. constructor; [by repeat case_match|done].
Qed.

Lemma wpc_request_shutdown paths l :
  wpc (request_shutdown destination shutdown paths) (λ r asked l',
    only_calls asked l l' ∧ uploads asked = [] ∧ head asked = Some (Run (proxy_command paths)) ∧
    (r = Ok () → stopped paths (hl_calls l) asked)) l.
Proof.
  unfold request_shutdown. apply wpc_bind, wpc_get. apply wpc_bind.
  exists [Run (proxy_command paths)]. split; [done|]. cbn [app].
  set (l1 := snd _). assert (Hl1 : only_calls [Run (proxy_command paths)] l l1) by done.
  destruct (shutdown (hl_calls l)) as [e| |e|frames ended] eqn:Hs.
  1,3: by apply wpc_ret.
  - unfold kill_pre_cut_daemon. apply wpc_bind_ok.
    apply (wpc_on_host (λ host, @exec host (kill_command paths))); [apply shifts_exec|]. apply wp_asked.
    cbn [app host_run host_after]. rewrite app_nil_r.
    assert (Hl2 : only_calls [Run (proxy_command paths); Run (kill_command paths)] l
      (with_calls (hl_calls l1 ++ [Run (kill_command paths)]) l1)).
    { by eapply (only_calls_app [_] [_]). }
    destruct (host_run (hl_calls l1) (kill_command paths)) as [o|e] eqn:Ho; [apply wpc_ret|done].
    split_and!; [done..|]. destruct (success o) eqn:Hok; [|done]. intros _. unfold stopped. rewrite Hs. eauto.
  - apply wpc_ret. split_and!; [done..|]. intros Ha. unfold stopped. rewrite Hs.
    split; [done|]. by eapply shutdown_answer_ok.
Qed.

Definition failed {A} (r : result string A) : bool := match r with Ok _ => false | Err _ => true end.

(** Replacing writes, if it succeeds. *)
Lemma replace_daemon_writes (host' : HostExec) config calls e :
  (@replace_daemon host' config calls).1 = Ok e → wrote_binary (de_outcome e) = true.
Proof.
  enough (H : wp (@replace_daemon host' config) (λ r _, ∀ e, r = Ok e → wrote_binary (de_outcome e) = true) calls) by apply H.
  apply wp_bind_ok, wp_home_for. intros [home|?] asked _; [|done].
  apply wp_bind_ok. unfold daemon_socket_exists. apply wp_bind_ok, wp_asked.
  destruct (host_run _ _) as [o|?]; [|done]. apply wp_ret. destruct (success o); [by apply wp_ret|].
  apply wp_bind_ok, wp_asked. destruct (host_run _ _) as [o'|?]; [|done].
  apply wp_bind_ok, wp_install; [done|]. destruct (host_upload _ _ _); [|done]. by apply wp_ret; intros ? [= <-].
Qed.

(** What is asked of a host whose daemon is another build: the daemon is asked to exit
    ([asked]), and only once it said so, or was killed, the binary there is replaced
    ([written]), and only once no socket was left. [err] says that it was not. *)
Definition replacement (paths : RemotePaths) (binary : list Z) (before asked written : list call)
    (err : bool) : Prop :=
  head asked = Some (Run (proxy_command paths)) ∧ uploads asked = [] ∧
  (written ≠ [] → stopped paths before asked) ∧
  (err = true ∧ uploads written = [] ∨
   ∃ home checked,
     written = checked ++ [Upload binary (expand_home (rp_bin paths) home)] ∧ uploads checked = [] ∧
     @no_socket (host_after host (before ++ asked)) (expand_home (rp_socket paths) home) written ∧
     (err = false ↔ host_upload (before ++ asked ++ checked) binary (expand_home (rp_bin paths) home) = Ok ())).

Lemma wpc_replace_daemon paths binary asked before l (Q : result string DaemonEndpoint → list call → HostLink → Prop) :
  hl_calls l = before ++ asked → head asked = Some (Run (proxy_command paths)) → uploads asked = [] →
  stopped paths before asked →
  (∀ r written, replacement paths binary before asked written (failed r) →
     Q r written (with_calls (hl_calls l ++ written) l)) →
  wpc (on_host (replace_daemon (deploy_config daemon_version binary paths))) Q l.
Proof.
  intros Hl Hhead Hup Hstopped HQ.
  apply (wpc_on_host (λ host, @replace_daemon host (deploy_config daemon_version binary paths)));
    [apply shifts_replace_daemon|].
  pose proof (@replace_daemon_spares (host_after host (hl_calls l)) (deploy_config daemon_version binary paths)) as Hspares.
  pose proof (replace_daemon_writes (host_after host (hl_calls l)) (deploy_config daemon_version binary paths) []) as Hwrites.
  unfold wp in *. destruct (@replace_daemon (host_after host (hl_calls l)) (deploy_config daemon_version binary paths) []) as [r written]. cbn [fst snd] in *. apply HQ.
  split_and!; [done..|]. destruct Hspares as (home & _ & [[Hu Hw]|[Hfree (checked & -> & Hu & Hr)]]).
  - left. split; [|done]. destruct r as [e|e]; [|done].
    specialize (Hw e eq_refl). by rewrite (Hwrites e eq_refl) in Hw.
  - right. exists home, checked. split_and!; [done..| |]; cbn [deploy_config dc_socket_path dc_bin_path dc_binary] in *.
    + by rewrite <- Hl.
    + rewrite app_assoc, <- Hl. destruct r as [e|e]; cbn [host_upload host_after] in Hr.
      * destruct Hr as (_ & _ & Hr). by rewrite Hr.
      * rewrite Hr. by split.
Qed.

Lemma wpc_note_comparison local_hash remote_hash (Q : bool → list call → HostLink → Prop) l :
  (∀ l', hl_calls l' = hl_calls l → hl_paths l' = hl_paths l →
     hl_freshness l' = (if decide (local_hash = remote_hash) then FRESHNESS_CURRENT else FRESHNESS_STALE) →
     Q (if decide (local_hash = remote_hash) then false else true) [] l') →
  wpc (note_comparison local_hash remote_hash) Q l.
Proof.
  intros HQ. unfold note_comparison, note_hash_verdict. apply wpc_bind, wpc_modify; [done|].
  apply wpc_bind, wpc_modify; [done|]. apply wpc_ret. cbn [app].
  specialize (HQ (set_freshness (if decide (local_hash = remote_hash) then FRESHNESS_CURRENT else FRESHNESS_STALE)
    (hl_generation l) (Some remote_hash)
    (if hl_freshness l =? (if decide (local_hash = remote_hash) then FRESHNESS_CURRENT else FRESHNESS_STALE)
     then hl_announced l else S (hl_announced l)) l) eq_refl eq_refl eq_refl).
  destruct (decide (local_hash = remote_hash));
    [rewrite bool_decide_eq_true_2 by done|rewrite bool_decide_eq_false_2 by done]; exact HQ.
Qed.

(** The upgrade, from the comparison on. *)
Lemma wpc_upgrade_to_local_binary paths remote_hash platform l :
  wpc (upgrade_to_local_binary destination local_binary daemon_version shutdown paths remote_hash platform)
    (λ r more l', hl_paths l' = hl_paths l ∧
       match local_binary platform with
       | Err e => r = Err e ∧ more = []
       | Ok (binary, local_hash) =>
           if decide (local_hash = remote_hash)
           then r = Ok UpToDate ∧ more = [] ∧ hl_freshness l' = FRESHNESS_CURRENT
           else r ≠ Ok UpToDate ∧
             hl_freshness l' = (if failed r then FRESHNESS_STALE else FRESHNESS_CURRENT) ∧
             ∃ asked written, more = asked ++ written ∧
               replacement paths binary (hl_calls l) asked written (failed r)
       end) l.
Proof.
  unfold upgrade_to_local_binary. apply wpc_bind_ok, wpc_ret.
  destruct (local_binary platform) as [[binary local_hash]|e]; [|done].
  apply wpc_bind, wpc_note_comparison. intros l1 Hc1 Hp1 Hf1.
  destruct (decide (local_hash = remote_hash)) as [|Hne]; cbn [negb]; [by apply wpc_ret|].
  apply wpc_bind_ok. eapply wpc_mono; [apply wpc_request_shutdown|].
  intros r asked l2 Hc2 (Hl2 & Hup & Hhead & Hstopped). cbn [app].
  assert (Hkept : hl_paths l2 = hl_paths l1 ∧ hl_freshness l2 = hl_freshness l1) by by rewrite Hl2.
  destruct Hkept as [Hp2 Hf2]. rewrite Hp1 in Hp2. rewrite Hf1 in Hf2.
  destruct r as [[]|e].
  2: { split; [done|]. split_and!; [done..|]. exists asked, []. rewrite app_nil_r. split; [done|].
       split_and!; [done..|by left]. }
  specialize (Hstopped eq_refl). rewrite Hc1 in Hc2, Hstopped.
  apply wpc_bind_ok. eapply wpc_replace_daemon; [exact Hc2|done..|]. intros r written Hrep.
  destruct r as [endpoint|e]; cbn [app].
  - apply wpc_bind, wpc_note_comparison. intros l3 Hc3 Hp3 Hf3. rewrite decide_True in Hf3 by done.
    apply wpc_ret. cbn [app]. rewrite !app_nil_r. split; [by rewrite Hp3|]. split_and!; [done..|eauto].
  - split; [done|]. split_and!; [done..|eauto].
Qed.

(** The host's platform is the daemon's, or else what [uname] says. *)
Definition platform_known (line : string) (platform : HostPlatform) (calls : list call) : Prop :=
  match daemon_platform line with
  | Some p => platform = p
  | None => ∃ o, answered calls ["uname"; "-sm"] o ∧ parse_uname debug (eo_stdout o) = Ok platform
  end.

Lemma wpc_host_platform line l (Q : result string HostPlatform → list call → HostLink → Prop) :
  (∀ r asked, Forall harmless asked →
     (∀ platform, r = Ok platform → platform_known line platform (hl_calls l ++ asked)) →
     Q r asked (with_calls (hl_calls l ++ asked) l)) →
  wpc (host_platform debug line) Q l.
Proof.
  intros HQ. unfold host_platform, platform_known in *. destruct (daemon_platform line) as [p|].
  - apply wpc_ret. specialize (HQ (Ok p) []). rewrite app_nil_r in HQ.
    assert (Hl : with_calls (hl_calls l) l = l) by by destruct l. rewrite Hl in HQ.
    apply HQ; [done|by intros ? [= ->]].
  - apply wpc_probe. intros r Hr. apply HQ; [by apply Forall_singleton; cbn; auto|].
    intros platform ->. destruct (Hr _ eq_refl) as (o & Ho & _ & Hp). exists o. split; [by apply answered_last|done].
Qed.

(** The build found on the host and the one this client would deploy. *)
Record compared (calls : list call) (paths : RemotePaths) (remote_hash : string) (binary : list Z)
    (local_hash : string) : Prop := {
  compared_line : ∃ before line platform, before `prefix_of` calls ∧ listening paths before line ∧
    daemon_hash line = Some remote_hash ∧ platform_known line platform calls ∧
    local_binary platform = Ok (binary, local_hash)
}.

(** The host's daemon was of another build, and this is what was done about it. *)
Definition swapped (connected : list call) (r : result string DaemonUpgradeOutcome) (upgrade : list call)
    (l' : HostLink) : Prop :=
  ∃ paths remote_hash binary local_hash asked written err,
    hl_paths l' = Some paths ∧ compared connected paths remote_hash binary local_hash ∧
    local_hash ≠ remote_hash ∧ replacement paths binary connected asked written err ∧
    hl_freshness l' = (if err then FRESHNESS_STALE else FRESHNESS_CURRENT) ∧
    upgrade = asked ++ written ++
      (if err : bool then []
       else [Run (ensure_argv (rp_bin paths) (rp_socket paths) (rp_state_dir paths))]) ∧
    (failed r = false → err = false ∧ ∃ line, listening paths (hl_calls l') line).

(** How an upgrade may end, after what was asked to connect. *)
Definition upgrade_ended (connected : list call) (r : result string DaemonUpgradeOutcome) (upgrade : list call)
    (l' : HostLink) : Prop :=
  match r with
  | Ok UpToDate => upgrade = [] ∧ hl_freshness l' = FRESHNESS_CURRENT ∧
      ∃ paths hash binary, hl_paths l' = Some paths ∧ compared connected paths hash binary hash
  | Ok Upgraded => swapped connected r upgrade l'
  | Err _ => upgrade = [] ∨ swapped connected r upgrade l'
  end.

(** The upgrade of a host that is connected to. *)
Lemma wpc_swap paths remote_hash platform l :
  hl_paths l = Some paths →
  (∀ binary local_hash, local_binary platform = Ok (binary, local_hash) →
     compared (hl_calls l) paths remote_hash binary local_hash) →
  wpc (outcome ←? upgrade_to_local_binary destination local_binary daemon_version shutdown paths remote_hash platform;
       match outcome with
       | Upgraded => _ ←? ensure_after_upgrade destination paths; mret (Ok Upgraded)
       | UpToDate => mret (Ok UpToDate)
       end) (upgrade_ended (hl_calls l)) l.
Proof.
  intros Hp Hcompared. apply wpc_bind_ok. eapply wpc_mono; [apply wpc_upgrade_to_local_binary|].
  intros r upgrade l1 Hc1 [Hp1 Hup]. rewrite Hp in Hp1.
  destruct (local_binary platform) as [[binary local_hash]|e] eqn:Hlocal.
  2: { destruct Hup as [-> ->]. by left. }
  specialize (Hcompared _ _ eq_refl). case_decide as Hsame.
  { destruct Hup as (-> & -> & Hf). apply wpc_ret. split; [done|]. split; [done|].
    exists paths, remote_hash, binary. by rewrite Hsame in Hcompared. }
  destruct Hup as (Hr & Hf & answers & written & -> & Hrep).
  destruct r as [[]|e]; [|done|].
  2: { right. exists paths, remote_hash, binary, local_hash, answers, written, true.
       split_and!; [done..|by rewrite app_nil_r|done]. }
  apply wpc_bind_ok. unfold ensure_after_upgrade. apply wpc_bind_ok.
  set (ensure := Run (ensure_argv (rp_bin paths) (rp_socket paths) (rp_state_dir paths))).
  assert (Hgood : ∀ r l2, r ≠ Ok UpToDate → hl_paths l2 = Some paths → hl_freshness l2 = FRESHNESS_CURRENT →
    (failed r = false → ∃ line, listening paths (hl_calls l2) line) →
    upgrade_ended (hl_calls l) r (answers ++ written ++ [ensure]) l2).
  { intros r l2 Hne Hp2 Hf2 Hlisten.
    assert (Hend : swapped (hl_calls l) r (answers ++ written ++ [ensure]) l2).
    { exists paths, remote_hash, binary, local_hash, answers, written, false. split_and!; try done. auto. }
    destruct r as [[]|e]; [exact Hend|done|by right]. }
  apply wpc_ensure_once; fold ensure.
  - intros e. rewrite <- !app_assoc. by apply Hgood.
  - intros o _ _. apply wpc_ret. rewrite app_nil_r, <- !app_assoc. by apply Hgood.
  - intros o Ho Hs. apply wpc_ret, wpc_ret. rewrite !app_nil_r, <- !app_assoc. apply Hgood; [done..|].
    intros _. exists (trim (eo_stdout o)), (hl_calls l1), o. by split_and!.
Qed.

End Upgrading.

(** ** What the sidebar is told *)

Definition verdict (local_hash remote_hash : string) : Z :=
  if decide (local_hash = remote_hash) then FRESHNESS_CURRENT else FRESHNESS_STALE.

(** A connect whose probe, if it spawns one, ends before anything else. *)
Definition connect_and_probe (local_hash : result string string) (ensure_line : string) : st HostLink () :=
  probe ← note_freshness ensure_line;
  match probe with
  | Some (generation, remote_hash) => note_probe generation remote_hash local_hash
  | None => mret ()
  end.

(** The verdict held is of the hash it was compared against. *)
Definition verdict_held (local_hash : string) (l : HostLink) : Prop :=
  ∀ remote_hash, hl_compared_hash l = Some remote_hash → hl_freshness l = verdict local_hash remote_hash.

Lemma note_comparison_state local_hash remote_hash l :
  let l' := (note_comparison local_hash remote_hash l).2 in
  hl_freshness l' = verdict local_hash remote_hash ∧ hl_compared_hash l' = Some remote_hash ∧
  hl_generation l' = hl_generation l ∧
  hl_announced l' = (if decide (hl_freshness l = verdict local_hash remote_hash)
                     then hl_announced l else S (hl_announced l)).
Proof.
  unfold note_comparison, verdict. destruct (decide (local_hash = remote_hash));
    [rewrite bool_decide_eq_true_2 by done|rewrite bool_decide_eq_false_2 by done];
    rewrite !st_bind_unfold; unfold note_hash_verdict, st_modify; cbn -[Z.eqb FRESHNESS_CURRENT FRESHNESS_STALE];
    (split_and!; [done..|]); destruct (Z.eqb_spec (hl_freshness l) FRESHNESS_CURRENT);
    destruct (Z.eqb_spec (hl_freshness l) FRESHNESS_STALE); by repeat case_decide.
Qed.

Lemma connect_and_probe_hash local_hash line remote_hash l :
  verdict_held local_hash l → daemon_hash line = Some remote_hash →
  let l' := (connect_and_probe (Ok local_hash) line l).2 in
  verdict_held local_hash l' ∧ hl_freshness l' = verdict local_hash remote_hash ∧
  hl_announced l' = (if decide (hl_freshness l = verdict local_hash remote_hash)
                     then hl_announced l else S (hl_announced l)).
Proof.
  intros Hheld Hhash. unfold connect_and_probe. rewrite st_bind_unfold. unfold note_freshness. rewrite Hhash.
  rewrite st_bind_unfold. cbn [fst snd st_get].
  destruct (decide (hl_compared_hash l = Some remote_hash)) as [Hc|Hc].
  - rewrite bool_decide_eq_true_2 by done. cbn [fst snd mret st_ret]. specialize (Hheld _ Hc) as Hf.
    split_and!; [done..|]. by rewrite decide_True.
  - rewrite bool_decide_eq_false_2 by done. cbv zeta. rewrite st_bind_unfold. cbn [fst snd st_put mret st_ret].
    set (l1 := set_freshness _ _ _ _ _). unfold note_probe. rewrite st_bind_unfold. cbn [fst snd st_get].
    rewrite Z.eqb_refl. cbn [negb]. rewrite st_bind_unfold.
    pose proof (note_comparison_state local_hash remote_hash l1) as (Hf & Hcomp & _ & Ha).
    destruct (note_comparison _ _ l1) as [s l2]. cbn [fst snd mret st_ret] in *.
    split_and!; [|done|exact Ha]. intros h Hh. rewrite Hcomp in Hh. by injection Hh as <-.
Qed.

(** The lines' hashes, and how often the verdict changes along them. *)
Fixpoint changes (local_hash : string) (held : Z) (hashes : list string) : nat :=
  match hashes with
  | [] => 0
  | h :: hashes =>
      (if decide (held = verdict local_hash h) then 0 else 1) + changes local_hash (verdict local_hash h) hashes
  end.

(** While one probe ends before the next connect, and every daemon met reports a
    hash, the sidebar offers an upgrade exactly when the daemon met last runs another
    build than this client's, whatever daemons were met before; and it is told once for
    each change, not once for each connect. *)
Theorem the_verdict_is_of_the_last_daemon local_hash lines hashes l :
  map daemon_hash lines = map Some hashes → verdict_held local_hash l →
  let l' := foldl (λ l line, (connect_and_probe (Ok local_hash) line l).2) l lines in
  verdict_held local_hash l' ∧
  hl_announced l' = (hl_announced l + changes local_hash (hl_freshness l) hashes)%nat ∧
  ∀ remote_hash, last hashes = Some remote_hash →
    (daemon_stale l' = true ↔ local_hash ≠ remote_hash).
Proof.
  intros Hmap Hheld l'.
  enough (H : verdict_held local_hash l' ∧
    hl_announced l' = (hl_announced l + changes local_hash (hl_freshness l) hashes)%nat ∧
    hl_freshness l' = default (hl_freshness l) (verdict local_hash <$> last hashes)).
  { destruct H as (H1 & H2 & H3). split_and!; [done..|]. intros h Hl. rewrite Hl in H3. cbn in H3.
    unfold daemon_stale. rewrite H3. unfold verdict. by case_decide. }
  subst l'. revert hashes l Hmap Hheld. induction lines as [|line lines IH]; intros [|h hashes] l Hmap Hheld;
    [|done..|].
  { cbn. split_and!; [done|lia|done]. }
  injection Hmap as Hline Hmap. destruct (connect_and_probe_hash local_hash line h l Hheld Hline) as (Hh & Hf & Ha).
  cbn [foldl]. destruct (IH hashes _ Hmap Hh) as (H1 & H2 & H3). split_and!; [exact H1| |].
  - rewrite H2, Ha, Hf. cbn [changes]. case_decide; lia.
  - rewrite H3, Hf, last_cons. by destruct (last hashes).
Qed.

(** *** Connects and probes that overlap

    [compared_hash] is not cleared by the verdict on a daemon that reports no hash, and a
    connect that finds its hash there leaves a running probe the newest. *)

Definition runs {A} (m : st HostLink A) (l : HostLink) : HostLink := (m l).2.

Lemma connected_first local_hash line_a :
  daemon_hash line_a = Some local_hash →
  let l := runs (connect_and_probe (Ok local_hash) line_a) link_new in
  hl_freshness l = FRESHNESS_CURRENT ∧ hl_compared_hash l = Some local_hash ∧ hl_generation l = 1.
Proof.
  intros Ha. unfold runs, connect_and_probe. rewrite st_bind_unfold. unfold note_freshness. rewrite Ha.
  rewrite st_bind_unfold. cbn [fst snd st_get]. rewrite bool_decide_eq_false_2 by done. cbv zeta.
  rewrite st_bind_unfold. cbn [fst snd st_put mret st_ret]. unfold note_probe. rewrite st_bind_unfold.
  cbn [fst snd st_get]. rewrite Z.eqb_refl. cbn [negb]. rewrite st_bind_unfold.
  set (l1 := set_freshness _ _ _ _ _).
  pose proof (note_comparison_state local_hash local_hash l1) as (Hf & Hc & Hg & _).
  unfold verdict in Hf. rewrite decide_True in Hf by done.
  destruct (note_comparison _ _ l1) as [s l2]. cbn [fst snd mret st_ret] in *. by rewrite Hg.
Qed.

(** A daemon that runs this client's build is offered an upgrade: it was met before, then
    one that reports no hash in its place, and now it is back; and a connect to it again
    changes nothing. *)
Lemma a_daemon_met_again_stays_behind local_hash line_a line_old :
  daemon_hash line_a = Some local_hash → daemon_hash line_old = None →
  let l := runs (connect_and_probe (Ok local_hash) line_a) link_new in
  let l := runs (connect_and_probe (Ok local_hash) line_old) l in
  let l' := runs (connect_and_probe (Ok local_hash) line_a) l in
  daemon_stale l' = true ∧ l' = l.
Proof.
  intros Ha Hold l0 l. destruct (connected_first local_hash line_a Ha) as (_ & Hc & _). fold l0 in Hc.
  assert (Hl : hl_freshness l = FRESHNESS_STALE ∧ hl_compared_hash l = hl_compared_hash l0).
  { unfold l, runs, connect_and_probe. rewrite st_bind_unfold. unfold note_freshness. by rewrite Hold. }
  destruct Hl as [Hf Hl]. rewrite Hc in Hl. cbv zeta. clearbody l.
  enough (He : runs (connect_and_probe (Ok local_hash) line_a) l = l).
  { rewrite He. split; [|done]. unfold daemon_stale. by rewrite Hf. }
  unfold runs, connect_and_probe. rewrite st_bind_unfold. unfold note_freshness. rewrite Ha.
  rewrite st_bind_unfold. cbn [fst snd st_get]. by rewrite bool_decide_eq_true_2.
Qed.

(** A probe of another daemon that ends after a connect to this one judges this one. *)
Lemma a_late_probe_judges_another_daemon local_hash other_hash line_a line_b :
  daemon_hash line_a = Some local_hash → daemon_hash line_b = Some other_hash → local_hash ≠ other_hash →
  let l := runs (connect_and_probe (Ok local_hash) line_a) link_new in
  let '(probe_b, l) := note_freshness line_b l in
  let '(probe_a, l) := note_freshness line_a l in
  daemon_stale l = false ∧ probe_a = None ∧
  ∃ generation, probe_b = Some (generation, other_hash) ∧
    daemon_stale (runs (note_probe generation other_hash (Ok local_hash)) l) = true.
Proof.
  intros Ha Hb Hne l0. destruct (connected_first local_hash line_a Ha) as (Hf & Hc & _).
  fold l0 in Hf, Hc. clearbody l0. unfold note_freshness. rewrite Ha, Hb.
  rewrite !st_bind_unfold. cbn [fst snd st_get]. rewrite bool_decide_eq_false_2 by (rewrite Hc; congruence).
  cbv zeta. rewrite st_bind_unfold. cbn [fst snd st_put mret st_ret].
  rewrite st_bind_unfold. cbn [fst snd st_get].
  set (l1 := set_freshness _ _ _ _ _). rewrite bool_decide_eq_true_2 by exact Hc. cbn [mret st_ret].
  assert (Hf1 : hl_freshness l1 = FRESHNESS_CURRENT) by exact Hf.
  split; [unfold daemon_stale; by rewrite Hf1|]. split; [done|]. eexists. split; [done|].
  unfold runs, note_probe. rewrite st_bind_unfold. cbn [fst snd st_get]. rewrite Z.eqb_refl. cbn [negb].
  rewrite st_bind_unfold. pose proof (note_comparison_state local_hash other_hash l1) as (Hf2 & _).
  destruct (note_comparison _ _ l1) as [s l2]. cbn [fst snd mret st_ret] in *.
  unfold verdict in Hf2. rewrite decide_False in Hf2 by done. unfold daemon_stale. by rewrite Hf2.
Qed.

(** C35. The verdict can be of another daemon than the one connected to. A daemon of this
    client's build that was met before is called behind after one without a hash took its
    place for a while, and connecting to it again does not correct that; and a probe of
    another daemon that ends after a connect to this one calls this one behind. *)
Theorem the_verdict_can_be_of_another_daemon local_hash other_hash line_a line_b line_old :
  daemon_hash line_a = Some local_hash → daemon_hash line_old = None →
  daemon_hash line_b = Some other_hash → local_hash ≠ other_hash →
  let l0 := runs (connect_and_probe (Ok local_hash) line_a) link_new in
  (let l := runs (connect_and_probe (Ok local_hash) line_old) l0 in
   let l' := runs (connect_and_probe (Ok local_hash) line_a) l in
   daemon_stale l' = true ∧ l' = l) ∧
  (let '(probe_b, l) := note_freshness line_b l0 in
   let '(probe_a, l) := note_freshness line_a l in
   daemon_stale l = false ∧ probe_a = None ∧
   ∃ generation, probe_b = Some (generation, other_hash) ∧
     daemon_stale (runs (note_probe generation other_hash (Ok local_hash)) l) = true).
Proof.
  intros Ha Hold Hb Hne. split; [by apply a_daemon_met_again_stays_behind|by apply a_late_probe_judges_another_daemon].
Qed.

Lemma the_verdict_can_be_of_another_daemon_witness :
  daemon_stale (runs (connect_and_probe (Ok "ab") "ade-daemon 0.2.0 hash=ab")
    (runs (connect_and_probe (Ok "ab") "ade-daemon 0.1.0")
      (runs (connect_and_probe (Ok "ab") "ade-daemon 0.2.0 hash=ab") link_new))) = true.
Proof.
  refine (proj1 (proj1 (the_verdict_can_be_of_another_daemon "ab" "cd" "ade-daemon 0.2.0 hash=ab" "hash=cd"
    "ade-daemon 0.1.0" _ _ _ _))); [reflexivity..|discriminate].
Defined.

Lemma the_verdict_is_of_the_last_daemon_witness :
  let lines := ["ade-daemon 0.1.0 hash=cd"; "ade-daemon 0.2.0 hash=ab platform=x86_64-unknown-linux-musl"; "hash=ab"] in
  let l := foldl (λ l line, (connect_and_probe (Ok "ab") line l).2) link_new lines in
  daemon_stale l = false ∧ hl_announced l = 2%nat.
Proof.
  intros lines l.
  destruct (the_verdict_is_of_the_last_daemon "ab" lines ["cd"; "ab"; "ab"] link_new) as (_ & Ha & Hs);
    [reflexivity|intros h [=]|]. fold l in Ha, Hs. split; [|exact Ha].
  destruct (daemon_stale l) eqn:Hl; [|done]. destruct (proj1 (Hs "ab" eq_refl) eq_refl). done.
Defined.
