(* ===== verification/Events.v ===== *)
(** * The event stream of a daemon

    [stream_status] of [crates/ade_workspaces/src/daemon_backend.rs]: one connection
    after the other subscribes, lists, and translates what the daemon pushes into the
    events of [session_backend.rs], which name workspaces. The connection's frames are
    an argument, and so is whether anybody still listens. *)

From S2P Require Import Prelude Text Layout Proto Panes Sync.
From stdpp Require Import options.
Open Scope Z_scope.

(** ** Data *)

Inductive WorkspaceStatus : Type :=
| Workspace_Creating | Workspace_Running | Workspace_Disconnected | Workspace_Stopped | Workspace_Error.

#[export] Instance WorkspaceStatus_eq_dec : EqDecision WorkspaceStatus.
Proof. solve_decision. Defined.

Definition workspace_status_str (s : WorkspaceStatus) : string :=
  match s with
  | Workspace_Creating => "creating" | Workspace_Running => "running"
  | Workspace_Disconnected => "disconnected" | Workspace_Stopped => "stopped" | Workspace_Error => "error"
  end.

Definition workspace_status_from_str (s : string) : result string WorkspaceStatus :=
  if decide (s = "creating") then Ok Workspace_Creating
  else if decide (s = "running") then Ok Workspace_Running
  else if decide (s = "disconnected") then Ok Workspace_Disconnected
  else if decide (s = "stopped") then Ok Workspace_Stopped
  else if decide (s = "error") then Ok Workspace_Error
  else Err ("unknown workspace status: " +:+ s).

Inductive SessionChange : Type :=
| Change_Created (status : WorkspaceStatus)
| Change_Status (status : WorkspaceStatus)
| Change_Exited
| Change_Removed.

Record StatusEvent : Type := mkStatusEvent { se_id : string; se_change : SessionChange }.

Inductive DaemonEvent : Type :=
| Event_Session (event : StatusEvent)
| Event_Layout (event : LayoutEvent)
| Event_WorkspaceChanged (event : LayoutEvent)
| Event_WorkspaceReset (event : LayoutEvent)
| Event_WorkspaceRemoved (workspace_id : string).

Record IdentifiedDaemonEvent : Type := mkIdentifiedDaemonEvent {
  ie_daemon_id : option string;
  ie_event : DaemonEvent
}.

(** [SessionChange::status]. *)
Definition change_status (c : SessionChange) : option WorkspaceStatus :=
  match c with
  | Change_Created status | Change_Status status => Some status
  | Change_Exited | Change_Removed => None
  end.

(** ** Reconnecting *)

(** Milliseconds. *)
Definition FIRST_RESUBSCRIBE_DELAY : Z := 1000.
Definition MAX_RESUBSCRIBE_DELAY : Z := 30000.

Definition next_resubscribe_delay (delay : Z) : Z := Z.min (delay * 2) MAX_RESUBSCRIBE_DELAY.

(** ** Sessions and their workspaces *)

Record SessionJoin : Type := mkSessionJoin {
  sj_workspaces : gmap string string;
  sj_live : gset string
}.

Definition join_default : SessionJoin := mkSessionJoin ∅ ∅.

Definition note (id workspace_id : string) (alive : bool) (j : SessionJoin) : SessionJoin :=
  mkSessionJoin
    (if decide (workspace_id = "") then sj_workspaces j else <[id := workspace_id]> (sj_workspaces j))
    (if alive then {[id]} ∪ sj_live j else sj_live j ∖ {[id]}).

Definition alive (s : SessionStatus) : bool := bool_decide (s ≠ Exited).

Definition from_listing (sessions : list SessionInfo) : SessionJoin :=
  foldl (λ j s, note (si_id s) (si_workspace_id s) (alive (si_status s)) j) join_default sessions.

Definition forget (id : string) (j : SessionJoin) : SessionJoin :=
  mkSessionJoin (delete id (sj_workspaces j)) (sj_live j ∖ {[id]}).

Definition workspace_of (id : string) (j : SessionJoin) : option string := sj_workspaces j !! id.

Definition seam_id (id fallback : string) (j : SessionJoin) : string :=
  match workspace_of id j with
  | Some workspace => if decide (workspace = "") then if decide (fallback = "") then id else fallback else workspace
  | None => if decide (fallback = "") then id else fallback
  end.

Definition any_live_in (workspace : string) (j : SessionJoin) : bool :=
  existsb (λ id, bool_decide (workspace_of id j = Some workspace)) (elements (sj_live j)).

Definition after_death (workspace : option string) (death : SessionChange) (j : SessionJoin) : SessionChange :=
  match workspace with
  | Some workspace => if any_live_in workspace j then Change_Status Workspace_Running else death
  | None => death
  end.

Definition workspace_status (s : SessionStatus) : WorkspaceStatus :=
  match s with
  | Working | NeedsInput | Idle => Workspace_Running
  | Exited => Workspace_Disconnected
  end.

Definition status_event (frame : Frame) (j : SessionJoin) : option DaemonEvent * SessionJoin :=
  match frame with
  | Frame_Created session _ _ =>
      let seam := seam_id (si_id session) (si_workspace_id session) j in
      let first := negb (any_live_in (si_workspace_id session) j) in
      let status := workspace_status (si_status session) in
      (Some (Event_Session (mkStatusEvent seam (if first then Change_Created status else Change_Status status))),
       note (si_id session) (si_workspace_id session) (alive (si_status session)) j)
  | Frame_Status session_id status _ =>
      let seam := seam_id session_id "" j in
      let workspace := workspace_of session_id j in
      let j' := note session_id (default "" workspace) (alive status) j in
      let change := Change_Status (workspace_status status) in
      (Some (Event_Session (mkStatusEvent seam (if alive status then change else after_death workspace change j'))), j')
  | Frame_Exited session_id _ =>
      let seam := seam_id session_id "" j in
      let workspace := workspace_of session_id j in
      let j' := note session_id (default "" workspace) false j in
      (Some (Event_Session (mkStatusEvent seam (after_death workspace Change_Exited j'))), j')
  | Frame_Removed session_id =>
      let seam := seam_id session_id "" j in
      let workspace := workspace_of session_id j in
      let j' := forget session_id j in
      (Some (Event_Session (mkStatusEvent seam (after_death workspace Change_Removed j'))), j')
  | Frame_LayoutChanged workspace_id layout rev _ _ =>
      (Some (Event_Layout (mkLayoutEvent workspace_id layout rev)), j)
  | Frame_Workspace workspace _ _ _ =>
      (Some (Event_WorkspaceChanged (mkLayoutEvent (wi_id workspace) (wi_layout workspace) (wi_layout_rev workspace))), j)
  | Frame_WorkspaceRemoved workspace_id _ _ => (Some (Event_WorkspaceRemoved workspace_id), j)
  | _ => (None, j)
  end.

(** The newest of [max_by_key]: the last of the greatest. *)
Definition newest_live (sessions : list SessionInfo) (id : string) : option SessionInfo :=
  foldl (λ best session,
           if bool_decide (si_workspace_id session = id) && alive (si_status session)
           then match best with
                | Some b => if si_created_at session <? si_created_at b then best else Some session
                | None => Some session
                end
           else best) None sessions.

(** ** Workspaces *)

Record KnownWorkspace : Type := mkKnownWorkspace { kw_rev : Z; kw_layout : LayoutDoc }.

#[export] Instance KnownWorkspace_eq_dec : EqDecision KnownWorkspace.
Proof. solve_decision. Defined.

Definition known_of (w : WorkspaceInfo) : KnownWorkspace := mkKnownWorkspace (wi_layout_rev w) (wi_layout w).

Definition listed (workspaces : list WorkspaceInfo) : gmap string KnownWorkspace :=
  foldl (λ m w, <[wi_id w := known_of w]> m) ∅ workspaces.

Definition workspace_snapshot_events (workspaces : list WorkspaceInfo) (known : gmap string KnownWorkspace) :
    list DaemonEvent * gmap string KnownWorkspace :=
  let current := listed workspaces in
  let removed := omap (λ id, match current !! id with
                             | None => Some (Event_WorkspaceRemoved id)
                             | Some _ => None
                             end) (map_to_list known).*1 in
  let changed := map (λ w,
    let event := mkLayoutEvent (wi_id w) (wi_layout w) (wi_layout_rev w) in
    let replaced := match known !! wi_id w with
                    | Some previous =>
                        (wi_layout_rev w <? kw_rev previous) ||
                        ((wi_layout_rev w =? kw_rev previous) && negb (doc_eqb (wi_layout w) (kw_layout previous)))
                    | None => false
                    end in
    if replaced then Event_WorkspaceReset event else Event_WorkspaceChanged event) workspaces in
  (removed ++ changed, current).

Definition know (e : LayoutEvent) (known : gmap string KnownWorkspace) : gmap string KnownWorkspace :=
  <[le_workspace_id e := mkKnownWorkspace (le_rev e) (le_layout e)]> known.

Definition accept_workspace_event (event : DaemonEvent) (known : gmap string KnownWorkspace)
    (forward_unknown_removal : bool) : bool * gmap string KnownWorkspace :=
  match event with
  | Event_Layout e =>
      match known !! le_workspace_id e with
      | Some w => if le_rev e <=? kw_rev w then (false, known) else (true, know e known)
      | None => (true, know e known)
      end
  | Event_WorkspaceChanged e =>
      match known !! le_workspace_id e with
      | Some w => if le_rev e <? kw_rev w then (false, known) else (true, know e known)
      | None => (true, know e known)
      end
  | Event_WorkspaceReset e => (true, know e known)
  | Event_WorkspaceRemoved workspace_id =>
      (match known !! workspace_id with Some _ => true | None => forward_unknown_removal end,
       delete workspace_id known)
  | Event_Session _ => (true, known)
  end.

(** ** One subscription *)

(** What outlives a connection, with what was sent to the listener so far. *)
Record Stream : Type := mkStream {
  st_known : gmap string KnownWorkspace;
  st_has_snapshot : bool;
  st_previous_daemon_id : option (option string);
  st_sent : list IdentifiedDaemonEvent
}.

Definition stream_new : Stream := mkStream ∅ false None [].

(** The listing: the sessions, the workspaces, what came between, and what is left to
    receive. *)
Fixpoint receive_listing (sessions : option (list SessionInfo)) (workspaces : option (list WorkspaceInfo))
    (pending : list Frame) (frames : list Frame) :
    option (list SessionInfo * list WorkspaceInfo * list Frame * list Frame) :=
  match sessions, workspaces with
  | Some sessions, Some workspaces => Some (sessions, workspaces, pending, frames)
  | _, _ =>
      match frames with
      | [] => None
      | Frame_SessionList listed (Some 2) :: frames => receive_listing (Some listed) workspaces pending frames
      | Frame_WorkspaceList listed (Some 3) :: frames => receive_listing sessions (Some listed) pending frames
      | other :: frames => receive_listing sessions workspaces (pending ++ [other]) frames
      end
  end.

Section Subscription.
(** Whether the listener is there to take the next event, after these were sent. *)
Context (listening : list IdentifiedDaemonEvent → bool).

(** Send these, until nobody listens. *)
Fixpoint send_all (daemon_id : option string) (events : list DaemonEvent) (sent : list IdentifiedDaemonEvent) :
    bool * list IdentifiedDaemonEvent :=
  match events with
  | [] => (true, sent)
  | event :: events =>
      if listening sent then send_all daemon_id events (sent ++ [mkIdentifiedDaemonEvent daemon_id event])
      else (false, sent)
  end.

(** Translate frames, and send what is accepted, until nobody listens. *)
Fixpoint follow (daemon_id : option string) (forward_unknown_removal : bool) (frames : list Frame)
    (j : SessionJoin) (known : gmap string KnownWorkspace) (sent : list IdentifiedDaemonEvent) :
    bool * SessionJoin * gmap string KnownWorkspace * list IdentifiedDaemonEvent :=
  match frames with
  | [] => (true, j, known, sent)
  | frame :: frames =>
      match status_event frame j with
      | (None, j) => follow daemon_id forward_unknown_removal frames j known sent
      | (Some event, j) =>
          let '(accepted, known) := accept_workspace_event event known forward_unknown_removal in
          if negb accepted then follow daemon_id forward_unknown_removal frames j known sent
          else if listening sent
          then follow daemon_id forward_unknown_removal frames j known
                 (sent ++ [mkIdentifiedDaemonEvent daemon_id event])
          else (false, j, known, sent)
      end
  end.

(** What [endpoint.connect] and the connection come to: the frames received and the error
    the connection ends with. *)
Definition connection : Type := result string (option string * list Frame * string).

(** The outcome, whether it subscribed, and what it left. *)
Definition stream_status_once (c : connection) (s : Stream) : result string () * bool * Stream :=
  match c with
  | Err e => (Err e, false, s)
  | Ok (instance_id, frames, ended) =>
      match receive_listing None None [] frames with
      | None => (Err ended, false, s)
      | Some (sessions, workspaces, pending, rest) =>
          let join := from_listing sessions in
          let changed := match st_previous_daemon_id s with
                         | Some previous => negb (bool_decide (previous = instance_id))
                         | None => false
                         end in
          let known := if changed then ∅ else st_known s in
          let has_snapshot := if changed then false else st_has_snapshot s in
          let first := negb has_snapshot in
          let '(events, known) := workspace_snapshot_events workspaces known in
          match send_all instance_id events (st_sent s) with
          | (false, sent) => (Ok (), true, mkStream known has_snapshot (Some instance_id) sent)
          | (true, sent) =>
              match follow instance_id first pending join known sent with
              | (false, _, known, sent) => (Ok (), true, mkStream known true (Some instance_id) sent)
              | (true, join, known, sent) =>
                  match follow instance_id true rest join known sent with
                  | (false, _, known, sent) => (Ok (), true, mkStream known true (Some instance_id) sent)
                  | (true, _, known, sent) => (Err ended, true, mkStream known true (Some instance_id) sent)
                  end
              end
          end
      end
  end.

(** [stream_status], over the connections it gets: the sleeps it takes, and what it left.
    A failure also marks the endpoint's connection lost. *)
Fixpoint stream_status (connections : list connection) (delay : Z) (s : Stream) : list Z * Stream :=
  match connections with
  | [] => ([], s)
  | c :: connections =>
      if negb (listening (st_sent s)) then ([], s)
      else
        let '(outcome, subscribed, s) := stream_status_once c s in
        let delay := if subscribed then FIRST_RESUBSCRIBE_DELAY else delay in
        if negb (listening (st_sent s)) then ([], s)
        else
          let '(sleeps, s) := stream_status connections (next_resubscribe_delay delay) s in
          (delay :: sleeps, s)
  end.
End Subscription.

(** ** What happens to one session, and what is known of it *)

(** The part of [status_event] that concerns one session. *)
Inductive act : Type := Starts (workspace : string) (alive : bool) | Lives (alive : bool) | Goes.

Definition act_of (id : string) (f : Frame) : option act :=
  match f with
  | Frame_Created s _ _ => if decide (si_id s = id) then Some (Starts (si_workspace_id s) (alive (si_status s))) else None
  | Frame_Status i status _ => if decide (i = id) then Some (Lives (alive status)) else None
  | Frame_Exited i _ => if decide (i = id) then Some (Lives false) else None
  | Frame_Removed i => if decide (i = id) then Some Goes else None
  | _ => None
  end.

Definition acts (id : string) (frames : list Frame) : list act := omap (act_of id) frames.

(** What a join holds of a session: its workspace, and whether it has a process. *)
Definition seen (id : string) (j : SessionJoin) : option string * bool :=
  (workspace_of id j, bool_decide (id ∈ sj_live j)).

Definition see (v : option string * bool) (a : act) : option string * bool :=
  match a with
  | Starts workspace alive => (if decide (workspace = "") then v.1 else Some workspace, alive)
  | Lives alive => (v.1, alive)
  | Goes => (None, false)
  end.

Definition joined (frames : list Frame) (j : SessionJoin) : SessionJoin :=
  foldl (λ j f, (status_event f j).2) j frames.

Lemma seen_note id i workspace alive j :
  seen id (note i workspace alive j) =
    if decide (i = id) then (if decide (workspace = "") then workspace_of id j else Some workspace, alive) else seen id j.
Proof.
  unfold seen, note, workspace_of. cbn [sj_workspaces sj_live]. destruct (decide (i = id)) as [->|Hi]; f_equal.
  - case_decide; [done|]. by rewrite lookup_insert_eq.
  - destruct alive; [apply bool_decide_eq_true_2|apply bool_decide_eq_false_2]; set_solver.
  - case_decide; [done|]. by rewrite lookup_insert_ne.
  - apply bool_decide_ext. destruct alive; set_solver.
Qed.

Lemma seen_forget id i j : seen id (forget i j) = if decide (i = id) then (None, false) else seen id j.
Proof.
  unfold seen, forget, workspace_of. cbn [sj_workspaces sj_live]. destruct (decide (i = id)) as [->|Hi]; f_equal.
  - apply lookup_delete_eq.
  - apply bool_decide_eq_false_2. set_solver.
  - by rewrite lookup_delete_ne.
  - apply bool_decide_ext. set_solver.
Qed.

Lemma seen_kept id (alive : bool) j :
  (if decide (default "" (workspace_of id j) = "") then workspace_of id j
   else Some (default "" (workspace_of id j)), alive) = ((seen id j).1, alive).
Proof. cbn. f_equal. case_decide; [done|]. by destruct (workspace_of id j). Qed.

Lemma seen_status id f j :
  seen id (status_event f j).2 = from_option (see (seen id j)) (seen id j) (act_of id f).
Proof.
  destruct f; try done; cbn [status_event snd act_of]; rewrite ?seen_note, ?seen_forget; case_decide; try done;
    subst; cbn [from_option see]; try done; by rewrite seen_kept.
Qed.

Lemma seen_joined id frames : ∀ j, seen id (joined frames j) = foldl see (seen id j) (acts id frames).
Proof.
  induction frames as [|f frames IH]; intros j; [done|]. cbn [joined foldl]. fold (joined frames (status_event f j).2).
  rewrite IH, seen_status. unfold acts. cbn. by destruct (act_of id f).
Qed.

Section Home.
(** The workspace the session is in. *)
Context (workspace : string).

(** What a session goes through: it is created once, with a process, lives, and is
    removed. *)
Inductive phase : Type := Unborn | Born (alive : bool) | Removed_.

Fixpoint lived (p : phase) (l : list act) : option phase :=
  match l with
  | [] => Some p
  | a :: l =>
      match p, a with
      | Unborn, Starts w true => if decide (w = workspace) then lived (Born true) l else None
      | Born _, Lives alive => lived (Born alive) l
      | Born _, Goes => lived Removed_ l
      | _, _ => None
      end
  end.

Definition shown (p : phase) : option string * bool :=
  match p with Born alive => (Some workspace, alive) | _ => (None, false) end.

Lemma lived_removed l p : lived Removed_ l = Some p → l = [] ∧ p = Removed_.
Proof. destruct l as [|[] ?]; cbn; [by intros [= <-]|done..]. Qed.

Lemma lived_unborn l p : lived Unborn l = Some p →
  (l = [] ∧ p = Unborn) ∨ ∃ l', l = Starts workspace true :: l' ∧ lived (Born true) l' = Some p.
Proof.
  destruct l as [|[w []|al|] l]; cbn; try done; [intros [= <-]; by left|].
  case_decide; [|done]. subst. right. eauto.
Qed.

(** Once started, what was known before hardly matters. *)
Lemma lived_born l : ∀ a p x b, lived (Born a) l = Some p →
  (p = Removed_ ∧ foldl see (x, b) l = (None, false)) ∨
  ((Goes ∉ l) ∧ ∃ a', p = Born a' ∧ (foldl see (x, b) l = (x, a') ∨ (l = [] ∧ a' = a))).
Proof.
  induction l as [|act l IH]; intros a p x b Hp.
  - injection Hp as <-. right. split; [set_solver|]. exists a. auto.
  - destruct act as [w al|al|]; [done| |].
    + cbn [foldl see fst]. destruct (IH al p x al Hp) as [[-> H]|(Hg & a' & -> & H2)]; [by left|right].
      split; [set_solver|]. exists a'. split; [done|]. left. by destruct H2 as [H2|[-> ->]].
    + left. cbn [lived] in Hp. by destruct (lived_removed _ _ Hp) as [-> ->].
Qed.

Context (Hws : workspace ≠ "").

Lemma see_started v : see v (Starts workspace true) = (Some workspace, true).
Proof using Hws. cbn. by rewrite decide_False. Qed.

(** Seeing again what is already known changes nothing. *)
Lemma seen_again p l p' : lived p l = Some p' → foldl see (shown p') l = shown p'.
Proof using Hws.
  intros H. destruct p as [|a|].
  - destruct (lived_unborn _ _ H) as [[-> ->]|(l' & -> & H')]; [done|]. cbn [foldl]. rewrite see_started.
    destruct (lived_born _ _ _ (Some workspace) true H') as [[-> Hf]|(_ & a' & -> & [Hf|[-> ->]])]; done.
  - destruct (lived_born l a p' (shown p').1 (shown p').2 H) as [[-> Hf]|(_ & a' & -> & [Hf|[-> ->]])];
      try done; by rewrite <- surjective_pairing in Hf.
  - by destruct (lived_removed _ _ H) as [-> ->].
Qed.

(** Seeing what happens keeps what is known right. *)
Lemma seen_on l : ∀ p p', lived p l = Some p' → foldl see (shown p) l = shown p'.
Proof using Hws.
  induction l as [|a l IH]; intros p p'; [by intros [= <-]|].
  destruct p as [|al|], a as [w' []|al'|]; try done; cbn [lived foldl].
  - case_decide; [|done]. subst. rewrite see_started. apply (IH (Born true)).
  - apply (IH (Born al')).
  - apply (IH Removed_).
Qed.

Lemma sees_home l : Goes ∉ l → (∀ w a, Starts w a ∈ l → w = workspace) →
  ∀ v, v.1 = Some workspace → (foldl see v l).1 = Some workspace.
Proof using Hws.
  induction l as [|a l IH]; intros Hg Hs v Hv; [done|]. cbn [foldl]. apply IH; [set_solver|set_solver|].
  destruct a as [w al|al|]; [|done|set_solver]. cbn. rewrite (Hs w al) by set_solver. by rewrite decide_False.
Qed.

Lemma lived_starts l : ∀ p p', lived p l = Some p' → ∀ w a, Starts w a ∈ l → w = workspace ∧ a = true.
Proof.
  clear Hws. induction l as [|x l IH]; intros p p' H w a Hin; [set_solver|].
  destruct p as [|al|], x as [w' []|al'|]; try done; cbn [lived] in H; [case_decide; [|done]| |];
    (apply elem_of_cons in Hin as [Heq|Hin]; [by simplify_eq|by eapply IH]).
Qed.

(** What is seen of a session that is there in the end: its workspace is known, or it
    starts now. *)
Lemma known_or_starts before after q0 q1 al a l l' :
  lived q0 before = Some q1 → lived q1 after = Some (Born al) → before ++ after = l ++ a :: l' →
  (foldl see (shown q1) l).1 = Some workspace ∨ a = Starts workspace true.
Proof using Hws.
  intros H0 H1 Hl.
  assert (Hstarts : ∀ w a, Starts w a ∈ before ++ after → w = workspace).
  { intros w b. rewrite elem_of_app. intros [?|?]; [by eapply (lived_starts before)|by eapply (lived_starts after)]. }
  destruct q1 as [|a1|]; [| |by destruct (lived_removed _ _ H1)].
  - assert (before = []) as ->.
    { destruct q0 as [|b|].
      - destruct (lived_unborn _ _ H0) as [[-> _]|(? & -> & H')]; [done|].
        destruct (lived_born _ _ _ None false H') as [[? _]|(_ & ? & ? & _)]; done.
      - destruct (lived_born _ _ _ None false H0) as [[? _]|(_ & ? & ? & _)]; done.
      - by destruct (lived_removed _ _ H0). }
    destruct (lived_unborn _ _ H1) as [[_ ?]|(after' & -> & H')]; [done|].
    destruct l as [|x l]; [right; by injection Hl|left]. injection Hl as <- Hl.
    cbn [foldl]. rewrite see_started. apply sees_home; [| |done].
    + destruct (lived_born _ _ _ None false H') as [[? _]|(Hg & _)]; [done|]. rewrite Hl in Hg. set_solver.
    + intros w b Hin. apply (Hstarts w b). cbn. rewrite Hl. set_solver.
  - left. apply sees_home; [| |done].
    + assert (Hg : Goes ∉ before ++ after).
      { rewrite elem_of_app. intros [Hin|Hin].
        - destruct q0 as [|b|].
          + destruct (lived_unborn _ _ H0) as [[_ ?]|(l0 & -> & H')]; [done|].
            destruct (lived_born _ _ _ None false H') as [[? _]|(Hg & _)]; [done|set_solver].
          + destruct (lived_born _ _ _ None false H0) as [[? _]|(Hg & _)]; done.
          + by destruct (lived_removed _ _ H0).
        - destruct (lived_born _ _ _ None false H1) as [[? _]|(Hg & _)]; done. }
      rewrite Hl in Hg. set_solver.
    + intros w b Hin. apply (Hstarts w b). rewrite Hl. set_solver.
Qed.
End Home.

(** ** What is said of a workspace *)

(** The events about sessions that frames are translated into. *)
Fixpoint pushed (frames : list Frame) (j : SessionJoin) : list StatusEvent :=
  match frames with
  | [] => []
  | f :: frames =>
      match (status_event f j).1 with Some (Event_Session e) => [e] | _ => [] end ++ pushed frames (status_event f j).2
  end.

Lemma pushed_app a b j : pushed (a ++ b) j = pushed a j ++ pushed b (joined a j).
Proof. revert j. induction a as [|f a IH]; intros j; [done|]. cbn. by rewrite IH, app_assoc. Qed.

Lemma joined_app a b j : joined (a ++ b) j = joined b (joined a j).
Proof. apply foldl_app. Qed.

Lemma acts_app id a b : acts id (a ++ b) = acts id a ++ acts id b.
Proof. apply omap_app. Qed.

(** The last of a listener's events about [w], and that none follows it. *)
Lemma pushed_last w e H : ∀ j,
  last (filter (λ e, se_id e = w) (pushed H j)) = Some e →
  ∃ p f q, H = p ++ f :: q ∧ (status_event f (joined p j)).1 = Some (Event_Session e) ∧ se_id e = w ∧
    ∀ e', e' ∈ pushed q (joined (p ++ [f]) j) → se_id e' ≠ w.
Proof.
  induction H as [|f H IH]; intros j; [done|]. cbn [pushed]. rewrite filter_app, last_app.
  destruct (last (filter _ (pushed H _))) as [e1|] eqn:Hl.
  - intros [= ->]. destruct (IH _ Hl) as (p & g & q & -> & Hg & Hw & Hq). by exists (f :: p), g, q.
  - intros He. exists [], f, H. cbn [joined foldl app].
    destruct (status_event f j).1 as [[e0| | | |]|]; try done. cbv iota in He. rewrite filter_cons, filter_nil in He.
    case_decide; [|done]. injection He as ->. split_and!; [done..|]. intros e' Hin Hw.
    apply last_None in Hl. assert (Hf : e' ∈ filter (λ e, se_id e = w) (pushed H (status_event f j).2)).
    { by apply list_elem_of_filter. } rewrite Hl in Hf. set_solver.
Qed.

Lemma acts_first id q : acts id q = [] ∨
  ∃ q1 g q2 a, q = q1 ++ g :: q2 ∧ acts id q1 = [] ∧ act_of id g = Some a ∧ acts id q = a :: acts id q2.
Proof.
  induction q as [|g q IH]; [by left|]. unfold acts in *. cbn. destruct (act_of id g) as [a|] eqn:Ha.
  - right. exists [], g, q, a. by split_and!.
  - destruct IH as [->|(q1 & g' & q2 & a & -> & H1 & Ha' & H2)]; [by left|right].
    exists (g :: q1), g', q2, a. split_and!; [done| |done|done]. cbn. by rewrite Ha.
Qed.

(** A frame about a session is about its workspace, when that is known or said. *)
Lemma status_event_seam id g a j w :
  w ≠ "" → act_of id g = Some a →
  (seen id j).1 = Some w ∨ ((seen id j).1 = None ∧ ∃ al, a = Starts w al) →
  ∃ e, (status_event g j).1 = Some (Event_Session e) ∧ se_id e = w.
Proof.
  intros Hw Ha Hknown. cbn [seen fst] in Hknown.
  assert (Hseam : ∀ fallback, (workspace_of id j = Some w ∨ (workspace_of id j = None ∧ fallback = w)) →
    seam_id id fallback j = w).
  { intros fallback [Hk|[Hk ->]]; unfold seam_id; rewrite Hk; by rewrite decide_False. }
  destruct g; try done; cbn [act_of] in Ha; case_decide; try done; injection Ha as <-; subst;
    cbn [status_event fst]; eexists; (split; [done|]); cbn [se_id]; apply Hseam;
    destruct Hknown as [?|[? [al Heq]]]; try (by left); try discriminate; right; by simplify_eq.
Qed.

(** The workspace of an event is that of its session, or the session itself. *)
Lemma status_event_about g e j : (status_event g j).1 = Some (Event_Session e) →
  ∃ id a, act_of id g = Some a ∧
    ((seen id j).1 = Some (se_id e) ∨ (∃ al, a = Starts (se_id e) al) ∨ id = se_id e).
Proof.
  destruct g; try done; cbn [status_event fst act_of]; intros [= <-]; cbn [se_id];
    eexists _, _; (split; [by rewrite decide_True|]); cbn [seen fst]; unfold seam_id;
    repeat case_decide; repeat case_match; eauto; naive_solver.
Qed.

Lemma any_live_in_iff w j : any_live_in w j = true ↔ ∃ id, seen id j = (Some w, true).
Proof.
  unfold any_live_in. rewrite existsb_exists. split.
  - intros (id & Hin & Hw). exists id. unfold seen. rewrite (bool_decide_eq_true_1 _ Hw). f_equal.
    apply bool_decide_eq_true_2. by apply elem_of_elements, list_elem_of_In.
  - intros (id & [= Hw Hl%bool_decide_eq_true_1]). exists id. split; [|by apply bool_decide_eq_true_2].
    by apply list_elem_of_In, elem_of_elements.
Qed.

Definition running (c : SessionChange) : bool := bool_decide (change_status c = Some Workspace_Running).

(** An event says that the workspace runs exactly when one of its sessions then does. *)
Lemma status_event_says id g a e j w :
  act_of id g = Some a → (status_event g j).1 = Some (Event_Session e) → w ≠ "" →
  ((seen id j).1 = Some w ∧ (∀ w' al, a = Starts w' al → w' = w ∧ al = true)) ∨ a = Starts w true →
  running (se_change e) = any_live_in w (status_event g j).2.
Proof.
  intros Ha He Hw Hknown.
  assert (Hlives : (seen id (status_event g j).2) = (Some w, true) → any_live_in w (status_event g j).2 = true).
  { intros Hs. apply any_live_in_iff. by exists id. }
  rewrite seen_status, Ha in Hlives. cbn [from_option] in Hlives.
  assert (Hdeath : ∀ death j', running death = false → running (after_death (Some w) death j') = any_live_in w j').
  { intros death j' Hd. unfold after_death. by destruct (any_live_in w j'). }
  destruct g; try done; cbn [act_of] in Ha; case_decide; try done; injection Ha as <-; subst; injection He as <-;
    cbn [se_change].
  - assert (Hs : si_workspace_id session = w ∧ alive (si_status session) = true).
    { destruct Hknown as [[_ Hs]|[= -> ->]]; [by apply Hs|done]. }
    destruct Hs as [Hs Hal]. rewrite Hlives; [|cbn; rewrite Hs, Hal; by rewrite decide_False].
    unfold alive in Hal. destruct (si_status session); try discriminate Hal; by destruct (negb _).
  - destruct Hknown as [[Hk _]|?]; [|done]. cbn [seen fst] in Hk. cbn [status_event snd]. rewrite Hk. by apply Hdeath.
  - destruct Hknown as [[Hk _]|?]; [|done]. cbn [seen fst] in Hk.
    destruct (alive status) eqn:Hal.
    + rewrite Hlives; [|cbn; by rewrite Hk]. unfold alive in Hal. by destruct status.
    + cbn [status_event snd]. rewrite Hk, Hal. apply Hdeath. unfold alive in Hal. by destruct status.
  - destruct Hknown as [[Hk _]|?]; [|done]. cbn [seen fst] in Hk. cbn [status_event snd]. rewrite Hk. by apply Hdeath.
Qed.

Lemma seen_listing_skip id sessions : ∀ j, id ∉ map si_id sessions →
  seen id (foldl (λ j s, note (si_id s) (si_workspace_id s) (alive (si_status s)) j) j sessions) = seen id j.
Proof.
  induction sessions as [|s sessions IH]; intros j Hid; [done|]. cbn [foldl map] in *.
  rewrite IH by set_solver. rewrite seen_note, decide_False; [done|set_solver].
Qed.

Section Converging.
(** The workspace of each session, and what became of it: before the subscription, at
    the listing, and now. *)
Context (home : string → string) (Hhome : ∀ id, home id ≠ "").

Definition history (from : string → phase) (frames : list Frame) (to : string → phase) : Prop :=
  ∀ id, lived (home id) (from id) (acts id frames) = Some (to id).

Definition lists (sessions : list SessionInfo) (at_ : string → phase) : Prop :=
  NoDup (map si_id sessions) ∧
  ∀ id, match at_ id with
        | Born a => ∃ s, s ∈ sessions ∧ si_id s = id ∧ si_workspace_id s = home id ∧ alive (si_status s) = a
        | _ => id ∉ map si_id sessions
        end.

Lemma seen_listing sessions at_ id : lists sessions at_ → seen id (from_listing sessions) = shown (home id) (at_ id).
Proof using Hhome.
  intros [Hnd Hat]. specialize (Hat id). unfold from_listing.
  assert (Hdefault : seen id join_default = (None, false)).
  { unfold seen, workspace_of. cbn. by rewrite lookup_empty, bool_decide_eq_false_2 by set_solver. }
  destruct (at_ id) as [|a|]; [by rewrite seen_listing_skip| |by rewrite seen_listing_skip].
  destruct Hat as (s & Hin & <- & Hw & <-). apply list_elem_of_split in Hin as (l1 & l2 & ->).
  rewrite map_app in Hnd. cbn in Hnd. apply NoDup_app in Hnd as (_ & _ & Hnd). apply NoDup_cons in Hnd as [Hs _].
  rewrite foldl_app. cbn [foldl]. rewrite seen_listing_skip by done. rewrite seen_note, decide_True by done.
  rewrite Hw, decide_False by done. done.
Qed.

Context (sessions : list SessionInfo) (before after : list Frame) (at_subscribe at_listing now : string → phase)
  (Hlists : lists sessions at_listing) (Hbefore : history at_subscribe before at_listing)
  (Hafter : history at_listing after now).

(** Frames the listing already reflects do not spoil it, and those after it are
    followed. *)
Lemma join_is_now id : seen id (joined (before ++ after) (from_listing sessions)) = shown (home id) (now id).
Proof using Type*.
  rewrite seen_joined, acts_app, foldl_app, (seen_listing _ _ _ Hlists).
  rewrite (seen_again (home id) (Hhome id) _ _ _ (Hbefore id)).
  apply (seen_on (home id) (Hhome id) _ _ _ (Hafter id)).
Qed.

Lemma starts_home id w a : Starts w a ∈ acts id (before ++ after) → w = home id ∧ a = true.
Proof using Type*.
  rewrite acts_app, elem_of_app. intros [Hin|Hin];
    [by eapply (lived_starts (home id) _ _ _ (Hbefore id))|by eapply (lived_starts (home id) _ _ _ (Hafter id))].
Qed.

(** A workspace is never known wrongly. *)
Lemma known_home p q id : before ++ after = p ++ q →
  (seen id (joined p (from_listing sessions))).1 = None ∨
  (seen id (joined p (from_listing sessions))).1 = Some (home id).
Proof using Type*.
  intros Heq. rewrite seen_joined, (seen_listing _ _ _ Hlists).
  assert (Hs : ∀ w a, Starts w a ∈ acts id p → w = home id).
  { intros w a Hin. apply (starts_home id w a). rewrite Heq, acts_app, elem_of_app. by left. }
  assert (Hv : (shown (home id) (at_listing id)).1 = None ∨ (shown (home id) (at_listing id)).1 = Some (home id)).
  { destruct (at_listing id); auto. }
  revert Hs Hv. generalize (shown (home id) (at_listing id)). induction (acts id p) as [|a l IH]; intros v Hs Hv; [done|].
  cbn [foldl]. apply IH; [set_solver|]. destruct a as [w al|al|]; cbn; auto.
  rewrite (Hs w al) by set_solver. case_decide; auto.
Qed.

(** After the last event about a workspace, nothing more happens to its sessions. *)
Lemma nothing_more w p q id :
  before ++ after = p ++ q → w = home id →
  (∀ e, e ∈ pushed q (joined p (from_listing sessions)) → se_id e ≠ w) →
  (seen id (joined p (from_listing sessions))).1 = Some w ∨ (∃ al, now id = Born al) →
  acts id q = [].
Proof using Type*.
  intros Heq Hw Hq Hor. destruct (acts_first id q) as [?|(q1 & g & q2 & a & -> & Hq1 & Ha & Hacts)]; [done|exfalso].
  assert (Hsame : seen id (joined (p ++ q1) (from_listing sessions)) = seen id (joined p (from_listing sessions))).
  { by rewrite joined_app, seen_joined, Hq1. }
  assert (Hknown : (seen id (joined (p ++ q1) (from_listing sessions))).1 = Some w ∨
    ((seen id (joined (p ++ q1) (from_listing sessions))).1 = None ∧ ∃ al, a = Starts w al)).
  { rewrite Hsame. destruct Hor as [?|[al Hnow]]; [by left|].
    destruct (known_home p (q1 ++ g :: q2) id Heq) as [Hk|Hk]; [right|left; by rewrite Hk, Hw].
    split; [done|]. exists true. pose proof (Hafter id) as Hlast. rewrite Hnow in Hlast.
    destruct (known_or_starts (home id) (Hhome id) (acts id before) (acts id after) (at_subscribe id)
      (at_listing id) al a (acts id p) (acts id q2)) as [Hs|Hs]; [done|done| | |by rewrite Hw].
    - by rewrite <- acts_app, Heq, acts_app, Hacts.
    - rewrite <- (seen_listing _ _ _ Hlists), <- seen_joined, Hk in Hs. done. }
  destruct (status_event_seam id g a (joined (p ++ q1) (from_listing sessions)) w) as (e & He & Hew); [by rewrite Hw|done|exact Hknown|].
  apply (Hq e); [|done]. rewrite pushed_app. apply elem_of_app. right. cbn [pushed]. rewrite <- joined_app, He.
  set_solver.
Qed.

(** The last event about a workspace says whether one of its sessions runs. *)
Lemma last_event_is_the_aggregate w e :
  (∀ f, f ∈ before ++ after → act_of w f = None) →
  last (filter (λ e, se_id e = w) (pushed (before ++ after) (from_listing sessions))) = Some e →
  running (se_change e) = true ↔ ∃ id, now id = Born true ∧ home id = w.
Proof using Type*.
  intros Hnot Hlast.
  destruct (pushed_last _ _ _ _ Hlast) as (p & f & q & Heq & Hf & Hw & Hq).
  assert (Heq' : before ++ after = (p ++ [f]) ++ q) by by rewrite <- app_assoc.
  set (j := joined (p ++ [f]) (from_listing sessions)) in *.
  assert (Hj : j = (status_event f (joined p (from_listing sessions))).2) by apply joined_app.
  assert (Hknown_at : ∀ id, (seen id j).1 = None ∨ (seen id j).1 = Some (home id)) by by intros; eapply known_home.
  destruct (status_event_about _ _ _ Hf) as (id & a & Ha & Habout).
  assert (Hid : id ≠ w). { intros ->. rewrite Hnot in Ha; [done|]. rewrite Heq. set_solver. }
  assert (Hin : a ∈ acts id (before ++ after)).
  { rewrite Heq, acts_app. unfold acts at 2. cbn. rewrite Ha. set_solver. }
  assert (Hknown : (seen id (joined p (from_listing sessions))).1 = Some w ∨ a = Starts w true).
  { rewrite Hw in Habout. destruct Habout as [Hk|[[al ->]|?]]; [by left|right|congruence].
    by destruct (starts_home id w al Hin) as [_ ->]. }
  assert (Hhome_w : home id = w).
  { destruct Hknown as [Hk| ->]; [|by symmetry; apply (starts_home id w true Hin)].
    destruct (known_home p (f :: q) id Heq) as [Hk'|Hk']; rewrite Hk' in Hk; congruence. }
  assert (Hsays : running (se_change e) = any_live_in w j).
  { rewrite Hj. apply (status_event_says id f a); [done|done|by rewrite <- Hhome_w|].
    destruct Hknown as [Hk|?]; [left|by right]. split; [done|]. intros w' al ->. rewrite <- Hhome_w.
    by apply starts_home. }
  rewrite Hsays, any_live_in_iff. split.
  - intros (i & Hi). exists i.
    assert (Hw_i : w = home i). { destruct (Hknown_at i) as [Hk|Hk]; rewrite Hi in Hk; cbn in Hk; congruence. }
    pose proof (join_is_now i) as Hnow. rewrite Heq', joined_app, seen_joined in Hnow. fold j in Hnow.
    rewrite (nothing_more w (p ++ [f]) q i) in Hnow; [|done|done|done|left; fold j; by rewrite Hi].
    cbn [foldl] in Hnow. rewrite Hi in Hnow. split; [|done].
    destruct (now i) as [|[]|]; cbn in Hnow; congruence.
  - intros (i & Hi & Hw_i). exists i.
    pose proof (join_is_now i) as Hnow. rewrite Heq', joined_app, seen_joined in Hnow. fold j in Hnow.
    rewrite (nothing_more w (p ++ [f]) q i) in Hnow; [|done|done|done|right; eauto].
    cbn [foldl] in Hnow. by rewrite Hnow, Hi, Hw_i.
Qed.
End Converging.

(** ** What a listener holds of the workspaces *)

Definition view_step (m : gmap string KnownWorkspace) (e : DaemonEvent) : gmap string KnownWorkspace :=
  match e with
  | Event_Layout e | Event_WorkspaceChanged e | Event_WorkspaceReset e => know e m
  | Event_WorkspaceRemoved id => delete id m
  | Event_Session _ => m
  end.

(** The workspaces as a listener has them after these events. *)
Definition view (sent : list IdentifiedDaemonEvent) : gmap string KnownWorkspace :=
  foldl view_step ∅ (map ie_event sent).

Definition session_events (sent : list IdentifiedDaemonEvent) : list StatusEvent :=
  omap (λ e, match ie_event e with Event_Session e => Some e | _ => None end) sent.

Lemma accept_view event known fw :
  (accept_workspace_event event known fw).2 =
    if (accept_workspace_event event known fw).1 then view_step known event else known.
Proof.
  destruct event as [e|e|e|e|id]; cbn; try done.
  - destruct (known !! _) as [k|]; [|done]. by destruct (_ <=? _).
  - destruct (known !! _) as [k|]; [|done]. by destruct (_ <? _).
  - destruct (known !! id) as [k|] eqn:Hk; [done|]. destruct fw; [done|]. by rewrite delete_id.
Qed.

(** What frames do to one workspace. *)
Inductive wact : Type := WLayout (k : KnownWorkspace) | WChanged (k : KnownWorkspace) | WRemoved.

Definition wact_of (id : string) (f : Frame) : option wact :=
  match f with
  | Frame_LayoutChanged i layout rev _ _ => if decide (i = id) then Some (WLayout (mkKnownWorkspace rev layout)) else None
  | Frame_Workspace w _ _ _ => if decide (wi_id w = id) then Some (WChanged (known_of w)) else None
  | Frame_WorkspaceRemoved i _ _ => if decide (i = id) then Some WRemoved else None
  | _ => None
  end.

Definition wacts (id : string) (frames : list Frame) : list wact := omap (wact_of id) frames.

Definition kstep (v : option KnownWorkspace) (a : wact) : option KnownWorkspace :=
  match a, v with
  | WLayout k, Some old => if kw_rev k <=? kw_rev old then v else Some k
  | WChanged k, Some old => if kw_rev k <? kw_rev old then v else Some k
  | WLayout k, None | WChanged k, None => Some k
  | WRemoved, _ => None
  end.

Lemma know_lookup i rev layout known id :
  know (mkLayoutEvent i layout rev) known !! id =
    if decide (i = id) then Some (mkKnownWorkspace rev layout) else known !! id.
Proof.
  unfold know. cbn. case_decide; subst; [by rewrite lookup_insert_eq|by rewrite lookup_insert_ne].
Qed.

Lemma accept_lookup id f j known fw :
  match (status_event f j).1 with
  | Some event => (accept_workspace_event event known fw).2
  | None => known
  end !! id = from_option (kstep (known !! id)) (known !! id) (wact_of id f).
Proof.
  destruct f; try done; cbn [status_event fst accept_workspace_event le_workspace_id le_rev le_layout wact_of].
  - destruct (decide (wi_id workspace = id)) as [<-|Hne]; cbn [from_option kstep].
    + destruct (known !! wi_id workspace) as [k|] eqn:Hk; cbn [known_of kw_rev].
      * destruct (_ <? _); cbn [snd]; [by rewrite Hk|]. by rewrite know_lookup, decide_True.
      * cbn [snd]. by rewrite know_lookup, decide_True.
    + destruct (known !! wi_id workspace) as [k|]; [destruct (_ <? _)|]; cbn [snd]; try done;
        by rewrite know_lookup, decide_False.
  - destruct (decide (workspace_id = id)) as [<-|Hne]; cbn [from_option kstep].
    + destruct (known !! workspace_id) as [k|] eqn:Hk; cbn [kw_rev].
      * destruct (_ <=? _); cbn [snd]; [by rewrite Hk|]. by rewrite know_lookup, decide_True.
      * cbn [snd]. by rewrite know_lookup, decide_True.
    + destruct (known !! workspace_id) as [k|]; [destruct (_ <=? _)|]; cbn [snd]; try done;
        by rewrite know_lookup, decide_False.
  - destruct (decide (workspace_id = id)) as [<-|Hne]; cbn [from_option kstep snd];
      [apply lookup_delete_eq|by rewrite lookup_delete_ne].
Qed.

(** Following frames while somebody listens. *)
Lemma follow_all d fw frames : ∀ j known sent, ∃ known' new,
  follow (λ _, true) d fw frames j known sent = (true, joined frames j, known', sent ++ new) ∧
  session_events new = pushed frames j ∧ known' = foldl view_step known (map ie_event new) ∧
  ∀ id, known' !! id = foldl kstep (known !! id) (wacts id frames).
Proof.
  induction frames as [|f frames IH]; intros j known sent.
  { exists known, []. by rewrite app_nil_r. }
  cbn [follow]. pose proof (λ id, accept_lookup id f j known fw) as Hlook.
  destruct (status_event f j) as [[event|] j'] eqn:Hse; cbn [fst] in Hlook.
  - pose proof (accept_view event known fw) as Hview.
    destruct (accept_workspace_event event known fw) as [accepted known1] eqn:Hacc. cbn [fst snd] in *.
    set (one := if accepted then [mkIdentifiedDaemonEvent d event] else []).
    destruct (IH j' known1 (sent ++ one)) as (known' & new & Hf & Hs & Hv & Hl).
    exists known', (one ++ new). split_and!.
    + unfold one in *. destruct accepted; cbn [negb]; rewrite app_assoc; [|rewrite app_nil_r in *]; rewrite Hf;
        cbn [joined foldl]; by rewrite Hse.
    + cbn [pushed]. rewrite Hse. cbn [fst snd]. unfold session_events. rewrite omap_app. f_equal; [|exact Hs].
      unfold one. destruct event as [e| | | |]; cbn in Hacc; [by injection Hacc as <- <-|by destruct accepted..].
    + rewrite map_app, foldl_app, Hv, Hview. unfold one. by destruct accepted.
    + intros id. rewrite Hl, Hlook. unfold wacts. cbn. by destruct (wact_of id f).
  - destruct (IH j' known sent) as (known' & new & Hf & Hs & Hv & Hl). exists known', new. split_and!.
    + cbn [joined foldl]. by rewrite Hse.
    + cbn [pushed]. by rewrite Hse.
    + done.
    + intros id. rewrite Hl. specialize (Hlook id). unfold wacts. cbn. destruct (wact_of id f); [|done].
      cbn in Hlook. by rewrite Hlook at 1.
Qed.

Lemma send_all_sends d events : ∀ sent,
  send_all (λ _, true) d events sent = (true, sent ++ map (mkIdentifiedDaemonEvent d) events).
Proof.
  induction events as [|e events IH]; intros sent; cbn; [by rewrite app_nil_r|].
  by rewrite IH, <- app_assoc.
Qed.

(** *** The snapshot *)

Lemma insert_all_union workspaces : ∀ m : gmap string KnownWorkspace,
  foldl (λ m w, <[wi_id w := known_of w]> m) m workspaces = listed workspaces ∪ m.
Proof.
  unfold listed. induction workspaces as [|w workspaces IH] using rev_ind; intros m.
  - cbn. by rewrite map_empty_union.
  - rewrite !foldl_app. cbn [foldl]. rewrite IH. by rewrite insert_union_l.
Qed.

Lemma delete_all_lookup ids : ∀ (m : gmap string KnownWorkspace) k,
  foldl view_step m (map Event_WorkspaceRemoved ids) !! k = if decide (k ∈ ids) then None else m !! k.
Proof.
  induction ids as [|i ids IH]; intros m k; [by rewrite decide_False by set_solver|].
  cbn [map foldl view_step]. rewrite IH. destruct (decide (k = i)) as [->|Hne].
  - rewrite lookup_delete_eq, (decide_True (P := i ∈ i :: ids)) by set_solver. by case_decide.
  - rewrite lookup_delete_ne by done. repeat case_decide; set_solver.
Qed.

Lemma snapshot_view d workspaces known :
  let '(events, current) := workspace_snapshot_events workspaces known in
  current = listed workspaces ∧ foldl view_step known events = current ∧
  session_events (map (mkIdentifiedDaemonEvent d) events) = [].
Proof.
  unfold workspace_snapshot_events. split; [done|]. set (current := listed workspaces).
  set (gone := filter (λ id, current !! id = None) (map_to_list known).*1).
  assert (Hgone : omap (λ id, match current !! id with Some _ => None | None => Some (Event_WorkspaceRemoved id) end)
    (map_to_list known).*1 = map Event_WorkspaceRemoved gone).
  { unfold gone. induction (map_to_list known).*1 as [|i l IH]; [done|]. rewrite filter_cons.
    destruct (current !! i) eqn:Hi; cbn [omap list_omap]; rewrite Hi;
      [rewrite decide_False by done|rewrite decide_True by done; cbn [map]; f_equal]; exact IH. }
  rewrite Hgone. split.
  - rewrite foldl_app. set (kept := foldl view_step known _).
    assert (Hins : ∀ l m, foldl view_step m (map (λ w,
        let event := mkLayoutEvent (wi_id w) (wi_layout w) (wi_layout_rev w) in
        if match known !! wi_id w with
           | Some previous => (wi_layout_rev w <? kw_rev previous) ||
               ((wi_layout_rev w =? kw_rev previous) && negb (doc_eqb (wi_layout w) (kw_layout previous)))
           | None => false
           end then Event_WorkspaceReset event else Event_WorkspaceChanged event) l)
      = foldl (λ m w, <[wi_id w := known_of w]> m) m l).
    { induction l as [|w l IH]; intros m; [done|]. cbn [map foldl]. rewrite IH. f_equal. cbv zeta.
      destruct (match known !! wi_id w with Some _ => _ | None => _ end); done. }
    rewrite Hins, insert_all_union. apply map_eq. intros k. fold current. rewrite lookup_union.
    destruct (current !! k) as [x|] eqn:Hk; [by destruct (kept !! k)|].
    assert (kept !! k = None) as ->; [|done]. unfold kept. rewrite delete_all_lookup. case_decide as Hin; [done|].
    apply not_elem_of_dom. intros Hd. apply Hin. apply list_elem_of_filter. split; [done|].
    apply elem_of_dom in Hd as [x Hx]. apply list_elem_of_fmap. exists (k, x). split; [done|].
    by apply elem_of_map_to_list.
  - unfold session_events. rewrite map_app, omap_app. apply app_nil. split.
    + clear Hgone. induction gone; [done|exact IHgone].
    + clear. induction workspaces as [|w l IH]; [done|]. cbn. cbn in IH. rewrite IH. by destruct (match known !! wi_id w with Some _ => _ | None => _ end).
Qed.

(** *** What becomes of a workspace *)

Inductive wphase : Type := WUnborn | WHave (k : KnownWorkspace) | WGone.

(** It is announced whole, its layout's revision only grows, it is announced whole again
    with its layout or a later one, and it is removed. *)
Fixpoint wlived (p : wphase) (l : list wact) : option wphase :=
  match l with
  | [] => Some p
  | a :: l =>
      match p, a with
      | WUnborn, WChanged k => wlived (WHave k) l
      | WHave old, WLayout k => if kw_rev old <? kw_rev k then wlived (WHave k) l else None
      | WHave old, WChanged k =>
          if decide (k = old) then wlived (WHave k) l
          else if kw_rev old <? kw_rev k then wlived (WHave k) l else None
      | WHave _, WRemoved => wlived WGone l
      | _, _ => None
      end
  end.

Definition wshown (p : wphase) : option KnownWorkspace := match p with WHave k => Some k | _ => None end.

Lemma wlived_gone l p : wlived WGone l = Some p → l = [] ∧ p = WGone.
Proof. destruct l as [|[] ?]; cbn; [by intros [= <-]|done..]. Qed.

Lemma wlived_have l : ∀ k p, wlived (WHave k) l = Some p →
  (p = WGone ∧ ∀ v, foldl kstep v l = None) ∨
  ∃ k', p = WHave k' ∧ kw_rev k ≤ kw_rev k' ∧ (kw_rev k = kw_rev k' → k = k') ∧ foldl kstep (Some k') l = Some k'.
Proof.
  induction l as [|a l IH]; intros k p H.
  { injection H as <-. right. exists k. split_and!; [done|lia|done..]. }
  assert (Hgrows : ∀ k1, wlived (WHave k1) l = Some p → kw_rev k < kw_rev k1 ∨ k1 = k →
    (∀ k', kw_rev k1 ≤ kw_rev k' → (kw_rev k1 = kw_rev k' → k1 = k') → kstep (Some k') a = Some k') →
    (p = WGone ∧ ∀ v, foldl kstep v (a :: l) = None) ∨
    ∃ k', p = WHave k' ∧ kw_rev k ≤ kw_rev k' ∧ (kw_rev k = kw_rev k' → k = k') ∧
      foldl kstep (Some k') (a :: l) = Some k').
  { intros k1 H1 Hor Hstep. destruct (IH k1 p H1) as [[-> Hv]|(k' & -> & Hle & Heq & Hf)].
    - left. split; [done|]. intros v. apply Hv.
    - right. exists k'. split_and!; [done|destruct Hor as [?| ->]; lia|destruct Hor as [?| ->]; [lia|done]|].
      cbn [foldl]. by rewrite Hstep. }
  destruct a as [k1|k1|]; cbn [wlived] in H.
  - destruct (Z.ltb_spec (kw_rev k) (kw_rev k1)); [|done]. apply (Hgrows k1); [done|by left|].
    intros k' Hle _. cbn. destruct (Z.leb_spec (kw_rev k1) (kw_rev k')); [done|lia].
  - assert (Hstep : ∀ k', kw_rev k1 ≤ kw_rev k' → (kw_rev k1 = kw_rev k' → k1 = k') → kstep (Some k') (WChanged k1) = Some k').
    { intros k' Hle Heq. cbn. destruct (Z.ltb_spec (kw_rev k1) (kw_rev k')); [done|]. f_equal. apply Heq. lia. }
    case_decide as Hk; [subst; apply (Hgrows k); [done|by right|done]|].
    destruct (Z.ltb_spec (kw_rev k) (kw_rev k1)); [|done]. apply (Hgrows k1); [done|by left|done].
  - destruct (wlived_gone _ _ H) as [-> ->]. by left.
Qed.

(** Stale announcements replayed after a listing leave it standing. *)
Lemma wseen_again p l p' : wlived p l = Some p' → foldl kstep (wshown p') l = wshown p'.
Proof.
  intros H. destruct p as [|k|]; [|destruct (wlived_have l k p' H) as [[-> Hv]|(k' & -> & _ & _ & Hf)]; [apply Hv|done]|
    by destruct (wlived_gone _ _ H) as [-> ->]].
  destruct l as [|[k|k|] l]; [by injection H as <-|done| |done]. cbn [wlived] in H.
  destruct (wlived_have l k p' H) as [[-> Hv]|(k' & -> & Hle & Heq & Hf)]; [apply Hv|].
  cbn [foldl wshown kstep]. destruct (Z.ltb_spec (kw_rev k) (kw_rev k')); [done|].
  by rewrite Heq by lia.
Qed.

Lemma wseen_on l : ∀ p p', wlived p l = Some p' → foldl kstep (wshown p) l = wshown p'.
Proof.
  induction l as [|a l IH]; intros p p'; [by intros [= <-]|].
  destruct p as [|old|], a as [k|k|]; try done; cbn [wlived foldl wshown kstep].
  - apply (IH (WHave k)).
  - destruct (Z.ltb_spec (kw_rev old) (kw_rev k)); [|done]. destruct (Z.leb_spec (kw_rev k) (kw_rev old)); [lia|].
    apply (IH (WHave k)).
  - case_decide as Hk; [subst; rewrite Z.ltb_irrefl; apply (IH (WHave old))|].
    destruct (Z.ltb_spec (kw_rev old) (kw_rev k)); [|done]. destruct (Z.ltb_spec (kw_rev k) (kw_rev old)); [lia|].
    apply (IH (WHave k)).
  - apply (IH WGone).
Qed.

(** ** A subscription *)

(** What a connection that lists comes to while somebody listens. *)
Lemma subscription_runs d frames ended sessions workspaces pending rest s :
  receive_listing None None [] frames = Some (sessions, workspaces, pending, rest) →
  let '(r, subscribed, s') := stream_status_once (λ _, true) (Ok (d, frames, ended)) s in
  r = Err ended ∧ subscribed = true ∧ st_previous_daemon_id s' = Some d ∧
  ∃ events new,
    st_sent s' = st_sent s ++ map (mkIdentifiedDaemonEvent d) events ++ new ∧
    session_events (map (mkIdentifiedDaemonEvent d) events) = [] ∧
    session_events new = pushed (pending ++ rest) (from_listing sessions) ∧
    (st_previous_daemon_id s = None ∨ st_previous_daemon_id s = Some d →
       foldl view_step (st_known s) events = listed workspaces) ∧
    st_known s' = foldl view_step (listed workspaces) (map ie_event new) ∧
    ∀ id, st_known s' !! id = foldl kstep (listed workspaces !! id) (wacts id (pending ++ rest)).
Proof.
  intros Hl. unfold stream_status_once. rewrite Hl. cbv zeta.
  set (changed := match st_previous_daemon_id s with Some _ => _ | None => _ end).
  pose proof (snapshot_view d workspaces (if changed then ∅ else st_known s)) as Hsnap.
  destruct (workspace_snapshot_events _ _) as [events current]. destruct Hsnap as (-> & Hview & Hnone).
  rewrite send_all_sends.
  destruct (follow_all d (negb (if changed then false else st_has_snapshot s)) pending (from_listing sessions)
    (listed workspaces) (st_sent s ++ map (mkIdentifiedDaemonEvent d) events)) as (k1 & new1 & Hf1 & Hs1 & Hv1 & Hl1).
  rewrite Hf1.
  destruct (follow_all d true rest (joined pending (from_listing sessions)) k1
    ((st_sent s ++ map (mkIdentifiedDaemonEvent d) events) ++ new1)) as (k2 & new2 & Hf2 & Hs2 & Hv2 & Hl2).
  rewrite Hf2. split_and!; [done..|]. exists events, (new1 ++ new2). cbn [st_sent st_known]. split_and!.
  - by rewrite <- !app_assoc.
  - done.
  - unfold session_events in *. by rewrite omap_app, pushed_app, Hs1, Hs2.
  - intros Hsame. rewrite <- Hview. f_equal. unfold changed. destruct Hsame as [-> | ->]; [done|].
    by rewrite bool_decide_eq_true_2.
  - by rewrite map_app, foldl_app, Hv2, Hv1.
  - intros id. unfold wacts in *. by rewrite omap_app, foldl_app, Hl2, Hl1.
Qed.

Lemma view_app a b : view (a ++ b) = foldl view_step (view a) (map ie_event b).
Proof. unfold view. by rewrite map_app, foldl_app. Qed.

Definition whistory (from : string → wphase) (frames : list Frame) (to : string → wphase) : Prop :=
  ∀ id, wlived (from id) (wacts id frames) = Some (to id).


(** The last thing pushed about a workspace says that it runs exactly when one of its
    sessions has a process, though what happened between subscribing and listing is told
    again over a join that already holds it: one session's end, or an old event, does
    not pass for the workspace's. *)
Theorem the_last_status_is_the_aggregate home d frames ended sessions workspaces pending rest s
    before after at_subscribe at_listing now w e :
  (∀ id, home id ≠ "") →
  receive_listing None None [] frames = Some (sessions, workspaces, pending, rest) →
  pending ++ rest = before ++ after → history home at_subscribe before at_listing →
  lists home sessions at_listing → history home at_listing after now →
  (∀ f, f ∈ pending ++ rest → act_of w f = None) →
  let '(_, _, s') := stream_status_once (λ _, true) (Ok (d, frames, ended)) s in
  last (filter (λ e, se_id e = w) (session_events (drop (length (st_sent s)) (st_sent s')))) = Some e →
  running (se_change e) = true ↔ ∃ id, now id = Born true ∧ home id = w.
Proof.
  intros Hhome Hl Hsplit Hbefore Hlists Hafter Hw.
  pose proof (subscription_runs d frames ended sessions workspaces pending rest s Hl) as Hrun.
  destruct (stream_status_once _ _ s) as [[r subscribed] s'].
  destruct Hrun as (_ & _ & _ & events & new & Hsent & Hnone & Hnew & _). rewrite Hsent, drop_app_length.
  unfold session_events in *. rewrite omap_app, Hnone, Hnew, Hsplit. cbn [app]. rewrite Hsplit in Hw. intros Hlast.
  by eapply last_event_is_the_aggregate.
Qed.

(** ** Reconnecting *)

Lemma stream_status_sleeps cs : ∀ delay s, FIRST_RESUBSCRIBE_DELAY ≤ delay ≤ MAX_RESUBSCRIBE_DELAY →
  Forall (λ d, FIRST_RESUBSCRIBE_DELAY ≤ d ≤ MAX_RESUBSCRIBE_DELAY) (stream_status (λ _, true) cs delay s).1 ∧
  length (stream_status (λ _, true) cs delay s).1 = length cs.
Proof.
  induction cs as [|c cs IH]; intros delay s Hd; [done|]. cbn [stream_status negb].
  destruct (stream_status_once _ c s) as [[outcome subscribed] s1].
  set (d := if subscribed then FIRST_RESUBSCRIBE_DELAY else delay).
  assert (Hd1 : FIRST_RESUBSCRIBE_DELAY ≤ d ≤ MAX_RESUBSCRIBE_DELAY).
  { unfold d, FIRST_RESUBSCRIBE_DELAY, MAX_RESUBSCRIBE_DELAY in *. destruct subscribed; lia. }
  destruct (IH (next_resubscribe_delay d) s1) as [Hf Hl].
  { unfold next_resubscribe_delay, FIRST_RESUBSCRIBE_DELAY, MAX_RESUBSCRIBE_DELAY in *. lia. }
  destruct (stream_status _ cs _ s1) as [sleeps s2]. cbn [fst length] in *. split; [by constructor|by rewrite Hl].
Qed.

Lemma failing_sleeps errors : ∀ k s,
  stream_status (λ _, true) (map Err errors) (Z.min (FIRST_RESUBSCRIBE_DELAY * 2 ^ Z.of_nat k) MAX_RESUBSCRIBE_DELAY) s =
    (map (λ n, Z.min (FIRST_RESUBSCRIBE_DELAY * 2 ^ Z.of_nat n) MAX_RESUBSCRIBE_DELAY) (seq k (length errors)), s).
Proof.
  induction errors as [|e errors IH]; intros k s; [done|]. cbn [map stream_status stream_status_once negb length seq].
  assert (Hnext : next_resubscribe_delay (Z.min (FIRST_RESUBSCRIBE_DELAY * 2 ^ Z.of_nat k) MAX_RESUBSCRIBE_DELAY) =
    Z.min (FIRST_RESUBSCRIBE_DELAY * 2 ^ Z.of_nat (S k)) MAX_RESUBSCRIBE_DELAY).
  { unfold next_resubscribe_delay, MAX_RESUBSCRIBE_DELAY. rewrite Nat2Z.inj_succ, Z.pow_succ_r by lia. lia. }
  rewrite Hnext. by rewrite IH.
Qed.

(** A daemon that is away is asked for at least every thirty seconds and at most once
    a second, once for each connection that ended; connections that fail one after the
    other are spaced by doubling delays, and one that listed starts them over. *)
Theorem retries_back_off cs errors d frames ended listing s :
  receive_listing None None [] frames = Some listing →
  let delay := FIRST_RESUBSCRIBE_DELAY in
  (let '(sleeps, _) := stream_status (λ _, true) cs delay s in
   length sleeps = length cs ∧
   Forall (λ d, FIRST_RESUBSCRIBE_DELAY ≤ d ≤ MAX_RESUBSCRIBE_DELAY) sleeps) ∧
  (let failing := map (λ n, Z.min (FIRST_RESUBSCRIBE_DELAY * 2 ^ Z.of_nat n) MAX_RESUBSCRIBE_DELAY) in
   ∀ k : nat,
   (stream_status (λ _, true) (map Err errors) delay s).1 = failing (seq 0 (length errors)) ∧
   (stream_status (λ _, true) (Ok (d, frames, ended) :: map Err errors) (FIRST_RESUBSCRIBE_DELAY * 2 ^ Z.of_nat k) s).1 =
     FIRST_RESUBSCRIBE_DELAY :: failing (seq 1 (length errors))).
Proof.
  intros Hl delay. split; [|intros failing k; split].
  - pose proof (stream_status_sleeps cs delay s) as H. destruct (stream_status _ cs delay s) as [sleeps s'].
    cbn [fst] in H. destruct H; [|done]. unfold delay, FIRST_RESUBSCRIBE_DELAY, MAX_RESUBSCRIBE_DELAY. lia.
  - pose proof (failing_sleeps errors 0 s) as H. change (Z.min (FIRST_RESUBSCRIBE_DELAY * 2 ^ Z.of_nat 0) MAX_RESUBSCRIBE_DELAY) with delay in H. by rewrite H.
  - cbn [stream_status negb]. destruct listing as [[[sessions workspaces] pending] rest].
    pose proof (subscription_runs d frames ended sessions workspaces pending rest s Hl) as Hrun.
    destruct (stream_status_once _ _ s) as [[r subscribed] s1]. destruct Hrun as (_ & -> & _).
    pose proof (failing_sleeps errors 1 s1) as H. cbn [negb].
    change (next_resubscribe_delay FIRST_RESUBSCRIBE_DELAY) with
      (Z.min (FIRST_RESUBSCRIBE_DELAY * 2 ^ Z.of_nat 1) MAX_RESUBSCRIBE_DELAY). by rewrite H.
Qed.

(** ** Samples *)

Definition sample_workspace (id : string) (rev : Z) (doc : LayoutDoc) : WorkspaceInfo :=
  mkWorkspaceInfo id "name" None None "/w" 0 0 rev doc.

Definition sample_doc (session : string) : LayoutDoc := mkLayoutDoc 1 (Leaf [Terminal session] 0 true).

Definition sample_info (id workspace : string) (status : SessionStatus) : SessionInfo :=
  mkSessionInfo id workspace "shell" "" "/w" 0 status.

(** [w1]'s layout is written and [w2] comes and goes before the listing, [w1]'s is
    written again after it; the listener holds an old [w1], and a [w3] removed while
    nobody was connected. *)
Definition sample_before : list Frame :=
  [Frame_LayoutChanged "w1" (sample_doc "b") 2 true None; Frame_Workspace (sample_workspace "w2" 0 (sample_doc "x")) [] true None;
   Frame_WorkspaceRemoved "w2" true None].
Definition sample_after : list Frame := [Frame_LayoutChanged "w1" (sample_doc "c") 3 true None].

Definition sample_frames : list Frame :=
  sample_before ++ [Frame_SessionList [] (Some 2); Frame_WorkspaceList [sample_workspace "w1" 2 (sample_doc "b")] (Some 3)]
  ++ sample_after.

Definition sample_stream : Stream :=
  let sent := map (mkIdentifiedDaemonEvent (Some "d"))
    [Event_WorkspaceChanged (mkLayoutEvent "w1" (sample_doc "a") 1);
     Event_WorkspaceChanged (mkLayoutEvent "w3" (sample_doc "z") 4)] in
  mkStream (view sent) true (Some (Some "d")) sent.


(** One session of [w] ends and another starts before the listing, which ends after it. *)
Definition sample_pending : list Frame := [Frame_Exited "a" (Some 0); Frame_Created (sample_info "b" "w" Working) true None].
Definition sample_rest : list Frame := [Frame_Exited "b" None].
Definition sample_listing : list SessionInfo := [sample_info "a" "w" Exited; sample_info "b" "w" Working].

Definition sample_phases (a b : phase) (id : string) : phase :=
  if decide (id = "a") then a else if decide (id = "b") then b else Unborn.

Lemma sample_history : history (λ _, "w") (sample_phases (Born true) Unborn) sample_pending
    (sample_phases (Born false) (Born true)) ∧
  history (λ _, "w") (sample_phases (Born false) (Born true)) sample_rest (sample_phases (Born false) (Born false)) ∧
  lists (λ _, "w") sample_listing (sample_phases (Born false) (Born true)).
Proof.
  split_and!.
  - intros id. unfold acts, sample_pending, sample_phases, alive. cbn. repeat case_decide; simplify_eq; try done.
  - intros id. unfold acts, sample_rest, sample_phases, alive. cbn. repeat case_decide; simplify_eq; try done.
  - split; [apply NoDup_cons; split; [set_solver|apply NoDup_singleton]|].
    intros id. unfold sample_phases. repeat case_decide; subst.
    + exists (sample_info "a" "w" Exited). split; [set_solver|done].
    + exists (sample_info "b" "w" Working). split; [set_solver|done].
    + cbn. set_solver.
Qed.

Lemma the_last_status_is_the_aggregate_witness :
  let frames := sample_pending ++ [Frame_SessionList sample_listing (Some 2); Frame_WorkspaceList [] (Some 3)] ++ sample_rest in
  let s' := (stream_status_once (λ _, true) (Ok (None, frames, "eof")) stream_new).2 in
  let e := mkStatusEvent "w" Change_Exited in
  last (filter (λ e, se_id e = "w") (session_events (st_sent s'))) = Some e ∧
  (running (se_change e) = true ↔
     ∃ id : string, sample_phases (Born false) (Born false) id = Born true ∧ "w" = "w").
Proof.
  intros frames s' e. destruct sample_history as (Hbefore & Hafter & Hlists).
  assert (Hlast : last (filter (λ e, se_id e = "w") (session_events (st_sent s'))) = Some e) by reflexivity.
  split; [exact Hlast|].
  refine (the_last_status_is_the_aggregate (λ _, "w") None frames "eof" sample_listing [] sample_pending sample_rest
    stream_new sample_pending sample_rest _ _ _ "w" e _ _ _ Hbefore Hlists Hafter _ Hlast);
    [discriminate|reflexivity|reflexivity|].
  intros f Hf. repeat (apply elem_of_cons in Hf as [->|Hf]; [reflexivity|]). by apply not_elem_of_nil in Hf.
Defined.

Lemma retries_back_off_witness :
  let frames := [Frame_SessionList [] (Some 2); Frame_WorkspaceList [] (Some 3)] in
  (stream_status (λ _, true) (Ok (None, frames, "eof") :: map Err (repeat "refused" 7)) 8000 stream_new).1 =
    [1000; 2000; 4000; 8000; 16000; 30000; 30000; 30000].
Proof.
  intros frames. pose proof (retries_back_off [] (repeat "refused" 7) None frames "eof" ([], [], [], []) stream_new eq_refl) as H.
  cbv zeta in H. destruct H as [_ H]. refine (eq_trans (proj2 (H 3%nat)) _). reflexivity.
Defined.
