(* ===== verification/Registry.v ===== *)
(** * The client's registry of workspaces

    [crates/ade_workspaces/src/registry.rs] over its sqlite table, and the row type of
    [ade_workspaces.rs]: each statement as what sqlite does with it, the unique index on
    daemon records included. *)

From S2P Require Import Prelude Text Words Events.
From Stdlib Require Import Ascii.
From stdpp Require Import options.
Open Scope Z_scope.

(** ** Rows *)

Record AdeWorkspace : Type := mkAdeWorkspace {
  aw_id : string;
  aw_name : string;
  aw_project_id : string;
  aw_project_identity : option string;
  aw_repository_path : string;
  aw_project_scope_rev : Z;   (* u64 *)
  aw_branch : option string;
  aw_remote_host : option string;
  aw_remote_workspace_path : option string;
  aw_terminal_session_id : option string;
  aw_daemon_id : option string;
  aw_status : WorkspaceStatus;
  aw_created_at : Z;          (* unix seconds *)
  aw_last_opened_at : Z
}.

#[export] Instance AdeWorkspace_eq_dec : EqDecision AdeWorkspace.
Proof. solve_decision. Defined.

(** [AdeWorkspace::new]; the id is a fresh uuid. *)
Definition workspace_new (fresh name project_id repository_path : string) (now : Z) : AdeWorkspace :=
  mkAdeWorkspace fresh name project_id None repository_path 0 None None None None None Workspace_Creating now now.

Definition is_remote (w : AdeWorkspace) : bool := bool_decide (is_Some (aw_remote_host w)).

Definition project_identity (w : AdeWorkspace) : string :=
  default (aw_repository_path w) (aw_project_identity w).

Definition SESSION_PREFIX : string := "ade".

Definition is_ascii_uppercase (c : ascii) : bool := ((65 <=? N_of_ascii c) && (N_of_ascii c <=? 90))%N.

Definition to_ascii_lowercase (c : ascii) : ascii :=
  if is_ascii_uppercase c then ascii_of_N (N_of_ascii c + 32) else c.

Definition is_ascii_alphanumeric (c : ascii) : bool :=
  is_ascii_digit c || is_ascii_uppercase c || is_ascii_lowercase c.

(** The slug so far, its last character first. The bytes of a character that is not ascii
    are none of them alphanumeric, so they make one dash as the character does. *)
Fixpoint slug_from (slug : list ascii) (name : string) : list ascii :=
  match name with
  | EmptyString => slug
  | String c name =>
      if is_ascii_alphanumeric c then slug_from (to_ascii_lowercase c :: slug) name
      else match slug with
           | last :: _ => if decide (last = "-"%char) then slug_from slug name else slug_from ("-"%char :: slug) name
           | [] => slug_from ("-"%char :: slug) name
           end
  end.

Definition slug (name : string) : string :=
  trim_end_matches "-" (trim_start_matches "-" (of_bytes (rev (slug_from [] name)))).

Definition tmux_session_name (name id : string) : string :=
  SESSION_PREFIX +:+ "-" +:+ slug name +:+ "-" +:+ str_take (6 `min` String.length id) id.

Definition daemon_workspace_id (w : AdeWorkspace) : string :=
  default (tmux_session_name (aw_name w) (aw_id w)) (aw_terminal_session_id w).

Example tmux_session_name_sample :
  tmux_session_name "  Investigation: vector DB!  " "0123456789abcdef" = "ade-investigation-vector-db-012345".
Proof. reflexivity. Qed.

(** *** The columns

    What sqlite stores: an [INTEGER] is signed and 64 bits wide. *)
Inductive sqlval : Type := SqlNull | SqlInt (z : Z) | SqlText (s : string) | SqlBlob (s : string).

Definition as_i64 (z : Z) : Z := if z <? 9223372036854775808 then z else z - 18446744073709551616.
Definition as_u64 (z : Z) : Z := z `mod` 18446744073709551616.

Definition sql_opt {A} (f : A → sqlval) (o : option A) : sqlval := from_option f SqlNull o.

(** [Bind for AdeWorkspace]. *)
Definition bind_workspace (w : AdeWorkspace) : list sqlval :=
  [SqlText (aw_id w); SqlText (aw_name w); SqlText (aw_project_id w); sql_opt SqlText (aw_project_identity w);
   SqlBlob (aw_repository_path w); SqlInt (as_i64 (aw_project_scope_rev w)); sql_opt SqlText (aw_branch w);
   sql_opt SqlText (aw_remote_host w); sql_opt SqlBlob (aw_remote_workspace_path w);
   sql_opt SqlText (aw_terminal_session_id w); sql_opt SqlText (aw_daemon_id w);
   SqlText (workspace_status_str (aw_status w)); SqlInt (aw_created_at w); SqlInt (aw_last_opened_at w)].

Definition text_column (v : sqlval) : option string := match v with SqlText s => Some s | _ => None end.
Definition blob_column (v : sqlval) : option string := match v with SqlBlob s => Some s | _ => None end.
Definition int_column (v : sqlval) : option Z := match v with SqlInt z => Some z | _ => None end.
Definition opt_column {A} (f : sqlval → option A) (v : sqlval) : option (option A) :=
  match v with SqlNull => Some None | _ => Some <$> f v end.

(** [Column for AdeWorkspace]. *)
Definition workspace_column (row : list sqlval) : option AdeWorkspace :=
  match row with
  | [id; name; project_id; identity; path; rev; branch; host; remote_path; terminal; daemon; status; created; opened] =>
      id ← text_column id; name ← text_column name; project_id ← text_column project_id;
      identity ← opt_column text_column identity; path ← blob_column path; rev ← int_column rev;
      branch ← opt_column text_column branch; host ← opt_column text_column host;
      remote_path ← opt_column blob_column remote_path; terminal ← opt_column text_column terminal;
      daemon ← opt_column text_column daemon; status ← text_column status;
      status ← match workspace_status_from_str status with Ok s => Some s | Err _ => None end;
      created ← int_column created; opened ← int_column opened;
      Some (mkAdeWorkspace id name project_id identity path (as_u64 rev) branch host remote_path terminal daemon
              status created opened)
  | _ => None
  end.

(** ** The table *)

Record Row : Type := mkRow { row_workspace : AdeWorkspace; row_used_by_client_at : option Z }.

Abbreviation Registry := (gmap string Row).

Definition NUL : ascii := byte 0.

Definition record_key (r : Row) : option (string * string) :=
  match row_used_by_client_at r, aw_terminal_session_id (row_workspace r) with
  | Some _, Some terminal =>
      let host := String NUL (default (String NUL "") (aw_remote_host (row_workspace r))) in
      Some (default host (aw_daemon_id (row_workspace r)), terminal)
  | _, _ => None
  end.

(** Another row holds the record of [r]. *)
Definition taken (id : string) (r : Row) (t : Registry) : bool :=
  match record_key r with
  | Some key => existsb (λ '(i, s), negb (bool_decide (i = id)) && bool_decide (record_key s = Some key)) (map_to_list t)
  | None => false
  end.

Definition UNIQUE_FAILED : string := "UNIQUE constraint failed: index 'ade_workspaces_one_row_per_record'".

(** A statement: it answers, or fails and leaves the table. *)
Definition statement (A : Type) : Type := st Registry (result string A).

Definition put_row (id : string) (r : Row) : statement () := λ t,
  if taken id r t then (Err UNIQUE_FAILED, t) else (Ok (), <[id := r]> t).

(** [UPDATE ... WHERE id = ?1 AND ...]: whether a row was updated. *)
Definition update_where (id : string) (p : Row → bool) (f : Row → Row) : statement bool := λ t,
  match t !! id with
  | Some r => if p r then match put_row id (f r) t with
                          | (Ok _, t) => (Ok true, t)
                          | (Err e, t) => (Err e, t)
                          end
              else (Ok false, t)
  | None => (Ok false, t)
  end.

Definition on_workspace (f : AdeWorkspace → AdeWorkspace) (r : Row) : Row :=
  mkRow (f (row_workspace r)) (row_used_by_client_at r).

Definition used (r : Row) : bool := bool_decide (is_Some (row_used_by_client_at r)).

Definition always (r : Row) : bool := true.

(** ** Statements *)

(** The id clause of the upsert comes first; its update must respect the index itself. *)
Definition create_workspace (w : AdeWorkspace) (now : Z) : statement () := λ t,
  let row := mkRow w (Some now) in
  match t !! aw_id w with
  | Some _ => put_row (aw_id w) row t
  | None => if taken (aw_id w) row t then (Ok (), t) else (Ok (), <[aw_id w := row]> t)
  end.

Definition get_workspace (id : string) (t : Registry) : option AdeWorkspace :=
  match t !! id with Some r => if used r then Some (row_workspace r) else None | None => None end.

Definition rows_where (p : Row → bool) (t : Registry) : list AdeWorkspace :=
  omap (λ '(_, r), if p r then Some (row_workspace r) else None) (map_to_list t).

Definition opened_later (a b : AdeWorkspace) : Prop := aw_last_opened_at b ≤ aw_last_opened_at a.

#[export] Instance opened_later_dec : RelDecision opened_later.
Proof. intros a b. unfold opened_later. apply _. Defined.

Definition list_workspaces (t : Registry) : list AdeWorkspace :=
  merge_sort opened_later (rows_where used t).

Definition list_workspaces_for_project (project_id : string) (t : Registry) : list AdeWorkspace :=
  merge_sort opened_later
    (rows_where (λ r, used r && bool_decide (aw_project_id (row_workspace r) = project_id)) t).

Definition unconfirmed_workspaces (t : Registry) : list AdeWorkspace := rows_where (λ r, negb (used r)) t.

(** [false] before [true], then the row opened last, then the lower id. *)
Definition ranked (rank : AdeWorkspace → Z) (a b : AdeWorkspace) : Prop :=
  rank a < rank b ∨
  (rank a = rank b ∧ row_le (- aw_last_opened_at a, aw_id a) (- aw_last_opened_at b, aw_id b)).

#[export] Instance ranked_dec rank : RelDecision (ranked rank).
Proof. intros a b. unfold ranked. apply _. Defined.

Definition branchless (w : AdeWorkspace) : Z := match aw_branch w with None => 1 | Some _ => 0 end.

(** [(not this daemon, no branch)], the first weighing more. *)
Definition promotion_rank (daemon_id : option string) (w : AdeWorkspace) : Z :=
  2 * (if bool_decide (is_Some daemon_id ∧ aw_daemon_id w = daemon_id) then 0 else 1) + branchless w.

Definition promotion_candidates (daemon_id : option string) (t : Registry) : list AdeWorkspace :=
  merge_sort (ranked (promotion_rank daemon_id)) (unconfirmed_workspaces t).

Definition with_route (remote_host daemon_id : option string) (w : AdeWorkspace) : AdeWorkspace :=
  mkAdeWorkspace (aw_id w) (aw_name w) (aw_project_id w) (aw_project_identity w) (aw_repository_path w)
    (aw_project_scope_rev w) (aw_branch w) remote_host (aw_remote_workspace_path w) (aw_terminal_session_id w)
    daemon_id (aw_status w) (aw_created_at w) (aw_last_opened_at w).

Definition with_opened (at_ : Z) (w : AdeWorkspace) : AdeWorkspace :=
  mkAdeWorkspace (aw_id w) (aw_name w) (aw_project_id w) (aw_project_identity w) (aw_repository_path w)
    (aw_project_scope_rev w) (aw_branch w) (aw_remote_host w) (aw_remote_workspace_path w)
    (aw_terminal_session_id w) (aw_daemon_id w) (aw_status w) (aw_created_at w) at_.

Definition with_label (name : string) (status : WorkspaceStatus) (w : AdeWorkspace) : AdeWorkspace :=
  mkAdeWorkspace (aw_id w) name (aw_project_id w) (aw_project_identity w) (aw_repository_path w)
    (aw_project_scope_rev w) (aw_branch w) (aw_remote_host w) (aw_remote_workspace_path w)
    (aw_terminal_session_id w) (aw_daemon_id w) status (aw_created_at w) (aw_last_opened_at w).

Definition with_session (terminal daemon_id : option string) (w : AdeWorkspace) : AdeWorkspace :=
  mkAdeWorkspace (aw_id w) (aw_name w) (aw_project_id w) (aw_project_identity w) (aw_repository_path w)
    (aw_project_scope_rev w) (aw_branch w) (aw_remote_host w) (aw_remote_workspace_path w) terminal daemon_id
    (aw_status w) (aw_created_at w) (aw_last_opened_at w).

Definition with_scope (rev : Z) (project_id identity path : string) (w : AdeWorkspace) : AdeWorkspace :=
  mkAdeWorkspace (aw_id w) (aw_name w) project_id (Some identity) path rev (aw_branch w) (aw_remote_host w)
    (aw_remote_workspace_path w) (aw_terminal_session_id w) (aw_daemon_id w) (aw_status w) (aw_created_at w)
    (aw_last_opened_at w).

Definition confirm_workspace (id : string) (remote_host daemon_id : option string) (at_ : Z) : statement bool :=
  update_where id (λ r, negb (used r))
    (λ r, mkRow (with_opened at_ (with_route remote_host daemon_id (row_workspace r))) (Some at_)).

Definition update_status (id : string) (status : WorkspaceStatus) : statement bool :=
  update_where id always (on_workspace (λ w, with_label (aw_name w) status w)).

Definition update_name (id name : string) : statement bool :=
  update_where id always (on_workspace (λ w, with_label name (aw_status w) w)).

Definition rebind_workspace_route (id : string) (expected_host expected_daemon host daemon : option string) :
    statement bool :=
  update_where id (λ r, bool_decide (aw_remote_host (row_workspace r) = expected_host) &&
                        bool_decide (aw_daemon_id (row_workspace r) = expected_daemon))
    (on_workspace (with_route host daemon)).

Definition owns (daemon : option string) (terminal : string) (w : AdeWorkspace) : bool :=
  bool_decide (aw_daemon_id w = daemon ∧ aw_terminal_session_id w = Some terminal).

Definition claims (id : string) (host daemon : option string) (terminal : string) (w : AdeWorkspace) : bool :=
  bool_decide (aw_id w = id ∧ aw_remote_host w = host ∧ aw_daemon_id w = daemon ∧
               aw_terminal_session_id w = Some terminal).

Definition resolve_rebind_conflict (candidate_id : string) (expected_host expected_daemon host daemon : option string)
    (terminal : string) : statement (option string) := λ t,
  match daemon with
  | None => (Ok None, t)
  | Some _ =>
      let rows := rows_where (λ r, used r && (bool_decide (aw_id (row_workspace r) = candidate_id)
                                              || owns daemon terminal (row_workspace r))) t in
      match find_first (owns daemon terminal) rows with
      | None => (Ok None, t)
      | Some owner =>
          let candidate := find_first (claims candidate_id expected_host expected_daemon terminal) rows in
          let contenders := match candidate with
                            | Some c => if decide (aw_id c = aw_id owner) then [owner] else [owner; c]
                            | None => [owner]
                            end in
          match merge_sort (ranked branchless) contenders with
          | [] => (Err "a rebind conflict has no survivor", t)
          | survivor :: losers =>
              let t' := foldl (λ t loser, delete (aw_id loser) t) t losers in
              match update_where (aw_id survivor) always (on_workspace (with_route host daemon)) t' with
              | (Ok _, t'') => (Ok (Some (aw_id survivor)), t'')
              | (Err e, _) => (Err e, t)   (* the savepoint is rolled back *)
              end
          end
      end
  end.

(** Only a newer revision, or the identity a row of the same one lacks; sqlite compares
    the stored integers. *)
Definition scope_applies (rev : Z) (r : Row) : bool :=
  let stored := as_i64 (aw_project_scope_rev (row_workspace r)) in
  (stored <? as_i64 rev) ||
  ((stored =? as_i64 rev) && bool_decide (aw_project_identity (row_workspace r) = None)).

Definition stored_after (id error : string) (m : statement bool) : statement (bool * AdeWorkspace) := λ t,
  match m t with
  | (Ok applied, t) =>
      match get_workspace id t with
      | Some stored => (Ok (applied, stored), t)
      | None => (Err error, t)
      end
  | (Err e, t) => (Err e, t)
  end.

Definition update_project_scope (id : string) (rev : Z) (project_id identity : string) :
    statement (bool * AdeWorkspace) :=
  stored_after id ("workspace " +:+ id +:+ " disappeared while updating its project scope")
    (update_where id (scope_applies rev)
       (on_workspace (λ w, with_scope rev project_id identity (aw_repository_path w) w))).

Definition update_repository_scope (id path : string) (rev : Z) (project_id identity : string) :
    statement (bool * AdeWorkspace) :=
  stored_after id ("workspace " +:+ id +:+ " disappeared while updating its repository scope")
    (update_where id (scope_applies rev) (on_workspace (with_scope rev project_id identity path))).

Definition update_terminal_session_id (id : string) (terminal : option string) : statement bool :=
  update_where id always (on_workspace (λ w, with_session terminal (aw_daemon_id w) w)).

Definition update_terminal_session_and_daemon_id (id : string) (terminal daemon : option string) : statement bool :=
  update_where id always (on_workspace (with_session terminal daemon)).

Definition update_remote_host_and_daemon_id (id : string) (host daemon : option string) : statement bool :=
  update_where id always (on_workspace (with_route host daemon)).

Definition update_last_opened_at (id : string) (at_ : Z) : statement bool :=
  update_where id always (on_workspace (with_opened at_)).

Definition delete_workspace (id : string) : statement () := λ t, (Ok (), delete id t).

(** ** The migrations that made records unique *)

(** Whether the row with id [victim] loses to another of its terminal and host. *)
Definition beaten (t : Registry) (victim : AdeWorkspace) : bool :=
  existsb (λ '(_, r),
    let winner := row_workspace r in
    used r && bool_decide (aw_terminal_session_id winner = aw_terminal_session_id victim) &&
    bool_decide (aw_remote_host winner = aw_remote_host victim) && negb (bool_decide (aw_id winner = aw_id victim)) &&
    bool_decide (ranked branchless winner victim)) (map_to_list t).

Definition victim (t : Registry) (r : Row) : bool :=
  used r && bool_decide (is_Some (aw_terminal_session_id (row_workspace r))) && beaten t (row_workspace r).

Definition collapse_duplicates (t : Registry) : Registry := filter (λ '(_, r), victim t r = false) t.

(** [CREATE UNIQUE INDEX] fails on a table that breaks it. *)
Definition indexable (t : Registry) : bool :=
  forallb (λ '(i, r), negb (taken i r t)) (map_to_list t).

Definition create_record_index (t : Registry) : result string Registry :=
  if indexable t then Ok t else Err UNIQUE_FAILED.

(** ** One row per record *)

Definition keyed (t : Registry) : Prop := ∀ i r, t !! i = Some r → aw_id (row_workspace r) = i.

Definition one_per_record (t : Registry) : Prop :=
  ∀ i j r s key, t !! i = Some r → t !! j = Some s → record_key r = Some key → record_key s = Some key → i = j.

Definition registry_wf (t : Registry) : Prop := keyed t ∧ one_per_record t.

Lemma taken_true id r t : taken id r t = true ↔
  ∃ key j s, record_key r = Some key ∧ j ≠ id ∧ t !! j = Some s ∧ record_key s = Some key.
Proof.
  unfold taken. destruct (record_key r) as [key|]; [|split; [done|by intros (? & ? & ? & ? & _)]].
  rewrite existsb_exists. split.
  - intros ([j s] & Hin & [Hj Hs]%andb_true_iff). exists key, j, s. split_and!; [done| | |].
    + intros ->. by rewrite bool_decide_eq_true_2 in Hj.
    + by apply elem_of_map_to_list, list_elem_of_In.
    + by apply bool_decide_eq_true_1 in Hs.
  - intros (? & j & s & [= <-] & Hj & Hs & Hk). exists (j, s). split; [by apply list_elem_of_In, elem_of_map_to_list|].
    apply andb_true_iff. split; [by rewrite bool_decide_eq_false_2|by apply bool_decide_eq_true_2].
Qed.

Lemma taken_false id r t : taken id r t = false ↔
  ∀ key j s, record_key r = Some key → t !! j = Some s → record_key s = Some key → j = id.
Proof.
  rewrite <- not_true_iff_false, taken_true. split.
  - intros Hno key j s Hr Hs Hk. destruct (decide (j = id)) as [|Hne]; [done|]. destruct Hno. by exists key, j, s.
  - intros Hall (key & j & s & Hr & Hj & Hs & Hk). by apply Hj, (Hall key j s).
Qed.

Lemma one_per_record_insert id r t : one_per_record t → taken id r t = false → one_per_record (<[id := r]> t).
Proof.
  intros Hone Hfree i j r1 s1 key Hi Hj Hr Hs. rewrite taken_false in Hfree.
  apply lookup_insert_Some in Hi as [[<- <-]|[Hi Hri]], Hj as [[<- <-]|[Hj Hsj]]; [done| | |].
  - symmetry. by eapply Hfree.
  - by eapply Hfree.
  - by eapply Hone.
Qed.

Lemma one_per_record_subseteq t t' : t' ⊆ t → one_per_record t → one_per_record t'.
Proof. intros Hsub Hone i j r s key Hi Hj. apply Hone; by eapply lookup_weaken. Qed.

Lemma keyed_insert id r t : keyed t → aw_id (row_workspace r) = id → keyed (<[id := r]> t).
Proof. intros Hk Hid i s [[<- <-]|[_ Hs]]%lookup_insert_Some; auto. Qed.

Lemma registry_wf_delete id t : registry_wf t → registry_wf (delete id t).
Proof.
  intros [Hk Ho]. split; [|by eapply one_per_record_subseteq, Ho; apply delete_subseteq].
  intros i r Hi. apply lookup_delete_Some in Hi as [_ Hi]. by apply Hk.
Qed.

(** A statement keeps the table well formed, and one that fails keeps it as it is. *)
Definition keeps {A} (m : statement A) : Prop :=
  ∀ t, registry_wf t → let '(r, t') := m t in registry_wf t' ∧ (is_ok r = false → t' = t).

Lemma put_row_keeps id r : aw_id (row_workspace r) = id → keeps (put_row id r).
Proof.
  intros Hid t [Hk Ho]. unfold put_row. destruct (taken id r t) eqn:Ht; [done|].
  split; [|done]. split; [by apply keyed_insert|by apply one_per_record_insert].
Qed.

Lemma update_where_keeps id p f :
  (∀ r, aw_id (row_workspace (f r)) = aw_id (row_workspace r)) → keeps (update_where id p f).
Proof.
  intros Hf t Hwf. unfold update_where. destruct (t !! id) as [r|] eqn:Hr; [|done].
  destruct (p r); [|done].
  assert (Hid : aw_id (row_workspace (f r)) = id) by (rewrite Hf; by apply (proj1 Hwf)).
  pose proof (put_row_keeps id (f r) Hid t Hwf) as H. by destruct (put_row id (f r) t) as [[?|?] t'].
Qed.

(** A statement that may write and then not find its row. *)
Definition writes {A} (m : statement A) : Prop := ∀ t, registry_wf t → registry_wf (m t).2.

Lemma keeps_writes {A} (m : statement A) : keeps m → writes m.
Proof. intros Hm t Hwf. specialize (Hm t Hwf). by destruct (m t), Hm. Qed.

Lemma stored_after_writes id error m : keeps m → writes (stored_after id error m).
Proof.
  intros Hm t Hwf. unfold stored_after. specialize (Hm t Hwf). destruct (m t) as [[applied|e] t']; [|by destruct Hm].
  destruct Hm as [Hm _]. by destruct (get_workspace id t').
Qed.

Lemma create_workspace_keeps w now : keeps (create_workspace w now).
Proof.
  intros t Hwf. unfold create_workspace. destruct (t !! aw_id w) as [r|] eqn:Hr.
  - by apply (put_row_keeps (aw_id w) (mkRow w (Some now))).
  - destruct (taken _ _ t) eqn:Ht; [done|]. destruct Hwf as [Hk Ho].
    split; [|done]. split; [by apply keyed_insert|by apply one_per_record_insert].
Qed.

Lemma delete_all_wf losers : ∀ t, registry_wf t → registry_wf (foldl (λ t loser, delete (aw_id loser) t) t losers).
Proof. induction losers as [|l losers IH]; intros t Hwf; [done|]. by apply IH, registry_wf_delete. Qed.

Lemma resolve_rebind_conflict_keeps id eh ed h d terminal : keeps (resolve_rebind_conflict id eh ed h d terminal).
Proof.
  intros t Hwf. unfold resolve_rebind_conflict. destruct d as [d|]; [|done].
  destruct (find_first _ _) as [owner|]; [|done]. destruct (merge_sort _ _) as [|survivor losers]; [done|].
  pose proof (update_where_keeps (aw_id survivor) always (on_workspace (with_route h (Some d))) (λ _, eq_refl)
    _ (delete_all_wf losers t Hwf)) as H.
  destruct (update_where _ _ _ _) as [[?|?] t'']; [by destruct H|done].
Qed.

(** The statements that write. *)
Inductive registry_op : Type :=
| CreateWorkspace (w : AdeWorkspace) (now : Z)
| ConfirmWorkspace (id : string) (host daemon : option string) (at_ : Z)
| UpdateStatus (id : string) (status : WorkspaceStatus)
| UpdateName (id name : string)
| RebindRoute (id : string) (expected_host expected_daemon host daemon : option string)
| ResolveRebindConflict (id : string) (expected_host expected_daemon host daemon : option string) (terminal : string)
| UpdateProjectScope (id : string) (rev : Z) (project_id identity : string)
| UpdateRepositoryScope (id path : string) (rev : Z) (project_id identity : string)
| UpdateTerminalSession (id : string) (terminal : option string)
| UpdateTerminalAndDaemon (id : string) (terminal daemon : option string)
| UpdateHostAndDaemon (id : string) (host daemon : option string)
| UpdateLastOpened (id : string) (at_ : Z)
| DeleteWorkspace (id : string).

Definition ignored {A} (m : statement A) : statement () := λ t,
  match m t with (Ok _, t) => (Ok (), t) | (Err e, t) => (Err e, t) end.

Definition run_op (o : registry_op) : statement () :=
  match o with
  | CreateWorkspace w now => create_workspace w now
  | ConfirmWorkspace id host daemon at_ => ignored (confirm_workspace id host daemon at_)
  | UpdateStatus id status => ignored (update_status id status)
  | UpdateName id name => ignored (update_name id name)
  | RebindRoute id eh ed h d => ignored (rebind_workspace_route id eh ed h d)
  | ResolveRebindConflict id eh ed h d terminal => ignored (resolve_rebind_conflict id eh ed h d terminal)
  | UpdateProjectScope id rev project_id identity => ignored (update_project_scope id rev project_id identity)
  | UpdateRepositoryScope id path rev project_id identity => ignored (update_repository_scope id path rev project_id identity)
  | UpdateTerminalSession id terminal => ignored (update_terminal_session_id id terminal)
  | UpdateTerminalAndDaemon id terminal daemon => ignored (update_terminal_session_and_daemon_id id terminal daemon)
  | UpdateHostAndDaemon id host daemon => ignored (update_remote_host_and_daemon_id id host daemon)
  | UpdateLastOpened id at_ => ignored (update_last_opened_at id at_)
  | DeleteWorkspace id => delete_workspace id
  end.

Lemma ignored_keeps {A} (m : statement A) : keeps m → keeps (ignored m).
Proof. intros Hm t Hwf. specialize (Hm t Hwf). unfold ignored. by destruct (m t) as [[?|?] t']. Qed.

Lemma ignored_writes {A} (m : statement A) : writes m → writes (ignored m).
Proof. intros Hm t Hwf. specialize (Hm t Hwf). unfold ignored. by destruct (m t) as [[?|?] t']. Qed.

Lemma run_op_writes o : writes (run_op o).
Proof.
  destruct o; cbn [run_op]; try (apply keeps_writes; first [apply create_workspace_keeps|
    apply ignored_keeps; first [apply resolve_rebind_conflict_keeps|by apply update_where_keeps]]);
    try (by apply ignored_writes, stored_after_writes, update_where_keeps).
  intros t Hwf. by apply registry_wf_delete.
Qed.

(** What a statement that fails leaves: all of them but the two that read their row back
    leave the table. *)
Definition reads_back (o : registry_op) : bool :=
  match o with UpdateProjectScope _ _ _ _ | UpdateRepositoryScope _ _ _ _ _ => true | _ => false end.

Lemma run_op_keeps o : reads_back o = false → keeps (run_op o).
Proof.
  destruct o; try done; intros _; cbn [run_op];
    try (first [apply create_workspace_keeps|
      apply ignored_keeps; first [apply resolve_rebind_conflict_keeps|by apply update_where_keeps]]).
  intros t Hwf. split; [by apply registry_wf_delete|done].
Qed.

Definition run_ops (ops : list registry_op) (t : Registry) : Registry := foldl (λ t o, (run_op o t).2) t ops.


(** ** The order of survivors *)

Section Ranked.
Context (rank : AdeWorkspace → Z).

#[export] Instance ranked_total : Total (ranked rank).
Proof.
  intros a b. unfold ranked, row_le. cbn. destruct (Z.lt_trichotomy (rank a) (rank b)) as [?|[?|?]]; [by auto| |by auto].
  destruct (Z.lt_trichotomy (- aw_last_opened_at a) (- aw_last_opened_at b)) as [?|[?|?]]; [by auto| |by auto 6].
  destruct (total String.le (aw_id a) (aw_id b)); auto 7.
Qed.

#[export] Instance ranked_transitive : Transitive (ranked rank).
Proof.
  intros a b c. unfold ranked, row_le. cbn. intros [?|[? H1]] [?|[? H2]]; [left; lia|left; lia|left; lia|right].
  split; [lia|]. destruct H1 as [?|[? H1]], H2 as [?|[? H2]]; [left; lia|left; lia|left; lia|right].
  split; [lia|]. by transitivity (aw_id b).
Qed.

Lemma ranked_antisym a b : ranked rank a b → ranked rank b a → aw_id a = aw_id b.
Proof.
  unfold ranked, row_le. cbn. intros [?|[? [?|[? Ha]]]] [?|[? [?|[? Hb]]]]; try lia. by apply (anti_symm String.le).
Qed.

Lemma ranked_least l : l ≠ [] → ∃ m, m ∈ l ∧ ∀ x, x ∈ l → ranked rank m x.
Proof.
  assert (Hrefl : ∀ x, ranked rank x x) by by intros x; destruct (total (ranked rank) x x).
  induction l as [|a l IH]; [done|]. intros _. destruct (decide (l = [])) as [->|Hne].
  - exists a. split; [set_solver|]. intros x Hx. assert (x = a) as -> by set_solver. done.
  - destruct (IH Hne) as (m & Hm & Hall). destruct (total (ranked rank) a m) as [Ham|Hma].
    + exists a. split; [set_solver|]. intros x [->|Hx]%elem_of_cons; [done|]. transitivity m; auto.
    + exists m. split; [set_solver|]. intros x [->|Hx]%elem_of_cons; auto.
Qed.

Lemma sort_two (a b : AdeWorkspace) :
  merge_sort (ranked rank) [a; b] = if decide (ranked rank a b) then [a; b] else [b; a].
Proof.
  unfold merge_sort. cbn. by destruct (decide _).
Qed.

Lemma sort_one (a : AdeWorkspace) : merge_sort (ranked rank) [a] = [a].
Proof. done. Qed.
End Ranked.

Lemma elem_of_rows_where p t w : w ∈ rows_where p t ↔ ∃ i r, t !! i = Some r ∧ p r = true ∧ row_workspace r = w.
Proof.
  unfold rows_where. rewrite list_elem_of_omap. split.
  - intros ([i r] & Hin & Hw). apply elem_of_map_to_list in Hin. exists i, r. by destruct (p r); simplify_eq.
  - intros (i & r & Hi & Hp & <-). exists (i, r). split; [by apply elem_of_map_to_list|by rewrite Hp].
Qed.

(** A collision of routes leaves one workspace for the daemon's record, on the new
    route: of the two that claimed it the one on a branch, or else the one opened last, or
    else the one of the lower id; with everything else it holds untouched, its rival gone
    and every other workspace as it was. A candidate that changed meanwhile takes no part,
    and nothing is done when nobody holds the record. It never fails. *)
Theorem rebind_conflict_keeps_one_row candidate_id expected_host expected_daemon host daemon terminal t :
  registry_wf t →
  let '(r, t') := resolve_rebind_conflict candidate_id expected_host expected_daemon host (Some daemon) terminal t in
  let owner i o := t !! i = Some o ∧ used o = true ∧ aw_daemon_id (row_workspace o) = Some daemon ∧
    aw_terminal_session_id (row_workspace o) = Some terminal in
  let candidate c := t !! candidate_id = Some c ∧ used c = true ∧ aw_remote_host (row_workspace c) = expected_host ∧
    aw_daemon_id (row_workspace c) = expected_daemon ∧ aw_terminal_session_id (row_workspace c) = Some terminal in
  let rebound := on_workspace (with_route host (Some daemon)) in
  ((∀ i o, ¬ owner i o) ∧ r = Ok None ∧ t' = t) ∨
  ∃ i o, owner i o ∧
    (((∀ c, candidate c → candidate_id = i) ∧ r = Ok (Some i) ∧ t' = <[i := rebound o]> t) ∨
     ∃ c, candidate c ∧ candidate_id ≠ i ∧
       if decide (ranked branchless (row_workspace o) (row_workspace c))
       then r = Ok (Some i) ∧ t' = <[i := rebound o]> (delete candidate_id t)
       else r = Ok (Some candidate_id) ∧ t' = <[candidate_id := rebound c]> (delete i t)).
Proof.
  intros [Hk Ho]. unfold resolve_rebind_conflict. set (rows := rows_where _ t).
  assert (Hkey : ∀ o, used o = true → aw_daemon_id (row_workspace o) = Some daemon →
    aw_terminal_session_id (row_workspace o) = Some terminal → record_key o = Some (daemon, terminal)).
  { intros o Hu Hd Ht. unfold record_key, used in *. rewrite Ht, Hd. by apply bool_decide_eq_true_1 in Hu as [? ->]. }
  assert (Hrow : ∀ j s, t !! j = Some s → used s = true →
    owns (Some daemon) terminal (row_workspace s) = true ∨ j = candidate_id → row_workspace s ∈ rows).
  { intros j s Hj Hu Hor. apply elem_of_rows_where. exists j, s. split_and!; [done| |done]. rewrite Hu. cbn [andb].
    destruct Hor as [->|<-]; [apply orb_true_r|]. rewrite (Hk _ _ Hj). by rewrite bool_decide_eq_true_2. }
  destruct (find_first _ rows) as [owner|] eqn:Howner.
  2: { left. split_and!; [|done..]. intros i o (Hi & Hu & Hd & Ht). rewrite find_first_None in Howner.
       assert (Hown : owns (Some daemon) terminal (row_workspace o) = true) by by apply bool_decide_eq_true_2.
       rewrite (Howner (row_workspace o)) in Hown; [done|]. eapply Hrow; [done..|by left]. }
  apply find_first_Some in Howner as [Hin Hown]. apply elem_of_rows_where in Hin as (i & o & Hi & Hp & <-).
  apply andb_true_iff in Hp as [Hu _]. apply bool_decide_eq_true_1 in Hown as [Hd Ht].
  assert (Hwho : t !! i = Some o ∧ used o = true ∧ aw_daemon_id (row_workspace o) = Some daemon ∧
    aw_terminal_session_id (row_workspace o) = Some terminal) by done.
  assert (Hid_o : aw_id (row_workspace o) = i) by by apply Hk.
  (* whoever survives, the record is free *)
  assert (Hput : ∀ j s t', t' !! j = Some s → t' ⊆ t → (j = i ∨ t' !! i = None) → aw_id (row_workspace s) = j →
    used s = true → aw_terminal_session_id (row_workspace s) = Some terminal →
    update_where (aw_id (row_workspace s)) always (on_workspace (with_route host (Some daemon))) t' =
      (Ok true, <[j := on_workspace (with_route host (Some daemon)) s]> t')).
  { intros j s t' Hj Hsub Hor Hid Hus Hts. unfold update_where, put_row. rewrite Hid, Hj. cbn [always].
    destruct (taken _ _ t') eqn:Htaken; [exfalso|done].
    apply taken_true in Htaken as (key & k & s' & Hks & Hne & Hs' & Hks').
    rewrite (Hkey (on_workspace _ s)) in Hks by done. injection Hks as <-.
    assert (k = i) as -> by (eapply (Ho k i s' o); [by eapply lookup_weaken|exact Hi|exact Hks'|by apply Hkey]).
    destruct Hor as [->|Hnone]; congruence. }
  destruct (find_first (claims _ _ _ _) rows) as [cand|] eqn:Hcand.
  - apply find_first_Some in Hcand as [Hin Hclaims]. apply elem_of_rows_where in Hin as (j & c & Hj & Hp & <-).
    apply andb_true_iff in Hp as [Huc _]. apply bool_decide_eq_true_1 in Hclaims as (Hid & Hh & Hdc & Htc).
    assert (j = candidate_id) as -> by (rewrite <- Hid; symmetry; by apply Hk).
    rewrite Hid, Hid_o. destruct (decide (candidate_id = i)) as [->|Hne].
    + rewrite sort_one. cbn [foldl]. rewrite (Hput i o t); [|done..|by left|done|done|done].
      right. exists i, o. split; [done|left]. by rewrite Hid_o.
    + rewrite sort_two. destruct (decide (ranked branchless (row_workspace o) (row_workspace c))) as [Hb|Hb]; cbn [foldl].
      * assert (Hrun := Hput i o (delete candidate_id t) (proj2 (lookup_delete_Some t candidate_id i o) (conj Hne Hi)) (delete_subseteq _ _)
          (or_introl eq_refl) Hid_o Hu Ht). rewrite Hid, Hrun, Hid_o.
        right. exists i, o. split; [done|right]. exists c. split; [done|]. split; [done|]. by rewrite decide_True.
      * assert (Hrun := Hput candidate_id c (delete i t) (proj2 (lookup_delete_Some t i candidate_id c) (conj (not_eq_sym Hne) Hj)) (delete_subseteq _ _)
          (or_intror (lookup_delete_eq _ _)) Hid Huc Htc). rewrite Hid_o, Hrun, Hid.
        right. exists i, o. split; [done|right]. exists c. split; [done|]. split; [done|]. by rewrite decide_False.
  - rewrite sort_one. cbn [foldl]. rewrite (Hput i o t); [|done..|by left|done|done|done].
    right. exists i, o. split; [done|left]. split_and!; [|by rewrite Hid_o|done].
    intros c (Hc & Huc & Hh & Hdc & Htc). exfalso. rewrite find_first_None in Hcand.
    assert (Hclaims : claims candidate_id expected_host expected_daemon terminal (row_workspace c) = true).
    { apply bool_decide_eq_true_2. split_and!; [by apply Hk|done..]. }
    rewrite (Hcand (row_workspace c)) in Hclaims; [done|]. eapply Hrow; [done..|by right].
Qed.

(** ** A row read back *)

Definition workspace_ok (w : AdeWorkspace) : Prop := 0 ≤ aw_project_scope_rev w ≤ u64_max.

Lemma as_u64_i64 z : 0 ≤ z ≤ u64_max → as_u64 (as_i64 z) = z.
Proof.
  unfold as_u64, as_i64, u64_max. intros Hz. destruct (Z.ltb_spec z 9223372036854775808).
  - rewrite Z.mod_small; lia.
  - rewrite <- (Z_mod_plus_full _ 1), Z.mod_small; lia.
Qed.

Lemma workspace_status_reads s : workspace_status_from_str (workspace_status_str s) = Ok s.
Proof. by destruct s. Qed.

Lemma column_bind w : workspace_ok w → workspace_column (bind_workspace w) = Some w.
Proof.
  intros Hok. destruct w as [id name pid ident path rev branch host rpath term daemon status created opened].
  destruct ident, branch, host, rpath, term, daemon; cbn in *; by rewrite workspace_status_reads, as_u64_i64.
Qed.

(** A workspace written is the workspace read: every column survives, the unsigned
    revision through sqlite's signed integer; afterwards it is there under its id and
    nothing else changed. Only a record that another workspace holds stands in the way:
    then that workspace, and everything else, stays as it is, and a new workspace is
    dropped in silence while one already there is refused. *)
Theorem a_created_workspace_is_read_back w now t :
  registry_wf t → workspace_ok w →
  workspace_column (bind_workspace w) = Some w ∧
  let '(r, t') := create_workspace w now t in
  (∀ i, i ≠ aw_id w → t' !! i = t !! i) ∧
  ((∀ j s key, t !! j = Some s → record_key s = Some key → record_key (mkRow w (Some now)) = Some key → j = aw_id w) ∧
   r = Ok () ∧ get_workspace (aw_id w) t' = Some w ∨
   (∃ j s key, j ≠ aw_id w ∧ t !! j = Some s ∧ record_key s = Some key ∧ record_key (mkRow w (Some now)) = Some key) ∧
   t' = t ∧ r = if decide (is_Some (t !! aw_id w)) then Err UNIQUE_FAILED else Ok ()).
Proof.
  intros Hwf Hok. split; [by apply column_bind|]. unfold create_workspace, put_row.
  set (row := mkRow w (Some now)).
  assert (Hread : get_workspace (aw_id w) (<[aw_id w := row]> t) = Some w).
  { unfold get_workspace. by rewrite lookup_insert_eq. }
  destruct (taken (aw_id w) row t) eqn:Ht.
  - apply taken_true in Ht as (key & j & s & Hr & Hj & Hs & Hk).
    assert (Hheld : ∃ j s key, j ≠ aw_id w ∧ t !! j = Some s ∧ record_key s = Some key ∧ record_key row = Some key).
    { by exists j, s, key. }
    destruct (t !! aw_id w) as [x|] eqn:Hx; (split; [done|right]); (split; [done|]); (split; [done|]).
    + by rewrite decide_True by eauto.
    + by rewrite decide_False by (by intros [? ?]).
  - rewrite taken_false in Ht.
    assert (Hfree : ∀ j s key, t !! j = Some s → record_key s = Some key → record_key row = Some key → j = aw_id w).
    { intros j s key Hs Hk Hr. by eapply Ht. }
    destruct (t !! aw_id w) as [x|]; (split; [intros i Hi; by rewrite lookup_insert_ne|left]); by split_and!.
Qed.

(** ** Scopes in any order *)

Record scope_update : Type := mkScopeUpdate { su_rev : Z; su_project : string; su_identity : string; su_path : string }.

Definition scope_ok (u : scope_update) : Prop := 0 ≤ su_rev u < 9223372036854775808.

Definition apply_scope (u : scope_update) (w : AdeWorkspace) : AdeWorkspace :=
  with_scope (su_rev u) (su_project u) (su_identity u) (su_path u) w.

(** What an update makes of a row. *)
Definition scoped (r : Row) (u : scope_update) : Row :=
  if scope_applies (su_rev u) r then on_workspace (apply_scope u) r else r.

Definition scope_of (r : Row) : Z := aw_project_scope_rev (row_workspace r).

Lemma as_i64_small z : 0 ≤ z < 9223372036854775808 → as_i64 z = z.
Proof. intros Hz. unfold as_i64. destruct (Z.ltb_spec z 9223372036854775808); [done|lia]. Qed.

Lemma scope_applies_iff u r : scope_ok u → 0 ≤ scope_of r < 9223372036854775808 →
  scope_applies (su_rev u) r = true ↔
    scope_of r < su_rev u ∨ (scope_of r = su_rev u ∧ aw_project_identity (row_workspace r) = None).
Proof.
  intros Hu Hr. unfold scope_applies, scope_of in *. rewrite !as_i64_small by done.
  rewrite orb_true_iff, andb_true_iff, Z.ltb_lt, Z.eqb_eq, bool_decide_eq_true. done.
Qed.

Lemma scoped_ok u r : scope_ok u → 0 ≤ scope_of r < 9223372036854775808 →
  0 ≤ scope_of (scoped r u) < 9223372036854775808.
Proof. intros Hu Hr. unfold scoped. destruct (scope_applies _ r); [exact Hu|exact Hr]. Qed.

Lemma scoped_twice u v r :
  on_workspace (apply_scope v) (on_workspace (apply_scope u) r) = on_workspace (apply_scope v) r.
Proof. done. Qed.

(** Two updates of different revisions commute. *)
Lemma scoped_comm u v r :
  scope_ok u → scope_ok v → 0 ≤ scope_of r < 9223372036854775808 → su_rev u < su_rev v →
  scoped (scoped r u) v = scoped (scoped r v) u.
Proof.
  intros Hu Hv Hr Hlt.
  pose proof (scope_applies_iff u r Hu Hr) as Au. pose proof (scope_applies_iff v r Hv Hr) as Av.
  pose proof (scope_applies_iff v (on_workspace (apply_scope u) r) Hv Hu) as Avu.
  pose proof (scope_applies_iff u (on_workspace (apply_scope v) r) Hu Hv) as Auv.
  change (scope_of (on_workspace (apply_scope u) r)) with (su_rev u) in Avu.
  change (scope_of (on_workspace (apply_scope v) r)) with (su_rev v) in Auv.
  assert (Hno : scope_applies (su_rev u) (on_workspace (apply_scope v) r) = false).
  { apply not_true_iff_false. rewrite Auv. lia. }
  assert (Hyes : scope_applies (su_rev v) (on_workspace (apply_scope u) r) = true) by (apply Avu; lia).
  unfold scoped. destruct (scope_applies (su_rev u) r) eqn:Eu, (scope_applies (su_rev v) r) eqn:Ev;
    rewrite ?Hno, ?Hyes, ?Eu, ?Ev; try done.
  assert (false = true) by (apply Av; destruct (proj1 Au eq_refl) as [?|[? _]]; lia). done.
Qed.

Lemma scoped_all_perm us us' : us ≡ₚ us' → ∀ r, NoDup (map su_rev us) → Forall scope_ok us →
  0 ≤ scope_of r < 9223372036854775808 → foldl scoped r us = foldl scoped r us'.
Proof.
  induction 1 as [|u us us' Hp IH|u v us|us1 us2 us3 H12 IH1 H23 IH2]; intros r Hnd Hok Hr; [done| | |].
  - inversion_clear Hok. apply NoDup_cons in Hnd as [_ Hnd]. cbn [foldl]. apply IH; [done..|by apply scoped_ok].
  - inversion_clear Hok as [|? ? Hv Hok']. inversion_clear Hok' as [|? ? Hu Hok]. cbn [foldl map] in *.
    apply NoDup_cons in Hnd as [Hne _]. f_equal.
    destruct (Z.lt_trichotomy (su_rev u) (su_rev v)) as [?|[Heq|?]]; [| |].
    + symmetry. by apply scoped_comm.
    + destruct Hne. rewrite Heq. by left.
    + by apply scoped_comm.
  - rewrite IH1 by done. apply IH2; [by rewrite <- H12|by rewrite <- H12|done].
Qed.

Definition send_scope (id : string) (t : Registry) (u : scope_update) : Registry :=
  (update_repository_scope id (su_path u) (su_rev u) (su_project u) (su_identity u) t).2.

(** Sending one is applying it: the record key does not move. *)
Lemma send_scope_row id u r t :
  one_per_record t → t !! id = Some r →
  send_scope id t u = <[id := scoped r u]> t ∧
  (used r = true →
     (update_repository_scope id (su_path u) (su_rev u) (su_project u) (su_identity u) t).1 =
       Ok (scope_applies (su_rev u) r, row_workspace (scoped r u))).
Proof.
  intros Hone Hr. unfold send_scope, update_repository_scope, stored_after, update_where, put_row. rewrite Hr.
  unfold scoped. destruct (scope_applies (su_rev u) r).
  - destruct (taken id _ t) eqn:Ht.
    { apply taken_true in Ht as (key & j & s & Hkey & Hj & Hs & Hk). destruct Hj. by eapply Hone. }
    split; [by destruct (get_workspace id _)|]. intros Hu. unfold get_workspace. rewrite lookup_insert_eq.
    assert (used (on_workspace (with_scope (su_rev u) (su_project u) (su_identity u) (su_path u)) r) = true) as -> by done.
    done.
  - split; [rewrite insert_id by done; by destruct (get_workspace id t)|]. intros Hu. unfold get_workspace.
    by rewrite Hr, Hu.
Qed.

Lemma send_scopes_row id us : ∀ r t, registry_wf t → t !! id = Some r →
  foldl (send_scope id) t us = <[id := foldl scoped r us]> t.
Proof.
  induction us as [|u us IH]; intros r t Hwf Hr; [by rewrite insert_id|]. cbn [foldl].
  destruct (send_scope_row id u r t (proj2 Hwf) Hr) as [Hsend _]. rewrite Hsend.
  rewrite (IH (scoped r u)); [by rewrite insert_insert_eq| |by rewrite lookup_insert_eq].
  rewrite <- Hsend. apply (stored_after_writes id); [by apply update_where_keeps|done].
Qed.

(** C26. Project scopes that reach the registry in any order leave the same row: with
    revisions that differ (and that sqlite can hold) the newest wins, however they are
    reordered; and each is answered with the row as stored, and with whether it is the
    one stored. *)
Theorem scopes_settle_in_any_order id us us' r t :
  registry_wf t → t !! id = Some r → used r = true → 0 ≤ scope_of r < 9223372036854775808 →
  us ≡ₚ us' → NoDup (map su_rev us) → Forall scope_ok us →
  foldl (send_scope id) t us = foldl (send_scope id) t us' ∧
  ∀ u, u ∈ us →
    ∃ applied stored,
      (update_repository_scope id (su_path u) (su_rev u) (su_project u) (su_identity u) t).1 = Ok (applied, stored) ∧
      (applied = true → stored = apply_scope u (row_workspace r)) ∧
      (applied = false → stored = row_workspace r ∧ su_rev u ≤ aw_project_scope_rev stored) ∧
      (∀ i, i ≠ id → send_scope id t u !! i = t !! i).
Proof.
  intros Hwf Hr Hused Hrev Hp Hnd Hok. split.
  - rewrite !(send_scopes_row id _ r) by done. f_equal. by apply scoped_all_perm.
  - intros u Hu. assert (Huok : scope_ok u) by (rewrite Forall_forall in Hok; by apply Hok).
    destruct (send_scope_row id u r t (proj2 Hwf) Hr) as [Hsend Hans].
    exists (scope_applies (su_rev u) r), (row_workspace (scoped r u)). split; [by apply Hans|].
    unfold scoped in *. split_and!.
    + by intros ->.
    + intros Hno. rewrite Hno. split; [done|]. apply not_true_iff_false in Hno.
      rewrite scope_applies_iff in Hno by done. unfold scope_of in *. lia.
    + intros i Hi. rewrite Hsend. by rewrite lookup_insert_ne.
Qed.

(** ** Collapsing the duplicates of an older registry *)

(** What the migration takes for the same record: it does not look at daemons. *)
Definition same_record (r s : Row) : Prop :=
  used r = true ∧ used s = true ∧ is_Some (aw_terminal_session_id (row_workspace r)) ∧
  aw_terminal_session_id (row_workspace s) = aw_terminal_session_id (row_workspace r) ∧
  aw_remote_host (row_workspace s) = aw_remote_host (row_workspace r).

Lemma victim_true t r : victim t r = true ↔
  ∃ i s, t !! i = Some s ∧ same_record r s ∧ aw_id (row_workspace s) ≠ aw_id (row_workspace r) ∧
    ranked branchless (row_workspace s) (row_workspace r).
Proof.
  unfold victim, beaten, same_record. rewrite !andb_true_iff, existsb_exists, bool_decide_eq_true. split.
  - intros ([Hu Ht] & [i s] & Hin & Hs). rewrite !andb_true_iff, negb_true_iff, !bool_decide_eq_true, bool_decide_eq_false in Hs.
    apply list_elem_of_In, elem_of_map_to_list in Hin. exists i, s. naive_solver.
  - intros (i & s & Hs & (Hu & Hus & Ht & Hts & Hh) & Hne & Hrank). split; [done|]. exists (i, s).
    split; [by apply list_elem_of_In, elem_of_map_to_list|].
    rewrite !andb_true_iff, negb_true_iff, !bool_decide_eq_true, bool_decide_eq_false. done.
Qed.

Lemma collapse_lookup t i r : collapse_duplicates t !! i = Some r ↔ t !! i = Some r ∧ victim t r = false.
Proof. unfold collapse_duplicates. by rewrite map_lookup_filter_Some. Qed.

(** The rows of a record, and the one of them that stays. *)
Lemma record_survivor t r : keyed t → same_record r r → (∃ i, t !! i = Some r) →
  ∃ i s, collapse_duplicates t !! i = Some s ∧ same_record r s ∧
    ∀ j s', t !! j = Some s' → same_record r s' → ranked branchless (row_workspace s) (row_workspace s').
Proof.
  intros Hk Hr [i0 Hi0].
  set (peers := rows_where (λ s, used s && bool_decide (aw_terminal_session_id (row_workspace s) =
    aw_terminal_session_id (row_workspace r)) && bool_decide (aw_remote_host (row_workspace s) = aw_remote_host (row_workspace r))) t).
  assert (Hpeers : ∀ j s, t !! j = Some s → same_record r s → row_workspace s ∈ peers).
  { intros j s Hj (_ & Hu & _ & Ht & Hh). apply elem_of_rows_where. exists j, s.
    split_and!; [done| |done]. rewrite Hu. by rewrite !bool_decide_eq_true_2. }
  destruct (ranked_least branchless peers) as (m & Hm & Hleast).
  { intros Hnil. pose proof (Hpeers i0 r Hi0 Hr) as Hin. rewrite Hnil in Hin. by apply not_elem_of_nil in Hin. }
  apply elem_of_rows_where in Hm as (i & s & Hi & Hp & <-).
  rewrite !andb_true_iff, !bool_decide_eq_true in Hp. destruct Hp as [[Hu Ht] Hh].
  assert (Hs : same_record r s) by (destruct Hr as (? & _ & ? & _); by split_and!).
  exists i, s. split_and!; [|done|intros j s' Hj Hs'; apply Hleast; by eapply Hpeers].
  apply collapse_lookup. split; [done|]. apply not_true_iff_false. rewrite victim_true.
  intros (j & s' & Hj & Hrec & Hne & Hrank).
  assert (Hs' : same_record r s').
  { destruct Hs as (? & ? & ? & Hts & Hhs), Hrec as (_ & ? & _ & Hts' & Hhs'). split_and!; try done; congruence. }
  destruct Hne. apply (ranked_antisym branchless); [done|]. apply Hleast. by eapply Hpeers.
Qed.

Lemma record_survivors_agree t i j r s : keyed t →
  collapse_duplicates t !! i = Some r → collapse_duplicates t !! j = Some s → same_record r s → i = j.
Proof.
  intros Hk [Hi Hvr]%collapse_lookup [Hj Hvs]%collapse_lookup Hrec.
  destruct (decide (i = j)) as [|Hne]; [done|exfalso].
  rewrite <- (Hk _ _ Hi), <- (Hk _ _ Hj) in Hne.
  assert (Hrec' : same_record s r).
  { destruct Hrec as (? & ? & [x Hx] & Ht & Hh). split_and!; try done. rewrite Ht, Hx. eauto. }
  destruct (total (ranked branchless) (row_workspace r) (row_workspace s)) as [Hrank|Hrank].
  - apply not_true_iff_false in Hvs. apply Hvs, victim_true. by exists i, r.
  - apply not_true_iff_false in Hvr. apply Hvr, victim_true. exists j, s. by split_and!.
Qed.

Lemma one_per_record_indexable t : one_per_record t → create_record_index t = Ok t.
Proof.
  intros Hone. unfold create_record_index. assert (Hi : indexable t = true); [|by rewrite Hi].
  unfold indexable. apply forallb_forall. intros [i r] Hin. apply list_elem_of_In, elem_of_map_to_list in Hin.
  apply negb_true_iff, taken_false. intros key j s Hr Hs Hk. by eapply Hone.
Qed.

(** Opening a registry written before records were unique leaves one workspace for each
    session of a host: the one on a branch, or else the one opened last, or else the one
    of the lower id; as it was, like every workspace not in use or without a session. If
    no daemon had told its identity yet (and no host is called by the null character),
    the index can then be made, and the registry is well formed. *)
Theorem migrating_leaves_one_row_per_record t :
  keyed t →
  let t' := collapse_duplicates t in
  (∀ i r, t' !! i = Some r → t !! i = Some r) ∧
  (∀ i r, t !! i = Some r → used r = false ∨ aw_terminal_session_id (row_workspace r) = None → t' !! i = Some r) ∧
  (∀ i r, t !! i = Some r → same_record r r →
     exists! j, ∃ s, t' !! j = Some s ∧ same_record r s ∧
       ∀ k s', t !! k = Some s' → same_record r s' → ranked branchless (row_workspace s) (row_workspace s')) ∧
  ((∀ i r, t !! i = Some r → used r = true →
      aw_daemon_id (row_workspace r) = None ∧ aw_remote_host (row_workspace r) ≠ Some (String NUL "")) →
   create_record_index t' = Ok t' ∧ registry_wf t').
Proof.
  intros Hk t'. split_and!.
  - by intros i r [? _]%collapse_lookup.
  - intros i r Hi Hor. apply collapse_lookup. split; [done|]. unfold victim.
    destruct Hor as [->| ->]; [done|]. rewrite bool_decide_eq_false_2 by by intros [? ?]. by rewrite andb_false_r.
  - intros i r Hi Hr. destruct (record_survivor t r Hk Hr) as (j & s & Hj & Hs & Hleast); [by exists i|].
    exists j. split; [by exists s|]. intros j' (s' & Hj' & Hs' & _).
    apply (record_survivors_agree t j j' s s' Hk Hj Hj').
    destruct Hs as (? & ? & [x Hx] & Ht & Hh), Hs' as (_ & ? & _ & Ht' & Hh'). split_and!; try done; [|congruence..].
    rewrite Ht, Hx. eauto.
  - intros Hlegacy.
    assert (Hone : one_per_record t').
    { intros i j r s key Hi Hj Hr Hs. apply (record_survivors_agree t i j r s Hk Hi Hj).
      apply collapse_lookup in Hi as [Hi _], Hj as [Hj _]. unfold record_key in *.
      destruct (row_used_by_client_at r) as [ur|] eqn:Ur; [|done].
      destruct (row_used_by_client_at s) as [us|] eqn:Us; [|done].
      assert (Hu : used r = true ∧ used s = true).
      { unfold used. by rewrite Ur, Us. } destruct Hu as [Hur Hus].
      destruct (Hlegacy _ _ Hi Hur) as [Hdr Hhr], (Hlegacy _ _ Hj Hus) as [Hds Hhs]. rewrite Hdr in Hr. rewrite Hds in Hs.
      destruct (aw_terminal_session_id (row_workspace r)) as [x|] eqn:Tr; [|done].
      destruct (aw_terminal_session_id (row_workspace s)) as [y|] eqn:Ts; [|done]. cbn [default from_option] in Hr, Hs.
      unfold same_record. rewrite Tr, Ts. split_and!; [done|done|done|congruence|].
      rewrite <- Hs in Hr. revert Hr Hhr Hhs.
      destruct (aw_remote_host (row_workspace r)), (aw_remote_host (row_workspace s)); cbn; congruence. }
    split; [by apply one_per_record_indexable|]. split; [|done].
    intros i r [Hi _]%collapse_lookup. by apply Hk.
Qed.

(** C29. What the migration takes for one record is not what its index does: two workspaces
    of one daemon's session reached under two names of its host are both kept, and the
    index on daemons then cannot be made. *)
Theorem two_names_of_a_host_block_the_index i j r s daemon terminal :
  i ≠ j → aw_id (row_workspace r) = i → aw_id (row_workspace s) = j →
  used r = true → used s = true →
  aw_terminal_session_id (row_workspace r) = Some terminal → aw_terminal_session_id (row_workspace s) = Some terminal →
  aw_daemon_id (row_workspace r) = Some daemon → aw_daemon_id (row_workspace s) = Some daemon →
  aw_remote_host (row_workspace r) ≠ aw_remote_host (row_workspace s) →
  let t : Registry := {[ i := r; j := s ]} in
  collapse_duplicates t = t ∧ create_record_index (collapse_duplicates t) = Err UNIQUE_FAILED.
Proof.
  intros Hij Hir Hjs Hur Hus Htr Hts Hdr Hds Hhosts t.
  assert (Hrows : ∀ k x, t !! k = Some x → x = r ∨ x = s).
  { intros k x [[_ <-]|[_ [_ <-]%lookup_singleton_Some]]%lookup_insert_Some; auto. }
  assert (Hkept : collapse_duplicates t = t).
  { apply map_eq. intros k. apply option_eq. intros x. rewrite collapse_lookup. split; [by intros [? _]|].
    intros Hx. split; [done|]. apply not_true_iff_false. rewrite victim_true.
    intros (k' & y & Hy & (_ & _ & _ & _ & Hh) & Hne & _).
    destruct (Hrows _ _ Hx) as [-> | ->], (Hrows _ _ Hy) as [-> | ->]; congruence. }
  split; [done|]. rewrite Hkept. unfold create_record_index.
  assert (Hbad : indexable t = false); [|by rewrite Hbad].
  apply not_true_iff_false. unfold indexable. rewrite forallb_forall. intros Hall.
  assert (Hi : t !! i = Some r) by (unfold t; by rewrite lookup_insert_eq).
  assert (Hj : t !! j = Some s) by (unfold t; rewrite lookup_insert_ne by done; by rewrite lookup_singleton_eq).
  specialize (Hall (i, r) ltac:(by apply list_elem_of_In, elem_of_map_to_list)).
  apply negb_true_iff in Hall. rewrite taken_false in Hall. destruct Hij. symmetry.
  apply (Hall (daemon, terminal) j s); [|done|]; unfold record_key, used in *;
    [apply bool_decide_eq_true_1 in Hur as [? ->]; by rewrite Htr, Hdr|
     apply bool_decide_eq_true_1 in Hus as [? ->]; by rewrite Hts, Hds].
Qed.

(** ** Promotion *)

(** Workspaces in quarantine are offered in one order, whichever way sqlite lists them:
    those of the daemon at hand first, then those on a branch, then those opened last,
    then by id; all of them, and only them. *)
Theorem promotion_order_is_total daemon_id t :
  keyed t →
  promotion_candidates daemon_id t ≡ₚ unconfirmed_workspaces t ∧
  StronglySorted (ranked (promotion_rank daemon_id)) (promotion_candidates daemon_id t) ∧
  (∀ l, l ≡ₚ unconfirmed_workspaces t → StronglySorted (ranked (promotion_rank daemon_id)) l →
     l = promotion_candidates daemon_id t) ∧
  (∀ w, w ∈ promotion_candidates daemon_id t ↔
     ∃ i r, t !! i = Some r ∧ row_used_by_client_at r = None ∧ row_workspace r = w).
Proof.
  intros Hk. assert (Hp : promotion_candidates daemon_id t ≡ₚ unconfirmed_workspaces t) by apply merge_sort_Permutation.
  assert (Hs : StronglySorted (ranked (promotion_rank daemon_id)) (promotion_candidates daemon_id t)).
  { by apply Sorted_StronglySorted, Sorted_merge_sort; try apply _. }
  assert (Hmem : ∀ w, w ∈ unconfirmed_workspaces t ↔ ∃ i r, t !! i = Some r ∧ row_used_by_client_at r = None ∧ row_workspace r = w).
  { intros w. unfold unconfirmed_workspaces. rewrite elem_of_rows_where. unfold used.
    split; intros (i & r & Hi & Hu & Hw); exists i, r; (split_and!; [done| |done]).
    - apply negb_true_iff, bool_decide_eq_false in Hu. by apply eq_None_not_Some.
    - rewrite Hu. by rewrite bool_decide_eq_false_2 by by intros [? ?]. }
  split_and!; [done|done| |intros w; by rewrite Hp].
  intros l Hl Hsl. assert (Hmem' : ∀ x, x ∈ l → x ∈ unconfirmed_workspaces t) by by intros x; rewrite Hl.
  eapply StronglySorted_unique_strong; [|exact Hsl|exact Hs|by rewrite Hp].
  intros x1 x2 Hx1 Hx2 H12 H21. apply (Hmem' x1) in Hx1. rewrite Hp in Hx2.
  apply Hmem in Hx1 as (i & r & Hi & _ & <-), Hx2 as (j & s & Hj & _ & <-).
  pose proof (ranked_antisym _ _ _ H12 H21) as Hid. rewrite (Hk _ _ Hi), (Hk _ _ Hj) in Hid. subst. congruence.
Qed.

(** ** At work *)

Definition sample_workspace (id terminal : string) (host daemon branch : option string) (opened : Z) : AdeWorkspace :=
  mkAdeWorkspace id "name" "p" None "/repo" 4 branch host None (Some terminal) daemon Workspace_Running 10 opened.

Definition sample_row (id terminal : string) (host daemon branch : option string) (opened : Z) : Row :=
  mkRow (sample_workspace id terminal host daemon branch opened) (Some 10).

(** [a] is routed to the daemon [d]; [b] is still known by its host alone. *)
Definition sample_a : Row := sample_row "a" "s" (Some "h") (Some "d") None 20.
Definition sample_b : Row := sample_row "b" "s" (Some "alias") None (Some "main") 30.
Definition sample_registry : Registry := {[ "a" := sample_a; "b" := sample_b ]}.

Lemma sample_keyed : keyed sample_registry.
Proof. unfold sample_registry. by intros i r [[<- <-]|[_ [<- <-]%lookup_singleton_Some]]%lookup_insert_Some. Qed.

Lemma sample_registry_wf : registry_wf sample_registry.
Proof.
  split; [exact sample_keyed|]. unfold sample_registry. intros i j r s key Hi Hj Hr Hs.
  apply lookup_insert_Some in Hi as [[<- <-]|[_ [<- <-]%lookup_singleton_Some]],
    Hj as [[<- <-]|[_ [<- <-]%lookup_singleton_Some]]; try done; cbn in Hr, Hs; congruence.
Qed.


(** The host answers as the daemon [d]: [b], on a branch, takes the record over. *)
Lemma rebind_conflict_keeps_one_row_witness :
  let '(r, t') := resolve_rebind_conflict "b" (Some "alias") None (Some "alias") (Some "d") "s" sample_registry in
  r = Ok (Some "b") ∧ t' !! "a" = None ∧
  t' !! "b" = Some (on_workspace (with_route (Some "alias") (Some "d")) sample_b).
Proof.
  pose proof (rebind_conflict_keeps_one_row "b" (Some "alias") None (Some "alias") "d" "s" sample_registry sample_registry_wf) as H.
  destruct (resolve_rebind_conflict _ _ _ _ _ _ _) as [r t'] eqn:E.
  assert (Hr : r = Ok (Some "b")).
  { transitivity (resolve_rebind_conflict "b" (Some "alias") None (Some "alias") (Some "d") "s" sample_registry).1;
      [by rewrite E|vm_compute; reflexivity]. }
  assert (Ht : t' = (resolve_rebind_conflict "b" (Some "alias") None (Some "alias") (Some "d") "s" sample_registry).2) by by rewrite E.
  subst r t'. split_and!; [done|vm_compute; reflexivity..].
Defined.

Lemma a_created_workspace_is_read_back_witness :
  let w := sample_workspace "c" "other" None None None 7 in
  workspace_column (bind_workspace w) = Some w ∧
  get_workspace "c" (create_workspace w 50 sample_registry).2 = Some w.
Proof.
  intros w. destruct (a_created_workspace_is_read_back w 50 sample_registry sample_registry_wf) as [Hc H];
    [unfold workspace_ok, u64_max; cbn; lia|].
  split; [exact Hc|]. destruct (create_workspace w 50 sample_registry) as [r t'] eqn:E.
  destruct H as [_ [(_ & _ & Hget)|(_ & -> & Hr)]]; [exact Hget|].
  assert (Hnone : is_ok (create_workspace w 50 sample_registry).1 = true) by (vm_compute; reflexivity).
  exfalso. assert (Hlook : get_workspace "c" (create_workspace w 50 sample_registry).2 ≠ None) by (vm_compute; discriminate).
  apply Hlook. rewrite E. vm_compute. reflexivity.
Defined.

Lemma scopes_settle_in_any_order_witness :
  let u := mkScopeUpdate 5 "p5" "i5" "/five" in
  let v := mkScopeUpdate 6 "p6" "i6" "/six" in
  foldl (send_scope "a") sample_registry [u; v] = foldl (send_scope "a") sample_registry [v; u] ∧
  (update_repository_scope "a" "/five" 5 "p5" "i5" sample_registry).1
    = Ok (true, apply_scope u (row_workspace sample_a)).
Proof.
  intros u v. destruct (scopes_settle_in_any_order "a" [u; v] [v; u] sample_a sample_registry sample_registry_wf)
    as [Hsame Heach]; [reflexivity|reflexivity|cbn; lia|apply Permutation_swap| | |].
  - cbn. apply NoDup_cons. split; [rewrite list_elem_of_singleton; discriminate|apply NoDup_singleton].
  - repeat constructor; cbn; lia.
  - split; [exact Hsame|]. destruct (Heach u) as (applied & stored & Hr & Hyes & _); [apply elem_of_cons; by left|].
    destruct applied; [rewrite <- (Hyes eq_refl); exact Hr|]. vm_compute in Hr. discriminate.
Defined.

(** Two rows of one session on [h], no daemon known yet: the one on a branch stays. *)
Lemma migrating_leaves_one_row_per_record_witness :
  let t : Registry := {[ "a" := sample_row "a" "s" (Some "h") None None 20; "b" := sample_row "b" "s" (Some "h") None (Some "main") 5 ]} in
  let t' := collapse_duplicates t in
  create_record_index t = Err UNIQUE_FAILED ∧ create_record_index t' = Ok t' ∧ map_to_list t' =
    [("b", sample_row "b" "s" (Some "h") None (Some "main") 5)].
Proof.
  intros t t'. split; [vm_compute; reflexivity|]. split; [|vm_compute; reflexivity].
  refine (proj1 (proj2 (proj2 (proj2 (migrating_leaves_one_row_per_record t _))) _)).
  - by intros i r [[<- <-]|[_ [<- <-]%lookup_singleton_Some]]%lookup_insert_Some.
  - intros i r [[<- <-]|[_ [<- <-]%lookup_singleton_Some]]%lookup_insert_Some _; (split; [reflexivity|discriminate]).
Defined.

Lemma two_names_of_a_host_block_the_index_witness :
  let t : Registry := {[ "a" := sample_row "a" "s" (Some "h") (Some "d") None 20; "b" := sample_row "b" "s" (Some "me@h") (Some "d") None 5 ]} in
  create_record_index (collapse_duplicates t) = Err UNIQUE_FAILED.
Proof.
  intros t. refine (proj2 (two_names_of_a_host_block_the_index "a" "b" (sample_row "a" "s" (Some "h") (Some "d") None 20)
    (sample_row "b" "s" (Some "me@h") (Some "d") None 5) "d" "s" _ _ _ _ _ _ _ _ _ _)); try reflexivity; discriminate.
Defined.

Lemma promotion_order_is_total_witness :
  let quarantined i d b n : Row := mkRow (sample_workspace i i None d b n) None in
  let t : Registry := {[ "a" := quarantined "a" None None 9; "b" := quarantined "b" (Some "d") None 1;
                         "c" := quarantined "c" None (Some "main") 2 ]} in
  map aw_id (promotion_candidates (Some "d") t) = ["b"; "c"; "a"] ∧
  promotion_candidates (Some "d") t ≡ₚ unconfirmed_workspaces t.
Proof.
  intros quarantined t. split; [vm_compute; reflexivity|]. apply promotion_order_is_total.
  by intros i r [[<- <-]|[_ [[<- <-]|[_ [<- <-]%lookup_singleton_Some]]%lookup_insert_Some]]%lookup_insert_Some.
Defined.
