(* ===== verification/Paths.v ===== *)
(** * Unix paths, and the names of projects

    [std::path::Path] on unix as far as the client compares and names paths: its
    components, its file name and extension; the list of a project's paths
    ([crates/util/src/path_list.rs]), the name of a project group
    ([crates/project/src/project.rs]) and the client's project ids
    ([crates/ade_workspaces/src/ade_workspaces.rs]). A path is text: bytes that are not
    UTF-8 do not occur. *)

From S2P Require Import Prelude Text Shell Words.
From Stdlib Require Import Ascii.
From stdpp Require Import options.

(** ** Components *)

Inductive Component : Type := RootDir | CurDir | ParentDir | Normal (name : string).

#[export] Instance Component_eq_dec : EqDecision Component.
Proof. solve_decision. Defined.

Definition component (part : string) : option Component :=
  if decide (part = "" ∨ part = ".") then None
  else if decide (part = "..") then Some ParentDir
  else Some (Normal part).

(** A dot counts only where a relative path begins with it. *)
Definition components (path : string) : list Component :=
  match split_on "/" path with
  | "" :: rest => if decide (path = "") then [] else RootDir :: omap component rest
  | "." :: rest => CurDir :: omap component rest
  | parts => omap component parts
  end.

(** [Path] equality is of components. *)
Definition path_eqb (a b : string) : bool := bool_decide (components a = components b).

Definition file_name (path : string) : option string :=
  match last (components path) with Some (Normal name) => Some name | _ => None end.

Fixpoint rsplit_dot (seen rest : list ascii) : option (list ascii * list ascii) :=
  match rest with
  | [] => None
  | c :: rest => if decide (c = "."%char) then Some (rev rest, seen) else rsplit_dot (c :: seen) rest
  end.

(** The stem and the extension of a file name: the last dot parts them, unless it is the
    first character. *)
Definition file_parts (name : string) : string * option string :=
  match rsplit_dot [] (rev (to_bytes name)) with
  | Some ([], _) | None => (name, None)
  | Some (stem, ext) => (of_bytes stem, Some (of_bytes ext))
  end.

Example components_sample : components "/a/./b//../c/" = [RootDir; Normal "a"; Normal "b"; ParentDir; Normal "c"].
Proof. reflexivity. Qed.
Example file_parts_sample :
  map file_parts ["foo.tar.gz"; ".git"; "foo"; "foo."] = [("foo.tar", Some "gz"); (".git", None); ("foo", None); ("foo", Some "")].
Proof. reflexivity. Qed.

(** ** Path lists *)

(** [PathList::serialize] of the sorted paths: a line each, where something precedes it. *)
Definition serialize_paths (paths : list string) : string :=
  foldl (λ out path, (if decide (out = "") then out else out +:+ String LF "") +:+ path) "" paths.

Example serialize_paths_sample :
  serialize_paths ["/a"; "/b"] = "/a" +:+ String LF "/b" ∧ serialize_paths ["/a"] = "/a".
Proof. split; reflexivity. Qed.

(** ** Names of projects *)

(** [path_suffix(path, 0)]. *)
Definition normal_names (path : list Component) : list string :=
  omap (λ c, match c with Normal name => Some name | _ => None end) path.

Definition path_suffix (path : list Component) : string := default "" (last (normal_names path)).

(** The components of a path without the [.git] a bare clone ends with. *)
Definition without_git (path : string) : list Component :=
  let parts := components path in
  match file_name path with
  | Some name => match file_parts name with
                 | (stem, Some "git") => take (length parts - 1) parts ++ option_list (component stem)
                 | _ => parts
                 end
  | None => parts
  end.

Fixpoint join_with (sep : string) (names : list string) : string :=
  match names with
  | [] => ""
  | [name] => name
  | name :: names => name +:+ sep +:+ join_with sep names
  end.

(** [ProjectGroupKey::display_name] of the paths in the order they were given, which is
    what [PathList::ordered_paths] keeps, with no details asked for. *)
Definition display_name (paths : list string) : string :=
  match filter (λ name, name ≠ "") (map (λ path, path_suffix (without_git path)) paths) with
  | [] => "Empty Workspace"
  | names => join_with ", " names
  end.

Definition project_id_from_path (repository_path : string) : string :=
  match file_name repository_path with
  | Some name => if decide (name = "") then repository_path else name
  | None => repository_path
  end.

Definition project_id_from_identity (project_identity : string) : string :=
  match filter (λ path, path ≠ "") (split_on LF project_identity) with
  | [] => project_identity
  | paths => display_name paths
  end.

Example project_id_samples :
  map project_id_from_path ["/srv/repo/"; "/"; "/a/.."; "repo"] = ["repo"; "/"; "/a/.."; "repo"] ∧
  map project_id_from_identity ["/srv/zed.git"; "/"; ""; "/a/b" +:+ String LF "/c/d"; "/x/..git"] =
    ["zed"; "Empty Workspace"; ""; "b, d"; "x"].
Proof. split; reflexivity. Qed.
