(* ===== verification/Service.v ===== *)
(** * The client's workspaces

    [crates/ade_workspaces/src/lifecycle.rs]: what a client does with the workspaces of
    its hosts, between the registry of its own rows ([Registry.v]) and the backend of each
    host, which is the interface [SessionBackends]. A call of the service runs as one step:
    the source holds the route's and the daemon's decision locks around what it decides. *)

From S2P Require Import Prelude Text Words Layout Panes Sync Events Registry Paths.
From Stdlib Require Import Ascii.
From stdpp Require Import options.
Open Scope Z_scope.

(** ** Data *)

Inductive SessionState : Type := Alive | Dead | NeverCreated | Unknown.

#[export] Instance SessionState_eq_dec : EqDecision SessionState.
Proof. solve_decision. Defined.

Record BackendWorkspace : Type := mkBackendWorkspace {
  bw_id : string;
  bw_name : string;
  bw_project_id : option string;
  bw_project_identity : option string;
  bw_project_root : string;
  bw_project_scope_rev : Z;
  bw_created_at : Z
}.

#[export] Instance BackendWorkspace_eq_dec : EqDecision BackendWorkspace.
Proof. solve_decision. Defined.

Record Identified (A : Type) : Type := mkIdentified { id_daemon_id : option string; id_items : list A }.
Arguments mkIdentified {A} _ _.
Arguments id_daemon_id {A} _.
Arguments id_items {A} _.

Record SessionSpec : Type := mkSessionSpec {
  ss_id : string;
  ss_directory : string;
  ss_project_id : option string;
  ss_project_identity : option string
}.

Record Attached : Type := mkAttached { at_session_id : string; at_daemon_id : option string; at_argv : list string }.

Record WorkspaceLayout : Type := mkWorkspaceLayout { wl_layout : LayoutDoc; wl_rev : Z }.

Inductive WorkspaceEntry : Type :=
| Persisted (workspace : AdeWorkspace) (state : SessionState)
| Discovered (remote_host : option string) (workspace : BackendWorkspace) (state : SessionState).

#[export] Instance WorkspaceEntry_eq_dec : EqDecision WorkspaceEntry.
Proof. solve_decision. Defined.

(** [anyhow::Error]: contexts around a cause; [{:#}] joins them. *)
Inductive error : Type :=
| Bail (message : string)
| WorkspaceGone (remote_host : option string) (wire_id : string)
| Caused (context : string) (cause : error)
| Unfinished.   (* the fuel of a loop ran out: no answer of the source *)

#[export] Instance error_eq_dec : EqDecision error.
Proof. solve_decision. Defined.

Definition host_label (host : option string) : string := default "local" host.

Fixpoint display_error (e : error) : string :=
  match e with
  | Bail message => message
  | WorkspaceGone host wire_id => host_label host +:+ " no longer holds workspace " +:+ wire_id
  | Caused context cause => context +:+ ": " +:+ display_error cause
  | Unfinished => ""
  end.

Record Reconciled : Type := mkReconciled {
  rc_entries : list WorkspaceEntry;
  rc_host_errors : list (string * string)
}.

Definition reconciled_default : Reconciled := mkReconciled [] [].

(** ** Names *)

(** [str::rsplit_once('-')]. *)
Fixpoint rsplit_once (c : ascii) (seen rest : list ascii) : option (list ascii * list ascii) :=
  match rest with
  | [] => None
  | x :: rest => if decide (x = c) then Some (rev rest, seen) else rsplit_once c (x :: seen) rest
  end.

Definition is_ascii_hexdigit (c : ascii) : bool :=
  is_ascii_digit c ||
  ((65 <=? N_of_ascii c) && (N_of_ascii c <=? 70))%N || ((97 <=? N_of_ascii c) && (N_of_ascii c <=? 102))%N.

Definition is_derived_workspace_name (name : string) : bool :=
  match rsplit_once "-" [] (rev (to_bytes name)) with
  | Some (head, id6) =>
      match strip_prefix (to_bytes SESSION_PREFIX) head with
      | Some ("-"%char :: _) => bool_decide (length id6 = 6%nat) && forallb is_ascii_hexdigit id6
      | _ => false
      end
  | None => false
  end.

Definition display_name_for (backend_name project_id : string) : string :=
  if is_derived_workspace_name backend_name then project_id else backend_name.

(** ** Entries *)

Definition entry_remote_host (e : WorkspaceEntry) : option string :=
  match e with Persisted w _ => aw_remote_host w | Discovered host _ _ => host end.

Definition entry_wire_id (e : WorkspaceEntry) : string :=
  match e with Persisted w _ => daemon_workspace_id w | Discovered _ w _ => bw_id w end.

Definition entry_project_id (e : WorkspaceEntry) : string :=
  match e with
  | Persisted w _ => aw_project_id w
  | Discovered _ w _ => default (project_id_from_path (bw_project_root w)) (bw_project_id w)
  end.

Definition entry_project_identity (e : WorkspaceEntry) : string :=
  match e with
  | Persisted w _ => project_identity w
  | Discovered _ w _ => default (bw_project_root w) (bw_project_identity w)
  end.

Definition entry_name (e : WorkspaceEntry) : string :=
  match e with
  | Persisted w _ => aw_name w
  | Discovered _ w _ => display_name_for (bw_name w) (entry_project_id e)
  end.

Definition entry_repository_path (e : WorkspaceEntry) : string :=
  match e with Persisted w _ => aw_repository_path w | Discovered _ w _ => bw_project_root w end.

Definition entry_state (e : WorkspaceEntry) : SessionState :=
  match e with Persisted _ state | Discovered _ _ state => state end.

Definition persisted (e : WorkspaceEntry) : option (AdeWorkspace * SessionState) :=
  match e with Persisted w state => Some (w, state) | Discovered _ _ _ => None end.

(** ** Whose row is it *)

Inductive DaemonKey : Type := Instance_ (daemon_id : string) | Host (host : option string).

#[export] Instance DaemonKey_eq_dec : EqDecision DaemonKey.
Proof. solve_decision. Defined.

#[export] Instance DaemonKey_countable : Countable DaemonKey.
Proof.
  refine (inj_countable' (λ k, match k with Instance_ d => inl d | Host h => inr h end)
    (λ s, match s with inl d => Instance_ d | inr h => Host h end) _). by intros [].
Defined.

Definition daemon_key (daemon_id host : option string) : DaemonKey :=
  match daemon_id with Some daemon_id => Instance_ daemon_id | None => Host host end.

Definition row_is_on (row : AdeWorkspace) (daemon : DaemonKey) (host : option string) : bool :=
  match aw_daemon_id row, daemon with
  | Some stored, Instance_ instance => bool_decide (stored = instance)
  | Some _, Host _ => false
  | None, _ => bool_decide (aw_remote_host row = host)
  end.

Definition row_could_be_on (row : AdeWorkspace) (daemon : DaemonKey) (host : option string) : bool :=
  match aw_daemon_id row, daemon with
  | Some stored, Instance_ instance => bool_decide (stored = instance)
  | Some _, Host _ | None, _ => bool_decide (aw_remote_host row = host)
  end.

Definition recency (w : AdeWorkspace) : Z * string := (- aw_last_opened_at w, aw_id w).

(** [Iterator::min_by]: the first of the least. *)
Definition min_by {A} (le : relation A) `{!RelDecision le} (l : list A) : option A :=
  foldl (λ best x, match best with
                   | Some b => if decide (le b x) then best else Some x
                   | None => Some x
                   end) None l.

(** [Iterator::max_by_key]: the last of the greatest. *)
Definition max_by_key {A} (key : A → Z) (l : list A) : option A :=
  foldl (λ best x, match best with
                   | Some b => if key x <? key b then best else Some x
                   | None => Some x
                   end) None l.

Definition more_recent (a b : AdeWorkspace) : Prop := row_le (recency a) (recency b).

#[export] Instance more_recent_dec : RelDecision more_recent.
Proof. intros a b. unfold more_recent. apply _. Defined.

Definition most_recently_opened (rows : list AdeWorkspace) : option AdeWorkspace := min_by more_recent rows.

Definition older (a b : BackendWorkspace) : Prop := row_le (bw_created_at a, bw_id a) (bw_created_at b, bw_id b).

#[export] Instance older_dec : RelDecision older.
Proof. intros a b. unfold older. apply _. Defined.

Definition instance_of (daemon : DaemonKey) : option string :=
  match daemon with Instance_ instance => Some instance | Host _ => None end.

Definition is_the_same_daemons_row (candidate : AdeWorkspace) (instance_id host : option string)
    (workspace : BackendWorkspace) : bool :=
  if decide (aw_terminal_session_id candidate = Some (bw_id workspace)) then
    match aw_daemon_id candidate, instance_id with
    | Some stored, Some current => bool_decide (stored = current)
    | Some _, None => false
    | None, _ => bool_decide (aw_remote_host candidate = host)
    end
  else false.

Definition next_project_scope_rev (revision : Z) : result error Z :=
  if revision =? u64_max then Err (Bail "project scope revision overflowed") else Ok (revision + 1).

(** The last second of the calendar of [OffsetDateTime], which ends with the year 9999. *)
Definition LAST_SECOND : Z := 253402300799.

(** A time no calendar has is replaced by [now]. *)
Definition row_for_record (fresh : string) (now : Z) (workspace : BackendWorkspace) (host daemon_id : option string)
    (opened_at : Z) : AdeWorkspace :=
  let project_id := default (project_id_from_path (bw_project_root workspace)) (bw_project_id workspace) in
  let created_at := if bw_created_at workspace <=? LAST_SECOND then bw_created_at workspace else now in
  mkAdeWorkspace fresh (display_name_for (bw_name workspace) project_id) project_id (bw_project_identity workspace)
    (bw_project_root workspace) (bw_project_scope_rev workspace) None host None (Some (bw_id workspace)) daemon_id
    Workspace_Disconnected created_at opened_at.

Example derived_names :
  map is_derived_workspace_name ["ade-main-012abc"; "ade--0123ef"; "ade-main-0123"; "my-branch-012345"; "ade"; "adex-012345"]
    = [true; true; false; false; false; false].
Proof. reflexivity. Qed.

(** ** The backends *)

(** What is asked of a host's backend ([SessionBackend]). *)
Inductive call : Type :=
| CallConnect                                   (* [DaemonBackend::remote] *)
| CallInstanceId
| CallListWorkspaces
| CallListSessions
| CallResolveRepository (path : string)
| CallUpdateScope (workspace_id project_id project_identity : string) (project_root : option string)
    (minimum_scope_rev : option Z) (expected_daemon_id : option string)
| CallCreate (spec : SessionSpec) (expected_daemon_id : option string)
| CallCreateIn (workspace_id cwd : string) (expected_daemon_id : option string)
| CallExists (id : string) (expected_daemon_id : option string)
| CallAttach (spec : SessionSpec) (expected_daemon_id : option string)
| CallAttachSession (id : string) (expected_daemon_id : option string)
| CallDetach (id : string)
| CallKill (id : string) (expected_daemon_id : option string)
| CallReset (id directory : string) (expected_daemon_id : option string)
| CallRename (workspace_id name : string) (expected_daemon_id : option string)
| CallKillWorkspace (workspace_id : string) (expected_daemon_id : option string)
| CallOpenWorkspace (workspace_id : string) (expected_daemon_id : option string)
| CallUpdateLayout (workspace_id : string) (layout : LayoutDoc) (rev : Z) (expected_daemon_id : option string)
| CallKillSession (session_id : string) (expected_daemon_id : option string)
| CallSubscribeEvents.

Definition answer (c : call) : Type :=
  match c with
  | CallConnect => result string ()
  | CallInstanceId => option string
  | CallListWorkspaces => result string (Identified BackendWorkspace)
  | CallListSessions => result string (Identified string)
  | CallResolveRepository _ => result string (string * string)
  | CallUpdateScope _ _ _ _ _ _ => result string (option Z)
  | CallCreate _ _ | CallCreateIn _ _ _ => result string (string * option string)
  | CallExists _ _ => result string bool
  | CallAttach _ _ => result string Attached
  | CallAttachSession _ _ => result string (list string)
  | CallOpenWorkspace _ _ => result string (WorkspaceLayout * option string)
  | CallDetach _ | CallKill _ _ | CallReset _ _ _ | CallRename _ _ _ | CallKillWorkspace _ _
  | CallUpdateLayout _ _ _ _ | CallKillSession _ _ | CallSubscribeEvents => result string ()
  end.

Definition asked : Type := list (option string * call).

(** What the hosts answer may depend on everything they were asked before; the clock and
    the source of uuids answer by how often they were asked. *)
Class SessionBackends : Type := {
  answer_of : asked → option string → ∀ c : call, answer c;
  clock : nat → Z;
  uuid : nat → string
}.

(** A row of the editor's own history of workspaces, joined to its remote connection. *)
Record RemoteConnection : Type := mkRemoteConnection {
  rcn_kind : string;
  rcn_host : option string;
  rcn_user : option string;
  rcn_port : option Z
}.

Record HistoryRow : Type := mkHistoryRow {
  hr_paths : option string;
  hr_identity_paths : option string;
  hr_connection : option (option RemoteConnection)  (* the id, and the row it names *)
}.

(** ** The service *)

(** Who listens to the merged streams: their channels by number. *)
Record EventFanout : Type := mkEventFanout {
  fo_status : option nat;
  fo_layout : option nat;
  fo_workspace_changes : list nat
}.

Record Service : Type := mkService {
  sv_registry : Registry;
  sv_history : option (list HistoryRow);         (* [None]: a database without the tables *)
  sv_backends : gset (option string);
  sv_events : EventFanout;
  sv_pumped : gset (option string);
  sv_pump_generation : Z;
  sv_status_errors : gmap string string;
  sv_discoveries : gmap DaemonKey (list BackendWorkspace);
  sv_scope_update_retries : gset (DaemonKey * string * string);
  sv_history_backfilled : bool;
  sv_asked : asked;
  sv_tick : nat
}.

Definition with_registry (f : Registry → Registry) (s : Service) : Service :=
  mkService (f (sv_registry s)) (sv_history s) (sv_backends s) (sv_events s) (sv_pumped s) (sv_pump_generation s)
    (sv_status_errors s) (sv_discoveries s) (sv_scope_update_retries s) (sv_history_backfilled s) (sv_asked s) (sv_tick s).
Definition with_backends (f : gset (option string) → gset (option string)) (s : Service) : Service :=
  mkService (sv_registry s) (sv_history s) (f (sv_backends s)) (sv_events s) (sv_pumped s) (sv_pump_generation s)
    (sv_status_errors s) (sv_discoveries s) (sv_scope_update_retries s) (sv_history_backfilled s) (sv_asked s) (sv_tick s).
Definition with_events (f : EventFanout → EventFanout) (s : Service) : Service :=
  mkService (sv_registry s) (sv_history s) (sv_backends s) (f (sv_events s)) (sv_pumped s) (sv_pump_generation s)
    (sv_status_errors s) (sv_discoveries s) (sv_scope_update_retries s) (sv_history_backfilled s) (sv_asked s) (sv_tick s).
Definition with_pumped (f : gset (option string) → gset (option string)) (s : Service) : Service :=
  mkService (sv_registry s) (sv_history s) (sv_backends s) (sv_events s) (f (sv_pumped s)) (sv_pump_generation s)
    (sv_status_errors s) (sv_discoveries s) (sv_scope_update_retries s) (sv_history_backfilled s) (sv_asked s) (sv_tick s).
Definition with_pump_generation (f : Z → Z) (s : Service) : Service :=
  mkService (sv_registry s) (sv_history s) (sv_backends s) (sv_events s) (sv_pumped s) (f (sv_pump_generation s))
    (sv_status_errors s) (sv_discoveries s) (sv_scope_update_retries s) (sv_history_backfilled s) (sv_asked s) (sv_tick s).
Definition with_status_errors (f : gmap string string → gmap string string) (s : Service) : Service :=
  mkService (sv_registry s) (sv_history s) (sv_backends s) (sv_events s) (sv_pumped s) (sv_pump_generation s)
    (f (sv_status_errors s)) (sv_discoveries s) (sv_scope_update_retries s) (sv_history_backfilled s) (sv_asked s) (sv_tick s).
Definition with_discoveries (f : gmap DaemonKey (list BackendWorkspace) → gmap DaemonKey (list BackendWorkspace))
    (s : Service) : Service :=
  mkService (sv_registry s) (sv_history s) (sv_backends s) (sv_events s) (sv_pumped s) (sv_pump_generation s)
    (sv_status_errors s) (f (sv_discoveries s)) (sv_scope_update_retries s) (sv_history_backfilled s) (sv_asked s) (sv_tick s).
Definition with_scope_update_retries
    (f : gset (DaemonKey * string * string) → gset (DaemonKey * string * string)) (s : Service) : Service :=
  mkService (sv_registry s) (sv_history s) (sv_backends s) (sv_events s) (sv_pumped s) (sv_pump_generation s)
    (sv_status_errors s) (sv_discoveries s) (f (sv_scope_update_retries s)) (sv_history_backfilled s) (sv_asked s) (sv_tick s).
Definition with_history_backfilled (b : bool) (s : Service) : Service :=
  mkService (sv_registry s) (sv_history s) (sv_backends s) (sv_events s) (sv_pumped s) (sv_pump_generation s)
    (sv_status_errors s) (sv_discoveries s) (sv_scope_update_retries s) b (sv_asked s) (sv_tick s).
Definition with_asked (f : asked → asked) (s : Service) : Service :=
  mkService (sv_registry s) (sv_history s) (sv_backends s) (sv_events s) (sv_pumped s) (sv_pump_generation s)
    (sv_status_errors s) (sv_discoveries s) (sv_scope_update_retries s) (sv_history_backfilled s) (f (sv_asked s)) (sv_tick s).
Definition with_tick (s : Service) : Service :=
  mkService (sv_registry s) (sv_history s) (sv_backends s) (sv_events s) (sv_pumped s) (sv_pump_generation s)
    (sv_status_errors s) (sv_discoveries s) (sv_scope_update_retries s) (sv_history_backfilled s) (sv_asked s) (S (sv_tick s)).

Abbreviation svc A := (st Service (result error A)).

(** [with_context]. *)
Definition with_context {A} (c : string) (m : svc A) : svc A := λ s,
  match m s with (Ok a, s) => (Ok a, s) | (Err e, s) => (Err (Caused c e), s) end.

Definition lift_text {A} (r : result string A) : result error A := map_err Bail r.

(** A statement on the registry. *)
Definition sql {A} (m : statement A) : svc A := λ s,
  let '(r, t) := m (sv_registry s) in (lift_text r, with_registry (λ _, t) s).

Definition query {A} (f : Registry → A) : svc A := λ s, (Ok (f (sv_registry s)), s).

(** Loops that end with the first error. *)
Fixpoint for_ok {S E A} (l : list A) (f : A → st S (result E ())) : st S (result E ()) :=
  match l with
  | [] => mret (Ok ())
  | x :: l => _ ←? f x; for_ok l f
  end.

Fixpoint map_ok_st {S E A B} (l : list A) (f : A → st S (result E B)) : st S (result E (list B)) :=
  match l with
  | [] => mret (Ok [])
  | x :: l => y ←? f x; ys ←? map_ok_st l f; mret (Ok (y :: ys))
  end.

(** A loop that carries a value. *)
Fixpoint fold_ok {S E A B} (l : list A) (b : B) (f : B → A → st S (result E B)) : st S (result E B) :=
  match l with
  | [] => mret (Ok b)
  | x :: l => b ←? f b x; fold_ok l b f
  end.

Fixpoint fold_st {S A B} (l : list A) (b : B) (f : B → A → st S B) : st S B :=
  match l with
  | [] => mret b
  | x :: l => b ← f b x; fold_st l b f
  end.

Section Service.
Context `{SessionBackends}.

Definition ask (host : option string) (c : call) : st Service (answer c) := λ s,
  (answer_of (sv_asked s) host c, with_asked (λ l, l ++ [(host, c)]) s).

Definition now_whole_seconds : st Service Z := λ s, (clock (sv_tick s), with_tick s).
Definition fresh_id : st Service string := λ s, (uuid (sv_tick s), with_tick s).

Definition instance_id (host : option string) : st Service (option string) := ask host CallInstanceId.

Definition list_workspaces_identified (host : option string) : svc (Identified BackendWorkspace) :=
  r ← ask host CallListWorkspaces; mret (lift_text r).

Definition list_identified (host : option string) : svc (Identified string) :=
  r ← ask host CallListSessions; mret (lift_text r).

Definition resolve_repository (host : option string) (path : string) : svc (string * string) :=
  r ← ask host (CallResolveRepository path); mret (lift_text r).

Definition backend_update_scope (host : option string) (workspace_id project_id project_identity : string)
    (project_root : option string) (minimum_scope_rev : option Z) (expected : option string) : svc (option Z) :=
  r ← ask host (CallUpdateScope workspace_id project_id project_identity project_root minimum_scope_rev expected);
  mret (lift_text r).

Definition create_identified (host : option string) (spec : SessionSpec) (expected : option string) :
    svc (string * option string) :=
  r ← ask host (CallCreate spec expected); mret (lift_text r).

Definition backend_exists (host : option string) (id : string) (expected : option string) : svc bool :=
  r ← ask host (CallExists id expected); mret (lift_text r).

Definition create_in_identified (host : option string) (workspace_id cwd : string) (expected : option string) :
    svc (string * option string) :=
  r ← ask host (CallCreateIn workspace_id cwd expected); mret (lift_text r).

Definition backend_attach (host : option string) (spec : SessionSpec) (expected : option string) : svc Attached :=
  r ← ask host (CallAttach spec expected); mret (lift_text r).

Definition backend_attach_session (host : option string) (id : string) (expected : option string) : svc (list string) :=
  r ← ask host (CallAttachSession id expected); mret (lift_text r).

Definition backend_open_workspace (host : option string) (id : string) (expected : option string) :
    svc (WorkspaceLayout * option string) :=
  r ← ask host (CallOpenWorkspace id expected); mret (lift_text r).

Definition backend_detach (host : option string) (id : string) : svc () :=
  r ← ask host (CallDetach id); mret (lift_text r).

Definition backend_kill (host : option string) (id : string) (expected : option string) : svc () :=
  r ← ask host (CallKill id expected); mret (lift_text r).

Definition backend_reset (host : option string) (id directory : string) (expected : option string) : svc () :=
  r ← ask host (CallReset id directory expected); mret (lift_text r).

Definition backend_rename (host : option string) (id name : string) (expected : option string) : svc () :=
  r ← ask host (CallRename id name expected); mret (lift_text r).

Definition backend_kill_workspace (host : option string) (id : string) (expected : option string) : svc () :=
  r ← ask host (CallKillWorkspace id expected); mret (lift_text r).

Definition backend_update_layout (host : option string) (id : string) (layout : LayoutDoc) (rev : Z)
    (expected : option string) : svc () :=
  r ← ask host (CallUpdateLayout id layout rev expected); mret (lift_text r).

Definition backend_kill_session (host : option string) (id : string) (expected : option string) : svc () :=
  r ← ask host (CallKillSession id expected); mret (lift_text r).

Definition subscribe_events (host : option string) : svc () :=
  r ← ask host CallSubscribeEvents; mret (lift_text r).

(** *** Connections and their events *)

Definition is_idle (f : EventFanout) : bool :=
  match fo_status f, fo_layout f, fo_workspace_changes f with None, None, [] => true | _, _, _ => false end.

(** One host's pump, opened once. *)
Definition ensure_pump (host : option string) : svc () :=
  s ← st_get;
  if is_idle (sv_events s) then mret (Ok ())
  else if decide (host ∈ sv_pumped s) then mret (Ok ())
  else
    st_modify (with_pumped (λ p, {[host]} ∪ p)) ;;
    r ← subscribe_events host;
    match r with
    | Ok () => mret (Ok ())
    | Err e => st_modify (with_pumped (λ p, p ∖ {[host]})) ;; mret (Err e)
    end.

Definition record_status_error (host : string) (e : error) : st Service () :=
  st_modify (with_status_errors <[host := "status updates are off: " +:+ display_error e]>).

Definition ensure_pumps : svc () :=
  s ← st_get;
  for_ok (elements (sv_backends s)) (λ host,
    r ← ensure_pump host;
    match r, host with
    | Ok (), _ => mret (Ok ())
    | Err e, None => mret (Err e)
    | Err e, Some host => record_status_error host e ;; mret (Ok ())
    end).

Definition subscribe_status (channel : nat) : svc () :=
  st_modify (with_events (λ f, mkEventFanout (Some channel) (fo_layout f) (fo_workspace_changes f))) ;; ensure_pumps.

Definition subscribe_layout (channel : nat) : svc () :=
  st_modify (with_events (λ f, mkEventFanout (fo_status f) (Some channel) (fo_workspace_changes f))) ;; ensure_pumps.

Definition subscribe_workspace_changes (channel : nat) : svc () :=
  st_modify (with_events (λ f, mkEventFanout (fo_status f) (fo_layout f) (fo_workspace_changes f ++ [channel]))) ;;
  ensure_pumps.

Definition disconnect : st Service () :=
  st_modify (with_pump_generation (λ g, wrap64 (g + 1)) ∘ with_pumped (λ _, ∅) ∘
             with_backends (λ _, ∅) ∘ with_discoveries (λ _, ∅) ∘ with_scope_update_retries (λ _, ∅)).

Definition forward_status (host : string) : st Service () :=
  r ← ensure_pump (Some host);
  match r with Ok () => mret () | Err e => record_status_error host e end.

(** The backend of a host, which its name stands for; made on first use, and then its
    events are followed. *)
Definition backend_for_host (host : option string) : svc () :=
  s ← st_get;
  if decide (host ∈ sv_backends s) then mret (Ok ())
  else match host with
       | None => mret (Err (Bail "local ADE workspaces require Unix; use a Unix remote host"))
       | Some name =>
           created ← ask host CallConnect;
           match created with
           | Err e => mret (Err (Caused ("reaching host " +:+ name) (Bail e)))
           | Ok () => st_modify (with_backends (λ b, {[host]} ∪ b)) ;; forward_status name ;; mret (Ok ())
           end
       end.

Definition backend_for (w : AdeWorkspace) : svc () := backend_for_host (aw_remote_host w).

(** *** What is remembered of a daemon *)

Definition remember_discoveries (daemon : DaemonKey) (held : list BackendWorkspace) : st Service () :=
  st_modify (with_discoveries <[daemon := held]>).

Definition remembered_discoveries (daemon : DaemonKey) (s : Service) : list BackendWorkspace :=
  default [] (sv_discoveries s !! daemon).

Definition forget_discovery (daemon : DaemonKey) (wire_id : string) : st Service () :=
  st_modify (with_discoveries (alter (filter (λ record, bw_id record ≠ wire_id)) daemon)).

Definition scope_update_key (daemon : DaemonKey) (w : BackendWorkspace) : DaemonKey * string * string :=
  (daemon, bw_id w, bw_project_root w).

Definition scope_update_needs_retry (daemon : DaemonKey) (w : BackendWorkspace) (s : Service) : bool :=
  bool_decide (scope_update_key daemon w ∈ sv_scope_update_retries s).

Definition persist_discovery_scope (host : option string) (daemon : DaemonKey) (daemon_id : option string)
    (w : BackendWorkspace) (project_id project_identity project_root : string) (minimum_scope_rev : Z) :
    st Service (option Z) :=
  r ← backend_update_scope host (bw_id w) project_id project_identity (Some project_root) (Some minimum_scope_rev)
        daemon_id;
  match r with
  | Ok updated =>
      st_modify (with_scope_update_retries (λ k, k ∖ {[scope_update_key daemon w]})) ;; mret updated
  | Err _ => st_modify (with_scope_update_retries (λ k, {[scope_update_key daemon w]} ∪ k)) ;; mret None
  end.

Definition scoped_record (w : BackendWorkspace) (project_id project_identity root : string) (rev : Z) : BackendWorkspace :=
  mkBackendWorkspace (bw_id w) (bw_name w) (Some project_id) (Some project_identity) root rev (bw_created_at w).

(** A row of this client that names the project of the daemon's record. *)
Definition scope_holder (daemon_id host : option string) (known : list AdeWorkspace) (w : BackendWorkspace) :
    option AdeWorkspace :=
  max_by_key (λ k, if bool_decide (is_Some (aw_daemon_id k)) then 1 else 0)
    (filter (λ k, is_the_same_daemons_row k daemon_id host w = true ∧ is_Some (aw_project_identity k)) known).

Definition local_scope_wins (w : BackendWorkspace) (existing : AdeWorkspace) (ident : string) : bool :=
  let scope_matches := bool_decide (bw_project_id w = Some (aw_project_id existing)) &&
                       bool_decide (bw_project_identity w = Some ident) &&
                       path_eqb (bw_project_root w) (aw_repository_path existing) in
  bool_decide (bw_project_identity w = None) ||
  (bw_project_scope_rev w <? aw_project_scope_rev existing) ||
  ((bw_project_scope_rev w =? aw_project_scope_rev existing) && negb scope_matches).

(** One record of a listing, with its canonical project. *)
Definition enrich_one (host : option string) (daemon : DaemonKey) (daemon_id : option string)
    (known : list AdeWorkspace) (cached : list BackendWorkspace) (w : BackendWorkspace) : svc BackendWorkspace :=
  let claim := match scope_holder daemon_id host known w with
               | Some existing => match aw_project_identity existing with
                                  | Some ident => if local_scope_wins w existing ident
                                                     then Some (existing, ident) else None
                                  | None => None
                                  end
               | None => None
               end in
  match claim with
  | Some (existing, ident) =>
      let root := aw_repository_path existing in
      let cached_revision := find_first (λ c,
        bool_decide (bw_id c = bw_id w) && bool_decide (bw_project_root c = root) &&
        bool_decide (bw_project_id c = Some (aw_project_id existing)) &&
        bool_decide (bw_project_identity c = Some ident) &&
        (aw_project_scope_rev existing <=? bw_project_scope_rev c)) cached in
      s ← st_get;
      rev ← match cached_revision, scope_update_needs_retry daemon w s with
            | Some c, false => mret (Some (bw_project_scope_rev c))
            | _, _ => persist_discovery_scope host daemon daemon_id w (aw_project_id existing) ident root
                        (aw_project_scope_rev existing)
            end;
      mret (Ok (scoped_record w (aw_project_id existing) ident root (default (aw_project_scope_rev existing) rev)))
  | None =>
      match bw_project_identity w with
      | Some ident =>
          match bw_project_id w with
          | None =>
              let project_id := project_id_from_identity ident in
              fallback ←? mret (next_project_scope_rev (bw_project_scope_rev w));
              rev ← persist_discovery_scope host daemon daemon_id w project_id ident (bw_project_root w) fallback;
              mret (Ok (scoped_record w project_id ident (bw_project_root w) (default fallback rev)))
          | Some _ =>
              st_modify (with_scope_update_retries (λ k, k ∖ {[scope_update_key daemon w]})) ;; mret (Ok w)
          end
      | None =>
          match find_first (λ c, bool_decide (bw_id c = bw_id w) &&
                                 bool_decide (bw_project_root c = bw_project_root w)) cached with
          | Some (mkBackendWorkspace _ _ cached_project (Some ident) _ cached_rev _) =>
              let project_id := default (project_id_from_identity ident) cached_project in
              s ← st_get;
              rev ← (if scope_update_needs_retry daemon w s
                     then persist_discovery_scope host daemon daemon_id w project_id ident (bw_project_root w) cached_rev
                     else mret None);
              mret (Ok (scoped_record w project_id ident (bw_project_root w) (default cached_rev rev)))
          | _ =>
              resolved ← resolve_repository host (bw_project_root w);
              match resolved with
              | Err _ => mret (Ok w)
              | Ok (_, identity_path) =>
                  let ident := serialize_paths [identity_path] in
                  if decide (ident = "") then mret (Ok w)
                  else
                    let project_id := project_id_from_identity ident in
                    fallback ←? mret (next_project_scope_rev (bw_project_scope_rev w));
                    rev ← persist_discovery_scope host daemon daemon_id w project_id ident (bw_project_root w) fallback;
                    mret (Ok (scoped_record w project_id ident (bw_project_root w) (default fallback rev)))
              end
          end
      end
  end.

Definition enrich_workspace_project_scopes (host : option string) (daemon : DaemonKey) (daemon_id : option string)
    (known : list AdeWorkspace) (held : list BackendWorkspace) : svc (list BackendWorkspace) :=
  s ← st_get;
  let cached := remembered_discoveries daemon s in
  map_ok_st held (enrich_one host daemon daemon_id known cached).
End Service.
