(* ===== verification/Hosts.v ===== *)
(** * Listing and reconciling hosts

    [list_host_workspaces] and [reconcile] of [crates/ade_workspaces/src/lifecycle.rs],
    with the backfill of projects from the editor's history
    ([crates/ade_workspaces/src/registry.rs]). *)

From S2P Require Import Prelude Text Words Panes Sync Events Registry Paths Service.
From Stdlib Require Import Ascii.
From stdpp Require Import options.
Open Scope Z_scope.

Section Hosts.
Context `{SessionBackends}.

(** *** Listing a host *)

Definition list_rows : svc (list AdeWorkspace) := query list_workspaces.

(** The history rows that are of the repository and the host of a workspace. *)
Definition ssh_authority (r : RemoteConnection) : option string :=
  let user := from_option (λ user, user +:+ "@") "" (rcn_user r) in
  host ← rcn_host r;
  match rcn_port r with
  | Some port =>
      if port =? 22 then Some (user +:+ host)
      else
        let bracketed := match host with
                         | String "[" _ => host
                         | _ => if existsb (λ c, bool_decide (c = ":"%char)) (to_bytes host)
                                then "[" +:+ host +:+ "]" else host
                         end in
        Some ("ssh://" +:+ user +:+ bracketed +:+ ":" +:+ pretty port)
  | None => Some (user +:+ host)
  end.

Definition history_matches (w : AdeWorkspace) (h : HistoryRow) : bool :=
  bool_decide (hr_paths h = Some (aw_repository_path w)) && bool_decide (aw_project_identity w = None) &&
  match hr_identity_paths h with Some paths => negb (bool_decide (paths = "")) | None => false end &&
  match aw_remote_host w, hr_connection h with
  | None, None => true
  | Some host, Some (Some r) => bool_decide (rcn_kind r = "ssh") && bool_decide (ssh_authority r = Some host)
  | _, _ => false
  end.

(** The one identity its history agrees on. *)
Definition candidate_identity (history : list HistoryRow) (w : AdeWorkspace) : option string :=
  match omap hr_identity_paths (filter (λ h, history_matches w h = true) history) with
  | [] => None
  | paths :: rest => if forallb (λ p, bool_decide (p = paths)) rest then Some paths else None
  end.

Definition with_identity (ident : string) (w : AdeWorkspace) : AdeWorkspace :=
  mkAdeWorkspace (aw_id w) (aw_name w) (aw_project_id w) (Some ident) (aw_repository_path w)
    (aw_project_scope_rev w) (aw_branch w) (aw_remote_host w) (aw_remote_workspace_path w)
    (aw_terminal_session_id w) (aw_daemon_id w) (aw_status w) (aw_created_at w) (aw_last_opened_at w).

Definition backfill_row (history : list HistoryRow) (r : Row) : Row :=
  match candidate_identity history (row_workspace r) with
  | Some ident => on_workspace (with_identity ident) r
  | None => r
  end.

Definition checked_next (context : string) (rev : Z) : result error Z :=
  if rev =? u64_max then Err (Bail context) else Ok (rev + 1).

Definition backfill_project_identities_from_workspace_history : svc bool :=
  s ← st_get;
  match sv_history s with
  | None => mret (Ok false)
  | Some history =>
      st_modify (with_registry (fmap (backfill_row history))) ;;
      rows ←? list_rows;
      _ ←? for_ok rows (λ w,
             match aw_project_identity w with
             | None => mret (Ok ())
             | Some ident =>
                 let project_id := project_id_from_identity ident in
                 if decide (aw_project_id w = project_id) then mret (Ok ())
                 else
                   rev ←? mret (checked_next "project scope revision overflowed during history backfill" (aw_project_scope_rev w));
                   _ ←? sql (update_project_scope (aw_id w) rev project_id ident);
                   mret (Ok ())
             end);
      mret (Ok true)
  end.

Definition ensure_history_backfill : svc () :=
  s ← st_get;
  if sv_history_backfilled s then mret (Ok ())
  else
    _ ←? with_context "backfilling ADE project identities" backfill_project_identities_from_workspace_history;
    st_modify (with_history_backfilled true) ;;
    mret (Ok ()).

(** A row of this client that the daemon does not hold, with the project its path resolves
    to; and whether the registry changed. *)
Definition resolve_row (host : option string) (existing : AdeWorkspace) : svc (AdeWorkspace * bool) :=
  resolved ← resolve_repository host (aw_repository_path existing);
  match resolved with
  | Err _ => mret (Ok (existing, false))
  | Ok (_, ident_path) =>
      let ident := serialize_paths [ident_path] in
      if decide (ident = "") then mret (Ok (existing, false))
      else
        rev ←? mret (next_project_scope_rev (aw_project_scope_rev existing));
        '(applied, stored) ←? with_context ("recording resolved project identity for workspace " +:+ aw_id existing)
          (sql (update_project_scope (aw_id existing) rev (project_id_from_identity ident) ident));
        mret (Ok (stored, applied))
  end.

Definition unresolved (host instance_id : option string) (held : list BackendWorkspace) (k : AdeWorkspace) : bool :=
  bool_decide (aw_project_identity k = None) && bool_decide (aw_remote_host k = host) &&
  negb (existsb (is_the_same_daemons_row k instance_id host) held).

Definition resolve_rows (host instance_id : option string) (held : list BackendWorkspace) (known : list AdeWorkspace) :
    svc (list (AdeWorkspace * bool)) :=
  map_ok_st known (λ k, if unresolved host instance_id held k then resolve_row host k else mret (Ok (k, false))).

(** The row of a record that the daemon holds: the newer of the two projects is kept, and
    the row follows the daemon to the route it was found on. *)
Definition settle_scope (host instance_id : option string) (w : BackendWorkspace) (existing : AdeWorkspace) :
    svc bool :=
  match bw_project_identity w with
  | Some ident =>
      let project_id := default (project_id_from_identity ident) (bw_project_id w) in
      if bool_decide (aw_project_identity existing = None) || (aw_project_scope_rev existing <? bw_project_scope_rev w)
      then
        _ ←? with_context ("recording daemon project identity for workspace " +:+ aw_id existing)
               (sql (update_repository_scope (aw_id existing) (bw_project_root w) (bw_project_scope_rev w) project_id ident));
        mret (Ok true)
      else mret (Ok false)
  | None =>
      match aw_project_identity existing with
      | None => mret (Ok false)
      | Some ident =>
          r ← backend_update_scope host (bw_id w) (aw_project_id existing) ident (Some (aw_repository_path existing))
                (Some (aw_project_scope_rev existing)) instance_id;
          match r with
          | Ok (Some rev) =>
              _ ←? sql (update_repository_scope (aw_id existing) (aw_repository_path existing) rev
                          (aw_project_id existing) ident);
              mret (Ok true)
          | Ok None | Err _ => mret (Ok false)
          end
      end
  end.

Definition follow_route (host instance_id : option string) (w : BackendWorkspace) (existing : AdeWorkspace) : svc bool :=
  if decide (aw_remote_host existing = host ∧ aw_daemon_id existing = instance_id) then mret (Ok false)
  else
    rebound ← sql (rebind_workspace_route (aw_id existing) (aw_remote_host existing) (aw_daemon_id existing) host instance_id);
    match rebound with
    | Ok _ => mret (Ok true)
    | Err e =>
        resolved ←? sql (resolve_rebind_conflict (aw_id existing) (aw_remote_host existing) (aw_daemon_id existing) host
                           instance_id (bw_id w));
        match resolved with
        | Some _ => mret (Ok true)
        | None => mret (Err (Caused ("rebinding workspace " +:+ bw_id w +:+ " to " +:+ host_label host) e))
        end
    end.

Definition row_of_record (known : list AdeWorkspace) (host instance_id : option string) (w : BackendWorkspace) :
    option AdeWorkspace :=
  max_by_key (λ k, if bool_decide (is_Some (aw_daemon_id k)) then 1 else 0)
    (filter (λ k, is_the_same_daemons_row k instance_id host w = true) known).

Definition settle_record (known : list AdeWorkspace) (host instance_id : option string) (w : BackendWorkspace) : svc bool :=
  match row_of_record known host instance_id w with
  | None => mret (Ok false)
  | Some existing =>
      scoped ←? settle_scope host instance_id w existing;
      moved ←? follow_route host instance_id w existing;
      mret (Ok (scoped || moved))
  end.

Definition list_under (host instance_id : option string) (items : list BackendWorkspace) :
    svc (DaemonKey * list BackendWorkspace * list AdeWorkspace) :=
  let key := daemon_key instance_id host in
  known ←? list_rows;
  held ←? enrich_workspace_project_scopes host key instance_id known items;
  resolved ←? resolve_rows host instance_id held known;
  let known := resolved.*1 in
  changed ←? fold_ok held (existsb snd resolved) (λ changed w,
               c ←? settle_record known host instance_id w; mret (Ok (changed || c)));
  remember_discoveries key held ;;
  rows ←? (if changed : bool then list_rows else mret (Ok known));
  mret (Ok (key, held, rows)).

Fixpoint list_host_attempts (attempts : nat) (host : option string) :
    svc (DaemonKey * list BackendWorkspace * list AdeWorkspace) :=
  match attempts with
  | O => mret (Err (Bail ("the daemon identity on " +:+ host_label host +:+ " kept changing while listing workspaces")))
  | S attempts =>
      initial ←? with_context ("listing the workspaces on " +:+ host_label host) (list_workspaces_identified host);
      listing ←? with_context ("refreshing the workspaces on " +:+ host_label host) (list_workspaces_identified host);
      if decide (id_daemon_id listing = id_daemon_id initial) then list_under host (id_daemon_id listing) (id_items listing)
      else list_host_attempts attempts host
  end.

Definition list_host_workspaces (host : option string) : svc (DaemonKey * list BackendWorkspace * list AdeWorkspace) :=
  _ ←? ensure_history_backfill;
  list_host_attempts 3 host.

(** *** Reconciling *)

Definition set_status (w : AdeWorkspace) (status : WorkspaceStatus) : svc AdeWorkspace :=
  if decide (aw_status w = status) then mret (Ok w)
  else _ ←? sql (update_status (aw_id w) status); mret (Ok (with_label (aw_name w) status w)).

Definition record_probe (w : AdeWorkspace) (alive : bool) : svc (AdeWorkspace * SessionState) :=
  let '(state, status) := if alive then (Alive, Workspace_Running) else (Dead, Workspace_Disconnected) in
  w ←? set_status w status;
  mret (Ok (w, state)).

Record HostOutcome : Type := mkHostOutcome {
  ho_host : option string;
  ho_daemon : DaemonKey;
  ho_live : option (gset string);
  ho_held : option (list BackendWorkspace)
}.

(** [Option<String>] in order: nothing first. *)
Definition host_le (a b : option string) : Prop :=
  match a, b with None, _ => True | Some _, None => False | Some a, Some b => String.le a b end.

#[export] Instance host_le_dec : RelDecision host_le.
Proof. intros [a|] [b|]; unfold host_le; apply _. Defined.

(** What a pass carries from host to host. *)
Record Pass : Type := mkPass {
  ps_workspaces : list AdeWorkspace;
  ps_host_errors : list (string * string);
  ps_outcomes : list HostOutcome
}.

Definition complain (host : option string) (e : error) (errors : list (string * string)) : list (string * string) :=
  errors ++ [(host_label host, display_error e)].

(** Rows in scope take what the listing wrote for them. *)
Definition refreshed (rows workspaces : list AdeWorkspace) : list AdeWorkspace :=
  map (λ w, default w (find_first (λ row, bool_decide (aw_id row = aw_id w)) rows)) workspaces.

(** The sessions alive behind the daemon that was listed. *)
Definition live_sessions (discover : bool) (host : option string) (daemon : DaemonKey) :
    svc (DaemonKey * option (gset string)) :=
  listing ←? with_context "listing live sessions" (list_identified host);
  let answered := daemon_key (id_daemon_id listing) host in
  let live := list_to_set (id_items listing) in
  mret (Ok (if decide (answered = daemon) then (daemon, Some live)
            else if negb discover then (answered, Some live) else (daemon, None))).

Definition probe_host (discover : bool) (p : Pass) (host : option string) : st Service Pass :=
  let outcome daemon live held workspaces errors :=
    mret (mkPass workspaces errors (ps_outcomes p ++ [mkHostOutcome host daemon live held])) in
  let ask_sessions daemon held workspaces :=
    r ← live_sessions discover host daemon;
    match r with
    | Ok (daemon, live) => outcome daemon live held workspaces (ps_host_errors p)
    | Err e => outcome daemon None held workspaces (complain host e (ps_host_errors p))
    end in
  opened ← backend_for_host host;
  match opened with
  | Err e => outcome (Host host) None None (ps_workspaces p) (complain host e (ps_host_errors p))
  | Ok () =>
      current ← instance_id host;
      let daemon := daemon_key current host in
      if negb discover then ask_sessions daemon None (ps_workspaces p)
      else
        listed ← list_host_workspaces host;
        match listed with
        | Err e => outcome daemon None None (ps_workspaces p) (complain host e (ps_host_errors p))
        | Ok (daemon, records, rows) => ask_sessions daemon (Some records) (refreshed rows (ps_workspaces p))
        end
  end.

Definition contact_host (discover : bool) (discovering : list (option string)) (p : Pass) (host : option string) :
    st Service Pass :=
  let anything_to_probe := existsb (λ w, bool_decide (aw_remote_host w = host) &&
                                         bool_decide (is_Some (aw_terminal_session_id w))) (ps_workspaces p) in
  if anything_to_probe || bool_decide (host ∈ discovering) then probe_host discover p host
  else mret (mkPass (ps_workspaces p) (ps_host_errors p)
               (ps_outcomes p ++ [mkHostOutcome host (Host host) (Some ∅) None])).

(** The outcomes that answered first, in the order they came in otherwise. *)
Definition answered_first (outcomes : list HostOutcome) : list HostOutcome :=
  let class held live := filter (λ o, bool_decide (is_Some (ho_held o)) = held ∧ bool_decide (is_Some (ho_live o)) = live) outcomes in
  class true true ++ class true false ++ class false true ++ class false false.

Definition live_for (outcomes : list HostOutcome) (w : AdeWorkspace) : option (gset string) :=
  o ← find_first (λ o, bool_decide (ho_host o = aw_remote_host w) && row_is_on w (ho_daemon o) (ho_host o)) outcomes;
  ho_live o.

Definition settle_row (outcomes : list HostOutcome) (w : AdeWorkspace) : svc (AdeWorkspace * SessionState) :=
  match aw_terminal_session_id w with
  | None => mret (Ok (w, NeverCreated))
  | Some session =>
      match live_for outcomes w with
      | Some live => record_probe w (bool_decide (session ∈ live))
      | None => mret (Ok (w, Unknown))
      end
  end.

Definition discovered_state (o : HostOutcome) (record : BackendWorkspace) : SessionState :=
  match ho_live o, ho_held o with
  | Some live, Some _ => if decide (bw_id record ∈ live) then Alive else Dead
  | _, _ => Unknown
  end.

Definition used_on (daemon : DaemonKey) (host : option string) (rows : list AdeWorkspace) : list string :=
  map daemon_workspace_id (filter (λ row, row_is_on row daemon host = true) rows).

(** What a daemon holds that no row uses; [rendered] are the daemons shown already. *)
Fixpoint discoveries_of (s : Service) (rows : list AdeWorkspace) (rendered : list DaemonKey)
    (outcomes : list HostOutcome) : list (option string * BackendWorkspace * SessionState) :=
  match outcomes with
  | [] => []
  | o :: outcomes =>
      if decide (ho_daemon o ∈ rendered) then discoveries_of s rows rendered outcomes
      else
        let held := default (remembered_discoveries (ho_daemon o) s) (ho_held o) in
        let used := used_on (ho_daemon o) (ho_host o) rows in
        map (λ record, (ho_host o, record, discovered_state o record)) (filter (λ record, bw_id record ∉ used) held) ++
        discoveries_of s rows (ho_daemon o :: rendered) outcomes
  end.

Definition discovery_le (a b : option string * BackendWorkspace * SessionState) : Prop :=
  let '(ha, ra, _) := a in
  let '(hb, rb, _) := b in
  if decide (ha = hb) then row_le (bw_created_at ra, bw_id ra) (bw_created_at rb, bw_id rb) else host_le ha hb.

#[export] Instance discovery_le_dec : RelDecision discovery_le.
Proof. intros [[ha ra] ?] [[hb rb] ?]. unfold discovery_le. destruct (decide (ha = hb)); apply _. Defined.

Definition reconcile (workspaces : list AdeWorkspace) (discover : bool) : svc Reconciled :=
  s ← st_get;
  let discovering := if discover then merge_sort host_le (elements (sv_backends s)) else [] in
  let hosts := foldl (λ hosts w, if decide (aw_remote_host w ∈ hosts) then hosts else hosts ++ [aw_remote_host w])
                 discovering workspaces in
  p ← fold_st hosts (mkPass workspaces (map_to_list (sv_status_errors s)) []) (contact_host discover discovering);
  let outcomes := answered_first (ps_outcomes p) in
  rows ←? map_ok_st (merge_sort more_recent (ps_workspaces p)) (settle_row outcomes);
  s ← st_get;
  let discovered := if discover then merge_sort discovery_le (discoveries_of s rows.*1 [] outcomes) else [] in
  mret (Ok (mkReconciled (map (λ '(w, state), Persisted w state) rows ++
                          map (λ '(host, record, state), Discovered host record state) discovered)
              (ps_host_errors p))).

Definition reconcile_all : svc Reconciled :=
  _ ←? ensure_history_backfill;
  workspaces ←? list_rows;
  reconcile workspaces true.

Definition reconcile_project (project_id : string) : svc Reconciled :=
  _ ←? ensure_history_backfill;
  workspaces ←? query (list_workspaces_for_project project_id);
  reconcile workspaces false.

Definition ensure_host_workspaces (host : option string) : svc (list WorkspaceEntry) :=
  _ ←? backend_for_host host;
  '(daemon, held, rows) ←? list_host_workspaces host;
  let mine := filter (λ row, row_is_on row daemon host = true) rows in
  let used := used_on daemon host rows in
  mret (Ok (map (λ row, Persisted row Unknown) mine ++
            map (λ record, Discovered host record Unknown) (filter (λ record, bw_id record ∉ used) held))).
End Hosts.
