(* ===== verification/HostSpecs.v ===== *)
(** * Theorems about listing and reconciling *)

From S2P Require Import Prelude Text Words Layout Panes Sync Events Registry Paths Service Hosts.
From Stdlib Require Import Ascii.
From stdpp Require Import options.
Open Scope Z_scope.

(** ** Relations a computation keeps

    [moves R m]: wherever [m] starts, it ends related by [R]. For a preorder the relation
    is kept by everything made of computations that keep it. *)
Definition moves {S A} (R : relation S) (m : st S A) : Prop := ∀ s, R s (m s).2.

Create HintDb moves.

Section Moves.
Context {S E : Type} (R : relation S) `{!PreOrder R}.

Lemma moves_ret {A} (a : A) : moves R (mret a).
Proof using Type*. intros s. reflexivity. Qed.

Lemma moves_get : moves R st_get.
Proof using Type*. intros s. reflexivity. Qed.

Lemma moves_bind {A B} (m : st S A) (k : A → st S B) : moves R m → (∀ a, moves R (k a)) → moves R (m ≫= k).
Proof using Type*. intros Hm Hk s. rewrite st_bind_unfold. etrans; [apply Hm|apply Hk]. Qed.

Lemma moves_bind_ok {A B} (m : st S (result E A)) (k : A → st S (result E B)) :
  moves R m → (∀ a, moves R (k a)) → moves R (bind_ok m k).
Proof using Type*.
  intros Hm Hk s. unfold bind_ok. specialize (Hm s). destruct (m s) as [[a|e] s']; [|done].
  etrans; [exact Hm|apply Hk].
Qed.

Lemma moves_for_ok {A} (l : list A) (f : A → st S (result E ())) : (∀ x, moves R (f x)) → moves R (for_ok l f).
Proof using Type*. intros Hf. induction l as [|x l IH]; [apply moves_ret|]. by apply moves_bind_ok. Qed.

Lemma moves_map_ok {A B} (l : list A) (f : A → st S (result E B)) : (∀ x, moves R (f x)) → moves R (map_ok_st l f).
Proof using Type*.
  intros Hf. induction l as [|x l IH]; [apply moves_ret|]. apply moves_bind_ok; [done|]. intros y.
  apply moves_bind_ok; [done|]. intros ys. apply moves_ret.
Qed.

Lemma moves_fold_ok {A B} (l : list A) (b : B) (f : B → A → st S (result E B)) :
  (∀ b x, moves R (f b x)) → moves R (fold_ok l b f).
Proof using Type*. intros Hf. revert b. induction l as [|x l IH]; intros b; [apply moves_ret|]. by apply moves_bind_ok. Qed.

Lemma moves_fold_st {A B} (l : list A) (b : B) (f : B → A → st S B) :
  (∀ b x, moves R (f b x)) → moves R (fold_st l b f).
Proof using Type*. intros Hf. revert b. induction l as [|x l IH]; intros b; [apply moves_ret|]. by apply moves_bind. Qed.
End Moves.

Lemma moves_with_context {A} (R : relation Service) c (m : svc A) : moves R m → moves R (with_context c m).
Proof. intros Hm s. specialize (Hm s). unfold with_context. by destruct (m s) as [[?|?] ?]. Qed.

#[export] Hint Resolve moves_ret moves_get moves_with_context : moves.

(** Take a computation apart, down to what touches the state. *)
Ltac moves_step :=
  lazymatch goal with
  | |- moves _ (_ ≫= _) => apply moves_bind; [try apply _| |intros ?]
  | |- moves _ (bind_ok _ _) => apply moves_bind_ok; [try apply _| |intros ?]
  | |- moves _ (for_ok _ _) => apply moves_for_ok; [try apply _|intros ?]
  | |- moves _ (map_ok_st _ _) => apply moves_map_ok; [try apply _|intros ?]
  | |- moves _ (fold_ok _ _ _) => apply moves_fold_ok; [try apply _|intros ? ?]
  | |- moves _ (fold_st _ _ _) => apply moves_fold_st; [try apply _|intros ? ?]
  | |- moves _ (with_context _ _) => apply moves_with_context
  | |- moves _ (mret _) => apply moves_ret; try apply _
  | |- moves _ st_get => apply moves_get; try apply _
  | |- moves _ (let '(_, _) := ?x in _) => destruct x
  | |- moves _ (match ?x with _ => _ end) => destruct x
  end.

Ltac moves_tac := repeat first [moves_step | solve [auto with moves]].

(** ** What a listing may do *)

(** The requests of a listing: it connects, asks, and tells a daemon a project. *)
Definition listing_call (c : call) : bool :=
  match c with
  | CallConnect | CallInstanceId | CallListWorkspaces | CallListSessions | CallResolveRepository _
  | CallUpdateScope _ _ _ _ _ _ | CallSubscribeEvents => true
  | _ => false
  end.

(** Every row is the same row, used since the same moment, as before. *)
Definition same_rows (t t' : Registry) : Prop :=
  (registry_wf t → registry_wf t') ∧
  ∀ i r', t' !! i = Some r' → ∃ r, t !! i = Some r ∧ row_used_by_client_at r' = row_used_by_client_at r.

Definition settles (s s' : Service) : Prop :=
  same_rows (sv_registry s) (sv_registry s') ∧
  ∃ new, sv_asked s' = sv_asked s ++ new ∧ Forall (λ '(_, c), listing_call c = true) new.

#[export] Instance same_rows_preorder : PreOrder same_rows.
Proof.
  split.
  - intros t. split; [done|]. eauto.
  - intros t1 t2 t3 [Hw1 H1] [Hw2 H2]. split; [auto|]. intros i r' Hr'. destruct (H2 i r' Hr') as (r & Hr & ->). eauto.
Qed.

#[export] Instance settles_preorder : PreOrder settles.
Proof.
  split.
  - intros s. split; [done|]. exists []. by rewrite app_nil_r.
  - intros s1 s2 s3 [H1 (n1 & A1 & F1)] [H2 (n2 & A2 & F2)]. split; [by etrans|].
    exists (n1 ++ n2). rewrite A2, A1, app_assoc. split; [done|]. by apply Forall_app.
Qed.

Lemma settles_state (f : Service → Service) :
  (∀ s, sv_registry (f s) = sv_registry s ∧ sv_asked (f s) = sv_asked s) → moves settles (st_modify f).
Proof.
  intros Hf s. cbn. destruct (Hf s) as [Hr Ha]. split; [by rewrite Hr|]. exists []. by rewrite Ha, app_nil_r.
Qed.

Lemma settles_query {A} (f : Registry → A) : moves settles (query f).
Proof. intros s. reflexivity. Qed.

Section Settling.
Context `{SessionBackends}.

Lemma settles_ask host c : listing_call c = true → moves settles (ask host c).
Proof. intros Hc s. split; [done|]. exists [(host, c)]. split; [done|]. by repeat constructor. Qed.

Lemma settles_sql {A} (m : statement A) : (∀ t, same_rows t (m t).2) → moves settles (sql m).
Proof.
  intros Hm s. unfold sql. specialize (Hm (sv_registry s)). destruct (m (sv_registry s)) as [r t].
  split; [done|]. exists []. by rewrite app_nil_r.
Qed.
End Settling.

(** *** Statements that keep the rows *)

Lemma same_rows_update_where id p f :
  (∀ r, aw_id (row_workspace (f r)) = aw_id (row_workspace r)) →
  (∀ r, row_used_by_client_at (f r) = row_used_by_client_at r) →
  ∀ t, same_rows t (update_where id p f t).2.
Proof.
  intros Hid Hused t. split.
  - intros Hwf. by apply (keeps_writes _ (update_where_keeps id p f Hid)).
  - intros i r' Hr'. unfold update_where, put_row in Hr'.
    destruct (t !! id) as [r|] eqn:Hr; [|by eauto]. destruct (p r); [|by eauto].
    destruct (taken id (f r) t); cbn in Hr'; [by eauto|].
    apply lookup_insert_Some in Hr' as [[<- <-]|[_ Hr']]; eauto.
Qed.

Lemma same_rows_stored_after id e m : (∀ t, same_rows t (m t).2) → ∀ t, same_rows t (stored_after id e m t).2.
Proof.
  intros Hm t. specialize (Hm t). unfold stored_after. destruct (m t) as [[?|?] t']; [|done].
  by destruct (get_workspace id t').
Qed.

Lemma same_rows_subseteq t t' : t' ⊆ t → same_rows t t'.
Proof.
  intros Hsub. split.
  - intros [Hk Ho]. split; [|by eapply one_per_record_subseteq]. intros i r Hr. apply Hk. by eapply lookup_weaken.
  - intros i r Hr. exists r. split; [by eapply lookup_weaken|done].
Qed.

Lemma delete_all_subseteq (losers : list AdeWorkspace) (t : Registry) :
  foldl (λ t loser, delete (aw_id loser) t) t losers ⊆ t.
Proof. revert t. induction losers as [|l losers IH]; intros t; [done|]. cbn. etrans; [apply IH|apply delete_subseteq]. Qed.

Lemma same_rows_resolve_rebind id eh ed h d terminal t : same_rows t (resolve_rebind_conflict id eh ed h d terminal t).2.
Proof.
  unfold resolve_rebind_conflict. destruct d as [d|]; [|done].
  destruct (find_first _ _) as [owner|]; [|done]. destruct (merge_sort _ _) as [|survivor losers]; [done|].
  pose proof (same_rows_update_where (aw_id survivor) always (on_workspace (with_route h (Some d))) (λ _, eq_refl) (λ _, eq_refl)
    (foldl (λ t loser, delete (aw_id loser) t) t losers)) as Hm.
  destruct (update_where _ _ _ _) as [[?|?] t'']; cbn in *; [|done].
  etrans; [apply same_rows_subseteq, delete_all_subseteq|exact Hm].
Qed.

(** The backfill gives rows a project; the record a row holds is not touched. *)
Lemma backfill_row_id history r : aw_id (row_workspace (backfill_row history r)) = aw_id (row_workspace r).
Proof. unfold backfill_row. by destruct (candidate_identity _ _). Qed.

Lemma backfill_row_used history r : row_used_by_client_at (backfill_row history r) = row_used_by_client_at r.
Proof. unfold backfill_row. by destruct (candidate_identity _ _). Qed.

Lemma backfill_row_key history r : record_key (backfill_row history r) = record_key r.
Proof. unfold backfill_row. by destruct (candidate_identity _ _). Qed.

Lemma same_rows_backfill history t : same_rows t (backfill_row history <$> t).
Proof.
  split.
  - intros [Hk Ho]. split.
    + intros i r'. rewrite lookup_fmap. intros (r & Hr & ->)%fmap_Some. rewrite backfill_row_id. by apply Hk.
    + intros i j r' s' key. rewrite !lookup_fmap. intros (r & Hr & ->)%fmap_Some (s & Hs & ->)%fmap_Some.
      rewrite !backfill_row_key. by apply Ho.
  - intros i r'. rewrite lookup_fmap. intros (r & Hr & ->)%fmap_Some. exists r. by rewrite backfill_row_used.
Qed.

#[export] Hint Resolve settles_query : moves.
#[export] Hint Extern 1 (moves settles (ask _ _)) => apply settles_ask; reflexivity : moves.
#[export] Hint Extern 1 (moves settles (st_modify (with_registry (fmap (backfill_row _))))) =>
  (intros s; split; [apply same_rows_backfill|by exists []; rewrite app_nil_r]) : moves.
#[export] Hint Extern 2 (moves settles (st_modify _)) => (apply settles_state; intros; split; reflexivity) : moves.
#[export] Hint Extern 1 (moves settles (sql _)) =>
  (apply settles_sql;
   first [apply same_rows_stored_after, same_rows_update_where; [reflexivity|reflexivity]
         |apply same_rows_update_where; [reflexivity|reflexivity]
         |apply same_rows_resolve_rebind]) : moves.

(** ** Listings settle *)

Section Listing.
Context `{SessionBackends}.

Lemma settles_ensure_pump host : moves settles (ensure_pump host).
Proof. unfold ensure_pump, subscribe_events. moves_tac. Qed.
Hint Resolve settles_ensure_pump : moves.

Lemma settles_backend_for_host host : moves settles (backend_for_host host).
Proof. unfold backend_for_host, forward_status, record_status_error. moves_tac. Qed.
Hint Resolve settles_backend_for_host : moves.

Lemma settles_list_workspaces_identified host : moves settles (list_workspaces_identified host).
Proof. unfold list_workspaces_identified. moves_tac. Qed.
Hint Resolve settles_list_workspaces_identified : moves.

Lemma settles_resolve_repository host path : moves settles (resolve_repository host path).
Proof. unfold resolve_repository. moves_tac. Qed.
Hint Resolve settles_resolve_repository : moves.

Lemma settles_backend_update_scope host w p i root rev d : moves settles (backend_update_scope host w p i root rev d).
Proof. unfold backend_update_scope. moves_tac. Qed.
Hint Resolve settles_backend_update_scope : moves.

Lemma settles_persist host daemon d w p i root rev : moves settles (persist_discovery_scope host daemon d w p i root rev).
Proof. unfold persist_discovery_scope. moves_tac. Qed.
Hint Resolve settles_persist : moves.

Lemma settles_enrich host daemon d known held : moves settles (enrich_workspace_project_scopes host daemon d known held).
Proof. unfold enrich_workspace_project_scopes, enrich_one. moves_tac. Qed.
Hint Resolve settles_enrich : moves.

Lemma settles_backfill : moves settles ensure_history_backfill.
Proof. unfold ensure_history_backfill, backfill_project_identities_from_workspace_history, list_rows. moves_tac. Qed.
Hint Resolve settles_backfill : moves.

Lemma settles_settle_record known host d w : moves settles (settle_record known host d w).
Proof. unfold settle_record, settle_scope, follow_route. moves_tac. Qed.
Hint Resolve settles_settle_record : moves.

Lemma settles_list_under host d items : moves settles (list_under host d items).
Proof. unfold list_under, list_rows, resolve_rows, resolve_row, remember_discoveries. moves_tac. Qed.
Hint Resolve settles_list_under : moves.

Lemma settles_list_host host : moves settles (list_host_workspaces host).
Proof.
  unfold list_host_workspaces. moves_tac. generalize 3%nat as n. intros n. induction n as [|n IH]; cbn; moves_tac.
Qed.
Hint Resolve settles_list_host : moves.

Lemma settles_reconcile workspaces discover : moves settles (reconcile workspaces discover).
Proof.
  unfold reconcile, contact_host, probe_host, live_sessions, settle_row, record_probe, set_status, instance_id, list_identified.
  moves_tac.
Qed.
Hint Resolve settles_reconcile : moves.

End Listing.

#[export] Hint Resolve settles_ensure_pump settles_backend_for_host settles_list_workspaces_identified
  settles_resolve_repository settles_backend_update_scope settles_persist settles_enrich settles_backfill
  settles_settle_record settles_list_under settles_list_host settles_reconcile : moves.

(** ** What a pass says of a session was heard in that pass *)

(** Rows keep their session; the route of one may become [host]. *)
Definition routed_to (host : option string) (t t' : Registry) : Prop :=
  ∀ i r', t' !! i = Some r' → ∃ r, t !! i = Some r ∧
    aw_id (row_workspace r') = aw_id (row_workspace r) ∧
    aw_terminal_session_id (row_workspace r') = aw_terminal_session_id (row_workspace r) ∧
    (aw_remote_host (row_workspace r') = aw_remote_host (row_workspace r) ∨ aw_remote_host (row_workspace r') = host).

#[export] Instance routed_to_preorder host : PreOrder (routed_to host).
Proof.
  split.
  - intros t i r Hr. exists r. auto.
  - intros t1 t2 t3 H12 H23 i r3 Hr3. destruct (H23 i r3 Hr3) as (r2 & Hr2 & Hi2 & Ht2 & Hh2).
    destruct (H12 i r2 Hr2) as (r1 & Hr1 & Hi1 & Ht1 & Hh1). exists r1.
    split_and!; [done|congruence|congruence|]. destruct Hh2 as [->| ->]; auto.
Qed.

Definition routes (host : option string) (s s' : Service) : Prop := routed_to host (sv_registry s) (sv_registry s').

#[export] Instance routes_preorder host : PreOrder (routes host).
Proof. split; [intros s; unfold routes; reflexivity|]. intros s1 s2 s3 H1 H2. unfold routes in *. by etrans. Qed.

Lemma routes_state host (f : Service → Service) :
  (∀ s, sv_registry (f s) = sv_registry s) → moves (routes host) (st_modify f).
Proof. intros Hf s. unfold routes. cbn. by rewrite Hf. Qed.

Lemma routes_query {A} host (f : Registry → A) : moves (routes host) (query f).
Proof. intros s. unfold routes. reflexivity. Qed.

Lemma routes_ask `{SessionBackends} host host' c : moves (routes host) (ask host' c).
Proof. intros s. exact (reflexivity (sv_registry s)). Qed.

Lemma routes_sql {A} host (m : statement A) : (∀ t, routed_to host t (m t).2) → moves (routes host) (sql m).
Proof. intros Hm s. unfold sql, routes. specialize (Hm (sv_registry s)). by destruct (m (sv_registry s)). Qed.

Lemma routed_update_where host id p f :
  (∀ r, aw_id (row_workspace (f r)) = aw_id (row_workspace r)) →
  (∀ r, aw_terminal_session_id (row_workspace (f r)) = aw_terminal_session_id (row_workspace r)) →
  (∀ r, aw_remote_host (row_workspace (f r)) = aw_remote_host (row_workspace r) ∨ aw_remote_host (row_workspace (f r)) = host) →
  ∀ t, routed_to host t (update_where id p f t).2.
Proof.
  intros Hid Hterm Hhost t i r' Hr'. unfold update_where, put_row in Hr'.
  assert (Hsame : t !! i = Some r' → ∃ r, t !! i = Some r ∧ aw_id (row_workspace r') = aw_id (row_workspace r) ∧
    aw_terminal_session_id (row_workspace r') = aw_terminal_session_id (row_workspace r) ∧
    (aw_remote_host (row_workspace r') = aw_remote_host (row_workspace r) ∨ aw_remote_host (row_workspace r') = host)).
  { intros Hi. exists r'. auto. }
  destruct (t !! id) as [r|] eqn:Hr; [|by auto]. destruct (p r); [|by auto].
  destruct (taken id (f r) t); cbn in Hr'; [by auto|].
  apply lookup_insert_Some in Hr' as [[<- <-]|[_ Hr']]; [|by auto]. exists r. auto.
Qed.

Lemma routed_stored_after host id e m : (∀ t, routed_to host t (m t).2) → ∀ t, routed_to host t (stored_after id e m t).2.
Proof.
  intros Hm t. specialize (Hm t). unfold stored_after. destruct (m t) as [[?|?] t']; [|done].
  by destruct (get_workspace id t').
Qed.

Lemma routed_resolve_rebind host id eh ed d terminal t : routed_to host t (resolve_rebind_conflict id eh ed host d terminal t).2.
Proof.
  unfold resolve_rebind_conflict. destruct d as [d|]; [|reflexivity].
  destruct (find_first _ _) as [owner|]; [|reflexivity]. destruct (merge_sort _ _) as [|survivor losers]; [reflexivity|].
  pose proof (routed_update_where host (aw_id survivor) always (on_workspace (with_route host (Some d))) (λ _, eq_refl)
    (λ _, eq_refl) (λ _, or_intror eq_refl) (foldl (λ t loser, delete (aw_id loser) t) t losers)) as Hm.
  destruct (update_where _ _ _ _) as [[?|?] t'']; cbn in *; [|reflexivity].
  etrans; [|exact Hm]. intros i r Hr. exists r. split_and!; auto. eapply lookup_weaken; [exact Hr|apply delete_all_subseteq].
Qed.

Lemma routed_backfill host history t : routed_to host t (backfill_row history <$> t).
Proof.
  intros i r'. rewrite lookup_fmap. intros (r & Hr & ->)%fmap_Some. exists r. unfold backfill_row.
  destruct (candidate_identity _ _); cbn; auto.
Qed.

#[export] Hint Resolve routes_query : moves.
#[export] Hint Extern 1 (moves (routes _) (st_modify (with_registry (fmap (backfill_row _))))) =>
  (intros s; apply routed_backfill) : moves.
#[export] Hint Extern 2 (moves (routes _) (st_modify _)) => (apply routes_state; reflexivity) : moves.
#[export] Hint Extern 1 (moves (routes _) (ask _ _)) => (apply routes_ask) : moves.
#[export] Hint Extern 1 (moves (routes _) (sql _)) =>
  (apply routes_sql;
   first [apply routed_stored_after, routed_update_where; [reflexivity|reflexivity|intros; first [by left|by right]]
         |apply routed_update_where; [reflexivity|reflexivity|intros; first [by left|by right]]
         |apply routed_resolve_rebind]) : moves.

Section Heard.
Context `{SessionBackends}.

Lemma routes_enrich host host' daemon d known held :
  moves (routes host') (enrich_workspace_project_scopes host daemon d known held).
Proof.
  unfold enrich_workspace_project_scopes, enrich_one, persist_discovery_scope, backend_update_scope, resolve_repository.
  moves_tac.
Qed.
Hint Resolve routes_enrich : moves.

Lemma routes_backfill host : moves (routes host) ensure_history_backfill.
Proof. unfold ensure_history_backfill, backfill_project_identities_from_workspace_history, list_rows. moves_tac. Qed.
Hint Resolve routes_backfill : moves.

Lemma routes_settle_record known host d w : moves (routes host) (settle_record known host d w).
Proof. unfold settle_record, settle_scope, follow_route, backend_update_scope. moves_tac. Qed.
Hint Resolve routes_settle_record : moves.

Lemma routes_resolve_row host host' w : moves (routes host') (resolve_row host w).
Proof. unfold resolve_row, resolve_repository. moves_tac. Qed.
Hint Resolve routes_resolve_row : moves.

Lemma wp_moves {S A} (R : relation S) (m : st S A) s : moves R m → wp m (λ _ s', R s s') s.
Proof. intros Hm. apply Hm. Qed.

Lemma wp_and {S A} (m : st S A) (Q1 Q2 : A → S → Prop) s :
  wp m Q1 s → wp m Q2 s → wp m (λ a s', Q1 a s' ∧ Q2 a s') s.
Proof. done. Qed.

(** A row as it stood between [t0] and [t1], when routes were moved to [host] only. *)
Definition drawn (host : option string) (t0 t1 : Registry) (w : AdeWorkspace) : Prop :=
  ∃ t r, routed_to host t0 t ∧ t !! aw_id w = Some r ∧ row_workspace r = w ∧ routed_to host t t1.

Lemma drawn_mono host t0 t1 t2 w : routed_to host t1 t2 → drawn host t0 t1 w → drawn host t0 t2 w.
Proof. intros H12 (t & r & H0 & Hr & Hw & H1). exists t, r. split_and!; [done..|by etrans]. Qed.

Lemma drawn_listed host t0 t w : keyed t → routed_to host t0 t → w ∈ list_workspaces t → drawn host t0 t w.
Proof.
  intros Hk H0 Hw. unfold list_workspaces in Hw. rewrite merge_sort_Permutation in Hw.
  apply elem_of_rows_where in Hw as (i & r & Hi & _ & <-). exists t, r. by rewrite (Hk _ _ Hi).
Qed.

Lemma drawn_stored host t0 t id w : keyed t → routed_to host t0 t → get_workspace id t = Some w →
  drawn host t0 t w ∧ aw_id w = id.
Proof.
  intros Hk H0. unfold get_workspace. destruct (t !! id) as [r|] eqn:Hr; [|done]. destruct (used r); [|done].
  intros [= <-]. split; [|by apply Hk]. exists t, r. by rewrite (Hk _ _ Hr).
Qed.

(** Since [s0], the registry is well formed and moved routes to [host] only. *)
Definition since (host : option string) (s0 s : Service) : Prop := settles s0 s ∧ routes host s0 s.

#[local] Instance since_preorder host : PreOrder (since host).
Proof.
  split; [intros s; split; reflexivity|]. intros s1 s2 s3 [? ?] [? ?]. split; by etrans.
Qed.

Lemma since_moves {A} host (m : st Service A) : moves settles m → moves (routes host) m → moves (since host) m.
Proof. intros H1 H2 s. split; auto. Qed.

Lemma since_wf host s0 s : registry_wf (sv_registry s0) → since host s0 s → registry_wf (sv_registry s).
Proof. intros Hwf [[[Hw _] _] _]. auto. Qed.

Lemma wp_since {A} host (m : st Service A) s0 s (Q : A → Service → Prop) :
  since host s0 s → moves settles m → moves (routes host) m → (∀ a s', since host s0 s' → Q a s') → wp m Q s.
Proof. intros Hs H1 H2 HQ. unfold wp. apply HQ. etrans; [exact Hs|]. by apply since_moves. Qed.

Lemma wp_map_ok_since {A B} host (Q : Service → B → Prop) (l : list A) (f : A → svc B) sb s :
  since host sb s → (∀ t t' y, since host t t' → Q t y → Q t' y) →
  (∀ x t, x ∈ l → since host sb t →
     wp (f x) (λ r t', since host t t' ∧ match r with Ok y => Q t' y | Err _ => True end) t) →
  wp (map_ok_st l f) (λ r s', since host s s' ∧ match r with Ok ys => ∀ y, y ∈ ys → Q s' y | Err _ => True end) s.
Proof.
  intros Hs HQ Hf. revert s Hs. induction l as [|x l IH]; intros s Hs; cbn [map_ok_st].
  { apply wp_ret. split; [reflexivity|]. by intros ? ?%not_elem_of_nil. }
  wp_step. eapply wp_mono; [apply Hf; [by left|done]|]. intros [y|e] s1 [Hs1 Hy]; [|done].
  wp_step. eapply wp_mono; [apply IH; [intros; apply Hf; [by right|done]|by etrans]|].
  intros [ys|e] s2 [Hs2 Hys]; [|by split; [etrans|]]. apply wp_ret. split; [by etrans|].
  intros z [->|Hz]%elem_of_cons; [|by apply Hys]. by eapply HQ.
Qed.

(** A scope written and read back is of a row that was there. *)
Lemma stored_scope_drawn host id e p f s0 s :
  registry_wf (sv_registry s0) → since host s0 s →
  (∀ w, aw_id (f w) = aw_id w) → (∀ w, aw_terminal_session_id (f w) = aw_terminal_session_id w) →
  (∀ w, aw_remote_host (f w) = aw_remote_host w) →
  wp (sql (stored_after id e (update_where id p (on_workspace f)))) (λ r s',
    since host s0 s' ∧ match r with Ok (_, w) => drawn host (sv_registry s0) (sv_registry s') w ∧ aw_id w = id | Err _ => True end) s.
Proof.
  intros Hwf Hs Hid Hterm Hhost. apply wp_and.
  { eapply wp_since; [exact Hs| | |done].
    - apply settles_sql, same_rows_stored_after, same_rows_update_where; [intros r; apply Hid|done].
    - apply routes_sql, routed_stored_after, routed_update_where; intros r; [apply Hid|apply Hterm|left; apply Hhost]. }
  unfold wp, sql, stored_after.
  pose proof (routed_update_where host id p (on_workspace f) (λ r, Hid _) (λ r, Hterm _) (λ r, or_introl (Hhost _)) (sv_registry s)) as Hroute.
  pose proof (same_rows_update_where id p (on_workspace f) (λ r, Hid _) (λ _, eq_refl) (sv_registry s)) as [Hsame _].
  destruct (update_where _ _ _ _) as [[applied|?] t']; cbn in *; [|done].
  destruct (get_workspace id t') as [stored|] eqn:Hget; cbn; [|done].
  apply (drawn_stored host); [apply (Hsame (since_wf _ _ _ Hwf Hs))| |done].
  etrans; [exact (proj2 Hs)|exact Hroute].
Qed.

Lemma wp_with_context {A} c (m : svc A) Q s :
  wp m (λ r s', match r with Ok a => Q (Ok a) s' | Err e => Q (Err (Caused c e)) s' end) s → wp (with_context c m) Q s.
Proof. unfold wp, with_context. by destruct (m s) as [[?|?] ?]. Qed.

Lemma resolve_row_drawn host w s0 s : registry_wf (sv_registry s0) → since host s0 s →
  drawn host (sv_registry s0) (sv_registry s) w →
  wp (resolve_row host w) (λ r s', since host s s' ∧
    match r with Ok (w', _) => drawn host (sv_registry s0) (sv_registry s') w' | Err _ => True end) s.
Proof.
  intros Hwf Hsince Hw. unfold resolve_row. wp_step.
  eapply (wp_since host _ s); [reflexivity|auto with moves| |].
  { unfold resolve_repository. moves_tac. }
  intros x s1 Hs1. assert (Hw1 : drawn host (sv_registry s0) (sv_registry s1) w).
  { eapply drawn_mono; [exact (proj2 Hs1)|done]. }
  destruct x as [[path ident_path]|e]; [|by apply wp_ret]. cbv zeta. case_decide; [by apply wp_ret|].
  wp_step. apply wp_ret. destruct (next_project_scope_rev _) as [rev|]; [|done].
  wp_step. apply wp_with_context. apply (wp_mono _ (λ r s', (since host s1 s' ∧ True) ∧ match r with
    Ok (_, w') => drawn host (sv_registry s0) (sv_registry s') w' ∧ aw_id w' = aw_id w | Err _ => True end)).
  { apply wp_and.
    - eapply wp_since; [reflexivity| | |done]; auto with moves.
    - eapply wp_mono; [apply (stored_scope_drawn host _ _ _ _ s0); [done|by etrans|done..]|]. by intros ? ? [_ ?]. }
  intros [[applied stored]|e] s2 [[Hs2 _] Hd]; [|by split; [etrans|]]. apply wp_ret. split; [by etrans|]. apply Hd.
Qed.

Lemma wp_query {A} (f : Registry → A) (Q : result error A → Service → Prop) s : Q (Ok (f (sv_registry s))) s → wp (query f) Q s.
Proof. done. Qed.

(** The rows a listing answers with are rows of the registry, moved to its host at most. *)
Lemma list_under_drawn host d items s0 s : registry_wf (sv_registry s0) → since host s0 s →
  wp (list_under host d items) (λ r s', since host s0 s' ∧
    match r with Ok (_, _, rows) => ∀ w, w ∈ rows → drawn host (sv_registry s0) (sv_registry s') w | Err _ => True end) s.
Proof.
  intros Hwf Hsince. unfold list_under, list_rows. wp_step. apply wp_query.
  assert (Hknown : ∀ w, w ∈ list_workspaces (sv_registry s) → drawn host (sv_registry s0) (sv_registry s) w).
  { intros w Hw. apply drawn_listed; [|exact (proj2 Hsince)|done]. apply (since_wf _ _ _ Hwf Hsince). }
  wp_step. eapply (wp_since host _ s); [reflexivity|moves_tac..|]. intros [held|e] s1 Hs1; [|by split; [etrans|]].
  wp_step. eapply wp_mono.
  { apply (wp_map_ok_since host (λ s' '(w, _), drawn host (sv_registry s0) (sv_registry s') w) _ _ s s1); [exact Hs1| |].
    - intros t t' [w b] Ht Hd. eapply drawn_mono; [exact (proj2 Ht)|exact Hd].
    - intros w t Hw Ht. assert (Hd : drawn host (sv_registry s0) (sv_registry t) w).
      { eapply drawn_mono; [exact (proj2 Ht)|by apply Hknown]. }
      case_match.
      + apply (resolve_row_drawn host w s0); [done|by etrans|done].
      + apply wp_ret. by split. }
  intros [resolved|e] s2 [Hs2 Hresolved]; [|by split; [etrans; [exact Hsince|by etrans]|]]. cbv zeta.
  wp_step. eapply (wp_since host _ s2); [reflexivity|moves_tac..|]. intros [changed|e] s3 Hs3; [|by split; [etrans; [exact Hsince|etrans; [exact Hs1|by etrans]]|]].
  wp_step. eapply (wp_since host _ s3); [reflexivity|unfold remember_discoveries; moves_tac..|]. intros [] s4 Hs4.
  assert (Hs04 : since host s0 s4) by (etrans; [exact Hsince|etrans; [exact Hs1|etrans; [exact Hs2|by etrans]]]).
  wp_step. destruct changed.
  - apply wp_query. apply wp_ret. split; [done|]. intros w Hw.
    apply drawn_listed; [|exact (proj2 Hs04)|done]. apply (since_wf _ _ _ Hwf Hs04).
  - apply wp_ret. cbn. apply wp_ret. split; [done|]. intros w ([? b] & -> & Hin)%list_elem_of_fmap. cbn.
    eapply drawn_mono; [exact (proj2 (transitivity Hs3 Hs4))|]. apply (Hresolved _ Hin).
Qed.

Lemma list_host_drawn host s : registry_wf (sv_registry s) →
  wp (list_host_workspaces host) (λ r s', since host s s' ∧
    match r with Ok (_, _, rows) => ∀ w, w ∈ rows → drawn host (sv_registry s) (sv_registry s') w | Err _ => True end) s.
Proof.
  intros Hwf. unfold list_host_workspaces. wp_step.
  eapply (wp_since host _ s); [reflexivity|moves_tac..|]. intros [[]|e] s1 Hs1; [|done].
  generalize 3%nat as n. intros n. revert s1 Hs1. induction n as [|n IH]; intros s1 Hs1; [by apply wp_ret|].
  cbn [list_host_attempts].
  wp_step. eapply wp_since; [exact Hs1|unfold list_workspaces_identified; moves_tac..|]. intros [initial|e] s2 Hs2; [|done].
  wp_step. eapply wp_since; [exact Hs2|unfold list_workspaces_identified; moves_tac..|]. intros [listing|e] s3 Hs3; [|done].
  case_decide; [by apply (list_under_drawn host)|by apply IH].
Qed.

(** A listing of live sessions that [host] answered between [s0] and [s]. *)
Definition heard (s0 s : Service) (host : option string) (daemon : DaemonKey) (live : gset string) : Prop :=
  ∃ pre post listing, sv_asked s = sv_asked s0 ++ pre ++ (host, CallListSessions) :: post ∧
    answer_of (sv_asked s0 ++ pre) host CallListSessions = Ok listing ∧
    daemon_key (id_daemon_id listing) host = daemon ∧ live = list_to_set (id_items listing).

Lemma heard_mono s0 s s' host daemon live : settles s s' → heard s0 s host daemon live → heard s0 s' host daemon live.
Proof.
  intros [_ (new & Hnew & _)] (pre & post & listing & Ha & Hl). exists pre, (post ++ new), listing.
  split; [|done]. rewrite Hnew, Ha, <- !app_assoc. done.
Qed.

Lemma live_sessions_heard discover host daemon s0 s : settles s0 s →
  wp (live_sessions discover host daemon) (λ r s', since host s s' ∧
    match r with Ok (d, Some live) => heard s0 s' host d live | _ => True end) s.
Proof.
  intros [_ (new & Hnew & _)]. apply wp_and.
  { eapply (wp_since host _ s); [reflexivity| | |done]; unfold live_sessions, list_identified; moves_tac. }
  unfold live_sessions, list_identified. wp_step. apply wp_with_context. wp_step. unfold wp at 1.
  destruct (ask host CallListSessions s) as [answer s1] eqn:Ha. cbn [fst snd]. injection Ha as Hans <-.
  apply wp_ret. destruct answer as [listing|]; [|done]. apply wp_ret.
  assert (Hh : heard s0 (with_asked (λ l, l ++ [(host, CallListSessions)]) s) host
    (daemon_key (id_daemon_id listing) host) (list_to_set (id_items listing))).
  { exists new, [], listing. cbn. rewrite Hnew, <- app_assoc. split_and!; try done. by rewrite <- Hnew. }
  case_decide as Hd; [by rewrite <- Hd|]. by destruct discover.
Qed.

(** What holds of a pass from [s0] that contacted the hosts [loud] and left [quiet] alone. *)
Record pass_ok (s0 : Service) (ids : list string) (loud quiet : list (option string)) (p : Pass) (s : Service) : Prop :=
  mkPassOk {
  po_settled : settles s0 s;
  po_heard : ∀ o, o ∈ ps_outcomes p →
    (ho_host o ∈ quiet ∧ ho_held o = None) ∨
    (∀ live, ho_live o = Some live → heard s0 s (ho_host o) (ho_daemon o) live);
  po_ids : map aw_id (ps_workspaces p) = ids;
  po_contacted : ∀ w, w ∈ ps_workspaces p → is_Some (aw_terminal_session_id w) → aw_remote_host w ∉ quiet;
  po_rows : ∀ w r, w ∈ ps_workspaces p → sv_registry s !! aw_id w = Some r →
    aw_terminal_session_id (row_workspace r) = aw_terminal_session_id w ∧
    (aw_remote_host (row_workspace r) = aw_remote_host w ∨ aw_remote_host (row_workspace r) ∈ loud);
  po_apart : ∀ h, h ∈ loud → h ∉ quiet
}.

(** Asking [host] more keeps it, as far as the rows go. *)
Lemma pass_ok_since s0 ids loud quiet host p s s' : pass_ok s0 ids loud quiet p s → since host s s' →
  host ∉ quiet → pass_ok s0 ids (host :: loud) quiet p s'.
Proof.
  intros [Hset Hheard Hids Hcont Hrows Hapart] [Hs Hr] Hq. split; [by etrans| |done|done| |].
  - intros o Ho. destruct (Hheard o Ho) as [?|Hl]; [by left|right]. intros live Hlive. eapply heard_mono; eauto.
  - intros w r' Hw Hr'. destruct (Hr _ _ Hr') as (r & Hrow & _ & Ht & Hh).
    destruct (Hrows _ _ Hw Hrow) as [Ht' Hh']. split; [congruence|]. destruct Hh as [->| ->]; [|set_solver].
    destruct Hh' as [->|?]; [by left|right; set_solver].
  - intros h [->|?]%elem_of_cons; [done|auto].
Qed.

Lemma pass_ok_outcome s0 ids loud quiet p s host daemon live held :
  pass_ok s0 ids loud quiet p s → (∀ l, live = Some l → heard s0 s host daemon l) →
  ∀ errors, pass_ok s0 ids loud quiet (mkPass (ps_workspaces p) errors (ps_outcomes p ++ [mkHostOutcome host daemon live held])) s.
Proof.
  intros [Hset Hheard Hids Hcont Hrows Hapart] Hl errors. split; try done. cbn.
  intros o [Ho|[->|[]%not_elem_of_nil]%elem_of_cons]%elem_of_app; [by apply Hheard|by right].
Qed.

(** Rows that were drawn while [host] was listed take the place of the old ones. *)
Lemma pass_ok_refreshed s0 ids loud quiet host rows p s s' : registry_wf (sv_registry s) →
  pass_ok s0 ids loud quiet p s → since host s s' → host ∉ quiet →
  (∀ w, w ∈ rows → drawn host (sv_registry s) (sv_registry s') w) →
  pass_ok s0 ids (host :: loud) quiet (mkPass (refreshed rows (ps_workspaces p)) (ps_host_errors p) (ps_outcomes p)) s'.
Proof.
  intros Hwf Hp Hs Hq Hdrawn. pose proof (pass_ok_since _ _ _ _ _ _ _ _ Hp Hs Hq) as Hp'.
  destruct Hp' as [Hset Hheard Hids Hcont Hrows Hapart].
  assert (Hnew : ∀ w', w' ∈ refreshed rows (ps_workspaces p) →
    ∃ w, w ∈ ps_workspaces p ∧ aw_id w' = aw_id w ∧ (w' = w ∨ w' ∈ rows)).
  { intros w' (w & -> & Hw)%list_elem_of_fmap. exists w. split; [done|].
    destruct (find_first _ rows) as [row|] eqn:Hf; cbn; [|by auto].
    apply find_first_Some in Hf as [Hin Hid]. apply bool_decide_eq_true in Hid. auto. }
  split; try done; cbn.
  - rewrite <- Hids. unfold refreshed. rewrite map_map. apply map_ext. intros w.
    destruct (find_first _ rows) as [row|] eqn:Hf; cbn; [|done].
    apply find_first_Some in Hf as [_ Hid]. by apply bool_decide_eq_true in Hid.
  - intros w' Hw' Hsess. destruct (Hnew w' Hw') as (w & Hw & Hid & [->|Hin]); [by apply Hcont|].
    destruct (Hdrawn _ Hin) as (t & r & H0 & Hr & <- & H1). destruct (H0 _ _ Hr) as (r0 & Hr0 & _ & Ht & Hh).
    rewrite Hid in Hr0. destruct (po_rows _ _ _ _ _ _ Hp _ _ Hw Hr0) as [Ht0 Hh0].
    destruct Hh as [->| ->]; [|done]. destruct Hh0 as [->|Hloud].
    + apply (po_contacted _ _ _ _ _ _ Hp _ Hw). congruence.
    + by apply (po_apart _ _ _ _ _ _ Hp).
  - intros w' r' Hw' Hr'. destruct (Hnew w' Hw') as (w & Hw & Hid & [->|Hin]); [by apply Hrows|].
    destruct (Hdrawn _ Hin) as (t & r & H0 & Hr & <- & H1). destruct (H1 _ _ Hr') as (r1 & Hr1 & _ & Ht & Hh).
    assert (r1 = r) as -> by congruence. split; [done|]. destruct Hh as [->| ->]; [by left|right; set_solver].
Qed.

Lemma since_backend_for_host host s0 : moves (since s0) (backend_for_host host).
Proof.
  apply since_moves; [auto with moves|].
  unfold backend_for_host, forward_status, ensure_pump, subscribe_events, record_status_error. moves_tac.
Qed.

Lemma probe_host_ok discover host p s0 ids loud quiet s :
  registry_wf (sv_registry s0) → pass_ok s0 ids loud quiet p s → host ∉ quiet →
  wp (probe_host discover p host) (λ p' s', pass_ok s0 ids (host :: loud) quiet p' s') s.
Proof.
  intros Hwf Hp Hq.
  assert (Hwf_s : registry_wf (sv_registry s)) by (destruct (po_settled _ _ _ _ _ _ Hp) as [[Hw _] _]; auto).
  (* the sessions are asked for last *)
  assert (Hask : ∀ q t daemon held, pass_ok s0 ids (host :: loud) quiet q t →
    wp (r ← live_sessions discover host daemon;
        match r with
        | Ok (daemon, live) =>
            mret (mkPass (ps_workspaces q) (ps_host_errors q) (ps_outcomes q ++ [mkHostOutcome host daemon live held]))
        | Err e => mret (mkPass (ps_workspaces q) (complain host e (ps_host_errors q))
                           (ps_outcomes q ++ [mkHostOutcome host daemon None held]))
        end) (λ p' s', pass_ok s0 ids (host :: loud) quiet p' s') t).
  { intros q t daemon held Hq'. wp_step. eapply wp_mono; [apply live_sessions_heard, (po_settled _ _ _ _ _ _ Hq')|].
    intros r t' [Ht Hr].
    assert (Hq'' : pass_ok s0 ids (host :: loud) quiet q t').
    { pose proof (pass_ok_since _ _ _ _ _ _ _ _ Hq' Ht Hq) as [? ? ? ? Hrows Hap]. split; try done.
      - intros w r' Hw Hr'. destruct (Hrows w r' Hw Hr') as [? [?|?]]; (split; [done|]); [by left|right; set_solver].
      - intros h Hh. apply Hap. set_solver. }
    destruct r as [[d live]|e]; apply wp_ret; (apply pass_ok_outcome; [done|]); [|done].
    intros l ->. exact Hr. }
  unfold probe_host. wp_step. eapply wp_mono; [apply wp_moves, (since_backend_for_host host host)|].
  intros [[]|e] s1 Hs1.
  2: { apply wp_ret, pass_ok_outcome; [|done]. by eapply pass_ok_since. }
  wp_step. eapply (wp_since host _ s1); [reflexivity|unfold instance_id; moves_tac..|]. intros current s2 Hs2.
  assert (Hs02 : since host s s2) by by etrans.
  destruct discover; cbn [negb]; [|apply Hask; by eapply pass_ok_since].
  wp_step. assert (Hwf2 : registry_wf (sv_registry s2)) by by eapply since_wf.
  eapply wp_mono; [by apply list_host_drawn|]. intros [[[daemon records] rows]|e] s3 [Hs3 Hrows].
  - apply (Hask (mkPass (refreshed rows (ps_workspaces p)) (ps_host_errors p) (ps_outcomes p))).
    assert (Hp2 : pass_ok s0 ids (host :: loud) quiet p s2) by by eapply pass_ok_since.
    pose proof (pass_ok_refreshed _ _ _ _ _ _ _ _ _ Hwf2 Hp2 Hs3 Hq Hrows) as [? ? ? ? Hr Hap]. split; try done.
    + intros w r' Hw Hr'. destruct (Hr w r' Hw Hr') as [? [?|?]]; (split; [done|]); [by left|right; set_solver].
    + intros h Hh. apply Hap. set_solver.
  - apply wp_ret, pass_ok_outcome; [|done]. eapply pass_ok_since; [exact Hp|by etrans|done].
Qed.

Lemma contact_host_ok discover discovering host p s0 ids loud quiet s :
  registry_wf (sv_registry s0) → pass_ok s0 ids loud quiet p s → host ∉ loud → host ∉ quiet →
  wp (contact_host discover discovering p host) (λ p' s', ∃ loud' quiet', pass_ok s0 ids loud' quiet' p' s' ∧
    ∀ h, h ∈ loud' ++ quiet' → h ∈ host :: loud ++ quiet) s.
Proof.
  intros Hwf Hp Hl Hq. unfold contact_host. destruct (_ || _) eqn:Hcontact.
  - eapply wp_mono; [by apply (probe_host_ok _ _ _ s0 ids loud quiet)|]. intros p' s' Hp'.
    exists (host :: loud), quiet. split; [done|]. intros h. set_solver.
  - apply orb_false_iff in Hcontact as [Hnone _]. apply wp_ret. exists loud, (host :: quiet).
    destruct Hp as [Hset Hheard Hids Hcont Hrows Hapart]. split; [|intros h; set_solver]. split; try done; cbn.
    + intros o [Ho|[->|[]%not_elem_of_nil]%elem_of_cons]%elem_of_app; [|left; set_solver].
      destruct (Hheard o Ho) as [[? ?]|?]; [left; set_solver|by right].
    + intros w Hw Hsess [Heq|?]%elem_of_cons; [|by eapply Hcont]. apply not_true_iff_false in Hnone. apply Hnone.
      apply existsb_exists. exists w. split; [by apply list_elem_of_In|]. by rewrite !bool_decide_eq_true_2.
    + intros h Hh [->|?]%elem_of_cons; [done|by eapply Hapart].
Qed.

Lemma contact_hosts_ok discover discovering hosts : ∀ p s0 ids loud quiet s,
  registry_wf (sv_registry s0) → pass_ok s0 ids loud quiet p s → NoDup hosts →
  (∀ h, h ∈ hosts → h ∉ loud ++ quiet) →
  wp (fold_st hosts p (contact_host discover discovering)) (λ p' s', ∃ loud' quiet', pass_ok s0 ids loud' quiet' p' s') s.
Proof.
  induction hosts as [|host hosts IH]; intros p s0 ids loud quiet s Hwf Hp Hnd Hfresh.
  { apply wp_ret. by exists loud, quiet. }
  apply NoDup_cons in Hnd as [Hnotin Hnd]. cbn [fold_st]. wp_step.
  assert (Hh : host ∉ loud ++ quiet) by (apply Hfresh; by left). rewrite elem_of_app in Hh.
  eapply wp_mono; [apply (contact_host_ok _ _ _ _ s0 ids loud quiet); [done|done|naive_solver..]|].
  intros p' s' (loud' & quiet' & Hp' & Hsub). apply (IH _ _ ids loud' quiet'); [done|done|done|].
  intros h Hin [->|Hbad]%Hsub%elem_of_cons; [done|]. by apply (Hfresh h); [right|].
Qed.

Lemma map_ok_Forall2 {A B} (P : A → B → Prop) (l : list A) (f : A → svc B) s ys s' :
  (∀ x t y t', f x t = (Ok y, t') → P x y) → map_ok_st l f s = (Ok ys, s') → Forall2 P l ys.
Proof.
  intros Hf. revert s ys. induction l as [|x l IH]; intros s ys; cbn [map_ok_st].
  { intros [= <- <-]. constructor. }
  unfold bind_ok. destruct (f x s) as [[y|e] t] eqn:Hx; [|done].
  destruct (map_ok_st l f t) as [[ys'|e] t'] eqn:Hl; [|done]. intros [= <- <-]. constructor; eauto.
Qed.

(** What is said of a row: by the outcome of its host and daemon. *)
Definition said (outcomes : list HostOutcome) (w : AdeWorkspace) : AdeWorkspace * SessionState → Prop := λ '(w', state),
  aw_id w' = aw_id w ∧ aw_terminal_session_id w' = aw_terminal_session_id w ∧ aw_remote_host w' = aw_remote_host w ∧
  aw_daemon_id w' = aw_daemon_id w ∧
  match aw_terminal_session_id w with
  | None => state = NeverCreated
  | Some session =>
      match live_for outcomes w with
      | None => state = Unknown
      | Some live => if decide (session ∈ live) then state = Alive ∧ aw_status w' = Workspace_Running
                     else state = Dead ∧ aw_status w' = Workspace_Disconnected
      end
  end.

Lemma record_probe_says w alive t w' state t' : record_probe w alive t = (Ok (w', state), t') →
  w' = with_label (aw_name w) (if alive then Workspace_Running else Workspace_Disconnected) w ∧
  state = if alive then Alive else Dead.
Proof.
  assert (Hlabel : ∀ st, aw_status w = st → w = with_label (aw_name w) st w) by by intros ? <-; destruct w.
  unfold record_probe, set_status, bind_ok. destruct alive; cbn; case_decide as Hst; cbn; intros Heq.
  - injection Heq as <- <- <-. auto.
  - destruct (sql _ t) as [[?|?] ?]; [|done]. cbn in Heq. by injection Heq as <- <- <-.
  - injection Heq as <- <- <-. auto.
  - destruct (sql _ t) as [[?|?] ?]; [|done]. cbn in Heq. by injection Heq as <- <- <-.
Qed.

Lemma settle_row_says outcomes w t y t' : settle_row outcomes w t = (Ok y, t') → said outcomes w y.
Proof.
  unfold settle_row, said. destruct (aw_terminal_session_id w) as [session|] eqn:Hsess; [|by intros [= <- <-]].
  destruct (live_for outcomes w) as [live|]; [|by intros [= <- <-]].
  destruct y as [w' state]. intros [-> ->]%record_probe_says. cbn. split_and!; try done.
  destruct (decide (session ∈ live)); [by rewrite bool_decide_eq_true_2|by rewrite bool_decide_eq_false_2].
Qed.

Lemma answered_first_elem o outcomes : o ∈ answered_first outcomes ↔ o ∈ outcomes.
Proof.
  unfold answered_first. rewrite !elem_of_app, !list_elem_of_filter.
  destruct (ho_held o), (ho_live o); cbn; naive_solver eauto.
Qed.

Lemma live_for_some outcomes w live : live_for outcomes w = Some live →
  ∃ o, o ∈ outcomes ∧ ho_host o = aw_remote_host w ∧ row_is_on w (ho_daemon o) (aw_remote_host w) = true ∧ ho_live o = Some live.
Proof.
  unfold live_for. intros (o & Hf & Hl)%bind_Some. apply find_first_Some in Hf as [Hin Ho].
  apply andb_true_iff in Ho as [Hh Hon]. apply bool_decide_eq_true in Hh. rewrite Hh in Hon. eauto.
Qed.

Lemma discoveries_of_elem s rows rendered outcomes host record state :
  (host, record, state) ∈ discoveries_of s rows rendered outcomes →
  ∃ o, o ∈ outcomes ∧ ho_host o = host ∧ state = discovered_state o record ∧
    (∀ w, w ∈ rows → row_is_on w (ho_daemon o) host = true → daemon_workspace_id w ≠ bw_id record) ∧
    record ∈ default (remembered_discoveries (ho_daemon o) s) (ho_held o).
Proof.
  revert rendered. induction outcomes as [|o outcomes IH]; intros rendered; cbn [discoveries_of]; [by intros ?%not_elem_of_nil|].
  assert (Hrest : ∀ rendered', (host, record, state) ∈ discoveries_of s rows rendered' outcomes →
    ∃ o', o' ∈ o :: outcomes ∧ ho_host o' = host ∧ state = discovered_state o' record ∧
      (∀ w, w ∈ rows → row_is_on w (ho_daemon o') host = true → daemon_workspace_id w ≠ bw_id record) ∧
      record ∈ default (remembered_discoveries (ho_daemon o') s) (ho_held o')).
  { intros rendered' (o' & Hin & Ho)%IH. exists o'. split; [by right|done]. }
  case_decide; [by apply Hrest|]. intros [Hin|Hin]%elem_of_app; [|by eapply Hrest].
  apply list_elem_of_fmap in Hin as (rec & Heq & Hrec). injection Heq as -> -> ->.
  apply list_elem_of_filter in Hrec as [Hunused Hheld]. exists o. split_and!; [by left|done|done| |done].
  intros w Hw Hon Hid. apply Hunused. unfold used_on. apply list_elem_of_fmap. exists w.
  split; [done|]. by apply list_elem_of_filter.
Qed.

(** What is said of a session's state was heard from its host. *)
Definition vouched (s0 s : Service) (host : option string) (on : DaemonKey → Prop) (session : string) (state : SessionState) : Prop :=
  ∃ daemon live, heard s0 s host daemon live ∧ on daemon ∧ state = if decide (session ∈ live) then Alive else Dead.

Lemma hosts_to_contact (discovering : list (option string)) (ws : list AdeWorkspace) : NoDup discovering →
  NoDup (foldl (λ hosts w, if decide (aw_remote_host w ∈ hosts) then hosts else hosts ++ [aw_remote_host w]) discovering ws).
Proof.
  revert discovering. induction ws as [|w ws IH]; intros hosts Hnd; [done|]. cbn. apply IH.
  case_decide; [done|]. apply NoDup_app. split_and!; [done|set_solver|apply NoDup_singleton].
Qed.

Lemma reconcile_heard ws discover s : registry_wf (sv_registry s) →
  (∀ w, w ∈ ws → ∃ r, sv_registry s !! aw_id w = Some r ∧ row_workspace r = w) →
  wp (reconcile ws discover) (λ r s', settles s s' ∧ match r with Err _ => True | Ok rc =>
    map (aw_id ∘ fst) (omap persisted (rc_entries rc)) ≡ₚ map aw_id ws ∧
    (∀ w state, Persisted w state ∈ rc_entries rc →
       match aw_terminal_session_id w with
       | None => state = NeverCreated
       | Some session => state = Unknown ∨
           vouched s s' (aw_remote_host w) (λ d, row_is_on w d (aw_remote_host w) = true) session state
       end) ∧
    (∀ host record state, Discovered host record state ∈ rc_entries rc →
       ∃ daemon, (∀ w st, Persisted w st ∈ rc_entries rc → row_is_on w daemon host = true → daemon_workspace_id w ≠ bw_id record) ∧
         (state = Unknown ∨ vouched s s' host (eq daemon) (bw_id record) state)) end) s.
Proof.
  intros Hwf Hws. unfold reconcile. wp_step. apply wp_get. set (discovering := if discover then _ else _).
  assert (Hnd : NoDup discovering).
  { unfold discovering. destruct discover; [|apply NoDup_nil_2]. rewrite merge_sort_Permutation. apply NoDup_elements. }
  wp_step. eapply wp_mono.
  { apply (contact_hosts_ok _ _ _ _ s (map aw_id ws) [] []); [done| |by apply hosts_to_contact|by intros ? _ ?%not_elem_of_nil].
    split; cbn; [reflexivity|by intros ? ?%not_elem_of_nil|done|by intros ? ? ? ?%not_elem_of_nil| |by intros ? ?%not_elem_of_nil].
    intros w r Hw Hr. destruct (Hws w Hw) as (r' & Hr' & Hrw). rewrite Hr' in Hr. injection Hr as <-. rewrite Hrw. auto. }
  intros p s1 (loud & quiet & Hp). cbv zeta. set (outcomes := answered_first (ps_outcomes p)).
  destruct Hp as [Hset Hheard Hids Hcont Hrows Hapart].
  assert (Hsettle : moves settles (map_ok_st (merge_sort more_recent (ps_workspaces p)) (settle_row outcomes))).
  { unfold settle_row, record_probe, set_status. moves_tac. }
  wp_step. unfold wp at 1. pose proof (Hsettle s1) as Hs12. destruct (map_ok_st _ _ s1) as [[rows|e] s2] eqn:Hmap; cbn [fst snd] in *.
  2: { split; [by etrans|done]. }
  apply map_ok_Forall2 with (P := said outcomes) in Hmap; [|by apply settle_row_says].
  wp_step. apply wp_get. apply wp_ret. split; [by etrans|]. cbn [rc_entries].
  (* the rows *)
  assert (Hpers : omap persisted (map (λ '(w, state), Persisted w state) rows) = rows).
  { clear. induction rows as [|[w st] rows IH]; [done|]. cbn. by rewrite IH. }
  assert (Hdisc : ∀ l : list (option string * BackendWorkspace * SessionState),
    omap persisted (map (λ '(host, record, state), Discovered host record state) l) = []).
  { clear. induction l as [|[[h w] st] l IH]; [done|]. cbn. by rewrite IH. }
  rewrite omap_app, Hpers, Hdisc, app_nil_r. split_and!.
  - rewrite <- Hids, <- (merge_sort_Permutation more_recent (ps_workspaces p)).
    clear -Hmap. induction Hmap as [|w [w' st] l l' Hsaid _ IH]; [done|]. cbn. destruct Hsaid as (-> & _). by rewrite IH.
  - intros w' state Hin. apply elem_of_app in Hin as [Hin|Hin].
    2: { apply list_elem_of_fmap in Hin as ([[h rec] st] & Heq & _). done. }
    apply list_elem_of_fmap in Hin as ([w2 st2] & Heq & Hin). injection Heq as -> ->.
    apply list_elem_of_lookup in Hin as [k Hk].
    destruct (Forall2_lookup_r _ _ _ _ _ Hmap Hk) as (w & Hw & Hid & Hterm & Hhost & Hd & Hst).
    apply list_elem_of_lookup_2 in Hw. rewrite merge_sort_Permutation in Hw. rewrite Hterm.
    destruct (aw_terminal_session_id w) as [session|] eqn:Hsess; [|done].
    destruct (live_for outcomes w) as [live|] eqn:Hlive; [right|by left].
    apply live_for_some in Hlive as (o & Ho & Hoh & Hon & Hol). apply (proj1 (answered_first_elem _ _)) in Ho.
    exists (ho_daemon o), live. rewrite Hhost. split_and!.
    + destruct (Hheard o Ho) as [[Hq _]|Hl].
      * destruct (Hcont w Hw); [by rewrite Hsess|]. by rewrite <- Hoh.
      * rewrite <- Hoh. eapply heard_mono; [exact Hs12|]. by apply Hl.
    + unfold row_is_on in *. by rewrite Hd, Hhost.
    + case_decide; by destruct Hst.
  - intros host record state Hin. apply elem_of_app in Hin as [Hin|Hin].
    1: { apply list_elem_of_fmap in Hin as ([w st] & Heq & _). done. }
    apply list_elem_of_fmap in Hin as ([[h rec] st] & Heq & Hin). injection Heq as -> -> ->.
    destruct discover; [|by apply not_elem_of_nil in Hin]. rewrite merge_sort_Permutation in Hin.
    apply discoveries_of_elem in Hin as (o & Ho & Hoh & -> & Hunused & _). apply (proj1 (answered_first_elem _ _)) in Ho.
    exists (ho_daemon o). split.
    + intros w st' [Hw|Hw]%elem_of_app Hon.
      * apply list_elem_of_fmap in Hw as ([w2 st2] & Heq & Hw). injection Heq as -> ->. apply Hunused; [|done].
        apply list_elem_of_fmap. by exists (w2, st2).
      * apply list_elem_of_fmap in Hw as ([[? ?] ?] & Heq & _). done.
    + unfold discovered_state. destruct (ho_live o) as [live|] eqn:Hl; [|by left].
      destruct (ho_held o) as [held|] eqn:Hh; [right|by left].
      exists (ho_daemon o), live. rewrite <- Hoh. split_and!; [|done|done].
      destruct (Hheard o Ho) as [[_ Hnone]|Hheld]; [congruence|]. eapply heard_mono; [exact Hs12|]. by apply Hheld.
Qed.

Lemma heard_since s0 s1 s host daemon live : settles s0 s1 → heard s1 s host daemon live → heard s0 s host daemon live.
Proof.
  intros [_ (new & Hnew & _)] (pre & post & listing & Ha & Hl & Hd). exists (new ++ pre), post, listing.
  rewrite Ha, Hnew, <- !app_assoc. rewrite Hnew, <- app_assoc in Hl. done.
Qed.

Lemma vouched_since s0 s1 s host on session state : settles s0 s1 → vouched s1 s host on session state →
  vouched s0 s host on session state.
Proof. intros Hs (d & live & Hh & Hon). exists d, live. split; [by eapply heard_since|done]. Qed.

Lemma listed_rows t w : keyed t → w ∈ list_workspaces t → ∃ r, t !! aw_id w = Some r ∧ row_workspace r = w.
Proof.
  intros Hk Hw. destruct (drawn_listed None t t w Hk (reflexivity t) Hw) as (t' & r & _ & _ & _ & _).
  unfold list_workspaces in Hw. rewrite merge_sort_Permutation in Hw.
  apply elem_of_rows_where in Hw as (i & r' & Hi & _ & <-). exists r'. by rewrite (Hk _ _ Hi).
Qed.

End Heard.

(** ** At work *)

(** A host that answers as the daemon [d], which holds three workspaces of the repository
    [/repo], one of them with its session alive. *)
Definition sample_record (id : string) : BackendWorkspace :=
  mkBackendWorkspace id "name" (Some "p") (Some "/repo") "/repo" 4 10.

Definition sample_answer (c : call) : answer c :=
  match c as c return answer c with
  | CallConnect => Ok ()
  | CallInstanceId => Some "d"
  | CallListWorkspaces => Ok (mkIdentified (Some "d") (map sample_record ["s"; "z"; "new"]))
  | CallListSessions => Ok (mkIdentified (Some "d") ["s"])
  | CallResolveRepository _ => Err "not a repository"
  | CallUpdateScope _ _ _ _ _ _ => Ok (Some 7)
  | CallCreate spec _ => Ok (ss_id spec, Some "d")
  | CallCreateIn id _ _ => Ok (id +:+ "-2", Some "d")
  | CallExists id _ => Ok (bool_decide (id = "s"))
  | CallAttach spec _ => Ok (mkAttached (ss_id spec) (Some "d") ["attach"; ss_id spec])
  | CallAttachSession id _ => Ok ["attach"; id]
  | CallOpenWorkspace _ _ => Ok (mkWorkspaceLayout layout_empty 1, Some "d")
  | CallDetach _ | CallKill _ _ | CallReset _ _ _ | CallRename _ _ _ | CallKillWorkspace _ _
  | CallUpdateLayout _ _ _ _ | CallKillSession _ _ | CallSubscribeEvents => Ok ()
  end.

Definition sample_backends : SessionBackends :=
  {| answer_of := λ _ _ c, sample_answer c; clock := λ n, 1000 + Z.of_nat n; uuid := λ n, "fresh-" +:+ pretty n |}.

(** What is shown of each entry. *)
Definition entries_of {E} (r : result E Reconciled) : list (string * SessionState) :=
  match r with Ok rc => map (λ e, (entry_wire_id e, entry_state e)) (rc_entries rc) | Err _ => [] end.

(** The client uses two of them, by the rows [a] and [c]. *)
Definition sample_rows : Registry :=
  {[ "a" := sample_a; "c" := sample_row "c" "z" (Some "h") (Some "d") None 30 ]}.

Definition sample_service : Service :=
  mkService sample_rows None ∅ (mkEventFanout (Some 1%nat) None []) ∅ 0 ∅ ∅ ∅ false [] 0.

Lemma sample_rows_wf : registry_wf sample_rows.
Proof.
  split.
  - unfold sample_rows. by intros i r [[<- <-]|[_ [<- <-]%lookup_singleton_Some]]%lookup_insert_Some.
  - unfold sample_rows. intros i j r s key Hi Hj Hr Hs.
    apply lookup_insert_Some in Hi as [[<- <-]|[_ [<- <-]%lookup_singleton_Some]];
    apply lookup_insert_Some in Hj as [[<- <-]|[_ [<- <-]%lookup_singleton_Some]]; try done;
    vm_compute in Hr, Hs; congruence.
Qed.

