(* ===== verification/Workspaces.v ===== *)
(** * What a client does with a workspace

    Creating, opening, confirming, renaming, resetting and killing workspaces, and the
    streams of events ([crates/ade_workspaces/src/lifecycle.rs]). *)

From S2P Require Import Prelude Text Words Layout Panes Sync Events Registry Paths Service Hosts.
From Stdlib Require Import Ascii.
From stdpp Require Import options.
Open Scope Z_scope.

Section Workspaces.
Context `{SessionBackends}.

(** *** Sessions *)

Definition get (id : string) : svc AdeWorkspace :=
  found ←? query (get_workspace id);
  mret (match found with Some w => Ok w | None => Err (Bail ("no workspace with id " +:+ id)) end).

Definition session_spec (w : AdeWorkspace) : SessionSpec :=
  match aw_project_identity w with
  | Some ident => mkSessionSpec (daemon_workspace_id w) (aw_repository_path w) (Some (aw_project_id w)) (Some ident)
  | None => mkSessionSpec (daemon_workspace_id w) (aw_repository_path w) None None
  end.

Definition adopt_session (w : AdeWorkspace) (session : string) : svc AdeWorkspace :=
  w ←? (if decide (aw_terminal_session_id w = Some session) then mret (Ok w)
        else _ ←? sql (update_terminal_session_id (aw_id w) (Some session));
             mret (Ok (with_session (Some session) (aw_daemon_id w) w)));
  set_status w Workspace_Running.

Definition or_else {A} (a b : option A) : option A := match a with Some _ => a | None => b end.

Definition start_session (w : AdeWorkspace) : svc AdeWorkspace :=
  let spec := session_spec w in
  created ← (_ ←? backend_for w; create_identified (aw_remote_host w) spec (aw_daemon_id w));
  match created with
  | Err e =>
      _ ←? set_status w Workspace_Error;
      mret (Err (Caused ("creating session " +:+ ss_id spec) e))
  | Ok (session, daemon_id) =>
      let daemon_id := or_else (aw_daemon_id w) daemon_id in
      _ ←? sql (update_remote_host_and_daemon_id (aw_id w) (aw_remote_host w) daemon_id);
      adopt_session (with_route (aw_remote_host w) daemon_id w) session
  end.

Definition with_place (ident branch host : option string) (w : AdeWorkspace) : AdeWorkspace :=
  mkAdeWorkspace (aw_id w) (aw_name w) (aw_project_id w) ident (aw_repository_path w)
    (aw_project_scope_rev w) branch host (aw_remote_workspace_path w) (aw_terminal_session_id w)
    (aw_daemon_id w) (aw_status w) (aw_created_at w) (aw_last_opened_at w).

Definition create_row (w : AdeWorkspace) : svc () :=
  now ← now_whole_seconds; sql (create_workspace w now).

Definition create_workspace_scoped (name project_id : string) (ident : option string) (repository_path : string)
    (branch host : option string) : svc AdeWorkspace :=
  fresh ← fresh_id;
  now ← now_whole_seconds;
  let w := with_place ident branch host (workspace_new fresh name project_id repository_path now) in
  _ ←? with_context "recording the new workspace" (create_row w);
  start_session w.

Definition create_workspace_from_repository (name path : string) (branch host : option string) : svc AdeWorkspace :=
  _ ←? backend_for_host host;
  '(repository_path, ident_path) ←?
     with_context ("resolving project directory " +:+ path +:+ " on " +:+ host_label host) (resolve_repository host path);
  let ident := serialize_paths [ident_path] in
  create_workspace_scoped name (project_id_from_identity ident) (Some ident) repository_path branch host.

Definition probe (w : AdeWorkspace) : svc (AdeWorkspace * SessionState) :=
  match aw_terminal_session_id w with
  | None => mret (Ok (w, NeverCreated))
  | Some session =>
      _ ←? backend_for w;
      alive ←? with_context ("probing session " +:+ session) (backend_exists (aw_remote_host w) session (aw_daemon_id w));
      record_probe w alive
  end.

Definition open_workspace (id : string) : svc (AdeWorkspace * SessionState) :=
  w ←? get id;
  opened_at ← now_whole_seconds;
  _ ←? sql (update_last_opened_at id opened_at);
  probe (with_opened opened_at w).

Definition recreate_session (id : string) : svc AdeWorkspace :=
  w ←? get id;
  let session := daemon_workspace_id w in
  _ ←? backend_for w;
  alive ←? backend_exists (aw_remote_host w) session (aw_daemon_id w);
  if alive : bool then adopt_session w session else start_session w.

Definition record_attached_session (id : string) (daemon_id : option string) : svc AdeWorkspace :=
  w ←? get id;
  let session := daemon_workspace_id w in
  let daemon_id := or_else (aw_daemon_id w) daemon_id in
  _ ←? sql (update_terminal_session_and_daemon_id (aw_id w) (Some session) daemon_id);
  set_status (with_session (Some session) daemon_id w) Workspace_Running.

Definition rename_workspace (id name : string) : svc AdeWorkspace :=
  w ←? get id;
  let name := trim name in
  if decide (name = "") then mret (Err (Bail "a workspace needs a name"))
  else if decide (aw_name w = name) then mret (Ok w)
  else
    _ ←? backend_for w;
    _ ←? with_context ("renaming workspace " +:+ id)
           (backend_rename (aw_remote_host w) (daemon_workspace_id w) name (aw_daemon_id w));
    _ ←? with_context "recording the new name" (sql (update_name id name));
    mret (Ok (with_label name (aw_status w) w)).

Definition stop_workspace (id : string) : svc AdeWorkspace :=
  w ←? get id;
  _ ←? match aw_terminal_session_id w with
       | None => mret (Ok ())
       | Some session =>
           _ ←? backend_for w;
           alive ←? backend_exists (aw_remote_host w) session (aw_daemon_id w);
           if alive : bool
           then with_context ("detaching clients from session " +:+ session) (backend_detach (aw_remote_host w) session)
           else mret (Ok ())
       end;
  set_status w Workspace_Stopped.

Definition kill_workspace_session (id : string) : svc AdeWorkspace :=
  w ←? get id;
  _ ←? match aw_terminal_session_id w with
       | None => mret (Ok ())
       | Some session =>
           _ ←? backend_for w;
           alive ←? with_context ("checking session " +:+ session +:+ " before killing it")
                      (backend_exists (aw_remote_host w) session (aw_daemon_id w));
           if alive : bool
           then with_context ("killing session " +:+ session) (backend_kill (aw_remote_host w) session (aw_daemon_id w))
           else mret (Ok ())
       end;
  set_status w Workspace_Stopped.

(** The daemon a destructive call is meant for: the one recorded, or the one that answers
    twice. *)
Definition fenced_daemon (w : AdeWorkspace) (purpose : string) : svc (option string) :=
  _ ←? backend_for w;
  match aw_daemon_id w with
  | Some daemon_id => mret (Ok (Some daemon_id))
  | None =>
      first ←? list_workspaces_identified (aw_remote_host w);
      again ←? list_workspaces_identified (aw_remote_host w);
      if decide (id_daemon_id again = id_daemon_id first) then mret (Ok (id_daemon_id first))
      else mret (Err (Bail ("the daemon changed while preparing to " +:+ purpose +:+ " workspace " +:+ aw_id w)))
  end.

Definition record_workspace_killed (w : AdeWorkspace) : svc AdeWorkspace :=
  w ←? (if decide (aw_terminal_session_id w = None ∧ aw_daemon_id w = None) then mret (Ok w)
        else _ ←? sql (update_terminal_session_and_daemon_id (aw_id w) None None);
             mret (Ok (with_session None None w)));
  set_status w Workspace_Stopped.

Definition kill_workspace (id : string) : svc AdeWorkspace :=
  w ←? get id;
  daemon_id ←? fenced_daemon w "kill";
  _ ←? with_context ("killing daemon workspace " +:+ aw_id w)
         (backend_kill_workspace (aw_remote_host w) (daemon_workspace_id w) daemon_id);
  record_workspace_killed w.

Definition kill_and_delete_workspace (w : AdeWorkspace) : svc () :=
  daemon_id ←? fenced_daemon w "delete";
  _ ←? with_context ("killing daemon workspace record " +:+ daemon_workspace_id w)
         (backend_kill_workspace (aw_remote_host w) (daemon_workspace_id w) daemon_id);
  with_context ("deleting workspace " +:+ aw_id w +:+ " from the registry") (sql (delete_workspace (aw_id w))).

Definition attach_command (w : AdeWorkspace) : svc Attached :=
  _ ←? backend_for w;
  backend_attach (aw_remote_host w) (session_spec w) (aw_daemon_id w).

(** Another row of the same daemon for the same record, or for the same checkout. *)
Definition duplicate_of (w candidate : AdeWorkspace) : bool :=
  negb (bool_decide (aw_id candidate = aw_id w)) &&
  bool_decide (aw_remote_host candidate = aw_remote_host w) && bool_decide (aw_daemon_id candidate = aw_daemon_id w) &&
  (bool_decide (daemon_workspace_id candidate = daemon_workspace_id w) ||
   bool_decide (aw_project_id candidate = aw_project_id w) && path_eqb (aw_repository_path candidate) (aw_repository_path w)).

Definition remove_duplicate (w : AdeWorkspace) (daemon_id : option string) (d : AdeWorkspace) : svc () :=
  _ ←? (if decide (daemon_workspace_id d = daemon_workspace_id w) then mret (Ok ())
        else with_context ("removing stale workspace " +:+ daemon_workspace_id d)
               (backend_kill_workspace (aw_remote_host w) (daemon_workspace_id d) daemon_id));
  with_context ("deleting duplicate row " +:+ aw_id d) (sql (delete_workspace (aw_id d))).

Definition reset_workspace_sessions (id : string) : svc (AdeWorkspace * Attached) :=
  w ←? get id;
  daemon_id ←? fenced_daemon w "reset";
  rows ←? list_rows;
  _ ←? for_ok (filter (λ c, duplicate_of w c = true) rows) (remove_duplicate w daemon_id);
  _ ←? with_context ("killing sessions in workspace " +:+ daemon_workspace_id w)
         (backend_reset (aw_remote_host w) (daemon_workspace_id w) (aw_repository_path w) daemon_id);
  w ←? start_session (with_route (aw_remote_host w) (or_else (aw_daemon_id w) daemon_id) w);
  attached ←? attach_command w;
  mret (Ok (w, attached)).

(** The rows to clean are those confirmed, dead in this pass, and dead when asked again. *)
Definition cleanup_one (w : AdeWorkspace) : svc bool :=
  found ←? query (get_workspace (aw_id w));
  match found with
  | None => mret (Ok false)
  | Some current =>
      probed ← probe current;
      match probed with
      | Ok (current, Dead) =>
          _ ←? with_context ("cleaning dead workspace " +:+ aw_id current) (kill_and_delete_workspace current);
          mret (Ok true)
      | Ok (_, _) | Err _ => mret (Ok false)
      end
  end.

Definition cleanup_dead_workspaces (candidate_ids : list string) : svc nat :=
  reconciled ←? reconcile_all;
  fold_ok (omap persisted (rc_entries reconciled)) 0%nat (λ cleaned '(w, state),
    if decide (state = Dead ∧ aw_id w ∈ candidate_ids) then
      gone ←? cleanup_one w; mret (Ok (if gone : bool then S cleaned else cleaned))
    else mret (Ok cleaned)).

(** *** Projects *)

(** Record a project until it is the one recorded; [fuel] bounds the rounds. *)
Fixpoint settle_project (fuel : nat) (id : string) (rev : Z) (project_id ident : string) : svc AdeWorkspace :=
  match fuel with
  | O => mret (Err Unfinished)
  | S fuel =>
      '(applied, stored) ←? with_context "recording the workspace project identity"
                              (sql (update_project_scope id rev project_id ident));
      if (applied : bool) || (bool_decide (aw_project_id stored = project_id) &&
                              bool_decide (aw_project_identity stored = Some ident))
      then mret (Ok stored)
      else rev ←? mret (next_project_scope_rev (aw_project_scope_rev stored));
           settle_project fuel id rev project_id ident
  end.

Definition holds (listing : result error (Identified BackendWorkspace)) (id : string) : bool :=
  match listing with
  | Ok listing => existsb (λ record, bool_decide (bw_id record = id)) (id_items listing)
  | Err _ => false
  end.

Definition update_workspace_project_scope (fuel : nat) (id project_id ident : string) : svc AdeWorkspace :=
  w ←? get id;
  if decide (aw_project_id w = project_id ∧ aw_project_identity w = Some ident) then mret (Ok w)
  else
    rev ←? mret (next_project_scope_rev (aw_project_scope_rev w));
    let host := aw_remote_host w in
    backend ← backend_for w;
    rev ← match backend with
          | Err _ => mret rev
          | Ok () =>
              listing ← list_workspaces_identified host;
              if holds listing (daemon_workspace_id w) then
                updated ← backend_update_scope host (daemon_workspace_id w) project_id ident None (Some rev) (aw_daemon_id w);
                mret (match updated with Ok (Some daemon_revision) => daemon_revision | Ok None | Err _ => rev end)
              else mret rev
          end;
    settle_project fuel id rev project_id ident.

Fixpoint settle_repository (fuel : nat) (id path : string) (rev : Z) (project_id ident : string) : svc AdeWorkspace :=
  match fuel with
  | O => mret (Err Unfinished)
  | S fuel =>
      '(applied, stored) ←? with_context ("recording repository identity for workspace " +:+ id)
                              (sql (update_repository_scope id path rev project_id ident));
      if (applied : bool) || (path_eqb (aw_repository_path stored) path && bool_decide (aw_project_id stored = project_id) &&
                              bool_decide (aw_project_identity stored = Some ident))
      then mret (Ok stored)
      else rev ←? mret (next_project_scope_rev (aw_project_scope_rev stored));
           settle_repository fuel id path rev project_id ident
  end.

Definition move_repository (fuel : nat) (host : option string) (reachable : bool) (held : list string)
    (path project_id ident : string) (w : AdeWorkspace) : svc AdeWorkspace :=
  if path_eqb (aw_repository_path w) path && bool_decide (aw_project_id w = project_id) &&
     bool_decide (aw_project_identity w = Some ident)
  then mret (Ok w)
  else
    rev ←? mret (next_project_scope_rev (aw_project_scope_rev w));
    rev ← (if reachable && bool_decide (daemon_workspace_id w ∈ held) then
             updated ← backend_update_scope host (daemon_workspace_id w) project_id ident (Some path) (Some rev) (aw_daemon_id w);
             mret (match updated with Ok (Some daemon_rev) => daemon_rev | Ok None | Err _ => rev end)
           else mret rev);
    settle_repository fuel (aw_id w) path rev project_id ident.

Definition update_workspace_repository_scope (fuel : nat) (id path project_id ident : string) : svc AdeWorkspace :=
  selected ←? get id;
  let host := aw_remote_host selected in
  rows ←? list_rows;
  let matching := filter (λ w, aw_remote_host w = host ∧ path_eqb (aw_repository_path w) (aw_repository_path selected) = true) rows in
  backend ← backend_for selected;
  held ← match backend with
         | Err _ => mret []
         | Ok () => listing ← list_workspaces_identified host;
                    mret (match listing with Ok listing => map bw_id (id_items listing) | Err _ => [] end)
         end;
  moved ←? map_ok_st matching (move_repository fuel host (is_ok backend) held path project_id ident);
  mret (match find_first (λ w, bool_decide (aw_id w = id)) moved with
        | Some w => Ok w
        | None => Err (Bail "the selected workspace disappeared while moving its repository scope")
        end).

(** *** Opening what a daemon holds *)

Definition owner_row (daemon : DaemonKey) (host : option string) (wire_id : string) (rows : list AdeWorkspace) :
    option AdeWorkspace :=
  find_first (λ row, row_is_on row daemon host && bool_decide (aw_terminal_session_id row = Some wire_id)) rows.

Definition find_owner (daemon : DaemonKey) (host : option string) (wire_id : string) : svc (option AdeWorkspace) :=
  rows ←? list_rows; mret (Ok (owner_row daemon host wire_id rows)).

(** The first quarantined row that can be promoted, or whoever owns the record by then. *)
Fixpoint promote (daemon : DaemonKey) (host : option string) (wire_id : string) (now : Z) (candidates : list AdeWorkspace) :
    svc (option AdeWorkspace) :=
  match candidates with
  | [] => mret (Ok None)
  | row :: candidates =>
      confirmed ← sql (confirm_workspace (aw_id row) host (instance_of daemon) now);
      match confirmed with
      | Ok true => mret (Ok (Some (with_opened now (with_route host (instance_of daemon) row))))
      | Ok false =>
          owner ←? find_owner daemon host wire_id;
          match owner with
          | Some owner => mret (Ok (Some owner))
          | None => promote daemon host wire_id now candidates
          end
      | Err e =>
          owner ←? find_owner daemon host wire_id;
          mret (match owner with
                | Some owner => Ok (Some owner)
                | None => Err (Caused ("confirming workspace " +:+ aw_id row) e)
                end)
      end
  end.

Definition confirm_record (daemon : DaemonKey) (host : option string) (record : BackendWorkspace) : svc AdeWorkspace :=
  let wire_id := bw_id record in
  owner ←? find_owner daemon host wire_id;
  match owner with
  | Some row => mret (Ok row)
  | None =>
      now ← now_whole_seconds;
      candidates ←? query (promotion_candidates (instance_of daemon));
      promoted ←? promote daemon host wire_id now
                    (filter (λ row, is_the_same_daemons_row row (instance_of daemon) host record = true) candidates);
      match promoted with
      | Some row => mret (Ok row)
      | None =>
          fresh ← fresh_id;
          clock_now ← now_whole_seconds;
          _ ←? with_context ("recording workspace " +:+ wire_id)
                 (create_row (row_for_record fresh clock_now record host (instance_of daemon) now));
          owner ←? find_owner daemon host wire_id;
          mret (match owner with
                | Some row => Ok row
                | None => Err (Bail ("re-reading the row recorded for workspace " +:+ wire_id))
                end)
      end
  end.

Definition expected_daemon (host : option string) : svc (option string) :=
  current ← instance_id host;
  match current with
  | Some daemon_id => mret (Ok (Some daemon_id))
  | None =>
      listing ←? with_context ("listing the workspaces on " +:+ host_label host) (list_workspaces_identified host);
      mret (Ok (id_daemon_id listing))
  end.

Fixpoint confirm_attempts (attempts : nat) (host : option string) (wire_id : string) : svc AdeWorkspace :=
  match attempts with
  | O => mret (Err (Bail ("the daemon identity on " +:+ host_label host +:+
                          " kept changing while confirming workspace " +:+ wire_id)))
  | S attempts =>
      expected ←? expected_daemon host;
      listing ←? with_context ("refreshing the workspaces on " +:+ host_label host) (list_workspaces_identified host);
      if decide (id_daemon_id listing = expected) then
        let daemon := daemon_key expected host in
        known ←? list_rows;
        held ←? enrich_workspace_project_scopes host daemon expected known (id_items listing);
        remember_discoveries daemon held ;;
        match find_first (λ record, bool_decide (bw_id record = wire_id)) held with
        | None => forget_discovery daemon wire_id ;; mret (Err (WorkspaceGone host wire_id))
        | Some record => confirm_record daemon host record
        end
      else confirm_attempts attempts host wire_id
  end.

Definition confirm_discovered (host : option string) (wire_id : string) : svc AdeWorkspace :=
  _ ←? ensure_history_backfill;
  _ ←? backend_for_host host;
  confirm_attempts 3 host wire_id.

Definition update_discovered_workspace_project_scope (fuel : nat) (host : option string)
    (workspace_id project_id ident : string) : svc (option bool) :=
  _ ←? backend_for_host host;
  listing ←? list_workspaces_identified host;
  match find_first (λ record, bool_decide (bw_id record = workspace_id)) (id_items listing) with
  | None => mret (Ok None)
  | Some w =>
      if decide (bw_project_id w = Some project_id ∧ bw_project_identity w = Some ident) then mret (Ok (Some true))
      else
        rev ←? mret (next_project_scope_rev (bw_project_scope_rev w));
        updated ←? with_context "updating a discovered workspace's project identity"
                     (backend_update_scope host workspace_id project_id ident (Some (bw_project_root w)) (Some rev)
                        (id_daemon_id listing));
        _ ←? match updated with
             | Some _ => mret (Ok ())
             | None =>
                 confirmed ←? confirm_discovered host workspace_id;
                 _ ←? with_context "recording a discovered workspace's project identity locally"
                        (update_workspace_project_scope fuel (aw_id confirmed) project_id ident);
                 mret (Ok ())
             end;
        mret (Ok (Some (bool_decide (is_Some updated))))
  end.

(** *** A fresh connection *)

(** The daemon that a listing is of, or the route where nobody could be asked. *)
Fixpoint listing_under_daemon_lock (attempts : nat) (host : option string) :
    svc (DaemonKey * result error (list BackendWorkspace)) :=
  match attempts with
  | O => mret (Err (Bail ("the daemon identity on " +:+ host_label host +:+
                          " kept changing while resolving a workspace")))
  | S attempts =>
      expected ← expected_daemon host;
      match expected with
      | Err e => mret (Ok (Host host, Err e))
      | Ok expected =>
          listing ← with_context ("refreshing the workspaces on " +:+ host_label host) (list_workspaces_identified host);
          let daemon := daemon_key expected host in
          match listing with
          | Ok listing =>
              if decide (id_daemon_id listing = expected) then
                remember_discoveries daemon (id_items listing) ;; mret (Ok (daemon, Ok (id_items listing)))
              else listing_under_daemon_lock attempts host
          | Err e => mret (Ok (daemon, Err e))
          end
      end
  end.

Definition oldest_record (records : list BackendWorkspace) : option BackendWorkspace := min_by older records.

Definition adopt_or_create_workspace (fuel : nat) (root : string) (host : option string)
    (project_scope : option (string * string)) : svc (AdeWorkspace * bool) :=
  _ ←? backend_for_host host;
  '(daemon, held) ←? listing_under_daemon_lock 3 host;
  rows ←? list_rows;
  let matching := filter (λ row, path_eqb (aw_repository_path row) root = true) rows in
  match held with
  | Err e =>
      mret (match most_recently_opened (filter (λ row, row_could_be_on row daemon host = true) matching) with
            | Some w => Ok (w, false)
            | None => Err e
            end)
  | Ok held =>
      let mine := filter (λ row, row_is_on row daemon host = true) matching in
      match most_recently_opened
              (filter (λ row, existsb (λ record, bool_decide (bw_id record = daemon_workspace_id row)) held = true) mine) with
      | Some existing => mret (Ok (existing, false))
      | None =>
          match most_recently_opened (filter (λ row, aw_terminal_session_id row = None) mine) with
          | Some existing => mret (Ok (existing, false))
          | None =>
              let used := used_on daemon host rows in
              match oldest_record (filter (λ record, (bw_id record ∉ used) ∧ path_eqb (bw_project_root record) root = true) held) with
              | Some record =>
                  confirmed ←? confirm_record daemon host record;
                  confirmed ←? match project_scope with
                               | Some (project_id, ident) =>
                                   update_workspace_project_scope fuel (aw_id confirmed) project_id ident
                               | None => mret (Ok confirmed)
                               end;
                  mret (Ok (confirmed, false))
              | None =>
                  let '(project_id, ident) := match project_scope with
                                              | Some (project_id, ident) => (project_id, Some ident)
                                              | None => (project_id_from_path root, Some root)
                                              end in
                  w ←? create_workspace_scoped project_id project_id ident root None host;
                  mret (Ok (w, true))
              end
          end
      end
  end.

(** *** Layouts and more sessions *)

Definition learn_daemon (w : AdeWorkspace) (daemon_id : option string) : svc () :=
  match aw_daemon_id w, daemon_id with
  | None, Some _ => _ ←? sql (update_remote_host_and_daemon_id (aw_id w) (aw_remote_host w) daemon_id); mret (Ok ())
  | _, _ => mret (Ok ())
  end.

Definition create_session_in_workspace (w : AdeWorkspace) (working_directory : string) :
    svc (string * list string * option string) :=
  _ ←? backend_for w;
  let id := ss_id (session_spec w) in
  '(session, daemon_id) ←? with_context ("creating another session in " +:+ id)
     (create_in_identified (aw_remote_host w) id working_directory (aw_daemon_id w));
  let daemon_id := or_else (aw_daemon_id w) daemon_id in
  argv ←? backend_attach_session (aw_remote_host w) session daemon_id;
  _ ←? learn_daemon w daemon_id;
  mret (Ok (session, argv, daemon_id)).

Definition attach_session_command (w : AdeWorkspace) (session_id : string) : svc (list string) :=
  _ ←? backend_for w; backend_attach_session (aw_remote_host w) session_id (aw_daemon_id w).

Definition open_workspace_layout_identified (w : AdeWorkspace) : svc (WorkspaceLayout * AdeWorkspace) :=
  _ ←? backend_for w;
  '(layout, daemon_id) ←? backend_open_workspace (aw_remote_host w) (daemon_workspace_id w) (aw_daemon_id w);
  _ ←? learn_daemon w daemon_id;
  mret (Ok (layout, with_route (aw_remote_host w) (or_else (aw_daemon_id w) daemon_id) w)).

Definition update_layout (w : AdeWorkspace) (layout : LayoutDoc) (rev : Z) : svc () :=
  _ ←? backend_for w; backend_update_layout (aw_remote_host w) (daemon_workspace_id w) layout rev (aw_daemon_id w).

Definition kill_session (w : AdeWorkspace) (session_id : string) : svc () :=
  _ ←? backend_for w; backend_kill_session (aw_remote_host w) session_id (aw_daemon_id w).
End Workspaces.

(** ** Handing events on *)

Inductive WorkspaceEvent : Type :=
| WE_Layout (remote_host daemon_id : option string) (event : LayoutEvent)
| WE_Reset (remote_host daemon_id : option string) (event : LayoutEvent)
| WE_Removed (remote_host daemon_id : option string) (workspace_id : string).

Inductive delivery : Type :=
| ToStatus (channel : nat) (event : StatusEvent)
| ToLayout (channel : nat) (event : WorkspaceEvent)
| ToChanges (channel : nat).

Section Fanout.
(** Whether the receiver of a channel is still there. *)
Context (receiving : nat → bool).

Definition send_or_clear (slot : option nat) (send : nat → delivery) : option nat * list delivery :=
  match slot with
  | None => (None, [])
  | Some channel => if receiving channel then (slot, [send channel]) else (None, [])
  end.

Definition notify_workspace_changes (f : EventFanout) : EventFanout * list delivery :=
  let kept := filter (λ c, receiving c = true) (fo_workspace_changes f) in
  (mkEventFanout (fo_status f) (fo_layout f) kept, map ToChanges kept).

Definition to_layout (f : EventFanout) (event : WorkspaceEvent) : EventFanout * list delivery :=
  let '(slot, sent) := send_or_clear (fo_layout f) (λ c, ToLayout c event) in
  (mkEventFanout (fo_status f) slot (fo_workspace_changes f), sent).

Definition to_layout_and_changes (f : EventFanout) (event : WorkspaceEvent) : EventFanout * list delivery :=
  let '(f, sent) := to_layout f event in
  let '(f, sent') := notify_workspace_changes f in
  (f, sent ++ sent').

(** What is left listening, what was sent, and whether anybody still listens. *)
Definition deliver (remote_host : option string) (e : IdentifiedDaemonEvent) (f : EventFanout) :
    EventFanout * list delivery * bool :=
  let daemon_id := ie_daemon_id e in
  let '(f, sent) :=
    match ie_event e with
    | Event_Session event =>
        let '(slot, sent) := send_or_clear (fo_status f) (λ c, ToStatus c event) in
        (mkEventFanout slot (fo_layout f) (fo_workspace_changes f), sent)
    | Event_Layout event => to_layout f (WE_Layout remote_host daemon_id event)
    | Event_WorkspaceChanged event => to_layout_and_changes f (WE_Layout remote_host daemon_id event)
    | Event_WorkspaceReset event => to_layout_and_changes f (WE_Reset remote_host daemon_id event)
    | Event_WorkspaceRemoved workspace_id => to_layout_and_changes f (WE_Removed remote_host daemon_id workspace_id)
    end in
  (f, sent, negb (is_idle f)).

(** [pump_events]: the events of one host, until the service disconnects it ([current] is
    the generation as each event arrives) or nobody listens. *)
Fixpoint pump_events (remote_host : option string) (generation : Z) (events : list (Z * IdentifiedDaemonEvent))
    (f : EventFanout) : EventFanout * list delivery :=
  match events with
  | [] => (f, [])
  | (current, event) :: events =>
      if negb (current =? generation) then (f, [])
      else
        let '(f, sent, listening) := deliver remote_host event f in
        if negb listening then (f, sent)
        else let '(f, more) := pump_events remote_host generation events f in (f, sent ++ more)
  end.
End Fanout.
