(* ===== verification/WorkspaceSpecs.v ===== *)
(** * Theorems about a client's workspaces *)

From S2P Require Import Prelude Text Words Layout Panes Sync Events Registry Paths Service Hosts HostSpecs Workspaces.
From Stdlib Require Import Ascii.
From stdpp Require Import options.
Open Scope Z_scope.

(** ** Names *)

Lemma rsplit_once_last c l rest seen : c ∉ l → rsplit_once c seen (l ++ c :: rest) = Some (rev rest, rev l ++ seen).
Proof.
  revert seen. induction l as [|x l IH]; intros seen Hc; cbn; [by rewrite decide_True|].
  apply not_elem_of_cons in Hc as [Hx Hl]. rewrite decide_False by congruence. rewrite IH by done.
  by rewrite <- app_assoc.
Qed.

Lemma rsplit_once_some c l head tail : ∀ seen, rsplit_once c seen l = Some (head, tail) →
  ∃ l', l = l' ++ c :: rev head ∧ tail = rev l' ++ seen.
Proof.
  induction l as [|x l IH]; intros seen; cbn; [done|]. case_decide as Hx.
  - intros [= <- <-]. exists []. by rewrite Hx, rev_involutive.
  - intros (l' & -> & ->)%IH. exists (x :: l'). split; [done|]. cbn. by rewrite <- app_assoc.
Qed.

(** [ade-<slug>-<six hex digits>], whatever the slug. *)
Definition derived_shape (name : string) : Prop :=
  ∃ slug id6, to_bytes name = to_bytes "ade-" ++ slug ++ "-"%char :: id6 ∧ length id6 = 6%nat ∧
    Forall (λ c, is_ascii_hexdigit c = true) id6.

Lemma hexdigit_no_dash id6 : Forall (λ c, is_ascii_hexdigit c = true) id6 → "-"%char ∉ id6.
Proof. intros Hall Hin. rewrite Forall_forall in Hall. by specialize (Hall _ Hin). Qed.

Lemma is_derived_spec name : is_derived_workspace_name name = true ↔ derived_shape name.
Proof.
  unfold is_derived_workspace_name, derived_shape. split.
  - destruct (rsplit_once _ _ _) as [[head id6]|] eqn:Hs; [|done].
    apply rsplit_once_some in Hs as (l' & Hl & Hid). rewrite app_nil_r in Hid.
    assert (Hname : to_bytes name = head ++ "-"%char :: id6).
    { apply (f_equal (@rev ascii)) in Hl. rewrite rev_involutive in Hl. rewrite Hl, rev_app_distr. cbn.
      by rewrite rev_involutive, <- app_assoc, Hid. }
    destruct (strip_prefix _ head) as [[|c rest]|] eqn:Hp; [done| |done].
    assert (Hhead : head = to_bytes "ade" ++ c :: rest).
    { clear -Hp. cbn in Hp. repeat (destruct head as [|? head]; [done|]; cbn in Hp; case_decide; [subst|done]).
      by injection Hp as ->. }
    destruct c as [[] [] [] [] [] [] [] []]; try done. intros [Hlen Hhex]%andb_true_iff.
    exists rest, id6. split_and!; [by rewrite Hname, Hhead|by apply bool_decide_eq_true in Hlen|].
    apply Forall_forall. intros x Hx. rewrite forallb_forall in Hhex. by apply Hhex, list_elem_of_In.
  - intros (slug & id6 & Hname & Hlen & Hhex). rewrite Hname, app_assoc, rev_app_distr. cbn [rev].
    rewrite <- app_assoc. cbn [app]. rewrite rsplit_once_last.
    2: { intros Hin. apply (hexdigit_no_dash id6 Hhex). apply list_elem_of_In, in_rev, list_elem_of_In. exact Hin. }
    rewrite !rev_involutive, app_nil_r. cbn [to_bytes strip_prefix app SESSION_PREFIX]. cbn.
    rewrite bool_decide_eq_true_2 by done. cbn. apply forallb_forall. intros x Hx.
    rewrite Forall_forall in Hhex. by apply Hhex, list_elem_of_In.
Qed.

(** A name this client made up gives way to its project's: whatever a workspace was
    called, its session's name is recognised, so a daemon's record is listed under its
    project; and any other name, one that a person chose, is listed as it is. *)
Theorem made_up_names_give_way project_id :
  (∀ name id, (6 ≤ String.length id)%nat → str_all is_ascii_hexdigit (str_take 6 id) = true →
     display_name_for (tmux_session_name name id) project_id = project_id) ∧
  (∀ backend_name, ¬ derived_shape backend_name → display_name_for backend_name project_id = backend_name).
Proof.
  split.
  - intros name id Hlen Hhex. unfold display_name_for.
    assert (Hd : is_derived_workspace_name (tmux_session_name name id) = true); [|by rewrite Hd].
    apply is_derived_spec. exists (to_bytes (slug name)), (to_bytes (str_take 6 id)). split_and!.
    + unfold tmux_session_name, SESSION_PREFIX. rewrite Nat.min_l by done.
      rewrite !to_bytes_app. done.
    + rewrite length_to_bytes, length_str_take. lia.
    + by apply str_all_bytes.
  - intros backend_name Hno. unfold display_name_for. destruct (is_derived_workspace_name backend_name) eqn:Hd; [|done].
    by apply is_derived_spec in Hd.
Qed.

(** ** Relations that what a host is asked keeps *)

Definition same_registry (s s' : Service) : Prop := sv_registry s' = sv_registry s.

#[export] Instance same_registry_preorder : PreOrder same_registry.
Proof. split; [by intros s|]. intros s1 s2 s3 H1 H2. unfold same_registry in *. congruence. Qed.

(** Every request made meanwhile is one of [P]. *)
Definition asks_only (P : option string * call → bool) (s s' : Service) : Prop :=
  ∃ new, sv_asked s' = sv_asked s ++ new ∧ Forall (λ hc, P hc = true) new.

#[export] Instance asks_only_preorder P : PreOrder (asks_only P).
Proof.
  split; [intros s; exists []; by rewrite app_nil_r|].
  intros s1 s2 s3 (n1 & A1 & F1) (n2 & A2 & F2). exists (n1 ++ n2). rewrite A2, A1, app_assoc.
  split; [done|]. by apply Forall_app.
Qed.

Lemma asks_only_state P (f : Service → Service) :
  (∀ s, sv_asked (f s) = sv_asked s) → moves (asks_only P) (st_modify f).
Proof. intros Hf s. exists []. cbn. by rewrite Hf, app_nil_r. Qed.

Lemma asks_only_sql {A} P (m : statement A) : moves (asks_only P) (sql m).
Proof. intros s. exists []. unfold sql. destruct (m _). cbn. by rewrite app_nil_r. Qed.

Lemma asks_only_query {A} P (f : Registry → A) : moves (asks_only P) (query f).
Proof. intros s. reflexivity. Qed.

Lemma same_registry_state (f : Service → Service) :
  (∀ s, sv_registry (f s) = sv_registry s) → moves same_registry (st_modify f).
Proof. intros Hf s. apply Hf. Qed.

Lemma same_registry_query {A} (f : Registry → A) : moves same_registry (query f).
Proof. by intros s. Qed.

Section Asking.
Context `{SessionBackends}.

Lemma asks_only_ask P host c : P (host, c) = true → moves (asks_only P) (ask host c).
Proof. intros HP s. exists [(host, c)]. split; [done|]. by repeat constructor. Qed.

Lemma same_registry_ask host c : moves same_registry (ask host c).
Proof. by intros s. Qed.

Lemma asks_only_clock P : moves (asks_only P) now_whole_seconds.
Proof. intros s. exists []. by rewrite app_nil_r. Qed.

Lemma asks_only_fresh P : moves (asks_only P) fresh_id.
Proof. intros s. exists []. by rewrite app_nil_r. Qed.

Lemma same_registry_clock : moves same_registry now_whole_seconds.
Proof. by intros s. Qed.

Lemma same_registry_fresh : moves same_registry fresh_id.
Proof. by intros s. Qed.

(** [c] was asked of [host] between [s0] and [s], and [a] was the answer. *)
Definition answered (s0 s : Service) (host : option string) (c : call) (a : answer c) : Prop :=
  ∃ pre post, sv_asked s = sv_asked s0 ++ pre ++ (host, c) :: post ∧ answer_of (sv_asked s0 ++ pre) host c = a.

Definition any_call (hc : option string * call) : bool := true.

Lemma answered_later s0 s s' host c a : asks_only any_call s s' → answered s0 s host c a → answered s0 s' host c a.
Proof.
  intros (new & Hnew & _) (pre & post & Ha & Hans). exists pre, (post ++ new).
  split; [|done]. rewrite Hnew, Ha, <- !app_assoc. done.
Qed.

Lemma answered_earlier s s0 s' host c a : asks_only any_call s s0 → answered s0 s' host c a → answered s s' host c a.
Proof.
  intros (new & Hnew & _) (pre & post & Ha & Hans). exists (new ++ pre), post.
  rewrite Ha, Hnew, <- !app_assoc. rewrite Hnew, <- app_assoc in Hans. done.
Qed.

Lemma wp_answered host c Q s :
  (∀ a s', answered s s' host c a → asks_only any_call s s' → same_registry s s' → Q a s') → wp (ask host c) Q s.
Proof.
  intros HQ. apply HQ; [|by apply asks_only_ask|done]. exists [], []. by rewrite app_nil_r.
Qed.
End Asking.

#[export] Hint Resolve asks_only_sql asks_only_query same_registry_query
  asks_only_clock asks_only_fresh same_registry_clock same_registry_fresh : moves.
#[export] Hint Extern 1 (moves (asks_only _) (ask _ _)) => apply asks_only_ask; reflexivity : moves.
#[export] Hint Extern 1 (moves same_registry (ask _ _)) => apply same_registry_ask : moves.
#[export] Hint Extern 2 (moves (asks_only _) (st_modify _)) => (apply asks_only_state; reflexivity) : moves.
#[export] Hint Extern 2 (moves same_registry (st_modify _)) => (apply same_registry_state; reflexivity) : moves.

(** ** Recording a project *)

Section Recording.
Context `{SessionBackends}.

(** The revision that no later one of sqlite's follows. *)
Definition last_revision : Z := 9223372036854775807.

Definition row_at (t : Registry) (id : string) (r : Row) : Prop := t !! id = Some r ∧ used r = true.

Definition project_row (rev : Z) (project_id ident : string) (r : Row) : Row :=
  on_workspace (λ w, with_scope rev project_id ident (aw_repository_path w) w) r.

Lemma with_scope_free t id r rev project_id ident path : registry_wf t → t !! id = Some r →
  taken id (on_workspace (λ w, with_scope rev project_id ident (path w) w) r) t = false.
Proof.
  intros [_ Ho] Hr. apply taken_false. intros key j s Hk Hs Hks. by eapply (Ho j id s r).
Qed.

(** One round of the loop. *)
Lemma update_project_scope_run id rev project_id ident t r : registry_wf t → row_at t id r →
  update_project_scope id rev project_id ident t =
    if scope_applies rev r
    then (Ok (true, row_workspace (project_row rev project_id ident r)), <[id := project_row rev project_id ident r]> t)
    else (Ok (false, row_workspace r), t).
Proof.
  intros Hwf [Hr Hu]. unfold update_project_scope, stored_after, update_where. rewrite Hr.
  destruct (scope_applies rev r).
  - unfold put_row. rewrite with_scope_free by done. unfold get_workspace. rewrite lookup_insert_eq.
    unfold used, project_row in *. cbn. unfold used in Hu. by rewrite Hu.
  - unfold get_workspace. by rewrite Hr, Hu.
Qed.

Lemma scope_applies_next r v : aw_project_scope_rev (row_workspace r) = v → 0 ≤ v < u64_max → v ≠ last_revision →
  scope_applies (v + 1) r = true.
Proof.
  intros Hv Hrange Hlast. unfold scope_applies, as_i64. rewrite Hv. unfold u64_max, last_revision in *.
  apply orb_true_iff. left. apply Z.ltb_lt.
  destruct (Z.ltb_spec v 9223372036854775808), (Z.ltb_spec (v + 1) 9223372036854775808); lia.
Qed.

Lemma settle_project_run fuel id rev project_id ident s r :
  registry_wf (sv_registry s) → row_at (sv_registry s) id r →
  settle_project (S fuel) id rev project_id ident s =
    if scope_applies rev r
    then (Ok (row_workspace (project_row rev project_id ident r)),
          with_registry (λ _, <[id := project_row rev project_id ident r]> (sv_registry s)) s)
    else if bool_decide (aw_project_id (row_workspace r) = project_id) &&
            bool_decide (aw_project_identity (row_workspace r) = Some ident)
    then (Ok (row_workspace r), s)
    else match next_project_scope_rev (aw_project_scope_rev (row_workspace r)) with
         | Ok next => settle_project fuel id next project_id ident s
         | Err e => (Err e, s)
         end.
Proof.
  intros Hwf Hr.
  assert (Hsame : with_registry (λ _, sv_registry s) s = s) by by destruct s.
  cbn [settle_project]. unfold bind_ok at 1, with_context, sql.
  rewrite (update_project_scope_run _ _ _ _ _ r) by done. destruct (scope_applies rev r); cbn; [done|].
  rewrite Hsame. destruct (_ && _); [done|]. unfold bind_ok. cbn. by destruct (next_project_scope_rev _).
Qed.

Lemma same_registry_backend_for_host host : moves same_registry (backend_for_host host).
Proof.
  unfold backend_for_host, forward_status, ensure_pump, subscribe_events, record_status_error. moves_tac.
Qed.

(** A daemon's revisions are unsigned integers of 64 bits. *)
Definition answers_u64 : Prop := ∀ past host w p i root least expected rev,
  answer_of past host (CallUpdateScope w p i root least expected) = Ok (Some rev) → 0 ≤ rev ≤ u64_max.

(** Up to the loop, only the revision is chosen. *)
Lemma update_scope_reaches fuel id project_id ident s r : row_at (sv_registry s) id r →
  ¬ (aw_project_id (row_workspace r) = project_id ∧ aw_project_identity (row_workspace r) = Some ident) →
  aw_project_scope_rev (row_workspace r) ≠ u64_max →
  ∃ rev s1, sv_registry s1 = sv_registry s ∧
    update_workspace_project_scope fuel id project_id ident s = settle_project fuel id rev project_id ident s1 ∧
    (0 ≤ aw_project_scope_rev (row_workspace r) ≤ u64_max → answers_u64 → 0 ≤ rev ≤ u64_max).
Proof.
  intros [Hr Hu] Hne Hrev. unfold update_workspace_project_scope, get. set (w := row_workspace r) in *.
  assert (Hget : query (get_workspace id) s = (Ok (Some w), s)) by (unfold query, get_workspace; by rewrite Hr, Hu).
  unfold bind_ok at 1 2. rewrite Hget. cbn [mret st_ret]. rewrite decide_False by done.
  unfold bind_ok at 1, next_project_scope_rev. rewrite (proj2 (Z.eqb_neq _ _) Hrev). cbn [mret st_ret].
  cbv zeta. rewrite st_bind_unfold. unfold backend_for.
  pose proof (same_registry_backend_for_host (aw_remote_host w) s) as H1.
  destruct (backend_for_host (aw_remote_host w) s) as [backend s1]. cbn [fst snd] in *.
  rewrite st_bind_unfold.
  set (m := match backend with Ok _ => _ | Err _ => _ end).
  assert (Hm : moves same_registry m).
  { unfold m, list_workspaces_identified, backend_update_scope. moves_tac. }
  assert (Hrange : 0 ≤ aw_project_scope_rev w ≤ u64_max → answers_u64 → 0 ≤ (m s1).1 ≤ u64_max).
  { intros Hw Hu64. assert (Hnext : 0 ≤ aw_project_scope_rev w + 1 ≤ u64_max) by lia. unfold m.
    destruct backend as [[]|]; [|done]. unfold list_workspaces_identified, backend_update_scope, ask, mbind, st_bind, mret, st_ret. cbn.
    case_match; [|done]. cbn.
    destruct (answer_of _ _ (CallUpdateScope _ _ _ _ _ _)) as [[rev|]|] eqn:Ha; cbn; [|done..]. by eapply Hu64. }
  specialize (Hm s1). destruct (m s1) as [rev s2]. cbn [fst snd] in *. exists rev, s2.
  split_and!; [|done|done]. unfold same_registry in *. congruence.
Qed.

Lemma update_scope_same fuel id project_id ident s r : row_at (sv_registry s) id r →
  aw_project_id (row_workspace r) = project_id → aw_project_identity (row_workspace r) = Some ident →
  update_workspace_project_scope fuel id project_id ident s = (Ok (row_workspace r), s).
Proof.
  intros [Hr Hu] Hp Hi. unfold update_workspace_project_scope, get, bind_ok, query, get_workspace. rewrite Hr, Hu.
  cbn. by rewrite decide_True.
Qed.

(** C27. Recording a workspace's project ends: whatever revision the daemon answers, and if
    it answers none, within two rounds the row has the project asked for, as it is
    answered; only a revision that cannot be counted on is refused, before anything is
    written. The one revision this does not hold of is the greatest sqlite can order. *)
Theorem recording_a_project_ends fuel id project_id ident s r :
  registry_wf (sv_registry s) → row_at (sv_registry s) id r → (2 ≤ fuel)%nat →
  0 ≤ aw_project_scope_rev (row_workspace r) ≤ u64_max → aw_project_scope_rev (row_workspace r) ≠ last_revision →
  let '(res, s') := update_workspace_project_scope fuel id project_id ident s in
  match res with
  | Ok w => aw_project_id w = project_id ∧ aw_project_identity w = Some ident ∧
      get_workspace id (sv_registry s') = Some w
  | Err e => e = Bail "project scope revision overflowed" ∧ aw_project_scope_rev (row_workspace r) = u64_max ∧ s' = s
  end.
Proof.
  intros Hwf Hr Hfuel Hrange Hlast. set (w := row_workspace r) in *.
  assert (Hget : get_workspace id (sv_registry s) = Some w).
  { destruct Hr as [Hr Hu]. unfold get_workspace. by rewrite Hr, Hu. }
  destruct (decide (aw_project_id w = project_id ∧ aw_project_identity w = Some ident)) as [[Hp Hi]|Hne].
  { by rewrite (update_scope_same _ _ _ _ _ r). }
  destruct (decide (aw_project_scope_rev w = u64_max)) as [Hmax|Hmax].
  { unfold update_workspace_project_scope, get. unfold bind_ok at 1 2. unfold query. rewrite Hget. cbn [mret st_ret].
    rewrite decide_False by done. unfold bind_ok, next_project_scope_rev. by rewrite Hmax. }
  destruct (update_scope_reaches fuel id project_id ident s r) as (rev & s1 & Hs1 & -> & _); [done..|].
  destruct fuel as [|[|fuel]]; [lia..|].
  assert (Happlied : ∀ rev' s2, sv_registry s2 = sv_registry s → 
    get_workspace id (sv_registry (with_registry (λ _, <[id := project_row rev' project_id ident r]> (sv_registry s2)) s2)) =
    Some (row_workspace (project_row rev' project_id ident r))).
  { intros rev' s2 Hs2. destruct Hr as [_ Hu]. unfold get_workspace. cbn. rewrite lookup_insert_eq. unfold used, project_row in *. cbn.
    by rewrite Hu. }
  rewrite (settle_project_run (S fuel) _ _ _ _ _ r) by by rewrite Hs1.
  destruct (scope_applies rev r); [by split_and!; [..|apply Happlied]|].
  destruct (_ && _) eqn:Hsame; [apply andb_true_iff in Hsame as [Hp%bool_decide_eq_true Hi%bool_decide_eq_true]; by rewrite Hs1|].
  unfold next_project_scope_rev. fold w. rewrite (proj2 (Z.eqb_neq _ _) Hmax).
  rewrite (settle_project_run fuel _ _ _ _ _ r) by by rewrite Hs1.
  rewrite (scope_applies_next r (aw_project_scope_rev w)) by (done || lia). by split_and!; [..|apply Happlied].
Qed.

(** C28. At the greatest revision sqlite can order it never ends: the next one reads as less
    than everything stored, so nothing the daemon answers is written and the loop asks
    again, however long it runs. *)
Theorem a_last_revision_never_settles fuel id project_id ident s r :
  answers_u64 → registry_wf (sv_registry s) → row_at (sv_registry s) id r →
  aw_project_scope_rev (row_workspace r) = last_revision → is_Some (aw_project_identity (row_workspace r)) →
  ¬ (aw_project_id (row_workspace r) = project_id ∧ aw_project_identity (row_workspace r) = Some ident) →
  (update_workspace_project_scope fuel id project_id ident s).1 = Err Unfinished.
Proof.
  intros Hu64 Hwf Hr Hlast [old Hold] Hne.
  assert (Hno : ∀ rev, 0 ≤ rev ≤ u64_max → scope_applies rev r = false).
  { intros rev Hrev. unfold scope_applies, as_i64. rewrite Hlast, Hold. unfold last_revision, u64_max in *.
    rewrite bool_decide_eq_false_2 by done. rewrite andb_false_r, orb_false_r. apply Z.ltb_ge.
    destruct (Z.ltb_spec rev 9223372036854775808); cbn; lia. }
  destruct (update_scope_reaches fuel id project_id ident s r) as (rev & s1 & Hs1 & -> & Hrev);
    [done|done|rewrite Hlast; unfold last_revision, u64_max; lia|].
  assert (Hrange : 0 ≤ rev ≤ u64_max) by (apply Hrev; [rewrite Hlast; unfold last_revision, u64_max; lia|done]).
  clear Hrev. revert rev Hrange. induction fuel as [|fuel IH]; intros rev Hrange; [done|].
  rewrite (settle_project_run fuel _ _ _ _ _ r) by by rewrite Hs1. rewrite Hno by done.
  assert (Hdiff : bool_decide (aw_project_id (row_workspace r) = project_id) &&
                  bool_decide (aw_project_identity (row_workspace r) = Some ident) = false).
  { apply not_true_iff_false. by rewrite andb_true_iff, !bool_decide_eq_true. }
  rewrite Hdiff. unfold next_project_scope_rev. rewrite Hlast. apply IH. unfold last_revision, u64_max. lia.
Qed.
End Recording.

(** ** Opening what a daemon holds *)

Section Confirming.
Context `{SessionBackends}.

(** Names that do not look like the index's own stand-ins for a missing name. *)
Definition plain (host daemon_id : option string) : Prop :=
  host ≠ Some (String NUL "") ∧ ∀ rest, daemon_id ≠ Some (String NUL rest).

Definition plain_rows (t : Registry) : Prop :=
  ∀ i r, t !! i = Some r → plain (aw_remote_host (row_workspace r)) (aw_daemon_id (row_workspace r)).

(** The row that stands for a record: on its daemon, with its id. *)
Definition stands_for (d host : option string) (wire_id : string) (w : AdeWorkspace) : Prop :=
  row_is_on w (daemon_key d host) host = true ∧ aw_terminal_session_id w = Some wire_id.

Lemma owner_row_none d host wire_id t : owner_row (daemon_key d host) host wire_id (list_workspaces t) = None ↔
  ∀ i r, t !! i = Some r → used r = true → ¬ stands_for d host wire_id (row_workspace r).
Proof.
  unfold owner_row. rewrite find_first_None. unfold list_workspaces. split.
  - intros Hno i r Hr Hu [Hon Ht].
    assert (Hin : row_workspace r ∈ merge_sort opened_later (rows_where used t)).
    { rewrite merge_sort_Permutation. apply elem_of_rows_where. eauto. }
    specialize (Hno _ Hin). rewrite Hon, Ht in Hno. by rewrite bool_decide_eq_true_2 in Hno.
  - intros Hno w Hw. rewrite merge_sort_Permutation in Hw. apply elem_of_rows_where in Hw as (i & r & Hr & Hu & <-).
    apply not_true_iff_false. intros [Hon Ht%bool_decide_eq_true]%andb_true_iff. by eapply Hno.
Qed.

Lemma owner_row_only d host wire_id t i r : t !! i = Some r → used r = true → stands_for d host wire_id (row_workspace r) →
  (∀ j s, t !! j = Some s → used s = true → stands_for d host wire_id (row_workspace s) → s = r) →
  owner_row (daemon_key d host) host wire_id (list_workspaces t) = Some (row_workspace r).
Proof.
  intros Hr Hu Hs Honly. destruct (owner_row _ _ _ _) as [w|] eqn:Ho.
  - unfold owner_row in Ho. apply find_first_Some in Ho as [Hin Hw]. unfold list_workspaces in Hin.
    rewrite merge_sort_Permutation in Hin. apply elem_of_rows_where in Hin as (j & s & Hj & Hus & <-).
    apply andb_true_iff in Hw as [Hon Ht%bool_decide_eq_true]. by rewrite (Honly j s).
  - rewrite owner_row_none in Ho. by destruct (Ho i r).
Qed.

(** Where nobody stands for a record, the index has room for it. *)
Lemma record_free d host wire_id t id r : plain_rows t → plain host d →
  owner_row (daemon_key d host) host wire_id (list_workspaces t) = None →
  aw_remote_host (row_workspace r) = host → aw_daemon_id (row_workspace r) = d →
  aw_terminal_session_id (row_workspace r) = Some wire_id → taken id r t = false.
Proof.
  intros Hplain [Hph Hpd] Hno Hh Hd Ht. apply not_true_iff_false.
  intros (key & j & s & Hkey & Hj & Hs & Hsk)%taken_true. rewrite owner_row_none in Hno.
  destruct (Hplain j s Hs) as [Hsh Hsd]. unfold record_key in Hkey, Hsk.
  destruct (row_used_by_client_at r) as [ur|]; [|done]. destruct (row_used_by_client_at s) as [us|] eqn:Hus; [|done].
  rewrite Ht, Hh, Hd in Hkey. destruct (aw_terminal_session_id (row_workspace s)) as [x|] eqn:Hterm; [|done].
  injection Hkey as <-. injection Hsk as Hk ->.
  destruct (Hno j s Hs); [unfold used; by rewrite Hus|]. split; [|done]. unfold row_is_on, daemon_key.
  destruct (aw_daemon_id (row_workspace s)) as [ds|] eqn:Hds, d as [d|]; cbn in Hk.
  - by apply bool_decide_eq_true_2.
  - exfalso. by apply (Hsd (default (String NUL "") host)); rewrite Hk.
  - exfalso. by apply (Hpd (default (String NUL "") (aw_remote_host (row_workspace s)))); rewrite <- Hk.
  - apply bool_decide_eq_true_2. injection Hk as Hk. revert Hk Hsh.
    destruct (aw_remote_host (row_workspace s)) as [hs|], host as [h|]; simpl; change zero with NUL; congruence.
Qed.

Lemma find_owner_run daemon host wire_id s :
  find_owner daemon host wire_id s = (Ok (owner_row daemon host wire_id (list_workspaces (sv_registry s))), s).
Proof. done. Qed.

(** The candidates of a record are rows in quarantine. *)
Lemma candidate_row d host record t row : keyed t →
  row ∈ filter (λ row, is_the_same_daemons_row row d host record = true) (promotion_candidates d t) →
  ∃ r, t !! aw_id row = Some r ∧ used r = false ∧ row_workspace r = row ∧ aw_terminal_session_id row = Some (bw_id record).
Proof.
  intros Hk [Hsame Hin]%list_elem_of_filter. unfold promotion_candidates in Hin. rewrite merge_sort_Permutation in Hin.
  apply elem_of_rows_where in Hin as (i & r & Hr & Hu%negb_true_iff & <-). exists r. rewrite (Hk _ _ Hr).
  unfold is_the_same_daemons_row in Hsame. case_decide; [|done]. done.
Qed.

Lemma stands_for_routed d host wire_id w at_ : aw_terminal_session_id w = Some wire_id →
  stands_for d host wire_id (with_opened at_ (with_route host d w)).
Proof.
  intros Ht. split; [|done]. unfold row_is_on, daemon_key. cbn. destruct d; by apply bool_decide_eq_true_2.
Qed.

Lemma instance_of_key d host : instance_of (daemon_key d host) = d.
Proof. by destruct d. Qed.

(** A record's row just written is the one that stands for it. *)
Lemma owner_after_insert d host wire_id t id w now : 
  (∀ i r, t !! i = Some r → used r = true → ¬ stands_for d host wire_id (row_workspace r)) →
  stands_for d host wire_id w →
  owner_row (daemon_key d host) host wire_id (list_workspaces (<[id := mkRow w (Some now)]> t)) = Some w.
Proof.
  intros Hno Hs. apply (owner_row_only d host wire_id _ id (mkRow w (Some now))); [by rewrite lookup_insert_eq|done|done|].
  intros j s [[_ <-]|[_ Hj]]%lookup_insert_Some Hu Hsf; [done|]. by destruct (Hno j s Hj Hu).
Qed.

Lemma stored_after_insert t w now : get_workspace (aw_id w) (<[aw_id w := mkRow w (Some now)]> t) = Some w.
Proof. unfold get_workspace. by rewrite lookup_insert_eq. Qed.

Lemma wp_run {S A} (m : st S A) (Q : A → S → Prop) s : wp m Q s → let '(a, s') := m s in Q a s'.
Proof. unfold wp. by destruct (m s). Qed.

Lemma wp_find_owner daemon host wire_id (Q : result error (option AdeWorkspace) → Service → Prop) s :
  Q (Ok (owner_row daemon host wire_id (list_workspaces (sv_registry s)))) s → wp (find_owner daemon host wire_id) Q s.
Proof. done. Qed.

Lemma wp_clock (Q : Z → Service → Prop) s : Q (clock (sv_tick s)) (with_tick s) → wp now_whole_seconds Q s.
Proof. done. Qed.

Lemma wp_fresh (Q : string → Service → Prop) s : Q (uuid (sv_tick s)) (with_tick s) → wp fresh_id Q s.
Proof. done. Qed.

Lemma wp_sql {A} (m : statement A) Q s :
  Q (lift_text (m (sv_registry s)).1) (with_registry (λ _, (m (sv_registry s)).2) s) → wp (sql m) Q s.
Proof. unfold wp, sql. by destruct (m _). Qed.

End Confirming.

(** ** A fresh connection *)

Section Adopting.
Context `{SessionBackends}.

Definition not_create (hc : option string * call) : bool :=
  match hc.2 with CallCreate _ _ | CallCreateIn _ _ _ => false | _ => true end.

Lemma not_create_backend_for_host host : moves (asks_only not_create) (backend_for_host host).
Proof. unfold backend_for_host, forward_status, ensure_pump, subscribe_events, record_status_error. moves_tac. Qed.
Hint Resolve not_create_backend_for_host : moves.

Lemma not_create_listed host : moves (asks_only not_create) (list_workspaces_identified host).
Proof. unfold list_workspaces_identified. moves_tac. Qed.
Hint Resolve not_create_listed : moves.

Lemma not_create_expected host : moves (asks_only not_create) (expected_daemon host).
Proof. unfold expected_daemon, instance_id. moves_tac. Qed.
Hint Resolve not_create_expected : moves.

Lemma not_create_confirm daemon host record : moves (asks_only not_create) (confirm_record daemon host record).
Proof.
  unfold confirm_record, find_owner, list_rows, create_row. moves_tac.
  match goal with |- moves _ (promote _ _ _ ?now ?l) => generalize now; generalize l end.
  intros l now. induction l as [|row l IH]; cbn [promote]; unfold find_owner, list_rows; moves_tac.
Qed.
Hint Resolve not_create_confirm : moves.

Lemma not_create_update_scope fuel id p i : moves (asks_only not_create) (update_workspace_project_scope fuel id p i).
Proof.
  unfold update_workspace_project_scope, get, backend_for, backend_update_scope. moves_tac;
    match goal with |- moves _ (settle_project _ _ ?rev _ _) => generalize rev end; intros rev; revert rev;
    induction fuel as [|fuel IH]; intros rev; cbn [settle_project]; moves_tac.
Qed.
Hint Resolve not_create_update_scope : moves.

(** Keeps the registry and creates nothing. *)
Definition observes (s s' : Service) : Prop := same_registry s s' ∧ asks_only not_create s s'.

#[local] Instance observes_preorder : PreOrder observes.
Proof.
  split; [intros s; split; reflexivity|]. intros s1 s2 s3 [? ?] [? ?]. split; by etrans.
Qed.

Lemma wp_observes {A} (m : st Service A) s : moves same_registry m → moves (asks_only not_create) m →
  wp m (λ _ s', observes s s') s.
Proof. intros H1 H2. split; auto. Qed.

Lemma not_create_any s s' : asks_only not_create s s' → asks_only any_call s s'.
Proof. intros (new & Ha & _). exists new. split; [done|]. by apply Forall_true. Qed.

(** A listing that [host] answered since [s0]. *)
Definition listed_by (s0 s : Service) (host d : option string) (held : list BackendWorkspace) : Prop :=
  answered s0 s host CallListWorkspaces (Ok (mkIdentified d held)).

Lemma wp_listed host s : wp (list_workspaces_identified host) (λ r s', observes s s' ∧
  match r with Ok l => listed_by s s' host (id_daemon_id l) (id_items l) | Err _ => True end) s.
Proof.
  apply wp_and; [apply wp_observes; [unfold list_workspaces_identified|]; moves_tac|].
  unfold list_workspaces_identified. wp_step. apply (wp_answered host CallListWorkspaces). intros a s' Ha _ _. apply wp_ret.
  destruct a as [[d held]|e]; [exact Ha|done].
Qed.

Lemma observes_expected host s : wp (expected_daemon host) (λ _ s', observes s s') s.
Proof. apply wp_observes; [unfold expected_daemon, instance_id, list_workspaces_identified|]; moves_tac. Qed.

Lemma listed_by_earlier s s0 s' host d held : observes s s0 → listed_by s0 s' host d held → listed_by s s' host d held.
Proof. intros [_ Hs]. apply answered_earlier. by apply not_create_any. Qed.

Lemma listed_by_later s s' s1 host d held : observes s' s1 → listed_by s s' host d held → listed_by s s1 host d held.
Proof. intros [_ Hs]. apply answered_later. by apply not_create_any. Qed.

Lemma listing_under_lock_heard n host s :
  wp (listing_under_daemon_lock n host) (λ r s', observes s s' ∧
    match r with
    | Ok (daemon, Ok held) => ∃ d, daemon = daemon_key d host ∧ listed_by s s' host d held
    | _ => True
    end) s.
Proof.
  revert s. induction n as [|n IH]; intros s; cbn [listing_under_daemon_lock]; [by apply wp_ret|].
  wp_step. eapply wp_mono; [apply observes_expected|].
  intros [expected|e] s1 Hs1; [|by apply wp_ret].
  wp_step. apply wp_with_context. eapply wp_mono; [apply wp_listed|]. intros [[d held]|e] s2 [Hs2 Hl]; cbn in *.
  - case_decide as Hd.
    + wp_step. assert (Hs3 : observes s2 (with_discoveries <[daemon_key expected host := held]> s2)).
      { split; [done|]. exists []. by rewrite app_nil_r. }
      unfold remember_discoveries. apply wp_modify. apply wp_ret. split; [by etrans; [exact Hs1|etrans]|].
      exists d. split; [by rewrite Hd|]. eapply listed_by_earlier; [exact Hs1|]. by eapply listed_by_later.
    + eapply wp_mono; [apply IH|]. intros [[daemon [held'|e]]|e] s3 [Hs3 Hr]; (split; [by etrans; [exact Hs1|etrans]|]); try done.
      destruct Hr as (d' & -> & Hl'). exists d'. split; [done|]. eapply listed_by_earlier; [|exact Hl']. by etrans.
  - apply wp_ret. split; [by etrans|done].
Qed.

Lemma min_by_none {A} (le : relation A) `{!RelDecision le} (l : list A) : min_by le l = None → l = [].
Proof.
  unfold min_by. destruct l as [|x l]; [done|]. cbn. intros Hnone. exfalso. revert x Hnone.
  induction l as [|y l IH]; intros z; [done|]. cbn. case_decide; apply IH.
Qed.

(** C17. A fresh connection creates a workspace only where its host just answered with a
    listing that has none for that directory: every row of this client for the directory
    on that daemon has a session id, which the daemon no longer holds, and every record of
    the daemon for the directory stands under one of the client's rows. In every other
    case, a host that could not be asked above all, nothing is created. *)
Theorem creating_needs_an_answer fuel root host scope s :
  let t := sv_registry s in
  let '(res, s') := adopt_or_create_workspace fuel root host scope s in
  (asks_only not_create s s' ∧ ∀ w, res ≠ Ok (w, true)) ∨
  ∃ d held, listed_by s s' host d held ∧
    (∀ w, w ∈ list_workspaces t → path_eqb (aw_repository_path w) root = true → row_is_on w (daemon_key d host) host = true →
       is_Some (aw_terminal_session_id w) ∧ ∀ record, record ∈ held → bw_id record ≠ daemon_workspace_id w) ∧
    (∀ record, record ∈ held → path_eqb (bw_project_root record) root = true →
       ∃ w, w ∈ list_workspaces t ∧ row_is_on w (daemon_key d host) host = true ∧ daemon_workspace_id w = bw_id record).
Proof.
  intros t. apply wp_run. unfold adopt_or_create_workspace.
  wp_step. eapply wp_mono; [apply wp_observes; [apply same_registry_backend_for_host|moves_tac]|].
  intros [[]|e] s1 Hs1; [|left; split; [apply Hs1|done]].
  wp_step. eapply wp_mono; [apply listing_under_lock_heard|]. intros [[daemon held]|e] s2 [Hs2 Hl].
  2: { left. split; [apply (transitivity Hs1 Hs2)|done]. }
  assert (Hs : observes s s2) by by etrans. assert (Ht : sv_registry s2 = t) by apply Hs.
  unfold list_rows. wp_step. apply wp_query. rewrite Ht. cbv zeta.
  destruct held as [held|e].
  2: { apply wp_ret. left. split; [apply Hs|]. by destruct (most_recently_opened _). }
  destruct Hl as (d & -> & Hl).
  destruct (most_recently_opened _) as [w|] eqn:Hheld.
  { apply wp_ret. left. split; [apply Hs|done]. }
  destruct (most_recently_opened (filter (λ row, aw_terminal_session_id row = None) _)) as [w|] eqn:Hnever.
  { apply wp_ret. left. split; [apply Hs|done]. }
  apply min_by_none in Hheld. apply min_by_none in Hnever.
  destruct (oldest_record _) as [record|] eqn:Hold.
  - wp_step. eapply wp_mono; [apply (wp_moves (asks_only not_create)); moves_tac|].
    intros [confirmed|e] s3 Hs3; [|left; split; [by etrans; [apply Hs|]|done]].
    wp_step. eapply wp_mono; [apply (wp_moves (asks_only not_create)); moves_tac|].
    intros [w|e] s4 Hs4; [|left; split; [by etrans; [apply Hs|etrans]|done]].
    apply wp_ret. left. split; [by etrans; [apply Hs|etrans]|done].
  - apply min_by_none in Hold.
    match goal with |- wp ?m _ _ => set (create := m) end.
    assert (Hlater : moves (asks_only any_call) create).
    { unfold create, create_workspace_scoped, create_row, start_session, adopt_session, set_status, create_identified, backend_for.
      unfold backend_for_host, forward_status, ensure_pump, subscribe_events, record_status_error. moves_tac. }
    eapply wp_mono; [apply (wp_moves _ create _ Hlater)|]. intros res s3 Hs3. right. exists d, held.
    split; [exact (answered_later _ _ _ _ _ _ Hs3 (listed_by_earlier _ _ _ _ _ _ Hs1 Hl))|]. split.
    + intros w Hw Hroot Hon. split.
      * destruct (aw_terminal_session_id w) as [x|] eqn:Hterm; [by eexists|exfalso].
        assert (Hin : w ∈ ([] : list AdeWorkspace)); [|by apply not_elem_of_nil in Hin]. rewrite <- Hnever.
        apply list_elem_of_filter; split; [done|]. apply list_elem_of_filter; split; [done|]. by apply list_elem_of_filter.
      * intros record Hrec Hid.
        assert (Hin : w ∈ ([] : list AdeWorkspace)); [|by apply not_elem_of_nil in Hin]. rewrite <- Hheld.
        apply list_elem_of_filter; split.
        { apply existsb_exists. exists record. split; [by apply list_elem_of_In|by apply bool_decide_eq_true_2]. }
        apply list_elem_of_filter; split; [done|]. by apply list_elem_of_filter.
    + intros record Hrec Hroot.
      destruct (decide (bw_id record ∈ used_on (daemon_key d host) host (list_workspaces t))) as [Hused|Hunused].
      * unfold used_on in Hused. apply list_elem_of_fmap in Hused as (w & Hid & [Hon Hw]%list_elem_of_filter). by exists w.
      * assert (Hin : record ∈ ([] : list BackendWorkspace)); [|by apply not_elem_of_nil in Hin]. rewrite <- Hold.
        apply list_elem_of_filter; split; [by split|done].
Qed.
End Adopting.

(** ** The daemon goes first *)

Section First.
Context `{SessionBackends}.

Definition looks (s s' : Service) : Prop := same_registry s s' ∧ asks_only any_call s s'.

#[local] Instance looks_preorder : PreOrder looks.
Proof.
  split; [intros s; split; reflexivity|]. intros s1 s2 s3 [? ?] [? ?]. split; by etrans.
Qed.

Lemma wp_looks {A} (m : st Service A) s : moves same_registry m → moves (asks_only any_call) m → wp m (λ _ s', looks s s') s.
Proof. intros H1 H2. split; auto. Qed.

Lemma any_backend_for_host host : moves (asks_only any_call) (backend_for_host host).
Proof. unfold backend_for_host, forward_status, ensure_pump, subscribe_events, record_status_error. moves_tac. Qed.

Lemma looks_backend_for w s : wp (backend_for w) (λ _ s', looks s s') s.
Proof. apply wp_looks; [apply same_registry_backend_for_host|apply any_backend_for_host]. Qed.

(** The daemon a destructive request is fenced to: the one the row belongs to, or, where it
    has none, the one that the host just listed. *)
Definition fence (s s' : Service) (w : AdeWorkspace) (d : option string) : Prop :=
  (is_Some d ∧ aw_daemon_id w = d) ∨ (aw_daemon_id w = None ∧ ∃ held, listed_by s s' (aw_remote_host w) d held).

Lemma observes_looks s s' : observes s s' → looks s s'.
Proof. intros [H1 H2]. split; [done|by apply not_create_any]. Qed.

Lemma listed_by_looks s s0 s1 s' host d held : looks s s0 → looks s1 s' →
  listed_by s0 s1 host d held → listed_by s s' host d held.
Proof. intros [_ H1] [_ H2] Hl. eapply answered_earlier; [exact H1|]. by eapply answered_later. Qed.

Lemma fence_later s s' s'' w d : looks s' s'' → fence s s' w d → fence s s'' w d.
Proof.
  intros Hl [?|[? (held & Hh)]]; [by left|right]. split; [done|]. exists held. by eapply listed_by_looks.
Qed.

Lemma fenced_daemon_fence w purpose s :
  wp (fenced_daemon w purpose) (λ r s', looks s s' ∧ match r with Ok d => fence s s' w d | Err _ => True end) s.
Proof.
  unfold fenced_daemon. wp_step. eapply wp_mono; [apply looks_backend_for|]. intros [[]|e] s1 Hs1; [|done].
  destruct (aw_daemon_id w) as [d|] eqn:Hd; [apply wp_ret; split; [done|left; split; [by eexists|done]]|].
  wp_step. eapply wp_mono; [apply wp_listed|]. intros [first|e] s2 [Hs2 Hfirst];
    apply observes_looks in Hs2; [|by split; [etrans|]].
  wp_step. eapply wp_mono; [apply wp_listed|]. intros [again|e] s3 [Hs3 _];
    apply observes_looks in Hs3; [|by split; [etrans; [|etrans]|]].
  case_decide; apply wp_ret; (split; [by etrans; [|etrans]|]); [|done].
  right. split; [done|]. exists (id_items first). by eapply listed_by_looks.
Qed.

(** What the registry of [s] keeps until [c] is answered. *)
Definition only_after (s : Service) (said : Service → Prop) (s' : Service) : Prop :=
  sv_registry s' ≠ sv_registry s → said s'.

Lemma answered_looks s s0 s1 s' host c a : looks s s0 → asks_only any_call s1 s' →
  answered s0 s1 host c a → answered s s' host c a.
Proof. intros [_ H1] H2 Ha. eapply answered_earlier; [exact H1|]. by eapply answered_later. Qed.

Definition killed_first (s s' : Service) (w : AdeWorkspace) : Prop :=
  ∃ d, fence s s' w d ∧ answered s s' (aw_remote_host w) (CallKillWorkspace (daemon_workspace_id w) d) (Ok ()).

Lemma wp_kill_first {A} w purpose ctx (k : svc A) s :
  moves (asks_only any_call) k →
  wp (daemon_id ←? fenced_daemon w purpose;
      _ ←? with_context ctx (backend_kill_workspace (aw_remote_host w) (daemon_workspace_id w) daemon_id); k)
     (λ _ s', asks_only any_call s s' ∧ only_after s (λ s', killed_first s s' w) s') s.
Proof.
  intros Hk. wp_step. eapply wp_mono; [apply fenced_daemon_fence|].
  intros [d|e] s1 [[Hsame Hasks] Hf]; [|split; [done|intros Hne; by destruct Hne]].
  wp_step. apply wp_with_context. unfold backend_kill_workspace. wp_step. apply (wp_answered _ (CallKillWorkspace _ _)).
  intros a s2 Ha Hasks2 Hsame2. apply wp_ret. destruct a as [[]|e]; cbn [lift_text map_err].
  2: { split; [by etrans|]. intros Hne. destruct Hne. unfold same_registry in *. congruence. }
  eapply wp_mono; [apply (wp_moves _ k _ Hk)|]. intros r s3 Hs3. split; [by etrans; [|etrans]|]. intros _. exists d. split.
  - destruct Hf as [?|[Hd (held & Hh)]]; [by left|right]. split; [done|]. exists held.
    apply (answered_later s s1); [by etrans|exact Hh].
  - apply (answered_looks s s1 s2); done.
Qed.

Lemma get_run id s : get id s = (match get_workspace id (sv_registry s) with
  | Some w => Ok w | None => Err (Bail ("no workspace with id " +:+ id)) end, s).
Proof. unfold get, bind_ok, query. by destruct (get_workspace id _). Qed.

(** C16. The daemon goes first. A workspace's row is renamed, marked killed or deleted only
    once the daemon has done its part, under the row's own id and, for a kill, fenced to
    the daemon the row belongs to or the one its host just answered as; until then the
    registry is as it was, so a refusal or a lost host leaves nothing to repair. *)
Theorem the_daemon_goes_first s :
  (∀ id name, let '(_, s') := rename_workspace id name s in
     only_after s (λ s', ∃ w, get_workspace id (sv_registry s) = Some w ∧ trim name ≠ "" ∧
       answered s s' (aw_remote_host w) (CallRename (daemon_workspace_id w) (trim name) (aw_daemon_id w)) (Ok ())) s') ∧
  (∀ id, let '(_, s') := kill_workspace id s in
     only_after s (λ s', ∃ w, get_workspace id (sv_registry s) = Some w ∧ killed_first s s' w) s') ∧
  (∀ w, let '(_, s') := kill_and_delete_workspace w s in only_after s (λ s', killed_first s s' w) s').
Proof.
  split_and!.
  - intros id name. apply wp_run. unfold rename_workspace. wp_step. unfold wp at 1. rewrite get_run. cbn [fst snd].
    destruct (get_workspace id (sv_registry s)) as [w|] eqn:Hw; [|intros Hne; by destruct Hne].
    cbv zeta. case_decide; [intros Hne; by destruct Hne|]. case_decide; [intros Hne; by destruct Hne|].
    wp_step. eapply wp_mono; [apply looks_backend_for|]. intros [[]|e] s1 [Hsame1 Hasks1]; [|intros Hne; by destruct Hne].
    wp_step. apply wp_with_context. unfold backend_rename. wp_step. apply (wp_answered _ (CallRename _ _ _)).
    intros a s2 Ha Hasks2 Hsame2. apply wp_ret. destruct a as [[]|e]; cbn [lift_text map_err].
    2: { intros Hne. destruct Hne. unfold same_registry in *. congruence. }
    wp_step. apply wp_with_context. eapply wp_mono; [apply (wp_moves (asks_only any_call)); moves_tac|].
    intros r s3 Hs3. assert (Hans : ∃ w0, Some w = Some w0 ∧ trim name ≠ "" ∧
      answered s s3 (aw_remote_host w0) (CallRename (daemon_workspace_id w0) (trim name) (aw_daemon_id w0)) (Ok ())).
    { exists w. split_and!; [done|done|]. by apply (answered_looks s s1 s2). }
    destruct r as [?|?]; [apply wp_ret|]; intros _; exact Hans.
  - intros id. apply wp_run. unfold kill_workspace. wp_step. unfold wp at 1. rewrite get_run. cbn [fst snd].
    destruct (get_workspace id (sv_registry s)) as [w|] eqn:Hw; [|intros Hne; by destruct Hne].
    eapply wp_mono; [apply wp_kill_first; unfold record_workspace_killed, set_status; moves_tac|].
    intros r s' [_ Hafter] Hne. exists w. split; [done|by apply Hafter].
  - intros w. apply wp_run. unfold kill_and_delete_workspace. eapply wp_mono; [apply wp_kill_first; moves_tac|].
    by intros r s' [_ Hafter].
Qed.

(** ** Cleaning up *)

Definition not_kill (hc : option string * call) : bool := match hc.2 with CallKillWorkspace _ _ => false | _ => true end.

Definition wf_kept (s s' : Service) : Prop := registry_wf (sv_registry s) → registry_wf (sv_registry s').

#[local] Instance wf_kept_preorder : PreOrder wf_kept.
Proof. split; [by intros s Hwf|]. intros s1 s2 s3 H1 H2 Hwf. by apply H2, H1. Qed.

(** A kill of [id] on [host], fenced to [d], is justified: a confirmed workspace that just
    answered it is dead. *)
Definition justified (candidate_ids : list string) (s0 s : Service) (host : option string) (id : string) (d : option string) : Prop :=
  ∃ w session, aw_id w ∈ candidate_ids ∧ aw_remote_host w = host ∧ aw_terminal_session_id w = Some session ∧
    daemon_workspace_id w = id ∧ fence s0 s w d ∧
    answered s0 s host (CallExists session (aw_daemon_id w)) (Ok false).

Definition kills_justified (candidate_ids : list string) (s0 s : Service) : Prop :=
  registry_wf (sv_registry s) ∧
  ∃ new, sv_asked s = sv_asked s0 ++ new ∧
    ∀ host id d, (host, CallKillWorkspace id d) ∈ new → justified candidate_ids s0 s host id d.

Lemma fence_asks s0 s s' w d : asks_only any_call s s' → fence s0 s w d → fence s0 s' w d.
Proof.
  intros Ha [?|[? (held & Hh)]]; [by left|right]. split; [done|]. exists held. by apply (answered_later s0 s).
Qed.

Lemma justified_later ids s0 s s' host id d : asks_only any_call s s' → justified ids s0 s host id d → justified ids s0 s' host id d.
Proof.
  intros Ha (w & session & ? & ? & ? & ? & ? & ?). exists w, session.
  do 4 (split; [done|]). split; [by apply (fence_asks s0 s)|by apply (answered_later s0 s)].
Qed.

Lemma asks_any P s s' : asks_only P s s' → asks_only any_call s s'.
Proof. intros (new & Ha & _). exists new. split; [done|]. by apply Forall_true. Qed.

Lemma kills_justified_quiet ids s0 s s' : kills_justified ids s0 s → asks_only not_kill s s' → wf_kept s s' →
  kills_justified ids s0 s'.
Proof.
  intros [Hwf (new & Hnew & Hj)] Ha Hk. split; [auto|]. pose proof (asks_any _ _ _ Ha) as Hany.
  destruct Ha as (more & Hmore & Hf). exists (new ++ more). split; [by rewrite Hmore, Hnew, app_assoc|].
  intros host id d [Hin|Hin]%elem_of_app; [eapply justified_later; eauto|].
  rewrite Forall_forall in Hf. by specialize (Hf _ Hin).
Qed.

Lemma wf_kept_sql {A} (m : statement A) : writes m → moves wf_kept (sql m).
Proof. intros Hm s Hwf. unfold sql. specialize (Hm _ Hwf). by destruct (m _). Qed.

Lemma delete_workspace_writes id : writes (delete_workspace id).
Proof. intros t Hwf. by apply registry_wf_delete. Qed.

Lemma wf_kept_same s s' : same_registry s s' → wf_kept s s'.
Proof. intros Hs Hwf. unfold same_registry in Hs. by rewrite Hs. Qed.

Lemma probe_heard w s :
  wp (probe w) (λ r s', asks_only not_kill s s' ∧ wf_kept s s' ∧ match r with
    | Ok (w', Dead) => w' = with_label (aw_name w) Workspace_Disconnected w ∧ ∃ session, aw_terminal_session_id w = Some session ∧
        answered s s' (aw_remote_host w) (CallExists session (aw_daemon_id w)) (Ok false)
    | _ => True end) s.
Proof.
  apply wp_and.
  { apply (wp_moves (asks_only not_kill)). unfold probe, backend_for, backend_for_host, forward_status, ensure_pump,
      subscribe_events, record_status_error, backend_exists, record_probe, set_status. moves_tac. }
  apply wp_and.
  { apply (wp_moves wf_kept). unfold probe, backend_for. moves_tac.
    - intros t. apply wf_kept_same, same_registry_backend_for_host.
    - intros t. apply wf_kept_same. unfold backend_exists. revert t. change (moves same_registry (r ← ask (aw_remote_host w) (CallExists s0 (aw_daemon_id w)); mret (lift_text r))).
      moves_tac.
    - unfold record_probe, set_status. moves_tac; apply wf_kept_sql, keeps_writes; by apply update_where_keeps. }
  unfold probe. destruct (aw_terminal_session_id w) as [session|] eqn:Hsess; [|by apply wp_ret].
  wp_step. eapply wp_mono; [apply looks_backend_for|]. intros [[]|e] s1 Hs1; [|done].
  wp_step. apply wp_with_context. unfold backend_exists. wp_step. apply (wp_answered _ (CallExists _ _)).
  intros a s2 Ha _ _. apply wp_ret. destruct a as [alive|e]; cbn [lift_text map_err]; [|done].
  destruct (record_probe w alive s2) as [r s3] eqn:Hr. unfold wp. rewrite Hr. cbn [fst snd].
  destruct r as [[w' state]|e]; [|done]. pose proof (record_probe_says _ _ _ _ _ _ Hr) as [-> ->].
  destruct alive; [done|]. split; [done|]. exists session. split; [done|]. apply (answered_looks s s1 s2); [done| |done].
  assert (Hm : moves (asks_only any_call) (record_probe w false)) by (unfold record_probe, set_status; moves_tac).
  specialize (Hm s2). by rewrite Hr in Hm.
Qed.

Lemma get_workspace_id id t w : keyed t → get_workspace id t = Some w → aw_id w = id.
Proof.
  intros Hk. unfold get_workspace. destruct (t !! id) as [r|] eqn:Hr; [|done]. destruct (used r); [|done].
  intros [= <-]. by apply Hk.
Qed.

Lemma wp_ask_exact host c Q s :
  Q (answer_of (sv_asked s) host c) (with_asked (λ l, l ++ [(host, c)]) s) → wp (ask host c) Q s.
Proof. done. Qed.

Lemma kills_justified_asks ids s0 s : kills_justified ids s0 s → asks_only any_call s0 s.
Proof. intros [_ (new & Hnew & _)]. exists new. split; [done|]. by apply Forall_true. Qed.

(** A kill of a workspace that is justified already. *)
Lemma kill_and_delete_justified ids w session s0 s :
  kills_justified ids s0 s → aw_id w ∈ ids → aw_terminal_session_id w = Some session →
  answered s0 s (aw_remote_host w) (CallExists session (aw_daemon_id w)) (Ok false) →
  wp (kill_and_delete_workspace w) (λ _ s', kills_justified ids s0 s') s.
Proof.
  intros HK Hin Hterm Hans. pose proof (kills_justified_asks _ _ _ HK) as Hs0.
  assert (Hquiet : moves (asks_only not_kill) (fenced_daemon w "delete")).
  { unfold fenced_daemon, backend_for, backend_for_host, forward_status, ensure_pump, subscribe_events, record_status_error,
      list_workspaces_identified. moves_tac. }
  assert (Hregs : moves same_registry (fenced_daemon w "delete")).
  { unfold fenced_daemon, list_workspaces_identified, backend_for. moves_tac; apply same_registry_backend_for_host. }
  unfold kill_and_delete_workspace. wp_step. eapply wp_mono; [apply wp_and; [apply fenced_daemon_fence|
    apply wp_and; [apply (wp_moves _ _ _ Hquiet)|apply (wp_moves _ _ _ Hregs)]]|].
  intros r s1 [[[_ Hl] Hf] [Hq Hr]].
  assert (HK1 : kills_justified ids s0 s1) by (eapply kills_justified_quiet; [exact HK|exact Hq|by apply wf_kept_same]).
  destruct r as [d|e]; [|done].
  wp_step. apply wp_with_context. unfold backend_kill_workspace. wp_step. apply (wp_ask_exact _ (CallKillWorkspace _ _)).
  set (s2 := with_asked _ s1). set (a := answer_of _ _ _). apply wp_ret.
  assert (Hs12 : asks_only any_call s1 s2) by (exists [(aw_remote_host w, CallKillWorkspace (daemon_workspace_id w) d)]; split; [done|by repeat constructor]).
  assert (Hj : justified ids s0 s2 (aw_remote_host w) (daemon_workspace_id w) d).
  { exists w, session. do 4 (split; [done|]). split.
    - apply (fence_asks s0 s1); [done|]. destruct Hf as [?|[? (held & Hh)]]; [by left|right]. split; [done|].
      exists held. by apply (answered_earlier s0 s s1).
    - apply (answered_later s0 s); [by etrans|done]. }
  assert (HK2 : kills_justified ids s0 s2).
  { destruct HK1 as [Hwf1 (new & Hnew & Hold)]. split; [done|].
    exists (new ++ [(aw_remote_host w, CallKillWorkspace (daemon_workspace_id w) d)]).
    split; [unfold s2; cbn; by rewrite Hnew, app_assoc|].
    intros host id d' [Hi|Hi]%elem_of_app; [eapply justified_later; [exact Hs12|by apply Hold]|].
    apply list_elem_of_singleton in Hi as [= -> -> ->]. exact Hj. }
  destruct a as [[]|e]; cbn [lift_text map_err]; [|done].
  assert (Hdel : moves (asks_only not_kill) (with_context ("deleting workspace " +:+ aw_id w +:+ " from the registry")
    (sql (delete_workspace (aw_id w))))) by moves_tac.
  assert (Hwf : moves wf_kept (with_context ("deleting workspace " +:+ aw_id w +:+ " from the registry")
    (sql (delete_workspace (aw_id w))))) by (apply moves_with_context, wf_kept_sql, delete_workspace_writes).
  eapply kills_justified_quiet; [exact HK2|apply Hdel|apply Hwf].
Qed.

Lemma cleanup_one_justified ids w s0 s : kills_justified ids s0 s → aw_id w ∈ ids →
  wp (cleanup_one w) (λ _ s', kills_justified ids s0 s') s.
Proof.
  intros HK Hin. unfold cleanup_one. wp_step. apply wp_query.
  destruct (get_workspace (aw_id w) (sv_registry s)) as [current|] eqn:Hget; [|by apply wp_ret].
  apply get_workspace_id in Hget; [|apply (proj1 HK)].
  wp_step. eapply wp_mono; [apply probe_heard|]. intros r s1 (Hq & Hwf & Hr).
  assert (HK1 : kills_justified ids s0 s1) by by eapply kills_justified_quiet.
  destruct r as [[w' []]|e]; try by apply wp_ret.
  destruct Hr as (-> & session & Hsess & Hans). wp_step. apply wp_with_context.
  eapply wp_mono.
  { apply (kill_and_delete_justified ids _ session s0); [done|by rewrite <- Hget in Hin|done|].
    apply (answered_earlier s0 s s1); [by eapply kills_justified_asks|done]. }
  intros [[]|e] s2 HK2; [by apply wp_ret|done].
Qed.

Lemma cleanup_kills_justified candidate_ids s : registry_wf (sv_registry s) →
  wp (cleanup_dead_workspaces candidate_ids) (λ _ s', kills_justified candidate_ids s s') s.
Proof.
  intros Hwf. unfold cleanup_dead_workspaces. wp_step.
  assert (Hall : moves settles reconcile_all) by (unfold reconcile_all, list_rows; moves_tac).
  eapply wp_mono; [apply (wp_moves _ _ _ Hall)|]. intros r s1 [[Hw _] (new & Hnew & Hlisting)].
  assert (HK : kills_justified candidate_ids s s1).
  { split; [auto|]. exists new. split; [done|]. intros host id d Hin. rewrite Forall_forall in Hlisting.
    by specialize (Hlisting _ Hin). }
  destruct r as [rc|e]; [|done]. clear Hw Hnew Hlisting new.
  generalize (omap persisted (rc_entries rc)) as entries. intros entries. generalize 0%nat as n. intros n.
  revert n s1 HK. induction entries as [|[w state] entries IH]; intros n s1 HK; [by apply wp_ret|]. cbn [fold_ok].
  wp_step. case_decide as Hd; [|by apply wp_ret, IH].
  wp_step. eapply wp_mono; [apply cleanup_one_justified; [done|apply Hd]|].
  intros [gone|e] s2 HK2; [by apply wp_ret, IH|done].
Qed.

(** Cleaning up destroys only what was confirmed and is dead: every workspace that a
    daemon is told to kill is one of those the user confirmed, by the id of its own
    session, fenced to its own daemon, and its host just answered that the session is not
    there. *)
Theorem cleaning_up_kills_only_the_dead candidate_ids s : registry_wf (sv_registry s) →
  let '(_, s') := cleanup_dead_workspaces candidate_ids s in
  registry_wf (sv_registry s') ∧
  ∃ new, sv_asked s' = sv_asked s ++ new ∧
    ∀ host id d, (host, CallKillWorkspace id d) ∈ new → justified candidate_ids s s' host id d.
Proof. intros Hwf. by apply wp_run, cleanup_kills_justified. Qed.
End First.

(** ** At work *)

#[local] Abbreviation B := sample_backends.

Definition from_result {E A B} (f : A → B) (r : result E A) : option B :=
  match r with Ok a => Some (f a) | Err _ => None end.

Lemma made_up_names_give_way_witness :
  display_name_for (tmux_session_name "My feature!" "0123abcdef") "zorca" = "zorca" ∧
  display_name_for "my-branch-012345" "zorca" = "my-branch-012345".
Proof.
  split.
  - apply (proj1 (made_up_names_give_way "zorca")); [by apply leb_complete|reflexivity].
  - apply (proj2 (made_up_names_give_way "zorca")). intros H%is_derived_spec. discriminate H.
Defined.

Lemma recording_a_project_ends_witness :
  let '(res, s') := @update_workspace_project_scope B 2 "a" "zorca" "/zorca" sample_service in
  match res with
  | Ok w => aw_project_id w = "zorca" ∧ aw_project_identity w = Some "/zorca" ∧
      get_workspace "a" (sv_registry s') = Some w
  | Err _ => False
  end.
Proof.
  assert (Hrow : row_at sample_rows "a" sample_a) by done.
  assert (Hrange : 0 ≤ aw_project_scope_rev (row_workspace sample_a) ≤ u64_max) by (vm_compute; split; discriminate).
  assert (Hlast : aw_project_scope_rev (row_workspace sample_a) ≠ last_revision) by discriminate.
  pose proof (@recording_a_project_ends B 2 "a" "zorca" "/zorca" sample_service sample_a sample_rows_wf Hrow
    (le_n 2) Hrange Hlast) as H.
  destruct (@update_workspace_project_scope _ _ _ _ _ _) as [[w|e] s']; [exact H|]. by destruct H as (_ & ? & _).
Defined.

(** A row at the greatest revision, which a client that counts past it meets. *)
Definition sample_last : Row :=
  on_workspace (with_scope last_revision "p" "/repo" "/repo") sample_a.

Definition sample_last_service : Service := with_registry (λ _, {[ "a" := sample_last ]}) sample_service.

Lemma registry_wf_singleton r : registry_wf {[ aw_id (row_workspace r) := r ]}.
Proof.
  split; [by intros i r' [<- <-]%lookup_singleton_Some|].
  intros i j r1 r2 key [<- <-]%lookup_singleton_Some [<- <-]%lookup_singleton_Some. done.
Qed.

Lemma a_last_revision_never_settles_witness :
  (@update_workspace_project_scope B 100 "a" "zorca" "/zorca" sample_last_service).1 = Err Unfinished.
Proof.
  apply (@a_last_revision_never_settles B 100 "a" "zorca" "/zorca" sample_last_service sample_last);
    [|exact (registry_wf_singleton sample_last)|done|done|by eexists|by intros [? _]].
  intros past host w p i root least expected rev [= <-]. by vm_compute.
Defined.


(** A directory that nobody holds a workspace of. *)
Lemma creating_needs_an_answer_witness :
  let '(res, s') := @adopt_or_create_workspace B 2 "/other" (Some "h") None sample_service in
  from_result snd res = Some true ∧
  ∃ d held, @listed_by B sample_service s' (Some "h") d held.
Proof.
  pose proof (@creating_needs_an_answer B 2 "/other" (Some "h") None sample_service) as H. cbv zeta in H.
  assert (Hnew : from_result snd (@adopt_or_create_workspace B 2 "/other" (Some "h") None sample_service).1 = Some true)
    by (vm_compute; reflexivity).
  destruct (@adopt_or_create_workspace _ _ _ _ _ _) as [res s']. split; [exact Hnew|].
  destruct H as [[_ Hno]|(d & held & Hl & _)]; [|by exists d, held].
  destruct res as [[w created]|]; [|done]. injection Hnew as ->. by destruct (Hno w).
Defined.

Lemma the_daemon_goes_first_witness :
  let '(_, s') := @kill_workspace B "a" sample_service in
  sv_registry s' ≠ sample_rows ∧ ∃ w, get_workspace "a" sample_rows = Some w ∧ @killed_first B sample_service s' w.
Proof.
  pose proof (proj1 (proj2 (@the_daemon_goes_first B sample_service)) "a") as H.
  assert (Hchanged : from_option aw_status Workspace_Running
    (get_workspace "a" (sv_registry (@kill_workspace B "a" sample_service).2)) ≠ Workspace_Running)
    by (vm_compute; discriminate).
  destruct (@kill_workspace _ _ _) as [res s']. cbn [snd] in Hchanged.
  assert (Hne : sv_registry s' ≠ sample_rows) by (intros Heq; rewrite Heq in Hchanged; by apply Hchanged).
  split; [exact Hne|]. exact (H Hne).
Defined.

(** Both rows are confirmed; only [c] is dead. *)
Lemma cleaning_up_kills_only_the_dead_witness :
  let '(res, s') := @cleanup_dead_workspaces B ["a"; "c"] sample_service in
  res = Ok 1%nat ∧ (Some "h", CallKillWorkspace "z" (Some "d")) ∈ sv_asked s' ∧
  @justified B ["a"; "c"] sample_service s' (Some "h") "z" (Some "d").
Proof.
  pose proof (@cleaning_up_kills_only_the_dead B ["a"; "c"] sample_service sample_rows_wf) as H.
  assert (Hres : (@cleanup_dead_workspaces B ["a"; "c"] sample_service).1 = Ok 1%nat) by (vm_compute; reflexivity).
  assert (Hin : existsb (λ hc, match hc.2 with CallKillWorkspace id d =>
      bool_decide (hc.1 = Some "h" ∧ id = "z" ∧ d = Some "d") | _ => false end)
    (sv_asked (@cleanup_dead_workspaces B ["a"; "c"] sample_service).2) = true) by (vm_compute; reflexivity).
  destruct (@cleanup_dead_workspaces _ _ _) as [res s']. destruct H as (_ & new & Hnew & Hjust). cbn in Hnew.
  apply existsb_exists in Hin as ([host c] & Hin & Hc). apply list_elem_of_In in Hin. cbn [fst snd sv_asked] in *.
  destruct c; try done. apply bool_decide_eq_true in Hc as (-> & -> & ->).
  split; [exact Hres|]. split; [exact Hin|]. apply Hjust. by rewrite Hnew in Hin.
Defined.
