(* ===== verification/Windows.v ===== *)
(** * A client's windows and the events that reach them

    [AdeLayouts] of [crates/ade_workspaces/src/layout.rs], which keeps one [LayoutSync]
    per window and hands the merged event stream to those it is for, and the claims by
    which a window connects once ([claim_window] of connect.rs). *)

From S2P Require Import Prelude Text Layout Float32 Panes Sync Events Registry Service Hosts HostSpecs Workspaces.
From stdpp Require Import options.
Open Scope Z_scope.

(** ** The state *)

(** A window's sync and the workspace it shows. *)
Record Window : Type := mkWindow { wd_ade_workspace : AdeWorkspace; wd_sync : LayoutSync }.

Inductive ClaimState : Type := InFlight (claim : nat) | Completed.

(** [AdeLayouts], by the ids of windows, with what its handlers touch besides: the
    bindings ([BoundWorkspaces]), the claims, which windows ADE lays out, what is
    deferred, and the renders begun, oldest first. *)
Record AdeLayouts : Type := mkAdeLayouts {
  ly_syncs : gmap nat Window;
  ly_streaming : bool;
  ly_bound : gset nat;
  ly_claims : gmap nat ClaimState;
  ly_owned : gset nat;
  ly_deferred : list nat;
  ly_renders : list (nat * LayoutDoc)
}.

Definition with_syncs (f : gmap nat Window → gmap nat Window) (s : AdeLayouts) : AdeLayouts :=
  mkAdeLayouts (f (ly_syncs s)) (ly_streaming s) (ly_bound s) (ly_claims s) (ly_owned s) (ly_deferred s) (ly_renders s).
Definition with_streaming (b : bool) (s : AdeLayouts) : AdeLayouts :=
  mkAdeLayouts (ly_syncs s) b (ly_bound s) (ly_claims s) (ly_owned s) (ly_deferred s) (ly_renders s).
Definition with_bound (f : gset nat → gset nat) (s : AdeLayouts) : AdeLayouts :=
  mkAdeLayouts (ly_syncs s) (ly_streaming s) (f (ly_bound s)) (ly_claims s) (ly_owned s) (ly_deferred s) (ly_renders s).
Definition with_claims (f : gmap nat ClaimState → gmap nat ClaimState) (s : AdeLayouts) : AdeLayouts :=
  mkAdeLayouts (ly_syncs s) (ly_streaming s) (ly_bound s) (f (ly_claims s)) (ly_owned s) (ly_deferred s) (ly_renders s).
Definition with_owned (f : gset nat → gset nat) (s : AdeLayouts) : AdeLayouts :=
  mkAdeLayouts (ly_syncs s) (ly_streaming s) (ly_bound s) (ly_claims s) (f (ly_owned s)) (ly_deferred s) (ly_renders s).
Definition with_deferred (f : list nat → list nat) (s : AdeLayouts) : AdeLayouts :=
  mkAdeLayouts (ly_syncs s) (ly_streaming s) (ly_bound s) (ly_claims s) (ly_owned s) (f (ly_deferred s)) (ly_renders s).
Definition with_renders (f : list (nat * LayoutDoc) → list (nat * LayoutDoc)) (s : AdeLayouts) : AdeLayouts :=
  mkAdeLayouts (ly_syncs s) (ly_streaming s) (ly_bound s) (ly_claims s) (ly_owned s) (ly_deferred s) (f (ly_renders s)).

(** ** Claims *)

(** [claim] is a fresh token. *)
Definition claim_window (id claim : nat) : st AdeLayouts (option nat) := λ s,
  match ly_claims s !! id with
  | None => (Some claim, with_claims (<[id := InFlight claim]>) s)
  | Some _ => (None, s)
  end.

Definition connection_is_in_flight (id : nat) (s : AdeLayouts) : bool :=
  match ly_claims s !! id with Some (InFlight _) => true | _ => false end.

Definition complete_window_claim (id claim : nat) : st AdeLayouts () := st_modify (λ s,
  match ly_claims s !! id with
  | Some (InFlight current) => if Nat.eqb current claim then with_claims (<[id := Completed]>) s else s
  | _ => s
  end).

Definition release_window_claim (id : nat) : st AdeLayouts () := st_modify (with_claims (delete id)).
Definition clear_window_binding (id : nat) : st AdeLayouts () := st_modify (with_bound (λ b, b ∖ {[id]})).

(** ** Windows come and go *)

(** [opens]: whether the service's stream could be subscribed to. The capture that a new
    sync schedules is the sync's own (Sync). *)
Definition install (id : nat) (ade_workspace : AdeWorkspace) (layout : LayoutDoc) (rev : Z) (opens : bool) : st AdeLayouts () :=
  st_modify (with_syncs (<[id := mkWindow ade_workspace (schedule (sync_new layout rev))]>)) ;;
  st_modify (λ s, if ly_streaming s then s else with_streaming opens s).

(** The window closed, or is let go. *)
Definition forget_window (id : nat) : st AdeLayouts () := st_modify (with_syncs (delete id)).

Definition is_for (ade_workspace : AdeWorkspace) (w : Window) : bool :=
  bool_decide (daemon_workspace_id (wd_ade_workspace w) = daemon_workspace_id ade_workspace) &&
  bool_decide (aw_remote_host (wd_ade_workspace w) = aw_remote_host ade_workspace) &&
  bool_decide (aw_daemon_id (wd_ade_workspace w) = aw_daemon_id ade_workspace).

Definition is_showing (id : nat) (ade_workspace : AdeWorkspace) (s : AdeLayouts) : bool :=
  match ly_syncs s !! id with Some w => is_for ade_workspace w | None => false end.

(** ** Events *)

Definition addressed (remote_host daemon_id : option string) (workspace_id : string) (w : Window) : bool :=
  bool_decide (aw_remote_host (wd_ade_workspace w) = remote_host) &&
  bool_decide (daemon_workspace_id (wd_ade_workspace w) = workspace_id) &&
  match aw_daemon_id (wd_ade_workspace w) with
  | None => true
  | Some expected => bool_decide (daemon_id = Some expected)
  end.

Definition syncs_for_event (remote_host daemon_id : option string) (workspace_id : string) (s : AdeLayouts) : list nat :=
  map fst (filter (λ p, addressed remote_host daemon_id workspace_id p.2 = true) (map_to_list (ly_syncs s))).

Section Handlers.
(** What a capture of each window answers. *)
Context (local : nat → option LayoutDoc).

(** [Entity::update] of the sync of a window. *)
Definition sync_update (id : nat) (handler : Window → LayoutSync * option LayoutDoc) : st AdeLayouts () := st_modify (λ s,
  match ly_syncs s !! id with
  | None => s
  | Some w =>
      let '(sync, render) := handler w in
      with_renders (λ l, l ++ option_list ((λ layout, (id, layout)) <$> render))
        (with_syncs (<[id := mkWindow (wd_ade_workspace w) sync]>) s)
  end).

Definition hears (id : nat) (event : LayoutEvent) (w : Window) : LayoutSync * option LayoutDoc :=
  on_layout_event (daemon_workspace_id (wd_ade_workspace w)) (local id) event (wd_sync w).

Definition resets (event : LayoutEvent) (w : Window) : LayoutSync * option LayoutDoc :=
  on_workspace_reset (daemon_workspace_id (wd_ade_workspace w)) event (wd_sync w).

Definition catch_up_if_showing (id : nat) (ade_workspace : AdeWorkspace) (stored : WorkspaceLayout) : st AdeLayouts bool := λ s,
  match ly_syncs s !! id with
  | None => (false, s)
  | Some w =>
      if negb (is_for ade_workspace w) then (false, s)
      else (true, (sync_update id (λ w,
              if sy_rev (wd_sync w) <? wl_rev stored
              then hears id (mkLayoutEvent (daemon_workspace_id ade_workspace) (wl_layout stored) (wl_rev stored)) w
              else (wd_sync w, None)) s).2)
  end.

Definition forget (remote_host daemon_id : option string) (workspace_id : string) : st AdeLayouts () :=
  doomed ← st_gets (syncs_for_event remote_host daemon_id workspace_id);
  for_st doomed (λ id,
    st_modify (with_syncs (delete id)) ;;
    clear_window_binding id ;;
    release_window_claim id ;;
    st_modify (with_deferred (λ l, l ++ [id]))).

(** The oldest thing deferred; [closed]: the window went meanwhile. *)
Definition run_deferred (closed : bool) : st AdeLayouts () := st_modify (λ s,
  match ly_deferred s with
  | [] => s
  | id :: rest =>
      let s := with_deferred (λ _, rest) s in
      match ly_syncs s !! id with
      | Some _ => s
      | None => if closed then s else with_owned (λ o, o ∖ {[id]}) s
      end
  end).

Definition handle_event (event : WorkspaceEvent) : st AdeLayouts () :=
  match event with
  | WE_Layout remote_host daemon_id event =>
      ids ← st_gets (syncs_for_event remote_host daemon_id (le_workspace_id event));
      for_st ids (λ id, sync_update id (hears id event))
  | WE_Reset remote_host daemon_id event =>
      ids ← st_gets (syncs_for_event remote_host daemon_id (le_workspace_id event));
      for_st ids (λ id, sync_update id (resets event))
  | WE_Removed remote_host daemon_id workspace_id => forget remote_host daemon_id workspace_id
  end.

(** The stream's task: what one host's events, as the service hands them on, do here. *)
Definition follow_deliveries (sent : list delivery) : st AdeLayouts () :=
  for_st (omap (λ d, match d with ToLayout _ event => Some event | _ => None end) sent) handle_event.
End Handlers.

(** ** Which windows an event reaches *)

Lemma elem_of_syncs_for_event host d wid s id :
  id ∈ syncs_for_event host d wid s ↔ ∃ w, ly_syncs s !! id = Some w ∧ addressed host d wid w = true.
Proof.
  unfold syncs_for_event. rewrite list_elem_of_fmap. split.
  - intros ([id' w] & -> & [Ha Hin]%list_elem_of_filter). apply elem_of_map_to_list in Hin. by exists w.
  - intros (w & Hw & Ha). exists (id, w). split; [done|]. apply list_elem_of_filter. split; [done|]. by apply elem_of_map_to_list.
Qed.

Lemma NoDup_syncs_for_event host d wid s : NoDup (syncs_for_event host d wid s).
Proof.
  unfold syncs_for_event. apply NoDup_fmap_fst; [|apply NoDup_filter, NoDup_map_to_list].
  intros id w w' [_ H1]%list_elem_of_filter [_ H2]%list_elem_of_filter. apply elem_of_map_to_list in H1, H2. congruence.
Qed.

(** What a handler of the syncs leaves alone. *)
Definition syncs_only (s s' : AdeLayouts) : Prop :=
  ly_streaming s' = ly_streaming s ∧ ly_bound s' = ly_bound s ∧ ly_claims s' = ly_claims s ∧ ly_owned s' = ly_owned s ∧
  ly_deferred s' = ly_deferred s.

Definition handled (f : Window → LayoutSync * option LayoutDoc) (w : Window) : Window := mkWindow (wd_ade_workspace w) (f w).1.

Lemma sync_updates_say (f : nat → Window → LayoutSync * option LayoutDoc) ids s : NoDup ids →
  let s' := (for_st ids (λ id, sync_update id (f id)) s).2 in
  syncs_only s s' ∧
  (∀ id, ly_syncs s' !! id = if decide (id ∈ ids) then handled (f id) <$> ly_syncs s !! id else ly_syncs s !! id) ∧
  ∃ new, ly_renders s' = ly_renders s ++ new ∧
    ∀ id layout, (id, layout) ∈ new → id ∈ ids ∧ ∃ w, ly_syncs s !! id = Some w ∧ (f id w).2 = Some layout.
Proof.
  intros Hids. revert s. induction Hids as [|x ids Hx Hids IH]; intros s; cbn [for_st].
  { split_and!; [done| |exists []; rewrite app_nil_r; split; [done|by intros ?? ?%elem_of_nil]].
    intros id. by rewrite decide_False by apply not_elem_of_nil. }
  rewrite st_bind_unfold. set (s1 := (sync_update x (f x) s).2).
  assert (H1 : syncs_only s s1 ∧ (∀ id, ly_syncs s1 !! id = if decide (id = x) then handled (f x) <$> ly_syncs s !! x else ly_syncs s !! id) ∧
    ∃ new, ly_renders s1 = ly_renders s ++ new ∧ ∀ id layout, (id, layout) ∈ new → id = x ∧ ∃ w, ly_syncs s !! id = Some w ∧ (f id w).2 = Some layout).
  { unfold s1. cbn. destruct (ly_syncs s !! x) as [w|] eqn:Hw.
    - destruct (f x w) as [sync render] eqn:Hf. cbn. split; [done|]. split.
      + intros id. case_decide as Hd; [subst; rewrite lookup_insert_eq; unfold handled; by rewrite Hf|by rewrite lookup_insert_ne].
      + eexists. split; [done|]. intros id layout Hin. destruct render as [r|]; cbn in Hin; [|by apply elem_of_nil in Hin].
        apply list_elem_of_singleton in Hin as [= -> ->]. split; [done|]. exists w. by rewrite Hf.
    - split; [done|]. split; [intros id; case_decide; by subst|]. exists []. rewrite app_nil_r. split; [done|by intros ?? ?%elem_of_nil]. }
  destruct H1 as (Ho1 & Hs1 & new1 & Hr1 & Hn1). destruct (IH s1) as (Ho2 & Hs2 & new2 & Hr2 & Hn2).
  split_and!.
  - unfold syncs_only in *. destruct_and!. split_and!; congruence.
  - intros id. rewrite Hs2, Hs1. destruct (decide (id = x)) as [->|Hne].
    + rewrite decide_False by done. by rewrite decide_True by left.
    + destruct (decide (id ∈ ids)); [by rewrite decide_True by (by right)|].
      by rewrite decide_False by (intros [->|?]%elem_of_cons; done).
  - exists (new1 ++ new2). rewrite Hr2, Hr1, app_assoc. split; [done|].
    intros id layout [Hin|Hin]%elem_of_app.
    + destruct (Hn1 _ _ Hin) as [-> ?]. by split; [left|].
    + destruct (Hn2 _ _ Hin) as (Hid & w & Hw & Hf). split; [by right|]. exists w. split; [|done].
      rewrite Hs1 in Hw. rewrite decide_False in Hw; [done|]. by intros ->.
Qed.

(** Letting windows go. *)
Lemma forgets_say ids s :
  let s' := (for_st ids (λ id, st_modify (with_syncs (delete id)) ;; clear_window_binding id ;; release_window_claim id ;;
    st_modify (with_deferred (λ l, l ++ [id]))) s).2 in
  (∀ id, ly_syncs s' !! id = if decide (id ∈ ids) then None else ly_syncs s !! id) ∧
  (∀ id, id ∈ ly_bound s' ↔ id ∈ ly_bound s ∧ id ∉ ids) ∧
  (∀ id, ly_claims s' !! id = if decide (id ∈ ids) then None else ly_claims s !! id) ∧
  ly_streaming s' = ly_streaming s ∧ ly_owned s' = ly_owned s ∧ ly_renders s' = ly_renders s ∧ ly_deferred s' = ly_deferred s ++ ids.
Proof.
  revert s. induction ids as [|x ids IH]; intros s; cbn [for_st].
  { cbv zeta. split_and!; try done; [cbn; set_solver|cbn; by rewrite app_nil_r]. }
  rewrite st_bind_unfold. cbn. destruct (IH (with_deferred (λ l, l ++ [x]) (with_claims (delete x)
    (with_bound (λ b, b ∖ {[x]}) (with_syncs (delete x) s))))) as (Hs & Hb & Hc & Hst & Ho & Hr & Hd). cbn in *.
  split_and!; try done.
  - intros id. rewrite Hs. destruct (decide (id = x)) as [->|Hne]; [rewrite (decide_True _ _ (list_elem_of_here _ _)); case_decide; [done|apply lookup_delete_eq]|].
    rewrite lookup_delete_ne by done. apply decide_ext. rewrite elem_of_cons. naive_solver.
  - intros id. rewrite Hb, elem_of_cons. set_solver.
  - intros id. rewrite Hc. destruct (decide (id = x)) as [->|Hne]; [rewrite (decide_True _ _ (list_elem_of_here _ _)); case_decide; [done|apply lookup_delete_eq]|].
    rewrite lookup_delete_ne by done. apply decide_ext. rewrite elem_of_cons. naive_solver.
  - etrans; [exact Hd|]. cbn. by rewrite <- app_assoc.
Qed.

(** What becomes of a window when its client hears [e] of a host. *)
Definition after_event (local : nat → option LayoutDoc) (host : option string) (e : IdentifiedDaemonEvent) (id : nat)
    (w : Window) : option Window :=
  let reached wid := addressed host (ie_daemon_id e) wid w in
  match ie_event e with
  | Event_Session _ => Some w
  | Event_Layout event | Event_WorkspaceChanged event =>
      Some (if reached (le_workspace_id event) then handled (hears local id event) w else w)
  | Event_WorkspaceReset event => Some (if reached (le_workspace_id event) then handled (resets event) w else w)
  | Event_WorkspaceRemoved wid => if reached wid then None else Some w
  end.

(** What such an event makes a window render. *)
Definition render_of (local : nat → option LayoutDoc) (e : IdentifiedDaemonEvent) (id : nat) (w : Window) : option LayoutDoc :=
  match ie_event e with
  | Event_Layout event | Event_WorkspaceChanged event => (hears local id event w).2
  | Event_WorkspaceReset event => (resets event w).2
  | Event_Session _ | Event_WorkspaceRemoved _ => None
  end.

(** The workspace an event is about. *)
Definition event_workspace (e : IdentifiedDaemonEvent) : string :=
  match ie_event e with
  | Event_Session _ => ""
  | Event_Layout event | Event_WorkspaceChanged event | Event_WorkspaceReset event => le_workspace_id event
  | Event_WorkspaceRemoved wid => wid
  end.

(** The whole of what an event does. *)
Definition followed (local : nat → option LayoutDoc) (host : option string) (e : IdentifiedDaemonEvent) (s s' : AdeLayouts) : Prop :=
  (∀ id, ly_syncs s' !! id = ((ly_syncs s !! id) ≫= after_event local host e id)) ∧
  (∀ id, match ly_syncs s !! id, ly_syncs s' !! id with
         | Some _, None => (id ∉ ly_bound s') ∧ ly_claims s' !! id = None ∧ id ∈ ly_deferred s'
         | _, _ => (id ∈ ly_bound s' ↔ id ∈ ly_bound s) ∧ ly_claims s' !! id = ly_claims s !! id
         end) ∧
  ly_owned s' = ly_owned s ∧
  ∃ new, ly_renders s' = ly_renders s ++ new ∧
    ∀ id layout, (id, layout) ∈ new → ∃ w, ly_syncs s !! id = Some w ∧
      addressed host (ie_daemon_id e) (event_workspace e) w = true ∧ render_of local e id w = Some layout.

Lemma sync_updates_follow local host e s (f : nat → Window → LayoutSync * option LayoutDoc) :
  (∀ id w, after_event local host e id w = Some (if addressed host (ie_daemon_id e) (event_workspace e) w then handled (f id) w else w)) →
  (∀ id w, render_of local e id w = (f id w).2) →
  followed local host e s (for_st (syncs_for_event host (ie_daemon_id e) (event_workspace e) s) (λ id, sync_update id (f id)) s).2.
Proof.
  intros Haf Hre. destruct (sync_updates_say f _ s (NoDup_syncs_for_event host (ie_daemon_id e) (event_workspace e) s))
    as ((_ & Hb & Hc & Ho & _) & Hs & new & Hr & Hn).
  assert (Hsyncs : ∀ id, ly_syncs (for_st (syncs_for_event host (ie_daemon_id e) (event_workspace e) s) (λ id, sync_update id (f id)) s).2 !! id =
    ((ly_syncs s !! id) ≫= after_event local host e id)).
  { intros id. rewrite Hs. case_decide as Hd.
    - apply elem_of_syncs_for_event in Hd as (w & Hw & Ha). rewrite Hw. cbn. by rewrite Haf, Ha.
    - destruct (ly_syncs s !! id) as [w|] eqn:Hw; [|done]. cbn. rewrite Haf.
      destruct (addressed _ _ _ w) eqn:Ha; [|done]. exfalso. apply Hd, elem_of_syncs_for_event. by exists w. }
  split; [exact Hsyncs|]. split_and!; [|done|].
  - intros id. rewrite Hsyncs, Hb, Hc. destruct (ly_syncs s !! id) as [w|]; [|done]. cbn. by rewrite Haf.
  - exists new. split; [done|]. intros id layout Hin. destruct (Hn _ _ Hin) as (Hid & w & Hw & Hf).
    apply elem_of_syncs_for_event in Hid as (w' & Hw' & Ha). rewrite Hw in Hw'. injection Hw' as <-. exists w. by rewrite Hre.
Qed.

Lemma forget_follows local host d wid s :
  followed local host (mkIdentifiedDaemonEvent d (Event_WorkspaceRemoved wid)) s (forget host d wid s).2.
Proof.
  unfold forget. rewrite st_bind_unfold. cbn [st_gets fst snd].
  destruct (forgets_say (syncs_for_event host d wid s) s) as (Hs & Hb & Hc & _ & Ho & Hr & Hd).
  set (s' := (for_st _ _ s).2) in *.
  assert (Hgone : ∀ id w, ly_syncs s !! id = Some w → (id ∈ syncs_for_event host d wid s ↔ addressed host d wid w = true)).
  { intros id w Hw. rewrite elem_of_syncs_for_event. split; [|by exists w]. intros (w' & Hw' & Ha). congruence. }
  split; [|split_and!; [|done|exists []; rewrite app_nil_r; split; [done|by intros ?? ?%elem_of_nil]]].
  - intros id. rewrite Hs. destruct (ly_syncs s !! id) as [w|] eqn:Hw; [|by case_decide]. cbn.
    destruct (addressed host d wid w) eqn:Ha; [rewrite decide_True by by apply (Hgone id w)|rewrite decide_False]; try done.
    intros Hin%(Hgone id w Hw). congruence.
  - intros id. rewrite Hs, Hc, Hd. destruct (ly_syncs s !! id) as [w|] eqn:Hw.
    + case_decide as Hin; [|by rewrite Hb; split; [naive_solver|]].
      rewrite Hb. split_and!; [naive_solver|done|]. apply elem_of_app. by right.
    + assert (Hnot : id ∉ syncs_for_event host d wid s) by (intros (w & ? & _)%elem_of_syncs_for_event; congruence).
      rewrite !decide_False by done. rewrite Hb. naive_solver.
Qed.

Lemma no_layout_among l : omap (λ d, match d with ToLayout _ event => Some event | _ => None end) (map ToChanges l) = [].
Proof. by induction l. Qed.

(** What the service hands on to a listening client's windows. *)
Definition handed (host : option string) (e : IdentifiedDaemonEvent) : list WorkspaceEvent :=
  match ie_event e with
  | Event_Session _ => []
  | Event_Layout event | Event_WorkspaceChanged event => [WE_Layout host (ie_daemon_id e) event]
  | Event_WorkspaceReset event => [WE_Reset host (ie_daemon_id e) event]
  | Event_WorkspaceRemoved wid => [WE_Removed host (ie_daemon_id e) wid]
  end.

Lemma deliver_hands_on receiving host e f channel : fo_layout f = Some channel → receiving channel = true →
  let '(_, sent, _) := deliver receiving host e f in
  omap (λ d, match d with ToLayout _ event => Some event | _ => None end) sent = handed host e.
Proof.
  intros Hf Hrec. destruct e as [d []]; unfold deliver, to_layout_and_changes, to_layout, notify_workspace_changes, send_or_clear, handed;
    cbn; rewrite ?Hf, ?Hrec; cbn; [by repeat case_match; simplify_eq|done|by rewrite no_layout_among..].
Qed.

(** C9. A window hears of its own workspace, from its own daemon, and of nothing else. When
    the service hands on what a host's daemon said, every window that shows that
    workspace of that host, unfenced or fenced to that daemon, handles it as its sync
    does; the windows of a workspace taken away lose their sync, their binding and their
    claim and have their release deferred; every other window, what it is bound to and
    who lays it out are as they were, and nothing is rendered but what those handlers
    ask for. *)
Theorem windows_hear_their_own_daemon local receiving host e f channel s :
  fo_layout f = Some channel → receiving channel = true →
  let '(_, sent, _) := deliver receiving host e f in
  let s' := (follow_deliveries local sent s).2 in
  followed local host e s s' ∧
  ∀ id w d, ly_syncs s !! id = Some w → aw_daemon_id (wd_ade_workspace w) = Some d → ie_daemon_id e ≠ Some d →
    ly_syncs s' !! id = Some w.
Proof.
  intros Hf Hrec. assert (Hfenced : ∀ s', followed local host e s s' → ∀ id w d, ly_syncs s !! id = Some w →
    aw_daemon_id (wd_ade_workspace w) = Some d → ie_daemon_id e ≠ Some d → ly_syncs s' !! id = Some w).
  { intros s' [Hs _] id w d Hw Hd Hne. rewrite Hs, Hw. cbn.
    assert (Hno : ∀ wid, addressed host (ie_daemon_id e) wid w = false).
    { intros wid. unfold addressed. rewrite Hd, (bool_decide_eq_false_2 (ie_daemon_id e = Some d)) by done. by rewrite andb_false_r. }
    unfold after_event. destruct (ie_event e); by rewrite ?Hno. }
  enough (Hfol : let '(_, sent, _) := deliver receiving host e f in followed local host e s (follow_deliveries local sent s).2).
  { destruct (deliver receiving host e f) as [[f' sent] listening]. split; [done|]. by apply Hfenced. }
  pose proof (deliver_hands_on receiving host e f channel Hf Hrec) as Hsent.
  destruct (deliver receiving host e f) as [[f' sent] listening]. unfold follow_deliveries. rewrite Hsent.
  destruct e as [d []]; unfold handed; cbn [ie_event ie_daemon_id for_st]; rewrite ?st_bind_unfold; cbn [mret st_ret fst snd].
  - split; [intros id; cbn; by destruct (ly_syncs s !! id)|]. split_and!; [intros id; by destruct (ly_syncs s !! id)|done|].
    exists []. rewrite app_nil_r. split; [done|by intros ?? ?%elem_of_nil].
  - apply (sync_updates_follow local host (mkIdentifiedDaemonEvent d (Event_Layout event))); [done|done].
  - apply (sync_updates_follow local host (mkIdentifiedDaemonEvent d (Event_WorkspaceChanged event))); [done|done].
  - apply (sync_updates_follow local host (mkIdentifiedDaemonEvent d (Event_WorkspaceReset event)) s (λ _, resets event)); [done|done].
  - apply forget_follows.
Qed.

(** Two windows show [s] of [h], one of the daemon [d] and one of another daemon that was
    there before; [d] says that [s] is gone. *)
Definition sample_windows : AdeLayouts :=
  mkAdeLayouts {[ 1%nat := mkWindow (row_workspace sample_a) (sync_new layout_empty 3);
                  2%nat := mkWindow (row_workspace (sample_row "b" "s" (Some "h") (Some "e") None 30)) (sync_new layout_empty 3) ]}
    true {[ 1%nat; 2%nat ]} {[ 1%nat := Completed ]} {[ 1%nat; 2%nat ]} [] [].

Lemma windows_hear_their_own_daemon_witness :
  let e := mkIdentifiedDaemonEvent (Some "d") (Event_WorkspaceRemoved "s") in
  let '(_, sent, _) := deliver (λ _, true) (Some "h") e (mkEventFanout None (Some 7%nat) []) in
  let s' := (follow_deliveries (λ _, None) sent sample_windows).2 in
  sent = [ToLayout 7 (WE_Removed (Some "h") (Some "d") "s")] ∧
  ly_syncs s' !! 1%nat = None ∧ (1%nat ∉ ly_bound s') ∧ ly_syncs s' !! 2%nat = ly_syncs sample_windows !! 2%nat.
Proof.
  intros e. pose proof (windows_hear_their_own_daemon (λ _, None) (λ _, true) (Some "h") e
    (mkEventFanout None (Some 7%nat) []) 7 sample_windows eq_refl eq_refl) as H.
  assert (Hsent : (deliver (λ _, true) (Some "h") e (mkEventFanout None (Some 7%nat) [])).1.2 =
    [ToLayout 7 (WE_Removed (Some "h") (Some "d") "s")]) by (vm_compute; reflexivity).
  destruct (deliver _ _ _ _) as [[f sent] listening]. cbv zeta in H. cbn [fst snd] in Hsent.
  destruct H as [(Hs & Hb & _) Hother].
  assert (H1 : ly_syncs (follow_deliveries (λ _, None) sent sample_windows).2 !! 1%nat = None) by (rewrite Hs; vm_compute; reflexivity).
  split; [exact Hsent|]. split; [exact H1|]. split.
  - specialize (Hb 1%nat). rewrite H1 in Hb. change (ly_syncs sample_windows !! 1%nat) with
      (Some (mkWindow (row_workspace sample_a) (sync_new layout_empty 3))) in Hb. exact (proj1 Hb).
  - eapply (Hother 2%nat _ "e"); [reflexivity|reflexivity|discriminate].
Defined.
