(* ===== verification/Control.v ===== *)
(** * The control connection of a daemon

    [DaemonBackend] of [crates/ade_workspaces/src/daemon_backend.rs]: one connection to
    a host's daemon, opened on first use, over which one request at a time is sent and
    its answer awaited, and the operations of [SessionBackend] made of such requests.
    What arrives on a connection, and when, is an argument; time is in milliseconds. *)

From S2P Require Import Prelude Text Words Layout Proto Wire Frames Framing Client Shell Deploy Platform Ssh Link.
From S2P Require Import Panes Sync Events Registry Paths Service.
From Stdlib Require Import Ascii.
From stdpp Require Import options.
Open Scope Z_scope.

Definition HANDSHAKE_RETRY_DELAY : Z := 200.
Definition ANSWER_TIMEOUT : Z := 10000.
Definition DEFAULT_COLS : Z := 80.
Definition DEFAULT_ROWS : Z := 24.
Definition EXTRA_SESSION_LABEL : string := "terminal".

Definition PRE_CUT_DIAGNOSIS : string :=
  "the daemon on this host most likely predates the protocol cut and should be replaced".

(** ** Errors *)

(** An [anyhow] error: its contexts and causes, the outermost first, with the
    [ReadFrameError] among them; or a wait that nothing ends. *)
Inductive failure : Type :=
| Blocked
| Anyhow (chain : list string) (read : option ReadFrameError).

Definition bail (message : string) : failure := Anyhow [message] None.

Definition context (c : string) (e : failure) : failure :=
  match e with Blocked => Blocked | Anyhow chain read => Anyhow (c :: chain) read end.

Definition failure_text (e : failure) : string :=
  match e with Blocked => "" | Anyhow chain _ => String.concat ": " chain end.

Definition any_cause (p : string → bool) (e : failure) : bool :=
  match e with Blocked => false | Anyhow chain _ => existsb p chain end.

Definition is_unknown_operation : failure → bool := any_cause (String.prefix "unknown_op:").
Definition is_not_found : failure → bool := any_cause (String.prefix "not_found:").

Definition handshake_ended_in_eof (e : failure) : bool :=
  match e with Anyhow _ (Some e) => is_handshake_eof e | _ => false end.

(** ** Connections *)

(** What arrives and when, whether silence or the stream's end follows, what was
    written, how many more frames it will take ([None]: any number), and what a failed
    write says. *)
Record Wire : Type := mkWire {
  wr_arrivals : list (Z * (ReadFrameError + Frame));
  wr_quiet : bool;
  wr_sent : list Frame;
  wr_writes : option nat;
  wr_broken : string
}.

Definition with_arrivals (l : list (Z * (ReadFrameError + Frame))) (w : Wire) : Wire :=
  mkWire l (wr_quiet w) (wr_sent w) (wr_writes w) (wr_broken w).

Inductive Received : Type :=
| Received_Frame (frame : Frame)
| Discarded
| Expired.

(** A connection in use, and the time. *)
Record Line : Type := mkLine { ln_wire : Wire; ln_now : Z }.

Definition control_hello : Hello :=
  mkHello (h_min_generation hello_current) MIN_GENERATION (h_capabilities hello_current) (h_request_id hello_current).

(** ** Scripts for a host *)

Definition script (lines : list (list string)) : string :=
  String.concat "" (map (λ line, String.concat "" line +:+ String LF "") lines).

Definition identity_guard (state_dir expected_daemon_id : string) : string := script [
    ["instance_file="; shell_quote (state_dir +:+ "/instance.id")];
    ["expected_daemon_id="; shell_quote expected_daemon_id];
    ["if ! actual_daemon_id=$(cat "; dq; "$instance_file"; dq; " 2>/dev/null) || [ -z "; dq; "$actual_daemon_id"; dq; " ]; then"];
    ["  echo "; dq; "cannot verify daemon identity at $instance_file"; dq; " >&2; exit 3"];
    ["fi"];
    ["if [ "; dq; "$actual_daemon_id"; dq; " != "; dq; "$expected_daemon_id"; dq; " ]; then"];
    ["  echo "; dq; "daemon identity mismatch at $instance_file"; dq; " >&2; exit 3"];
    ["fi"]
  ].

Definition stale_daemon_recovery_script (directory state_dir expected_daemon_id : string) : string :=
  script [
    ["root="; shell_quote directory];
    ["if ! root=$(cd "; dq; "$root"; dq; " 2>/dev/null && pwd -P); then"];
    ["  echo "; dq; "cannot enter the worktree at $root"; dq; " >&2; exit 2"];
    ["fi"];
    ["if [ "; dq; "$root"; dq; " = / ]; then echo "; dq; "refusing to recover every terminal on the host"; dq; " >&2; exit 2; fi"]
  ] +:+ identity_guard state_dir expected_daemon_id +:+ script [
    ["[ -r /proc/$$/stat ] || exit 0"];
    ["own_stat=$(cat /proc/$$/stat) || exit 2"];
    ["set -- ${own_stat##*) }"];
    ["own_group=$3"];
    ["groups="];
    ["for process in /proc/[0-9]*; do"];
    ["  cwd=$(readlink "; dq; "$process/cwd"; dq; " 2>/dev/null) || continue"];
    ["  case "; dq; "$cwd"; dq; " in "; dq; "$root"; dq; "|"; dq; "$root"; dq; "/*) ;; *) continue;; esac"];
    ["  stat=$(cat "; dq; "$process/stat"; dq; " 2>/dev/null) || continue"];
    ["  set -- ${stat##*) }"];
    ["  group=$3"];
    ["  tty=$5"];
    ["  case "; dq; "$group:$tty"; dq; " in *[!0-9:]*) continue;; 0:*|*:0) continue;; esac"];
    ["  [ "; dq; "$group"; dq; " = "; dq; "$own_group"; dq; " ] && continue"];
    ["  case "; dq; " $groups "; dq; " in *"; dq; " $group "; dq; "*) ;; *) groups="; dq; "$groups $group"; dq; ";; esac"];
    ["done"];
    ["[ -n "; dq; "$groups"; dq; " ] || exit 0"];
    ["for group in $groups; do kill -HUP -"; dq; "$group"; dq; " 2>/dev/null || :; done"];
    ["sleep 1"];
    ["for group in $groups; do kill -KILL -"; dq; "$group"; dq; " 2>/dev/null || :; done"];
    ["attempt=0"];
    ["while [ "; dq; "$attempt"; dq; " -lt 200 ]; do"];
    ["  alive="];
    ["  for group in $groups; do kill -0 -"; dq; "$group"; dq; " 2>/dev/null && alive="; dq; "$alive $group"; dq; "; done"];
    ["  [ -z "; dq; "$alive"; dq; " ] && exit 0"];
    ["  groups=$alive"];
    ["  attempt=$((attempt + 1))"];
    ["  sleep 0.01"];
    ["done"];
    ["echo "; dq; "terminal process groups did not exit:$groups"; dq; " >&2"];
    ["exit 1"]
  ].

Definition RESOLVE_REPOSITORY_SCRIPT : string := script [
    ["repository_path=$1"];
    ["case "; dq; "$repository_path"; dq; " in"];
    ["    '~') repository_path=$HOME ;;"];
    ["    '~/'*) repository_path=$HOME/${repository_path#\~/} ;;"];
    ["esac"];
    ["cd "; dq; "$repository_path"; dq; " || exit $?"];
    ["if git_paths=$(git rev-parse --path-format=absolute --show-toplevel --git-common-dir 2>/dev/null); then"];
    ["    printf 'git\n%s\n' "; dq; "$git_paths"; dq];
    ["else"];
    ["    directory=$(pwd -P) || exit $?"];
    ["    printf 'directory\n%s\n%s\n' "; dq; "$directory"; dq; " "; dq; "$directory"; dq];
    ["fi"]
  ].

(** [str::strip_suffix] of a line ending. *)
Definition strip_line_end (s : string) : string :=
  match rev (to_bytes s) with
  | c :: d :: rest =>
      if decide (c = LF) then of_bytes (rev (if decide (d = CR) then rest else d :: rest)) else s
  | [c] => if decide (c = LF) then "" else s
  | [] => s
  end.

(** [trim_end_matches] of line endings. *)
Fixpoint drop_line_ends (l : list ascii) : list ascii :=
  match l with
  | c :: rest => if decide (c = LF) then drop_line_ends rest else if decide (c = CR) then drop_line_ends rest else l
  | [] => []
  end.

Definition trim_line_ends (s : string) : string := of_bytes (rev (drop_line_ends (rev (to_bytes s)))).

(** [Path::parent] of a path that ends in a name. *)
Fixpoint drop_empty (l : list string) : list string :=
  match l with
  | x :: ((_ :: _) as rest_) => if decide (x = "" ∨ x = ".") then drop_empty rest_ else l
  | _ => l
  end.

Definition path_parent (path : string) : string :=
  let kept := rev (drop_empty (tail (drop_empty (rev (split_on "/" path))))) in
  if decide (kept = [""]) then "/" else join "/" kept.

(** [repo_identity_path]: the directory of a [.git] is the repository. *)
Definition repo_identity_path (common_dir : string) : string :=
  match file_name common_dir with
  | Some (String "." _) => path_parent common_dir
  | _ => common_dir
  end.

Definition resolved_repository (path : string) (output : ExecOutput) : result string (string * string) :=
  let invalid := Err ("the host returned an invalid project identity for " +:+ path) in
  if negb (success output) then
    let detail := trim_line_ends (eo_stderr output) in
    if decide (detail = "") then Err ("could not inspect " +:+ path +:+ " (exit " +:+ pretty (eo_exit_code output) +:+ ")")
    else Err ("could not inspect " +:+ path +:+ ": " +:+ detail)
  else
    match split_on LF (strip_line_end (eo_stdout output)) with
    | [kind; checkout_root; identity] =>
        let checkout_root := strip_cr checkout_root in
        if negb (bool_decide (kind = "git") || bool_decide (kind = "directory")) || bool_decide (checkout_root = "") ||
           bool_decide (identity = "") || existsb (λ c, bool_decide (c = CR)) (to_bytes identity)
        then invalid
        else Ok (checkout_root, if decide (kind = "git") then repo_identity_path identity else identity)
    | _ => invalid
    end.

Section Connection.
Context `{EnvelopeText, BodyErrors, Unicode, FrameDebug}.

Definition send (frame : Frame) : st Line (result failure ()) := λ l,
  match write_frame frame with
  | inl text => (Err (bail text), l)
  | inr _ =>
      let w := ln_wire l in
      match wr_writes w with
      | Some O => (Err (bail (wr_broken w)), l)
      | writes => (Ok (), mkLine (mkWire (wr_arrivals w) (wr_quiet w) (wr_sent w ++ [frame]) (pred <$> writes) (wr_broken w))
                                 (ln_now l))
      end
  end.

(** The next thing to read, and when it can be; [None]: never. *)
Definition next_arrival (l : Line) : option (Z * (ReadFrameError + Frame) * Wire) :=
  match wr_arrivals (ln_wire l) with
  | (at_, r) :: rest => Some (Z.max at_ (ln_now l), r, with_arrivals rest (ln_wire l))
  | [] => if wr_quiet (ln_wire l) then None
          else Some (ln_now l, inl (Transport (ReadingLength UnexpectedEof)), ln_wire l)
  end.

(** [receive_now], once the read is through. *)
Definition received (r : ReadFrameError + Frame) : st Line (result failure Received) :=
  match r with
  | inr frame => mret (Ok (Received_Frame frame))
  | inl error =>
      if error_is_request_scoped error then
        match rejection_frame error with
        | Some complaint =>
            sent ← send complaint;
            mret (match sent with
                  | Ok () => Ok Discarded
                  | Err e => Err (context "rejecting a frame this client cannot read" e)
                  end)
        | None => mret (Ok Discarded)
        end
      else
        match rejection_frame error with Some complaint => send complaint ;; mret () | None => mret () end ;;
        mret (Err (match error with
                   | Transport _ => Anyhow [read_error_text error] (Some error)
                   | _ => Anyhow ["the session daemon sent an unframeable message"; read_error_text error] (Some error)
                   end))
  end.

(** The clock is read before the read starts; then whichever comes first. *)
Definition receive (deadline : option Z) : st Line (result failure Received) := λ l,
  match deadline with
  | None =>
      match next_arrival l with
      | Some (at_, r, w) => received r (mkLine w at_)
      | None => (Err Blocked, l)
      end
  | Some deadline =>
      if deadline <=? ln_now l then (Ok Expired, l)
      else match next_arrival l with
           | Some (at_, r, w) => if at_ <=? deadline then received r (mkLine w at_) else (Ok Expired, mkLine (ln_wire l) deadline)
           | None => (Ok Expired, mkLine (ln_wire l) deadline)
           end
  end.

Definition read_frame_within : st Line (result failure (ReadFrameError + Frame)) := λ l,
  match next_arrival l with
  | Some (at_, r, w) => (Ok r, mkLine w at_)
  | None => (Err Blocked, l)
  end.

Definition handshake (hello : Hello) : st Line (result failure HelloAck) :=
  outcome ← (_ ←? send (Frame_Hello hello);
             reply ←? read_frame_within;
             mret (match reply with
                   | inl e => Err (Anyhow [read_error_text e] (Some e))
                   | inr reply => match accept_reply hello reply with
                                  | inl text => Err (bail text)
                                  | inr ack => Ok ack
                                  end
                   end));
  mret (match outcome with Ok ack => Ok ack | Err e => Err (context "handshaking with the session daemon" e) end).

(** ** Requests *)

(** What a request came to, short of the connection's end: its answer, or the daemon's
    refusal. *)
Definition verdict (T : Type) : Type := result string T.

Definition own_refusal (request_id : Z) (reply : Frame) : option string :=
  match reply with
  | Frame_Error _ _ code message (Some id) =>
      if id =? request_id then Some (bounded code +:+ ": " +:+ bounded message) else None
  | _ => None
  end.

Definition expired_text (unanswered : nat) (request_id timeout : Z) : string :=
  "the session daemon sent " +:+ pretty (N.of_nat unanswered) +:+ " frame(s) that could not answer request " +:+
  pretty request_id +:+ ", and nothing that could in the " +:+ pretty (timeout / 1000) +:+ "s since the first of them".

(** The wait for an answer; [fuel] counts the reads. The clock starts at the first frame
    that cannot be the answer. *)
Fixpoint await {T} (fuel : nat) (timeout request_id : Z) (want : Frame → option T) (deadline : option Z) (unanswered : nat) :
    st Line (result failure (verdict T)) :=
  match fuel with
  | O => mret (Err Blocked)
  | S fuel =>
      reply ←? receive deadline;
      l ← st_get;
      let deadline := Some (default (ln_now l + timeout) deadline) in
      match reply with
      | Expired => mret (Err (bail (expired_text unanswered request_id timeout)))
      | Discarded => await fuel timeout request_id want deadline (S unanswered)
      | Received_Frame reply =>
          match want reply with
          | Some value => mret (Ok (Ok value))
          | None =>
              match own_refusal request_id reply with
              | Some refusal => mret (Ok (Err refusal))
              | None => await fuel timeout request_id want deadline (S unanswered)
              end
          end
      end
  end.

(** Every read takes an arrival or ends the wait. *)
Definition answer_to {T} (timeout request_id : Z) (want : Frame → option T) : st Line (result failure (verdict T)) :=
  l ← st_get;
  await (S (length (wr_arrivals (ln_wire l)))) timeout request_id want None 0.
End Connection.

(** ** The backend *)

Record Control : Type := mkControl { ct_wire : Wire; ct_instance_id : option string }.

(** How the endpoint's address is reached: a child that proxies, or the forward of a
    host's link. *)
Inductive DaemonTransport : Type := Proxied | Forwarded (link : HostLink).

(** [bk_identity] is the endpoint's, shared with the event stream's connection;
    [bk_opened] counts connections opened, and [bk_closed] are those given up, with what
    was written to them; one that never was introduced has no identity. *)
Record DaemonBackend : Type := mkDaemonBackend {
  bk_transport : DaemonTransport;
  bk_connection : option Control;
  bk_next_request_id : Z;
  bk_identity : option string;
  bk_now : Z;
  bk_opened : nat;
  bk_closed : list Control
}.

Definition identity_admits (expected actual : option string) : bool :=
  match expected with Some _ => bool_decide (actual = expected) | None => true end.

Definition with_connection (c : option Control) (b : DaemonBackend) : DaemonBackend :=
  mkDaemonBackend (bk_transport b) c (bk_next_request_id b) (bk_identity b) (bk_now b) (bk_opened b) (bk_closed b).
Definition with_transport (t : DaemonTransport) (b : DaemonBackend) : DaemonBackend :=
  mkDaemonBackend t (bk_connection b) (bk_next_request_id b) (bk_identity b) (bk_now b) (bk_opened b) (bk_closed b).
Definition with_identity (id : option string) (b : DaemonBackend) : DaemonBackend :=
  mkDaemonBackend (bk_transport b) (bk_connection b) (bk_next_request_id b) id (bk_now b) (bk_opened b) (bk_closed b).
Definition with_next_request_id (n : Z) (b : DaemonBackend) : DaemonBackend :=
  mkDaemonBackend (bk_transport b) (bk_connection b) n (bk_identity b) (bk_now b) (bk_opened b) (bk_closed b).
Definition with_clock (now : Z) (b : DaemonBackend) : DaemonBackend :=
  mkDaemonBackend (bk_transport b) (bk_connection b) (bk_next_request_id b) (bk_identity b) now (bk_opened b) (bk_closed b).
Definition with_opening (b : DaemonBackend) : DaemonBackend :=
  mkDaemonBackend (bk_transport b) (bk_connection b) (bk_next_request_id b) (bk_identity b) (bk_now b) (S (bk_opened b)) (bk_closed b).
Definition with_closed (c : Control) (b : DaemonBackend) : DaemonBackend :=
  mkDaemonBackend (bk_transport b) (bk_connection b) (bk_next_request_id b) (bk_identity b) (bk_now b) (bk_opened b)
    (bk_closed b ++ [c]).

Definition backend_new (t : DaemonTransport) (now : Z) : DaemonBackend := mkDaemonBackend t None 1 None now 0 [].

Abbreviation bk A := (st DaemonBackend (result failure A)).

(** [Context::context] on the result. *)
Definition in_context {A} (c : string) (m : bk A) : bk A :=
  r ← m; mret (match r with Ok a => Ok a | Err e => Err (context c e) end).

(** An address and how to reach it: the attach client's binary, the address on this
    machine, what the n-th connection to it comes to, commands run on this machine, and
    what a link to another host is made of (Link). *)
Record Endpoint : Type := mkEndpoint {
  ep_bin_path : string;
  ep_address : LocalEndpoint;
  ep_open : nat → result failure Wire;
  ep_local_run : list string → result string ExecOutput;
  ep_exec : HostExec;
  ep_debug : string → string;
  ep_destination : string;
  ep_local_binary : HostPlatform → result string (list Z * string);
  ep_daemon_version : Version;
  ep_establish : list Deploy.call → result string ();
  ep_forward_alive : list Deploy.call → bool;
  ep_shutdown : list Deploy.call → shutdown_channel
}.

Section Backend.
Context `{EnvelopeText, BodyErrors, Unicode, FrameDebug} (ep : Endpoint).

Definition address_text : string :=
  match ep_address ep with
  | Socket path => path
  | Loopback port => LOOPBACK_ADDRESS +:+ ":" +:+ pretty port
  end.

Definition endpoint_text (b : DaemonBackend) : string :=
  match bk_transport b with
  | Forwarded _ => ep_destination ep +:+ " via " +:+ address_text
  | Proxied => ep_bin_path ep +:+ " at " +:+ address_text
  end.

Definition on_connection_lost : st DaemonBackend () := st_modify (λ b,
  match bk_transport b with
  | Forwarded link => with_transport (Forwarded (needs_ensure link).2) b
  | Proxied => b
  end).

Definition link_ready : bk (option string) := λ b,
  match bk_transport b with
  | Proxied => (Ok None, b)
  | Forwarded link =>
      let '(r, link) := @ensure_ready (ep_exec ep) (ep_debug ep) (ep_destination ep) (ep_local_binary ep) (ep_daemon_version ep)
        (ep_establish ep) (ep_forward_alive ep) link in
      (map_err bail r, with_transport (Forwarded link) b)
  end.

(** [handshaken]: [retries] is how many are left. *)
Fixpoint handshaken (retries : nat) (hello : Hello) : bk Control := λ b,
  let '(n, b) := (bk_opened b, with_opening b) in
  match ep_open ep n with
  | Err e => (Err e, b)
  | Ok w =>
      let '(outcome, l) := handshake hello (mkLine w (bk_now b)) in
      let b := with_clock (ln_now l) b in
      match outcome with
      | Ok ack => (Ok (mkControl (ln_wire l) (ack_instance_id ack)), b)
      | Err e =>
          let b := with_closed (mkControl (ln_wire l) None) b in
          if negb (handshake_ended_in_eof e) then (Err e, b)
          else match retries with
               | O => (Err (context PRE_CUT_DIAGNOSIS e), b)
               | S retries => handshaken retries hello (with_clock (bk_now b + HANDSHAKE_RETRY_DELAY) b)
               end
      end
  end.

(** [Endpoint::connect]; the probe of the daemon's build runs on its own. *)
Definition connect : bk Control :=
  ensured ←? link_ready;
  control ←? handshaken 1 control_hello;
  st_modify (with_identity (ct_instance_id control)) ;;
  st_modify (λ b, match ensured, bk_transport b with
                  | Some line, Forwarded link => with_transport (Forwarded (note_freshness line link).2) b
                  | _, _ => b
                  end) ;;
  mret (Ok control).

Definition lose_connection : st DaemonBackend () :=
  st_modify (λ b, with_connection None (match bk_connection b with Some c => with_closed c b | None => b end)) ;;
  on_connection_lost.

(** The connection in the slot, or a new one put there. *)
Definition connected (expected : option string) : bk Control :=
  b ← st_get;
  match bk_connection b with
  | Some c => if identity_admits expected (ct_instance_id c) then mret () else lose_connection
  | None => mret ()
  end ;;
  b ← st_get;
  match bk_connection b with
  | Some c => mret (Ok c)
  | None => c ←? connect; st_modify (with_connection (Some c)) ;; mret (Ok c)
  end.

(** A conversation over the connection [c], which stays in the slot. *)
Definition over_connection {A} (c : Control) (m : st Line (result failure A)) : bk (A * Control) := λ b,
  let '(r, l) := m (mkLine (ct_wire c) (bk_now b)) in
  let c := mkControl (ln_wire l) (ct_instance_id c) in
  (match r with Ok a => Ok (a, c) | Err e => Err e end, with_connection (Some c) (with_clock (ln_now l) b)).

Definition wrong_daemon (expected actual : option string) (b : DaemonBackend) : string :=
  "this operation belongs to daemon " +:+ bounded (default "" expected) +:+ ", and " +:+ endpoint_text b +:+
  " answers as " +:+ bounded (default "an unnamed daemon" actual).

Definition request_seen {T} (expected : option string) (request_id : Z) (request : Frame) (want : Frame → option T) :
    bk (T * option string) :=
  outcome ← (c ←? connected expected;
             b ← st_get;
             if negb (identity_admits expected (ct_instance_id c))
             then mret (Ok (Err (wrong_daemon expected (ct_instance_id c) b)))
             else
               '(_, c) ←? over_connection c (send request);
               '(answer, c) ←? over_connection c (answer_to ANSWER_TIMEOUT request_id want);
               mret (Ok (match answer with
                         | Ok value => Ok (value, ct_instance_id c)
                         | Err refusal => Err refusal
                         end)));
  match outcome with
  | Ok (Ok value) => mret (Ok value)
  | Ok (Err message) => mret (Err (bail message))
  | Err Blocked => mret (Err Blocked)
  | Err e => lose_connection ;; mret (Err e)
  end.

Definition request {T} (expected : option string) (request_id : Z) (frame : Frame) (want : Frame → option T) : bk T :=
  '(value, _) ←? request_seen expected request_id frame want; mret (Ok value).

Definition request_id : st DaemonBackend Z := λ b,
  (bk_next_request_id b, with_next_request_id (wrap64 (bk_next_request_id b + 1)) b).

Definition finish_upgrade (outcome : result string DaemonUpgradeOutcome) : st DaemonBackend (result string DaemonUpgradeOutcome) :=
  match outcome with
  | Ok UpToDate => mret ()
  | _ => lose_connection
  end ;;
  mret outcome.

(** The local daemon is replaced with the app. *)
Definition upgrade_daemon : st DaemonBackend (result string DaemonUpgradeOutcome) := λ b,
  match bk_transport b with
  | Proxied => (Err "the local daemon upgrades with the app", b)
  | Forwarded link =>
      let '(outcome, link) := @upgrade_on_demand (ep_exec ep) (ep_debug ep) (ep_destination ep) (ep_local_binary ep)
        (ep_daemon_version ep) (ep_shutdown ep) link in
      finish_upgrade outcome (with_transport (Forwarded link) b)
  end.

Definition backend_daemon_stale (b : DaemonBackend) : bool :=
  match bk_transport b with Forwarded link => daemon_stale link | Proxied => false end.

(** ** The operations of [SessionBackend] *)

Definition if_ours {A} (id : Z) (reply_id : option Z) (a : A) : option A :=
  if bool_decide (reply_id = Some id) then Some a else None.

Definition daemon_sessions_seen (expected : option string) : bk (list SessionInfo * option string) :=
  in_context "listing the daemon's sessions" (λ b, let '(id, b) := request_id b in
    request_seen expected id (Frame_ListSessions (Some id)) (λ frame,
      match frame with Frame_SessionList sessions reply_id => if_ours id reply_id sessions | _ => None end) b).

Definition daemon_workspaces_seen : bk (list BackendWorkspace * option string) :=
  '(workspaces, seen) ←?
    in_context "listing the daemon's workspaces" (λ b, let '(id, b) := request_id b in
      request_seen None id (Frame_ListWorkspaces (Some id)) (λ frame,
        match frame with Frame_WorkspaceList workspaces reply_id => if_ours id reply_id workspaces | _ => None end) b);
  mret (Ok (map (λ w, mkBackendWorkspace (wi_id w) (wi_name w) (wi_project_id w) (wi_project_identity w)
                        (wi_project_root w) (wi_project_scope_rev w) (wi_created_at w)) workspaces, seen)).

Definition live_session_seen (id : string) (expected : option string) : bk (option SessionInfo * option string) :=
  '(sessions, daemon_id) ←? daemon_sessions_seen expected; mret (Ok (newest_live sessions id, daemon_id)).

Definition kill_daemon_session (id : string) (expected : option string) : bk () := λ b,
  let '(rid, b) := request_id b in
  let '(result_, b) := request expected rid (Frame_Kill id (Some rid)) (λ frame,
      match frame with Frame_Removed session_id => if bool_decide (session_id = id) then Some () else None | _ => None end) b in
  (match result_ with
   | Ok () => Ok ()
   | Err e => if is_not_found e then Ok () else Err (context ("killing daemon session " +:+ id) e)
   end, b).

Definition request_session (expected : option string) (frame : Z → Frame) : bk (SessionInfo * option string) := λ b,
  let '(rid, b) := request_id b in
  request_seen expected rid (frame rid) (λ reply,
    match reply with Frame_Created session _ reply_id => if_ours rid reply_id session | _ => None end) b.

Definition create_session (spec : SessionSpec) (expected : option string) : bk (SessionInfo * option string) :=
  '(existing, _) ←? daemon_sessions_seen expected;
  match newest_live existing (ss_id spec) with
  | Some _ => mret (Err (bail ("a session for " +:+ ss_id spec +:+ " is already running")))
  | None =>
      _ ←? for_ok (filter (λ s, si_workspace_id s = ss_id spec) existing) (λ tombstone,
             kill_daemon_session (si_id tombstone) expected);
      in_context ("creating a session for " +:+ ss_id spec)
        (request_session expected (λ rid,
           Frame_CreateSession (ss_id spec) (ss_directory spec) (ss_project_id spec) (ss_project_identity spec)
             "" [] DEFAULT_COLS DEFAULT_ROWS "shell" (ss_id spec) None (Some rid)))
  end.

Definition client_argv : list string :=
  match ep_address ep with
  | Socket path => ["--socket"; path]
  | Loopback port => ["--tcp"; LOOPBACK_ADDRESS +:+ ":" +:+ pretty port]
  end.

Definition session_argv (id : string) (expected : option string) : list string :=
  [ep_bin_path ep; "attach"; id] ++ client_argv ++
  match expected with Some expected => ["--expected-daemon-id"; expected] | None => [] end.

Definition kill_workspace_sessions_seen (id : string) (expected : option string) : bk (option string) :=
  '(sessions, daemon_id) ←? daemon_sessions_seen expected;
  _ ←? for_ok (filter (λ s, si_workspace_id s = id) sessions) (λ s, kill_daemon_session (si_id s) daemon_id);
  mret (Ok daemon_id).

Definition daemon_create_identified (spec : SessionSpec) (expected : option string) : bk (string * option string) :=
  '(_, daemon_id) ←? create_session spec expected; mret (Ok (ss_id spec, daemon_id)).

Definition daemon_create_in (workspace_id cwd : string) (expected : option string) : bk (string * option string) :=
  '(session, daemon_id) ←?
    in_context ("creating a session in workspace " +:+ workspace_id)
      (request_session expected (λ rid,
         Frame_CreateSession workspace_id cwd None None "" [] DEFAULT_COLS DEFAULT_ROWS "shell" EXTRA_SESSION_LABEL None (Some rid)));
  mret (Ok (si_id session, daemon_id)).

(** Live sessions by the workspaces they are in, each once. *)
Definition live_workspaces (sessions : list SessionInfo) : list string :=
  foldl (λ seen s, if negb (alive (si_status s)) || bool_decide (si_workspace_id s = "") || bool_decide (si_workspace_id s ∈ seen)
                   then seen else seen ++ [si_workspace_id s]) [] sessions.

Definition daemon_list_identified : bk (Identified string) :=
  '(sessions, daemon_id) ←? daemon_sessions_seen None; mret (Ok (mkIdentified daemon_id (live_workspaces sessions))).

Definition daemon_exists (id : string) (expected : option string) : bk bool :=
  '(session, _) ←? live_session_seen id expected; mret (Ok (bool_decide (is_Some session))).

Definition daemon_list_workspaces : bk (Identified BackendWorkspace) :=
  '(items, daemon_id) ←? daemon_workspaces_seen; mret (Ok (mkIdentified daemon_id items)).

Definition daemon_attach (spec : SessionSpec) (expected : option string) : bk Attached :=
  '(live, daemon_id) ←? live_session_seen (ss_id spec) expected;
  '(session, daemon_id) ←? match live with
                           | Some session => mret (Ok (session, daemon_id))
                           | None => create_session spec expected
                           end;
  mret (Ok (mkAttached (si_id session) daemon_id (session_argv (si_id session) daemon_id))).

Definition daemon_attach_session (id : string) (expected : option string) : bk (list string) :=
  mret (Ok (session_argv id expected)).

Definition request_workspace (expected : option string) (frame : Z → Frame) : bk (WorkspaceInfo * option string) := λ b,
  let '(rid, b) := request_id b in
  request_seen expected rid (frame rid) (λ reply,
    match reply with Frame_Workspace workspace _ _ reply_id => if_ours rid reply_id workspace | _ => None end) b.

Definition daemon_open_workspace (id : string) (expected : option string) : bk (WorkspaceLayout * option string) :=
  '(workspace, daemon_id) ←? in_context ("opening workspace " +:+ id)
                               (request_workspace expected (λ rid, Frame_OpenWorkspace id (Some rid)));
  mret (Ok (mkWorkspaceLayout (wi_layout workspace) (wi_layout_rev workspace), daemon_id)).

Definition daemon_update_layout (id : string) (layout : LayoutDoc) (rev : Z) (expected : option string) : bk () :=
  in_context ("storing layout rev " +:+ pretty rev +:+ " for workspace " +:+ id) (λ b,
    let '(rid, b) := request_id b in
    request expected rid (Frame_UpdateLayout id layout rev (Some rid)) (λ reply,
      match reply with Frame_LayoutChanged _ _ _ _ reply_id => if_ours rid reply_id () | _ => None end) b).

Definition daemon_rename (id name : string) (expected : option string) : bk () :=
  _ ←? in_context ("renaming workspace " +:+ id)
         (request_workspace expected (λ rid, Frame_RenameWorkspace id name (Some rid)));
  mret (Ok ()).

(** The daemon has the scope once it echoes it at a greater revision than asked. *)
Definition scope_echoed (id project_id project_identity : string) (root : option string) (minimum : option Z)
    (w : WorkspaceInfo) : bool :=
  bool_decide (wi_id w = id) && bool_decide (wi_project_id w = Some project_id) &&
  bool_decide (wi_project_identity w = Some project_identity) &&
  match root with Some root => bool_decide (wi_project_root w = root) | None => true end &&
  (default 0 minimum <? wi_project_scope_rev w).

Definition daemon_update_scope (id project_id project_identity : string) (root : option string) (minimum : option Z)
    (expected : option string) : bk (option Z) :=
  result_ ← request_workspace expected (λ rid,
              Frame_UpdateWorkspaceProject id project_id project_identity root minimum (Some rid));
  mret (match result_ with
        | Ok (w, _) => Ok (if scope_echoed id project_id project_identity root minimum w then Some (wi_project_scope_rev w) else None)
        | Err e => if is_unknown_operation e then Ok None
                   else Err (context ("storing project scope for workspace " +:+ id) e)
        end).

Definition daemon_kill_workspace (id : string) (expected : option string) : bk () :=
  in_context ("killing workspace " +:+ id) (λ b,
    let '(rid, b) := request_id b in
    request expected rid (Frame_KillWorkspace id (Some rid)) (λ reply,
      match reply with Frame_WorkspaceRemoved _ _ reply_id => if_ours rid reply_id () | _ => None end) b).

Definition daemon_detach (id : string) : bk () := mret (Ok ()).

Definition daemon_kill (id : string) (expected : option string) : bk () :=
  _ ←? kill_workspace_sessions_seen id expected; mret (Ok ()).

(** Commands run on the daemon's host: over the link, or on this machine. *)
Definition run_on_host (argv : list string) : st DaemonBackend (result string ExecOutput) := λ b,
  match bk_transport b with
  | Forwarded link => let '(r, link) := on_host (@exec (ep_exec ep) argv) link in (r, with_transport (Forwarded link) b)
  | Proxied => (ep_local_run ep argv, b)
  end.

Definition daemon_resolve_repository (path : string) : bk (string * string) :=
  output ← run_on_host ["sh"; "-c"; RESOLVE_REPOSITORY_SCRIPT; "sh"; path];
  mret (match output with
        | Ok output => map_err bail (resolved_repository path output)
        | Err e => Err (Anyhow ["inspecting project directory " +:+ path; e] None)
        end).

Definition recover_stale_daemon_processes (link : HostLink) (directory expected_daemon_id : string) : bk () :=
  match hl_paths link with
  | None => mret (Err (bail "the remote daemon paths were not resolved"))
  | Some paths =>
      output ← run_on_host ["sh"; "-c"; stale_daemon_recovery_script directory (rp_state_dir paths) expected_daemon_id];
      mret (match output with
            | Err e => Err (Anyhow ["checking " +:+ ep_destination ep +:+ " for terminal processes left in " +:+ directory; e] None)
            | Ok output =>
                if success output then Ok ()
                else Err (bail ("recovering terminal processes in " +:+ directory +:+ " on " +:+ ep_destination ep +:+ ": " +:+
                                trim (eo_stderr output)))
            end)
  end.

Definition daemon_reset (id directory : string) (expected : option string) : bk () :=
  daemon_id ←? kill_workspace_sessions_seen id expected;
  b ← st_get;
  match bk_transport b, daemon_id with
  | Forwarded link, Some daemon_id => recover_stale_daemon_processes link directory daemon_id
  | _, _ => mret (Ok ())
  end.
End Backend.

(** ** As the backend of a service *)

Example a_worktree_is_of_its_repository :
  resolved_repository "/w" (mkExecOutput 0 ("git" +:+ String LF ("/w/tree" +:+ String LF ("/w/main/.git" +:+ String LF ""))) "")
    = Ok ("/w/tree", "/w/main").
Proof. reflexivity. Qed.

Section Implements.
Context `{EnvelopeText, BodyErrors, Unicode, FrameDebug}.

Definition answer_text {A} (r : result failure A) : result string A := map_err failure_text r.

(** [DaemonBackend::remote], where there was a backend before: the host remembers what it
    was asked, this client does not. *)
Definition remade (b : DaemonBackend) : DaemonBackend :=
  let b := match bk_connection b with Some c => with_closed c b | None => b end in
  mkDaemonBackend
    (match bk_transport b with
     | Forwarded link => Forwarded (mkHostLink None false false FRESHNESS_UNKNOWN 0 None 0 (hl_calls link))
     | Proxied => Proxied
     end) None 1 None (bk_now b) (bk_opened b) (bk_closed b).

(** One call of the service on one host's backend. *)
Definition run_call (ep : Endpoint) (c : call) : st DaemonBackend (answer c) :=
  let done {A} (m : bk A) : st DaemonBackend (result string A) := r ← m; mret (answer_text r) in
  match c as c return st DaemonBackend (answer c) with
  | CallConnect => st_modify remade ;; mret (Ok ())
  | CallInstanceId => b ← st_get; mret (bk_identity b)
  | CallListWorkspaces => done (daemon_list_workspaces ep)
  | CallListSessions => done (daemon_list_identified ep)
  | CallResolveRepository path => done (daemon_resolve_repository ep path)
  | CallUpdateScope id project_id ident root minimum expected => done (daemon_update_scope ep id project_id ident root minimum expected)
  | CallCreate spec expected => done (daemon_create_identified ep spec expected)
  | CallCreateIn id cwd expected => done (daemon_create_in ep id cwd expected)
  | CallExists id expected => done (daemon_exists ep id expected)
  | CallAttach spec expected => done (daemon_attach ep spec expected)
  | CallAttachSession id expected => done (daemon_attach_session ep id expected)
  | CallDetach id => done (daemon_detach id)
  | CallKill id expected => done (daemon_kill ep id expected)
  | CallReset id directory expected => done (daemon_reset ep id directory expected)
  | CallRename id name expected => done (daemon_rename ep id name expected)
  | CallKillWorkspace id expected => done (daemon_kill_workspace ep id expected)
  | CallOpenWorkspace id expected => done (daemon_open_workspace ep id expected)
  | CallUpdateLayout id layout rev expected => done (daemon_update_layout ep id layout rev expected)
  | CallKillSession id expected => done (kill_daemon_session ep id expected)
  | CallSubscribeEvents => mret (Ok ())
  end.

(** A host's backend after everything that was asked of it. *)
Fixpoint replay (ep : Endpoint) (past : list call) (b : DaemonBackend) : DaemonBackend :=
  match past with
  | [] => b
  | c :: past => replay ep past (run_call ep c b).2
  end.

Definition asked_of (host : option string) (past : asked) : list call :=
  omap (λ '(h, c), if bool_decide (h = host) then Some c else None) past.

(** The service's backends are the control connections of its hosts. *)
Definition daemon_backends (endpoint : option string → Endpoint) (initial : option string → DaemonBackend)
    (clock : nat → Z) (uuid : nat → string) : SessionBackends :=
  {| answer_of past host c := (run_call (endpoint host) c (replay (endpoint host) (asked_of host past) (initial host))).1;
     Service.clock := clock; Service.uuid := uuid |}.
End Implements.
