(* ===== verification/ControlSpecs.v ===== *)
(** * Theorems about the control connection *)

From S2P Require Import Prelude Text Words Layout Proto Wire WireSample Frames Framing Client Shell Deploy Platform Ssh Link.
From S2P Require Import Panes Sync Events Registry Paths Service Hosts HostSpecs Workspaces WorkspaceSpecs Control.
From Stdlib Require Import Ascii.
From stdpp Require Import options.
Open Scope Z_scope.

(** ** What is written to a connection *)

(** Introductions and complaints about what arrived aside. *)
Definition is_request (f : Frame) : bool :=
  match f with Frame_Hello _ | Frame_Error _ _ _ _ _ => false | _ => true end.

Definition requests_of (w : Wire) : list Frame := filter (λ f, is_request f = true) (wr_sent w).

(** What was written meanwhile are no requests, and what was read is gone. *)
Definition complains (l l' : Line) : Prop :=
  requests_of (ln_wire l') = requests_of (ln_wire l) ∧ wr_arrivals (ln_wire l') `suffix_of` wr_arrivals (ln_wire l).

#[export] Instance complains_preorder : PreOrder complains.
Proof.
  split; [by intros l|]. intros l1 l2 l3 [H12 S12] [H23 S23]. split; [congruence|by etrans].
Qed.

Lemma rejection_frame_is_error `{Unicode} e f : rejection_frame e = Some f → is_request f = false.
Proof. destruct e as [| |? []|? []]; cbn; try done; by intros [= <-]. Qed.

Section Lines.
Context `{EnvelopeText, BodyErrors, Unicode, FrameDebug}.

Lemma send_sent f l : let '(r, l') := send f l in
  ln_now l' = ln_now l ∧ wr_arrivals (ln_wire l') = wr_arrivals (ln_wire l) ∧ wr_quiet (ln_wire l') = wr_quiet (ln_wire l) ∧
  match r with Ok _ => wr_sent (ln_wire l') = wr_sent (ln_wire l) ++ [f] | Err e => l' = l ∧ e ≠ Blocked end.
Proof. unfold send. destruct (write_frame f); [done|]. by destruct (wr_writes (ln_wire l)) as [[|]|]. Qed.

Lemma send_complaint f l : is_request f = false → complains l (send f l).2.
Proof.
  intros Hf. pose proof (send_sent f l) as Hs. destruct (send f l) as [[]  l']; cbn; [|by destruct Hs as (_ & _ & _ & -> & _)].
  destruct Hs as (_ & Ha & _ & Hs). unfold complains, requests_of. rewrite Hs, Ha, filter_app, filter_cons_False by congruence.
  by rewrite filter_nil, app_nil_r.
Qed.

Lemma received_complains r l : complains l (received r l).2.
Proof.
  destruct r as [e|f]; [|done]. cbn [received]. destruct (error_is_request_scoped e).
  - destruct (rejection_frame e) as [f|] eqn:Hf; [|done]. rewrite st_bind_unfold.
    apply rejection_frame_is_error in Hf. apply (send_complaint f l) in Hf. by destruct (send f l) as [[[]|] ?].
  - rewrite st_bind_unfold. cbn. destruct (rejection_frame e) as [f|] eqn:Hf; [|done].
    rewrite st_bind_unfold. apply rejection_frame_is_error in Hf. by apply send_complaint.
Qed.

Lemma next_arrival_complains l at_ r w t : next_arrival l = Some (at_, r, w) → complains l (mkLine w t).
Proof.
  unfold next_arrival. unfold complains. destruct (wr_arrivals (ln_wire l)) as [|[t' r'] rest] eqn:Ha.
  - destruct (wr_quiet (ln_wire l)); [done|]. intros [= <- <- <-]. split; [done|]. cbn. by rewrite Ha.
  - intros [= <- <- <-]. split; [done|]. by exists [(t', r')].
Qed.

Lemma receive_complains deadline : moves complains (receive deadline).
Proof.
  intros l. unfold receive. destruct deadline as [d|].
  - destruct (d <=? ln_now l); [done|]. destruct (next_arrival l) as [[[at_ r] w]|] eqn:Hn; [|done].
    destruct (at_ <=? d); [|done]. etrans; [|apply received_complains]. by eapply next_arrival_complains.
  - destruct (next_arrival l) as [[[at_ r] w]|] eqn:Hn; [|done]. etrans; [|apply received_complains].
    by eapply next_arrival_complains.
Qed.

Lemma await_complains {T} fuel timeout rid (want : Frame → option T) deadline unanswered :
  moves complains (await fuel timeout rid want deadline unanswered).
Proof.
  revert deadline unanswered. induction fuel as [|fuel IH]; intros deadline unanswered; [apply moves_ret, _|].
  cbn [await]. apply moves_bind_ok; [apply _|apply receive_complains|]. intros reply.
  apply moves_bind; [apply _|apply moves_get, _|]. intros l. cbv zeta.
  destruct reply as [f| |]; [|apply IH|apply moves_ret, _]. destruct (want f); [apply moves_ret, _|].
  destruct (own_refusal rid f); [apply moves_ret, _|apply IH].
Qed.

Lemma answer_to_complains {T} timeout rid (want : Frame → option T) : moves complains (answer_to timeout rid want).
Proof. apply moves_bind; [apply _|apply moves_get, _|]. intros l. apply await_complains. Qed.

(** What a handshake that went through was. *)
Lemma handshake_says hello l : wp (handshake hello) (λ r l', complains l l' ∧
  match r with
  | Ok ack => ∃ at_, wr_arrivals (ln_wire l) = (at_, inr (Frame_HelloAck ack)) :: wr_arrivals (ln_wire l')
  | Err _ => True
  end) l.
Proof.
  unfold handshake. wp_step. wp_step. unfold wp at 1.
  pose proof (send_sent (Frame_Hello hello) l) as Hs. pose proof (send_complaint (Frame_Hello hello) l eq_refl) as Hc.
  destruct (send (Frame_Hello hello) l) as [[[]|e] l1]; cbn [fst snd] in *; [|by apply wp_ret].
  destruct Hs as (_ & Ha & Hq & _). wp_step. unfold wp at 1, read_frame_within.
  assert (Hn : ∀ at_ r w, next_arrival l1 = Some (at_, r, w) → complains l (mkLine w at_)).
  { intros at_ r w E. etrans; [exact Hc|]. by eapply next_arrival_complains. }
  unfold next_arrival in *. rewrite Ha, Hq in *.
  destruct (wr_arrivals (ln_wire l)) as [|[at_ r] rest]; [destruct (wr_quiet (ln_wire l))|]; unfold wp; cbn;
    (split; [first [exact Hc|by eapply Hn]|]); [done|done|].
  destruct r as [e|reply]; [done|]. unfold accept_reply. destruct reply; try done.
  destruct (_ || _); [done|]. by eexists.
Qed.

(** ** How long an answer is waited for *)

Lemma received_time r l : ln_now (received r l).2 = ln_now l ∧ wr_arrivals (ln_wire (received r l).2) = wr_arrivals (ln_wire l) ∧
  (received r l).1 ≠ Err Blocked ∧ (∀ f, (received r l).1 = Ok (Received_Frame f) → r = inr f) ∧ (received r l).1 ≠ Ok Expired.
Proof.
  destruct r as [e|f]; [|cbn; split_and!; try done; by intros ? [= ->]]. cbn [received].
  destruct (error_is_request_scoped e).
  - destruct (rejection_frame e) as [f|]; [|by split_and!]. rewrite st_bind_unfold.
    pose proof (send_sent f l) as Hs. destruct (send f l) as [[[]|c] l1]; cbn; [by split_and!; try apply Hs|].
    destruct Hs as (Ht & Ha & _ & _ & Hb). split_and!; try done. by destruct c.
  - rewrite st_bind_unfold. assert (Hq : let l1 := ((match rejection_frame e with Some complaint => send complaint ;; mret () | None => mret () end) l).2 in
      ln_now l1 = ln_now l ∧ wr_arrivals (ln_wire l1) = wr_arrivals (ln_wire l)).
    { destruct (rejection_frame e) as [f|]; [|done]. rewrite st_bind_unfold. cbn.
      pose proof (send_sent f l) as Hs. destruct (send f l). by split; apply Hs. }
    destruct Hq as [Ht Ha]. cbn. split_and!; try done; by destruct e.
Qed.

(** The time a read may end at. *)
Definition within (deadline : option Z) (l l' : Line) : Prop :=
  match deadline, wr_arrivals (ln_wire l) with
  | Some d, _ => ln_now l' ≤ Z.max (ln_now l) d
  | None, (at_, _) :: _ => ln_now l' = Z.max at_ (ln_now l)
  | None, [] => ln_now l' = ln_now l
  end.

Lemma next_arrival_cases l :
  match next_arrival l with
  | None => wr_arrivals (ln_wire l) = [] ∧ wr_quiet (ln_wire l) = true
  | Some (at_, r, w) =>
      (∃ t, wr_arrivals (ln_wire l) = (t, r) :: wr_arrivals w ∧ at_ = Z.max t (ln_now l)) ∨
      (wr_arrivals (ln_wire l) = [] ∧ at_ = ln_now l ∧ ∃ e, r = inl e ∧ is_transport e = true)
  end.
Proof.
  unfold next_arrival. destruct (wr_arrivals (ln_wire l)) as [|[t r] rest]; [destruct (wr_quiet (ln_wire l)); [done|]|].
  - right. split_and!; [done..|]. by eexists.
  - left. by exists t.
Qed.

Lemma received_transport e l : is_transport e = true → ∃ chain, (received (inl e) l).1 = Err (Anyhow chain (Some e)).
Proof. destruct e; [|done..]. intros _. by eexists. Qed.

(** One read takes an arrival, or it ends the wait. *)
Lemma receive_says deadline l : wp (receive deadline) (λ r l', within deadline l l' ∧
  match r with
  | Ok Expired => is_Some deadline
  | Ok got => ∃ t a, wr_arrivals (ln_wire l) = (t, a) :: wr_arrivals (ln_wire l') ∧ (∀ f, got = Received_Frame f → a = inr f)
  | Err Blocked => deadline = None ∧ wr_arrivals (ln_wire l) = [] ∧ wr_quiet (ln_wire l) = true
  | Err _ => True
  end) l.
Proof.
  unfold wp, receive, within. pose proof (next_arrival_cases l) as Hn.
  assert (Hgot : ∀ at_ r w, next_arrival l = Some (at_, r, w) →
    let '(res, l') := received r (mkLine w at_) in ln_now l' = at_ ∧
    match res with
    | Ok Expired => False
    | Ok got => ∃ t a, wr_arrivals (ln_wire l) = (t, a) :: wr_arrivals (ln_wire l') ∧ (∀ f, got = Received_Frame f → a = inr f)
    | Err Blocked => False
    | Err _ => True
    end).
  { intros at_ r w E. rewrite E in Hn. pose proof (received_time r (mkLine w at_)) as (Ht & Ha & Hb & Hf & Hx).
    destruct Hn as [(t & Harr & _)|(_ & _ & e & -> & He)].
    - destruct (received r (mkLine w at_)) as [res l']. cbn in *. split; [done|].
      destruct res as [[]|[]]; try done; exists t, r; rewrite Ha; split; try done; intros f [= <-]; by apply Hf.
    - destruct (received_transport e (mkLine w at_) He) as [chain Hc]. destruct (received (inl e) (mkLine w at_)) as [res l']. cbn in *.
      subst res. done. }
  destruct deadline as [d|].
  - destruct (Z.leb_spec d (ln_now l)); cbn; [split; [lia|by eexists]|].
    destruct (next_arrival l) as [[[at_ r] w]|] eqn:E; cbn; [|split; [lia|by eexists]].
    destruct (Z.leb_spec at_ d); cbn; [|split; [lia|by eexists]].
    specialize (Hgot _ _ _ eq_refl). destruct (received r _) as [res l']. destruct Hgot as [Hat Hr]. cbn [fst snd]. split; [lia|].
    destruct res as [[]|[]]; done.
  - destruct (next_arrival l) as [[[at_ r] w]|] eqn:E; cbn.
    + specialize (Hgot _ _ _ eq_refl). destruct (received r _) as [res l']. destruct Hgot as [Hat Hr]. cbn [fst snd]. rewrite Hat. split.
      * destruct Hn as [(t & -> & ->)|(-> & -> & _)]; done.
      * destruct res as [[]|[]]; done.
    + destruct Hn as [-> ->]. done.
Qed.

(** What an answer was. *)
Definition an_answer {T} (rid : Z) (want : Frame → option T) (arrivals : list (Z * (ReadFrameError + Frame))) (v : verdict T) : Prop :=
  ∃ t reply, (t, inr reply) ∈ arrivals ∧
    match v with Ok value => want reply = Some value | Err refusal => own_refusal rid reply = Some refusal end.

(** How a wait under a deadline ends, or one whose clock starts with the first arrival. *)
Definition waited {T} (timeout rid : Z) (want : Frame → option T) (deadline : option Z) (l : Line)
    (r : result failure (verdict T)) (l' : Line) : Prop :=
    match deadline with
    | Some d => ln_now l' ≤ Z.max (ln_now l) d ∧ r ≠ Err Blocked
    | None => match wr_arrivals (ln_wire l) with
              | (t, _) :: _ => ln_now l' ≤ Z.max t (ln_now l) + timeout ∧ r ≠ Err Blocked
              | [] => ln_now l' = ln_now l ∧ (r = Err Blocked → wr_quiet (ln_wire l) = true)
              end
    end ∧ ∀ v, r = Ok v → an_answer rid want (wr_arrivals (ln_wire l)) v.

Lemma await_says {T} fuel timeout rid (want : Frame → option T) deadline unanswered l :
  (length (wr_arrivals (ln_wire l)) < fuel)%nat → 0 ≤ timeout →
  wp (await fuel timeout rid want deadline unanswered) (waited timeout rid want deadline l) l.
Proof.
  intros Hfuel Ht. revert deadline unanswered l Hfuel. induction fuel as [|fuel IH]; intros deadline unanswered l Hfuel; [lia|].
  cbn [await]. wp_step. eapply wp_mono; [apply receive_says|]. intros [got|e] l1 [Hw Hr].
  2: { apply wp_ret. unfold waited. split; [|done]. unfold within in Hw. destruct deadline as [d|].
    - split; [done|]. destruct e; [by destruct Hr|done].
    - destruct (wr_arrivals (ln_wire l)) as [|[t a] rest]; (split; [lia|]); destruct e; try done; by destruct Hr as (_ & ? & ?). }
  wp_step. apply wp_get. cbv zeta. destruct got as [f| |].
  3: { apply wp_ret. destruct Hr as [d ->]. split; [|done]. by split. }
  all: destruct Hr as (t & a & Harr & Hf); rewrite Harr in Hfuel; cbn in Hfuel.
  (* the wait goes on, under the deadline *)
  all: assert (Hon : wp (await fuel timeout rid want (Some (default (ln_now l1 + timeout) deadline)) (S unanswered)) (waited timeout rid want deadline l) l1).
  1, 3: eapply wp_mono; [apply IH; lia|]; unfold waited; intros r l2 [[Hnow Hb] Hans]; unfold within in Hw; rewrite Harr in *;
    (split; [destruct deadline; cbn in *; (split; [lia|done])|]);
    intros v Hv; destruct (Hans v Hv) as (t' & reply & Hin & Hv'); exists t', reply; split; [by right|done].
  2: exact Hon.
  assert (Htime : match deadline with
    | Some d => ln_now l1 ≤ Z.max (ln_now l) d
    | None => ln_now l1 ≤ Z.max t (ln_now l) + timeout end).
  { unfold within in Hw. rewrite Harr in Hw. destruct deadline; [done|lia]. }
  assert (Hend : ∀ v, an_answer rid want (wr_arrivals (ln_wire l)) v → wp (mret (Ok v)) (waited timeout rid want deadline l) l1).
  { intros v Hv. apply wp_ret. split; [rewrite Harr; by destruct deadline|]. by intros ? [= <-]. }
  specialize (Hf f eq_refl). subst a.
  destruct (want f) as [value|] eqn:Hwant.
  { apply Hend. exists t, f. rewrite Harr. split; [by left|done]. }
  destruct (own_refusal rid f) as [refusal|] eqn:Hown; [|exact Hon].
  apply Hend. exists t, f. rewrite Harr. split; [by left|done].
Qed.

Lemma answer_to_says {T} timeout rid (want : Frame → option T) l : 0 ≤ timeout →
  wp (answer_to timeout rid want) (λ r l', complains l l' ∧ waited timeout rid want None l r l') l.
Proof.
  intros Ht. split; [apply (answer_to_complains timeout rid want l)|]. apply await_says; [lia|done].
Qed.

(** What an arrival says to whoever waits for [rid]. *)
Definition settles_with {T} (rid : Z) (want : Frame → option T) (reply : Frame) (v : verdict T) : Prop :=
  match v with
  | Ok value => want reply = Some value
  | Err refusal => want reply = None ∧ own_refusal rid reply = Some refusal
  end.

Definition says_nothing {T} (rid : Z) (want : Frame → option T) (f : Frame) : Prop := want f = None ∧ own_refusal rid f = None.

Definition as_arrivals (l : list (Z * Frame)) : list (Z * (ReadFrameError + Frame)) := map (λ '(t, f), (t, inr f)) l.

Lemma receive_takes deadline l t f rest : wr_arrivals (ln_wire l) = (t, inr f) :: rest →
  (∀ d, deadline = Some d → ln_now l < d ∧ t ≤ d) →
  receive deadline l = (Ok (Received_Frame f), mkLine (with_arrivals rest (ln_wire l)) (Z.max t (ln_now l))).
Proof.
  intros Ha Hd. unfold receive, next_arrival. rewrite Ha. destruct deadline as [d|]; [|done].
  destruct (Hd d eq_refl). rewrite (proj2 (Z.leb_gt _ _)), (proj2 (Z.leb_le _ _)) by lia. done.
Qed.

(** An answer that arrives in time is taken, whatever else arrives before it. *)
Lemma await_takes {T} fuel timeout rid (want : Frame → option T) deadline unanswered pre t reply post v l :
  wr_arrivals (ln_wire l) = as_arrivals pre ++ (t, inr reply) :: post → (length pre < fuel)%nat → 0 < timeout →
  settles_with rid want reply v → Forall (λ '(_, f), says_nothing rid want f) pre →
  (∀ d, (deadline = Some d ∨ deadline = None ∧ ∃ t0 f pre', pre = (t0, f) :: pre' ∧ d = Z.max t0 (ln_now l) + timeout) →
    ln_now l < d ∧ t ≤ d ∧ Forall (λ '(t', _), t' < d) pre) →
  let '(r, l') := await fuel timeout rid want deadline unanswered l in
  r = Ok v ∧ wr_arrivals (ln_wire l') = post.
Proof.
  intros Ha Hfuel Ht Hv Hpre Hd. revert deadline unanswered fuel l Ha Hfuel Hd.
  induction Hpre as [|[t0 f] pre [Hf1 Hf2] Hpre IH]; intros deadline unanswered [|fuel] l Ha Hfuel Hd; cbn in Hfuel; try lia; cbn [await as_arrivals map app] in *.
  - unfold bind_ok. erewrite receive_takes by (try exact Ha; intros d Hdl; destruct (Hd d (or_introl Hdl)); tauto).
    rewrite st_bind_unfold. cbn. destruct v; cbn in Hv; [by rewrite Hv|]. destruct Hv as [-> ->]. done.
  - assert (Hnow : ∀ d, deadline = Some d → ln_now l < d ∧ t0 ≤ d).
    { intros d Hdl. destruct (Hd d (or_introl Hdl)) as (? & _ & Hall). apply Forall_cons in Hall as [? _]. lia. }
    unfold bind_ok. erewrite receive_takes by (try exact Ha; exact Hnow). rewrite st_bind_unfold. cbn. rewrite Hf1, Hf2.
    apply IH; [done|lia|]. cbn. intros d [[= <-]|[[=] _]].
    destruct deadline as [d|]; cbn.
    + destruct (Hd d (or_introl eq_refl)) as (? & ? & Hall). apply Forall_cons in Hall as [? ?]. split_and!; [lia|done..].
    + destruct (Hd _ (or_intror (conj eq_refl (ex_intro _ t0 (ex_intro _ f (ex_intro _ pre (conj eq_refl eq_refl))))))) as (? & ? & Hall).
      apply Forall_cons in Hall as [? ?]. split_and!; [lia|done..].
Qed.

(** C20. A request is answered or its wait ends. Once anything has arrived, the wait is over
    ten seconds later at the latest; before that it only goes on while the daemon is
    silent and its connection open. What it gives back is an answer to this request that
    did arrive, and an answer that arrives in time is taken, whatever arrives before it. *)
Theorem a_wait_for_an_answer_ends {T} rid (want : Frame → option T) l :
  let '(r, l') := answer_to ANSWER_TIMEOUT rid want l in
  (match wr_arrivals (ln_wire l) with
   | (t, _) :: _ => ln_now l' ≤ Z.max t (ln_now l) + ANSWER_TIMEOUT ∧ r ≠ Err Blocked
   | [] => ln_now l' = ln_now l ∧ (r = Err Blocked → wr_quiet (ln_wire l) = true)
   end) ∧
  (∀ v, r = Ok v → an_answer rid want (wr_arrivals (ln_wire l)) v) ∧
  (∀ pre t reply post v, wr_arrivals (ln_wire l) = as_arrivals pre ++ (t, inr reply) :: post →
     settles_with rid want reply v → Forall (λ '(_, f), says_nothing rid want f) pre →
     (∀ t0 f, head pre = Some (t0, f) → t ≤ Z.max t0 (ln_now l) + ANSWER_TIMEOUT ∧
        Forall (λ '(t', _), t' < Z.max t0 (ln_now l) + ANSWER_TIMEOUT) pre) →
     r = Ok v ∧ wr_arrivals (ln_wire l') = post).
Proof.
  destruct (answer_to_says ANSWER_TIMEOUT rid want l) as [_ [Hend Hans]]; [done|].
  assert (Htakes : ∀ pre t reply post v, wr_arrivals (ln_wire l) = as_arrivals pre ++ (t, inr reply) :: post →
     settles_with rid want reply v → Forall (λ '(_, f), says_nothing rid want f) pre →
     (∀ t0 f, head pre = Some (t0, f) → t ≤ Z.max t0 (ln_now l) + ANSWER_TIMEOUT ∧
        Forall (λ '(t', _), t' < Z.max t0 (ln_now l) + ANSWER_TIMEOUT) pre) →
     let '(r, l') := answer_to ANSWER_TIMEOUT rid want l in r = Ok v ∧ wr_arrivals (ln_wire l') = post).
  { intros pre t reply post v Ha Hv Hpre Hd. unfold answer_to. rewrite st_bind_unfold. unfold st_get. cbn [fst snd].
    eapply await_takes; [exact Ha|rewrite Ha, length_app; unfold as_arrivals; rewrite length_map; cbn; lia|done..|].
    intros d [[=]|[_ (t0 & f & pre' & -> & ->)]]. destruct (Hd t0 f eq_refl). split_and!; [unfold ANSWER_TIMEOUT; lia|done..]. }
  destruct (answer_to ANSWER_TIMEOUT rid want l) as [r l']. cbn [fst snd] in *. by split_and!.
Qed.
End Lines.

(** ** The connections of a backend *)

Section Backends.
Context `{EnvelopeText, BodyErrors, Unicode, FrameDebug} (ep : Endpoint).

(** The requests written, in order, each under what the daemon it was written to said it
    is. *)
Definition asks (c : Control) : list (option string * Frame) := map (pair (ct_instance_id c)) (requests_of (ct_wire c)).

Definition slot (b : DaemonBackend) : list Control := from_option (λ c, [c]) [] (bk_connection b).

Definition requests (b : DaemonBackend) : list (option string * Frame) :=
  mjoin (map asks (bk_closed b ++ slot b)).

(** A connection over which a daemon introduced itself, as [ct_instance_id] says. *)
Definition introduced_by (c : Control) (w : Wire) : Prop :=
  ∃ n t ack rest, ep_open ep n = Ok w ∧ wr_arrivals w = (t, inr (Frame_HelloAck ack)) :: rest ∧
    ack_instance_id ack = ct_instance_id c ∧ wr_arrivals (ct_wire c) `suffix_of` rest.

Definition introduced (b : DaemonBackend) : Prop :=
  (∀ c, bk_connection b = Some c → ∃ w, introduced_by c w) ∧
  (∀ c, c ∈ bk_closed b → asks c = [] ∨ ∃ w, introduced_by c w).

(** Nothing is written to a connection before it is opened. *)
Definition fresh_wires : Prop := ∀ n w, ep_open ep n = Ok w → wr_sent w = [].

(** What was done meanwhile: requests in [P] were written, to daemons that introduced
    themselves. *)
Definition writes_only (P : option string → Frame → Prop) (b b' : DaemonBackend) : Prop :=
  (introduced b → introduced b') ∧ ∃ new, requests b' = requests b ++ new ∧ Forall (λ '(id, f), P id f) new.

#[export] Instance writes_only_preorder P : PreOrder (writes_only P).
Proof.
  split.
  - intros b. split; [done|]. exists []. by rewrite app_nil_r.
  - intros b1 b2 b3 [H12 (n1 & A1 & F1)] [H23 (n2 & A2 & F2)]. split; [auto|].
    exists (n1 ++ n2). rewrite A2, A1, app_assoc. split; [done|]. by apply Forall_app.
Qed.

Lemma writes_nothing P b b' : (introduced b → introduced b') → requests b' = requests b → writes_only P b b'.
Proof. intros Hi Hr. split; [done|]. exists []. by rewrite app_nil_r. Qed.

(** Steps that leave the connections alone. *)
Definition same_connections (b b' : DaemonBackend) : Prop :=
  bk_connection b' = bk_connection b ∧ bk_closed b' = bk_closed b.

Lemma same_connections_writes P b b' : same_connections b b' → writes_only P b b'.
Proof.
  intros [Hc Hk]. apply writes_nothing.
  - unfold introduced. by rewrite Hc, Hk.
  - unfold requests, slot. by rewrite Hc, Hk.
Qed.

Lemma same_link_ready b : same_connections b (link_ready ep b).2.
Proof. unfold link_ready. destruct (bk_transport b); [done|]. by destruct (ensure_ready _ _ _ _ _ _ _). Qed.

Lemma same_run argv b : same_connections b (run_on_host ep argv b).2.
Proof. unfold run_on_host. destruct (bk_transport b); [done|]. by destruct (on_host _ _). Qed.

Lemma lose_writes P : moves (writes_only P) lose_connection.
Proof.
  intros b. unfold lose_connection. rewrite st_bind_unfold. cbn.
  set (b1 := with_connection None _). assert (Hb : writes_only P b b1).
  { unfold b1. destruct (bk_connection b) as [c|] eqn:Hc; [|apply same_connections_writes; by split].
    apply writes_nothing.
    - intros [Hs Hk]. split; [done|]. cbn. intros c' [Hin|Hin]%elem_of_app; [auto|].
      apply list_elem_of_singleton in Hin as ->. right. auto.
    - unfold requests, slot. cbn. by rewrite Hc, app_nil_r. }
  etrans; [exact Hb|]. apply same_connections_writes. by case_match.
Qed.

Lemma asks_fresh n w : fresh_wires → ep_open ep n = Ok w → requests_of w = [].
Proof. intros Hf Hw. unfold requests_of. by rewrite (Hf n w Hw). Qed.

(** What comes of connecting anew. *)
Lemma handshaken_says P retries hello b : fresh_wires →
  wp (handshaken ep retries hello) (λ r b', writes_only P b b' ∧ bk_connection b' = bk_connection b ∧
    match r with Ok c => asks c = [] ∧ ∃ w, introduced_by c w | Err _ => True end) b.
Proof.
  intros Hf. revert b. induction retries as [|retries IH]; intros b; unfold wp; cbn [handshaken].
  all: destruct (ep_open ep (bk_opened b)) as [w|e] eqn:Hw;
    [|cbn; split; [by apply same_connections_writes|done]].
  all: pose proof (handshake_says hello (mkLine w (bk_now b))) as Hs; unfold wp in Hs.
  all: destruct (handshake hello _) as [outcome l]; cbn [fst snd] in Hs; destruct Hs as [Hc Ho].
  all: destruct Hc as [Hc _]; cbn [ln_wire] in Hc; rewrite (asks_fresh _ _ Hf Hw) in Hc.
  all: destruct outcome as [ack|e].
  1,3: destruct Ho as [t Harr]; cbn; split; [by apply same_connections_writes|]; split; [done|];
    split; [by unfold asks; cbn; rewrite Hc|]; exists w, (bk_opened b), t, ack, (wr_arrivals (ln_wire l)); done.
  all: set (b1 := with_closed _ _).
  all: assert (Hb1 : writes_only P b b1) by (apply writes_nothing; [intros [Hs Hk]; split; [done|]; cbn;
      intros c [Hin|Hin]%elem_of_app; [auto|]; apply list_elem_of_singleton in Hin as ->; left; unfold asks; cbn; by rewrite Hc
    |unfold requests, slot; cbn; rewrite !fmap_app, !join_app; cbn; unfold asks at 2; cbn; by rewrite Hc, app_nil_r]).
  all: destruct (negb _); [cbn; by split|].
  - cbn. by split.
  - destruct (IH (with_clock (bk_now b1 + HANDSHAKE_RETRY_DELAY) b1)) as (Hw' & Hs & Hr). split; [|by split].
    etrans; [exact Hb1|]. etrans; [|exact Hw']. by apply same_connections_writes.
Qed.

Lemma connect_says P b : fresh_wires →
  wp (connect ep) (λ r b', writes_only P b b' ∧ bk_connection b' = bk_connection b ∧
    match r with Ok c => asks c = [] ∧ ∃ w, introduced_by c w | Err _ => True end) b.
Proof.
  intros Hf. unfold connect. wp_step. unfold wp at 1. pose proof (same_link_ready b) as Hl.
  destruct (link_ready ep b) as [[line|e] b1]; cbn [fst snd] in *.
  2: { split; [by apply same_connections_writes|]. by destruct Hl. }
  wp_step. eapply wp_mono; [apply (handshaken_says P), Hf|]. intros [c|e] b2 (Hw & Hs & Hr).
  2: { split; [etrans; [by apply same_connections_writes|done]|]. destruct Hl. by split; [congruence|]. }
  repeat wp_step. split; [|split; [|exact Hr]].
  - etrans; [by apply same_connections_writes|]. etrans; [exact Hw|]. apply same_connections_writes.
    unfold same_connections. destruct line; cbn; [by destruct (bk_transport b2)|done].
  - destruct Hl as [Hl _]. rewrite <- Hl, <- Hs. destruct line; cbn; [by destruct (bk_transport b2)|done].
Qed.

Lemma connected_says P expected b : fresh_wires →
  wp (connected ep expected) (λ r b', writes_only P b b' ∧
    match r with Ok c => bk_connection b' = Some c | Err _ => True end) b.
Proof.
  intros Hf. unfold connected. wp_step. apply wp_get. wp_step.
  assert (Hlose : wp (match bk_connection b with
    | Some c => if identity_admits expected (ct_instance_id c) then mret () else lose_connection
    | None => mret () end) (λ _ b1, writes_only P b b1) b).
  { destruct (bk_connection b) as [c|]; [|apply wp_ret; reflexivity].
    destruct (identity_admits _ _); [apply wp_ret; reflexivity|]. apply lose_writes. }
  eapply wp_mono; [exact Hlose|]. intros u b1 Hb1. wp_step. apply wp_get.
  destruct (bk_connection b1) as [c|] eqn:Hc; [by apply wp_ret|].
  wp_step. eapply wp_mono; [apply (connect_says P), Hf|]. intros [c|e] b2 (Hw & Hs & Hr).
  2: { split; [etrans; [exact Hb1|exact Hw]|done]. }
  destruct Hr as [Hno Hin]. repeat wp_step. split; [|done]. etrans; [exact Hb1|]. etrans; [exact Hw|].
  apply writes_nothing.
  - intros [Hs1 Hk1]. split; [|done]. cbn. by intros c' [= <-].
  - unfold requests, slot. cbn. rewrite Hs, Hc. cbn. rewrite !fmap_app, !join_app. cbn. by rewrite Hno.
Qed.

(** A conversation over the connection in the slot, with what it writes. *)
Lemma over_connection_says {A} c (m : st Line (result failure A)) (Q : result failure A → Line → Prop) (news : result failure A → list Frame) b :
  bk_connection b = Some c → wp m Q (mkLine (ct_wire c) (bk_now b)) →
  (∀ r l, Q r l → wr_arrivals (ln_wire l) `suffix_of` wr_arrivals (ct_wire c) ∧
                  requests_of (ln_wire l) = requests_of (ct_wire c) ++ news r) →
  wp (over_connection c m) (λ r b', (introduced b → introduced b') ∧
    ∃ l c', c' = mkControl (ln_wire l) (ct_instance_id c) ∧ bk_connection b' = Some c' ∧ bk_now b' = ln_now l ∧
      match r with
      | Ok (a, c'') => Q (Ok a) l ∧ c'' = c' ∧ requests b' = requests b ++ map (pair (ct_instance_id c)) (news (Ok a))
      | Err e => Q (Err e) l ∧ requests b' = requests b ++ map (pair (ct_instance_id c)) (news (Err e))
      end) b.
Proof.
  intros Hc Hm HQ. unfold wp, over_connection in *. destruct (m _) as [r l]. cbn [fst snd] in *.
  destruct (HQ r l Hm) as [Hsuf Hreq]. split.
  - intros [Hs Hk]. split; [|done]. cbn. intros c' [= <-]. destruct (Hs c Hc) as (w & n & t & ack & rest & Hw & Ha & Hid & Hsuf').
    exists w, n, t, ack, rest. split_and!; try done. by etrans.
  - assert (Hnew : requests (with_connection (Some (mkControl (ln_wire l) (ct_instance_id c))) (with_clock (ln_now l) b)) =
      requests b ++ map (pair (ct_instance_id c)) (news r)).
    { unfold requests, slot. cbn. rewrite Hc. cbn. rewrite !fmap_app, !join_app. cbn. rewrite !app_nil_r. unfold asks at 2. cbn.
      by rewrite Hreq, map_app, app_assoc. }
    exists l, (mkControl (ln_wire l) (ct_instance_id c)). split_and!; [done..|]. by destruct r.
Qed.

(** What is known once a request has ended: it was written once, or not at all, and only
    to a daemon it is meant for; and an answer is an answer to it, from that daemon. *)
Definition served {T} (expected : option string) (rid : Z) (frame : Frame) (want : Frame → option T)
    (b : DaemonBackend) (r : result failure (T * option string)) (b' : DaemonBackend) : Prop :=
  (introduced b → introduced b') ∧
  ∃ new, requests b' = requests b ++ new ∧
    (new = [] ∨ ∃ id, identity_admits expected id = true ∧ new = [(id, frame)]) ∧
    match r with
    | Ok (value, seen) => new = [(seen, frame)] ∧ ∃ c, bk_connection b' = Some c ∧ ct_instance_id c = seen ∧
        (introduced b → ∃ w t reply, introduced_by c w ∧ (t, inr reply) ∈ wr_arrivals w ∧ want reply = Some value)
    | Err _ => True
    end.

Lemma suffix_elem {A} (x : A) l k : l `suffix_of` k → x ∈ l → x ∈ k.
Proof. intros [p ->] Hx. apply elem_of_app. by right. Qed.

Definition none : option string → Frame → Prop := λ _ _, False.

Lemma writes_none b b' : writes_only none b b' → requests b' = requests b.
Proof. intros [_ ([|[id f] new] & -> & HF)]; [by rewrite app_nil_r|]. by apply Forall_cons in HF as [[] _]. Qed.

Lemma request_seen_says {T} expected rid frame (want : Frame → option T) b :
  fresh_wires → is_request frame = true →
  wp (request_seen ep expected rid frame want) (λ r b', served expected rid frame want b r b') b.
Proof.
  intros Hf Hreq. unfold request_seen. wp_step.
  eapply wp_mono with (Q := λ outcome b1, served expected rid frame want b
    (match outcome with Ok (Ok v) => Ok v | Ok (Err m) => Err (bail m) | Err e => Err e end) b1).
  2: { intros [[v|message]|[|chain read]] b1 Hs; try by apply wp_ret.
       wp_step. eapply wp_mono; [apply (wp_moves _ _ _ (lose_writes none))|]. intros u b2 Hb2. apply wp_ret.
       destruct Hs as (Hi & new & Hnew & Hone & _), Hb2 as [Hi2 Hb2]. split; [auto|]. exists new.
       split; [|done]. by rewrite (writes_none b1 b2). }
  wp_step. eapply wp_mono; [apply (connected_says none), Hf|]. intros [c|e] b1 [Hw1 Hc].
  2: { split; [apply Hw1|]. exists []. rewrite app_nil_r. split; [by apply writes_none|]. split; [by left|done]. }
  pose proof (writes_none _ _ Hw1) as Hr1. destruct Hw1 as [Hi1 _].
  wp_step. apply wp_get. destruct (identity_admits expected (ct_instance_id c)) eqn:Hadm; cbn [negb].
  2: { apply wp_ret. split; [done|]. exists []. rewrite app_nil_r. split; [done|]. split; [by left|done]. }
  wp_step. eapply wp_mono.
  { apply (over_connection_says c (send frame) (λ r l, wr_arrivals (ln_wire l) = wr_arrivals (ct_wire c) ∧
      wr_sent (ln_wire l) = wr_sent (ct_wire c) ++ match r with Ok _ => [frame] | Err _ => [] end)
      (λ r, match r with Ok _ => [frame] | Err _ => [] end) b1 Hc).
    - unfold wp. pose proof (send_sent frame (mkLine (ct_wire c) (bk_now b1))) as Hs. destruct (send frame _) as [[u|e] l]; cbn in *.
      + by destruct Hs as (_ & ? & _ & ?).
      + destruct Hs as (_ & ? & _ & -> & _). by rewrite app_nil_r.
    - intros r l [-> Hs]. split; [done|]. unfold requests_of. rewrite Hs, filter_app. f_equal. destruct r; [|done].
      by rewrite filter_cons_True. }
  intros [[u c1]|e] b2 (Hi2 & l & c' & -> & Hc' & Hnow & HQ).
  2: { destruct HQ as [_ Hr2]. cbn in Hr2. rewrite app_nil_r in Hr2. split; [auto|]. exists []. rewrite app_nil_r.
       split; [congruence|]. split; [by left|done]. }
  destruct HQ as ([Ha1 Hs1] & -> & Hr2). cbn in Hr2. rewrite Hr1 in Hr2.
  wp_step. eapply wp_mono.
  { eapply (over_connection_says _ (answer_to ANSWER_TIMEOUT rid want) (λ r l', complains l l' ∧
      waited ANSWER_TIMEOUT rid want None (mkLine (ln_wire l) (bk_now b2)) r l') (λ _, []) b2 Hc').
    - cbn. destruct (answer_to_says ANSWER_TIMEOUT rid want (mkLine (ln_wire l) (bk_now b2))) as [Hcompl Hw]; [done|].
      split; [exact Hcompl|exact Hw].
    - intros r l' [[Hr Hs] _]. cbn in *. by rewrite app_nil_r, Hr. }
  intros [[v c2]|e] b3 (Hi3 & l3 & c3 & -> & Hc3 & _ & HQ).
  2: { destruct HQ as [_ Hr3]. rewrite app_nil_r in Hr3. split; [auto|]. exists [(ct_instance_id c, frame)].
       split; [congruence|]. split; [right; by exists (ct_instance_id c)|done]. }
  destruct HQ as ([Hcomp [_ Hans]] & -> & Hr3). rewrite app_nil_r in Hr3. apply wp_ret. split; [auto|].
  exists [(ct_instance_id c, frame)]. split; [congruence|]. split; [right; by exists (ct_instance_id c)|].
  destruct v as [value|refusal]; [|done]. cbn. split; [done|]. eexists. split; [exact Hc3|]. split; [done|].
  intros Hi. destruct (Hi1 Hi) as [Hs _]. destruct (Hs c Hc) as (w & n & t & ack & rest & Hw & Harr & Hid & Hsuf).
  destruct (Hans _ eq_refl) as (t' & reply & Hin & Hwant). exists w, t', reply. split_and!; [|by rewrite Harr; right; eapply suffix_elem; [exact Hsuf|rewrite <- Ha1]|done].
  exists n, t, ack, rest. split_and!; try done. cbn. etrans; [apply Hcomp|]. by rewrite Ha1.
Qed.

Lemma writes_request_seen {T} P expected rid frame (want : Frame → option T) : fresh_wires → is_request frame = true →
  (∀ id, identity_admits expected id = true → P id frame) →
  moves (writes_only P) (request_seen ep expected rid frame want).
Proof.
  intros Hf Hreq HP b. destruct (request_seen_says expected rid frame want b Hf Hreq) as (Hi & new & Hnew & Hone & _).
  split; [done|]. exists new. split; [done|]. destruct Hone as [->|(id & Ha & ->)]; [done|].
  apply Forall_singleton. by apply HP.
Qed.

Lemma writes_with_id {A} P (k : Z → bk A) : (∀ rid, moves (writes_only P) (k rid)) →
  moves (writes_only P) (λ b, let '(rid, b) := request_id b in k rid b).
Proof. intros Hk b. cbn. etrans; [|apply Hk]. by apply same_connections_writes. Qed.

Lemma writes_in_context {A} P c (m : bk A) : moves (writes_only P) m → moves (writes_only P) (in_context c m).
Proof. intros Hm b. unfold in_context. rewrite st_bind_unfold. cbn. apply Hm. Qed.

Lemma writes_run argv P : moves (writes_only P) (run_on_host ep argv).
Proof. intros b. apply same_connections_writes, same_run. Qed.

Lemma writes_remade P : moves (writes_only P) (st_modify remade).
Proof.
  intros b. cbn. unfold remade. destruct (bk_connection b) as [c|] eqn:Hc.
  - apply writes_nothing.
    + intros [Hs Hk]. split; [done|]. cbn. intros c' [Hin|Hin]%elem_of_app; [auto|].
      apply list_elem_of_singleton in Hin as ->. right. auto.
    + unfold requests, slot. cbn. by rewrite Hc, app_nil_r.
  - apply same_connections_writes. by split.
Qed.
End Backends.

#[export] Hint Resolve writes_with_id writes_in_context writes_run writes_remade : moves.

(** ** What each operation may write *)

Definition expected_of (c : call) : option string :=
  match c with
  | CallUpdateScope _ _ _ _ _ d | CallCreate _ d | CallCreateIn _ _ d | CallExists _ d | CallAttach _ d | CallAttachSession _ d
  | CallKill _ d | CallReset _ _ d | CallRename _ _ d | CallKillWorkspace _ d | CallOpenWorkspace _ d | CallUpdateLayout _ _ _ d
  | CallKillSession _ d => d
  | _ => None
  end.

Definition creates (spec : SessionSpec) (f : Frame) : Prop := ∃ rid,
  f = Frame_CreateSession (ss_id spec) (ss_directory spec) (ss_project_id spec) (ss_project_identity spec)
        "" [] DEFAULT_COLS DEFAULT_ROWS "shell" (ss_id spec) None rid.

Definition lists_sessions (f : Frame) : Prop := ∃ rid, f = Frame_ListSessions rid.
Definition kills_session (f : Frame) : Prop := ∃ id rid, f = Frame_Kill id rid.

(** The requests that a call is made of. *)
Definition may_write (c : call) (f : Frame) : Prop :=
  match c with
  | CallListWorkspaces => ∃ rid, f = Frame_ListWorkspaces rid
  | CallListSessions | CallExists _ _ => lists_sessions f
  | CallUpdateScope w p i root least _ => ∃ rid, f = Frame_UpdateWorkspaceProject w p i root least rid
  | CallCreate spec _ | CallAttach spec _ => lists_sessions f ∨ kills_session f ∨ creates spec f
  | CallCreateIn w cwd _ => ∃ rid, f = Frame_CreateSession w cwd None None "" [] DEFAULT_COLS DEFAULT_ROWS "shell" EXTRA_SESSION_LABEL None rid
  | CallKill _ _ | CallReset _ _ _ => lists_sessions f ∨ kills_session f
  | CallRename w name _ => ∃ rid, f = Frame_RenameWorkspace w name rid
  | CallKillWorkspace w _ => ∃ rid, f = Frame_KillWorkspace w rid
  | CallOpenWorkspace w _ => ∃ rid, f = Frame_OpenWorkspace w rid
  | CallUpdateLayout w layout rev _ => ∃ rid, f = Frame_UpdateLayout w layout rev rid
  | CallKillSession id _ => ∃ rid, f = Frame_Kill id rid
  | _ => False
  end.

Section Operations.
Context `{EnvelopeText, BodyErrors, Unicode, FrameDebug} (ep : Endpoint).
Hypothesis fresh : fresh_wires ep.

Definition keeps_within (c : call) (id : option string) (f : Frame) : Prop :=
  may_write c f ∧ identity_admits (expected_of c) id = true.

Lemma identity_admits_trans expected seen id : identity_admits expected seen = true → identity_admits seen id = true →
  identity_admits expected id = true.
Proof.
  unfold identity_admits. destruct expected as [d|]; [|done]. intros ->%bool_decide_eq_true. done.
Qed.

(** What a listing of the daemon's sessions was. *)
Definition listed_in (b' : DaemonBackend) (seen : option string) (sessions : list SessionInfo) : Prop :=
  ∃ c w t rid, bk_connection b' = Some c ∧ ct_instance_id c = seen ∧ introduced_by ep c w ∧
    (t, inr (Frame_SessionList sessions (Some rid))) ∈ wr_arrivals w.

Lemma daemon_sessions_seen_says (P : option string → Frame → Prop) expected b :
  (∀ id f, identity_admits expected id = true → lists_sessions f → P id f) →
  wp (daemon_sessions_seen ep expected) (λ r b', writes_only ep P b b' ∧
    match r with
    | Ok (sessions, seen) => identity_admits expected seen = true ∧ (introduced ep b → listed_in b' seen sessions)
    | Err _ => True
    end) b.
Proof using fresh.
  intros HP. unfold daemon_sessions_seen, in_context. wp_step. unfold wp at 1. cbn [request_id].
  set (b0 := with_next_request_id _ b). set (rid := bk_next_request_id b).
  pose proof (request_seen_says ep expected rid (Frame_ListSessions (Some rid))
    (λ frame, match frame with Frame_SessionList sessions reply_id => if_ours rid reply_id sessions | _ => None end) b0 fresh eq_refl) as Hs.
  unfold wp in Hs. destruct (request_seen _ _ _ _ _ b0) as [r b1]. cbn [fst snd] in *. apply wp_ret.
  destruct Hs as (Hi & new & Hnew & Hone & Hans). split.
  - etrans; [apply (same_connections_writes ep P b b0); by split|]. split; [done|]. exists new. split; [done|].
    destruct Hone as [->|(id & Ha & ->)]; [done|]. apply Forall_singleton. apply HP; [done|by eexists].
  - destruct r as [[sessions seen]|e]; [|done]. destruct Hans as (-> & c & Hc & Hid & Hans).
    split. { destruct Hone as [?|(id & Ha & [= <-])]; done. }
    intros Hintro. destruct (Hans Hintro) as (w & t & reply & Hw & Hin & Hwant). exists c, w, t, rid.
    split_and!; try done. destruct reply; try done. unfold if_ours in Hwant. case_bool_decide; [|done]. by simplify_eq.
Qed.

Lemma writes_daemon_sessions_seen P expected : (∀ id f, identity_admits expected id = true → lists_sessions f → P id f) →
  moves (writes_only ep P) (daemon_sessions_seen ep expected).
Proof using fresh. intros HP b. by destruct (daemon_sessions_seen_says P expected b HP). Qed.

Lemma writes_kill_daemon_session P id expected :
  (∀ seen rid, identity_admits expected seen = true → P seen (Frame_Kill id rid)) →
  moves (writes_only ep P) (kill_daemon_session ep id expected).
Proof using fresh.
  intros HP b. unfold kill_daemon_session. cbn [request_id]. set (b0 := with_next_request_id _ b).
  assert (Hr : ∀ rid want, moves (writes_only ep P) (request (T := ()) ep expected rid (Frame_Kill id (Some rid)) want)).
  { intros rid want. unfold request. apply moves_bind_ok; [apply _| |intros [? ?]; apply moves_ret, _].
    apply writes_request_seen; [done..|]. intros seen Hseen. by apply HP. }
  match goal with |- context [request ?a ?b ?c ?d ?e b0] => specialize (Hr c e b0); destruct (request a b c d e b0) as [r b1] end.
  cbn in *. etrans; [apply (same_connections_writes ep P b b0); by split|exact Hr].
Qed.

Lemma writes_kill_workspace_sessions P id expected :
  (∀ seen f, identity_admits expected seen = true → lists_sessions f ∨ kills_session f → P seen f) →
  moves (writes_only ep P) (kill_workspace_sessions_seen ep id expected).
Proof using fresh.
  intros HP b. change (wp (kill_workspace_sessions_seen ep id expected) (λ _ b', writes_only ep P b b') b).
  unfold kill_workspace_sessions_seen. wp_step. eapply wp_mono.
  { apply (daemon_sessions_seen_says P expected). intros seen f Hs Hf. apply HP; [done|by left]. }
  intros [[sessions seen]|e] b1 [Hw Hr]; [|done]. destruct Hr as [Hseen _].
  wp_step. eapply wp_mono.
  { apply (wp_moves (writes_only ep P)). apply moves_for_ok; [apply _|]. intros s. apply writes_kill_daemon_session.
    intros id' rid Hid. apply HP; [by eapply identity_admits_trans|right; by eexists _, _]. }
  intros [u|e] b2 Hw2; cbv beta; [apply wp_ret|]; by etrans.
Qed.

Lemma writes_create_session P spec expected :
  (∀ seen f, identity_admits expected seen = true → lists_sessions f ∨ kills_session f ∨ creates spec f → P seen f) →
  moves (writes_only ep P) (create_session ep spec expected).
Proof using fresh.
  intros HP. unfold create_session, request_session. moves_step.
  { apply writes_daemon_sessions_seen. auto. }
  destruct a as [sessions seen]. destruct (newest_live _ _); [apply moves_ret, _|]. moves_step.
  { apply moves_for_ok; [apply _|]. intros s. apply writes_kill_daemon_session. intros seen' rid Hs. apply HP; [done|].
    right. left. by eexists _, _. }
  apply writes_in_context, writes_with_id. intros rid. apply writes_request_seen; [done..|].
  intros id Hid. apply HP; [done|]. right. right. by eexists.
Qed.

Lemma writes_request {T} P expected rid frame (want : Frame → option T) : is_request frame = true →
  (∀ id, identity_admits expected id = true → P id frame) →
  moves (writes_only ep P) (request ep expected rid frame want).
Proof using fresh.
  intros Hreq HP. apply moves_bind_ok; [apply _|by apply writes_request_seen|]. intros [? ?]. apply moves_ret, _.
Qed.

Lemma keeps_listing c : (∀ f, lists_sessions f → may_write c f) →
  moves (writes_only ep (keeps_within c)) (daemon_sessions_seen ep (expected_of c)).
Proof using fresh. intros Hc. apply writes_daemon_sessions_seen. intros id f Hid Hf. split; [by apply Hc|done]. Qed.

Lemma keeps_creating c spec : (∀ f, lists_sessions f ∨ kills_session f ∨ creates spec f → may_write c f) →
  moves (writes_only ep (keeps_within c)) (create_session ep spec (expected_of c)).
Proof using fresh. intros Hc. apply writes_create_session. intros id f Hid Hf. split; [by apply Hc|done]. Qed.

Lemma keeps_killing c id : (∀ f, lists_sessions f ∨ kills_session f → may_write c f) →
  moves (writes_only ep (keeps_within c)) (kill_workspace_sessions_seen ep id (expected_of c)).
Proof using fresh. intros Hc. apply writes_kill_workspace_sessions. intros seen f Hid Hf. split; [by apply Hc|done]. Qed.

(** Take an operation apart, down to its requests. *)
Ltac within_tac := repeat first
  [ match goal with |- moves (writes_only _ (keeps_within ?c)) ?m =>
      match m with
      | context [request_id] => apply writes_with_id; intros ?
      | _ => first [ apply (keeps_listing c); cbn; by auto | apply (keeps_creating c); cbn; by auto
                   | apply (keeps_killing c); cbn; by auto ]
      end
    end
  | apply writes_in_context
  | first [apply writes_request_seen | apply writes_request]; [try assumption; reflexivity..|]; intros ? ?; split; [by eexists|done]
  | apply writes_kill_daemon_session; intros ? ? ?; split; [by eexists|done]
  | moves_step
  | solve [auto with moves] ].

Lemma run_call_keeps_within c : moves (writes_only ep (keeps_within c)) (run_call ep c).
Proof using fresh.
  destruct c; cbn [run_call].
  all: unfold daemon_list_workspaces, daemon_workspaces_seen, daemon_list_identified,
    daemon_resolve_repository, daemon_update_scope, daemon_create_identified,
    daemon_create_in, request_session, daemon_exists, daemon_attach, live_session_seen, daemon_attach_session, daemon_detach,
    daemon_kill, daemon_reset, daemon_rename, daemon_kill_workspace, daemon_open_workspace, request_workspace,
    daemon_update_layout, recover_stale_daemon_processes.
  all: within_tac.
Qed.

(** ** What is known of the daemons *)

(** A daemon that [ep] was opened to said it is [seen]. *)
Definition named (seen : option string) (heard : list (Z * (ReadFrameError + Frame))) : Prop :=
  ∃ n w t ack, ep_open ep n = Ok w ∧ wr_arrivals w = (t, inr (Frame_HelloAck ack)) :: heard ∧ ack_instance_id ack = seen.

(** It listed [sessions]. *)
Definition listing_of (seen : option string) (sessions : list SessionInfo) : Prop :=
  ∃ heard t rid, named seen heard ∧ (t, inr (Frame_SessionList sessions (Some rid))) ∈ heard.

Lemma listed_in_of b seen sessions : listed_in b seen sessions → listing_of seen sessions.
Proof.
  intros (c & w & t & rid & _ & Hid & (n & t0 & ack & rest & Hw & Harr & Hack & _) & Hin).
  rewrite Harr in Hin. apply elem_of_cons in Hin as [[=]|Hin].
  exists rest, t, rid. split; [|done]. exists n, w, t0, ack. split_and!; [done..|congruence].
Qed.

Lemma asks_of c id f : (id, f) ∈ asks c → ct_instance_id c = id.
Proof. unfold asks. intros (f' & [= -> ->] & _)%list_elem_of_fmap. done. Qed.

(** A request is written only once the daemon has introduced itself. *)
Lemma requests_named b id f : introduced ep b → (id, f) ∈ requests b → ∃ heard, named id heard.
Proof.
  assert (Hof : ∀ c, (∃ w, introduced_by ep c w) → (id, f) ∈ asks c → ∃ heard, named id heard).
  { intros c (w & n & t & ack & rest & Hw & Harr & Hack & _) Hin%asks_of. exists rest, n, w, t, ack. by rewrite <- Hin. }
  intros [Hs Hk] (l & Hin & (c & -> & Hc)%list_elem_of_fmap)%list_elem_of_join.
  apply elem_of_app in Hc as [Hc|Hc].
  - destruct (Hk c Hc) as [Hno|Hw]; [rewrite Hno in Hin; by apply elem_of_nil in Hin|by eapply Hof].
  - unfold slot in Hc. destruct (bk_connection b) as [c'|] eqn:Hb; [|by apply elem_of_nil in Hc].
    apply list_elem_of_singleton in Hc as ->. by eapply Hof; [apply Hs|].
Qed.

Lemma writes_only_weaken (P Q : option string → Frame → Prop) b b' : (∀ id f, P id f → Q id f) →
  writes_only ep P b b' → writes_only ep Q b b'.
Proof.
  intros HPQ [Hi (new & Hr & HF)]. split; [done|]. exists new. split; [done|].
  eapply Forall_impl; [exact HF|]. intros [id f]. apply HPQ.
Qed.

Lemma replay_app past past' b : replay ep (past ++ past') b = replay ep past' (replay ep past b).
Proof. revert b. induction past as [|c past IH]; intros b; [done|apply IH]. Qed.

(** What a daemon was asked in the course of several calls. *)
Lemma replay_keeps_within past b :
  writes_only ep (λ id f, ∃ c, c ∈ past ∧ keeps_within c id f) b (replay ep past b).
Proof using fresh.
  revert b. induction past as [|c past IH]; intros b; [reflexivity|]. cbn [replay]. etrans.
  - eapply writes_only_weaken; [|apply run_call_keeps_within]. intros id f Hk. exists c. split; [by left|done].
  - eapply writes_only_weaken; [|apply IH]. intros id f (c' & Hc & Hk). exists c'. split; [by right|done].
Qed.

Lemma introduced_new t now : introduced ep (backend_new t now).
Proof. split; [done|]. by intros c Hc%elem_of_nil. Qed.

Lemma introduced_replay past b : introduced ep b → introduced ep (replay ep past b).
Proof using fresh. intros Hb. by apply (replay_keeps_within past b). Qed.

(** ** Whom an operation ends *)

Lemma newest_live_none sessions id : newest_live sessions id = None →
  ∀ s, s ∈ sessions → si_workspace_id s = id → alive (si_status s) = false.
Proof.
  unfold newest_live. set (step := λ best session, _). intros Hn.
  assert (Hsome : ∀ l b, foldl step (Some b) l ≠ None).
  { induction l as [|x l IH]; intros b; [done|]. cbn. unfold step at 2. destruct (_ && _); [case_match|]; apply IH. }
  induction sessions as [|x l IH]; intros s Hin Hw; [by apply elem_of_nil in Hin|].
  cbn in Hn. unfold step at 2 in Hn. destruct (bool_decide (si_workspace_id x = id) && alive (si_status x)) eqn:Hx.
  { exfalso. by eapply Hsome. }
  apply elem_of_cons in Hin as [->|Hin]; [|by apply IH]. by rewrite bool_decide_eq_true_2 in Hx.
Qed.

(** A kill of a session of [id] that was listed. *)
Definition session_listed (sessions : list SessionInfo) (id : string) (f : Frame) : Prop :=
  ∃ s rid, s ∈ sessions ∧ si_workspace_id s = id ∧ f = Frame_Kill (si_id s) rid.

Lemma writes_kills P sessions id expected :
  (∀ seen f, identity_admits expected seen = true → session_listed sessions id f → P seen f) →
  moves (writes_only ep P) (for_ok (filter (λ s, si_workspace_id s = id) sessions) (λ s, kill_daemon_session ep (si_id s) expected)).
Proof using fresh.
  intros HP. set (l := filter _ sessions). assert (Hl : ∀ s, s ∈ l → s ∈ sessions ∧ si_workspace_id s = id).
  { intros s Hs%list_elem_of_filter. by destruct Hs. }
  clearbody l. induction l as [|s l IH]; [apply moves_ret, _|]. cbn [for_ok]. apply moves_bind_ok; [apply _| |].
  - apply writes_kill_daemon_session. intros seen rid Hs. apply HP; [done|]. exists s, rid.
    by split_and!; [apply Hl; left..|].
  - intros []. apply IH. intros s' Hs'. apply Hl. by right.
Qed.

(** What [create_session] writes once it knows who lives. *)
Definition replaces (spec : SessionSpec) (expected seen : option string) (f : Frame) : Prop :=
  ∃ teller sessions, listing_of teller sessions ∧ identity_admits expected teller = true ∧
    (∀ s, s ∈ sessions → si_workspace_id s = ss_id spec → alive (si_status s) = false) ∧
    (creates spec f ∨ session_listed sessions (ss_id spec) f).

Definition creating_writes (spec : SessionSpec) (expected id : option string) (f : Frame) : Prop :=
  identity_admits expected id = true ∧ (lists_sessions f ∨ replaces spec expected id f).

Lemma create_session_says spec expected b : introduced ep b →
  wp (create_session ep spec expected) (λ r b', writes_only ep (creating_writes spec expected) b b' ∧
    match r with
    | Ok (_, seen) => ∃ past f, requests b' = past ++ [(seen, f)] ∧ creates spec f
    | Err _ => True
    end) b.
Proof using fresh.
  intros Hb. unfold create_session. wp_step. eapply wp_mono.
  { apply (daemon_sessions_seen_says (creating_writes spec expected)). intros id f Hid Hf. split; [done|by left]. }
  intros [[sessions teller]|e] b1 [Hw1 Hr]; [|done]. destruct Hr as [Hteller Hl].
  specialize (Hl Hb). apply listed_in_of in Hl.
  destruct (newest_live sessions (ss_id spec)) as [s|] eqn:Hlive; [by apply wp_ret|].
  pose proof (newest_live_none _ _ Hlive) as Hgone. wp_step. eapply wp_mono.
  { apply (wp_moves (writes_only ep (creating_writes spec expected))). apply writes_kills.
    intros seen f Hs Hf. split; [done|]. right. exists teller, sessions. by eauto. }
  intros [u|e] b2 Hw2; [|split; [by etrans|done]].
  unfold in_context, request_session. wp_step. unfold wp at 1. cbn [request_id].
  set (b3 := with_next_request_id _ b2). set (rid := bk_next_request_id b2). set (frame := Frame_CreateSession _ _ _ _ _ _ _ _ _ _ _ _).
  pose proof (request_seen_says ep expected rid frame
    (λ reply, match reply with Frame_Created session _ reply_id => if_ours rid reply_id session | _ => None end) b3 fresh eq_refl) as Hs.
  unfold wp in Hs. destruct (request_seen _ _ _ _ _ b3) as [r b4]. cbn [fst snd] in *. apply wp_ret.
  destruct Hs as (Hi & new & Hnew & Hone & Hans). assert (Hcr : creates spec frame) by by eexists.
  split.
  - etrans; [exact Hw1|]. etrans; [exact Hw2|]. etrans; [apply (same_connections_writes ep _ b2 b3); by split|].
    split; [done|]. exists new. split; [done|]. destruct Hone as [->|(id & Ha & ->)]; [done|]. apply Forall_singleton.
    split; [done|]. right. exists teller, sessions. by eauto.
  - destruct r as [[info seen]|e]; [|done]. destruct Hans as (-> & _). by exists (requests b3), frame.
Qed.

(** What ending a workspace's sessions writes. *)
Definition ending_writes (id : string) (expected who : option string) (f : Frame) : Prop :=
  identity_admits expected who = true ∧
  (lists_sessions f ∨ ∃ teller sessions, listing_of teller sessions ∧ identity_admits teller who = true ∧ session_listed sessions id f).

Lemma kill_workspace_sessions_says id expected b : introduced ep b →
  wp (kill_workspace_sessions_seen ep id expected) (λ _ b', writes_only ep (ending_writes id expected) b b') b.
Proof using fresh.
  intros Hb. unfold kill_workspace_sessions_seen. wp_step. eapply wp_mono.
  { apply (daemon_sessions_seen_says (ending_writes id expected)). intros who f Hid Hf. split; [done|by left]. }
  intros [[sessions teller]|e] b1 [Hw1 Hr]; [|done]. destruct Hr as [Hteller Hl]. specialize (Hl Hb). apply listed_in_of in Hl.
  wp_step. eapply wp_mono.
  { apply (wp_moves (writes_only ep (ending_writes id expected))). apply writes_kills. intros seen f Hs Hf.
    split; [by eapply identity_admits_trans|]. right. by exists teller, sessions. }
  intros [u|e] b2 Hw2; cbv beta; [apply wp_ret|]; by etrans.
Qed.

(** Whether a workspace's session is there is what its daemon's listing says. *)
Lemma exists_says id expected b gone : introduced ep b → (run_call ep (CallExists id expected) b).1 = Ok gone →
  ∃ teller sessions, listing_of teller sessions ∧ identity_admits expected teller = true ∧
    gone = bool_decide (is_Some (newest_live sessions id)).
Proof using fresh.
  intros Hb. cbn [run_call]. unfold daemon_exists, live_session_seen. rewrite st_bind_unfold. unfold bind_ok.
  pose proof (daemon_sessions_seen_says (λ _ _, True) expected b ltac:(done)) as Hs. unfold wp in Hs.
  destruct (daemon_sessions_seen ep expected b) as [[[sessions teller]|e] b1]; cbn in *; [|done].
  intros [= <-]. destruct Hs as (_ & Hteller & Hl). exists teller, sessions. split_and!; [|done..].
  by eapply listed_in_of, Hl.
Qed.

Lemma in_of_writes P b b' : writes_only ep P b b' → introduced ep b →
  introduced ep b' ∧ ∃ new, requests b' = requests b ++ new ∧
    ∀ id f, (id, f) ∈ new → P id f ∧ ∃ heard, named id heard.
Proof.
  intros [Hi (new & Hr & HF)] Hb. specialize (Hi Hb). split; [done|]. exists new. split; [done|]. intros id f Hin. split.
  - rewrite Forall_forall in HF. apply (HF _ Hin).
  - eapply requests_named; [exact Hi|]. rewrite Hr. apply elem_of_app. by right.
Qed.


(** C21. Nobody who lives is replaced, and a workspace's end takes its own sessions.
    Creating a session asks for nothing but listings until a daemon it may use has listed
    its sessions with none of the workspace alive; then it ends only sessions of the
    workspace that were listed, and a session it answers is one that it asked for, last
    of all. Ending a workspace's sessions ends only those that a daemon listed in it,
    on the daemon that did. *)
Theorem only_the_gone_are_replaced past t now :
  let b := replay ep past (backend_new t now) in
  (∀ spec expected, let '(r, b') := create_session ep spec expected b in
     (∃ new, requests b' = requests b ++ new ∧ ∀ id f, (id, f) ∈ new → creating_writes spec expected id f) ∧
     ∀ info seen, r = Ok (info, seen) → ∃ past f, requests b' = past ++ [(seen, f)] ∧ creates spec f) ∧
  (∀ id expected, let '(_, b') := daemon_kill ep id expected b in
     ∃ new, requests b' = requests b ++ new ∧ ∀ who f, (who, f) ∈ new → ending_writes id expected who f).
Proof using fresh.
  intros b. assert (Hb : introduced ep b) by apply introduced_replay, introduced_new. clearbody b. split.
  - intros spec expected. apply wp_run. destruct (create_session_says spec expected b Hb) as [Hw Hr].
    apply in_of_writes in Hw as (_ & new & Hnew & Hall); [|done]. split.
    + exists new. split; [done|]. intros id f Hin. by apply Hall.
    + intros info seen Hok. by rewrite Hok in Hr.
  - intros id expected. apply wp_run. unfold daemon_kill. wp_step.
    eapply wp_mono; [apply (kill_workspace_sessions_says id expected b Hb)|]. intros r b' Hw.
    assert (∃ new, requests b' = requests b ++ new ∧ ∀ who f, (who, f) ∈ new → ending_writes id expected who f).
    { apply in_of_writes in Hw as (_ & new & Hnew & Hall); [|done]. exists new. split; [done|]. intros who f Hin. by apply Hall. }
    destruct r; [by apply wp_ret|done].
Qed.
End Operations.

(** ** The service over daemons *)

Section Daemons.
Context `{EnvelopeText, BodyErrors, Unicode, FrameDebug} (endpoint : option string → Endpoint)
  (initial : option string → DaemonBackend) (ticks : nat → Z) (ids : nat → string).

#[local] Instance over_daemons : SessionBackends := daemon_backends endpoint initial ticks ids.

Hypothesis fresh : ∀ host, fresh_wires (endpoint host).
Hypothesis starts : ∀ host, introduced (endpoint host) (initial host).

(** A host's backend at some point of what the service asked. *)
Definition backend_at (host : option string) (past : asked) : DaemonBackend :=
  replay (endpoint host) (asked_of host past) (initial host).

Lemma asked_of_app host past past' : asked_of host (past ++ past') = asked_of host past ++ asked_of host past'.
Proof. apply omap_app. Qed.

Lemma asked_of_in host past c : c ∈ asked_of host past → (host, c) ∈ past.
Proof. intros ([h c'] & Hin & Hc)%list_elem_of_omap. case_bool_decide; [|done]. by simplify_eq. Qed.

(** What a host's daemons were asked is what the service asked of the host. *)
Lemma backend_at_writes host past new :
  writes_only (endpoint host) (λ id f, ∃ c, (host, c) ∈ new ∧ keeps_within c id f)
    (backend_at host past) (backend_at host (past ++ new)).
Proof using fresh.
  unfold backend_at. rewrite asked_of_app, replay_app. eapply writes_only_weaken; [|by apply replay_keeps_within].
  intros id f (c & Hc%asked_of_in & Hk). by exists c.
Qed.

Lemma may_kill_workspace c w rid : may_write c (Frame_KillWorkspace w rid) → ∃ d, c = CallKillWorkspace w d.
Proof.
  intros Hm. destruct c; cbn in Hm; unfold lists_sessions, kills_session, creates in Hm; repeat first [done|destruct Hm as [Hm|Hm]];
    repeat match goal with H : ∃ _, _ |- _ => destruct H end; simplify_eq; by eexists.
Qed.

End Daemons.

(** ** At work *)

#[local] Existing Instance sample_floats.
#[local] Existing Instance sample_text.
#[local] Existing Instance sample_errors.
#[local] Existing Instance sample_unicode.
#[local] Existing Instance sample_debug.

(** A host whose connections all hear [heard], from the daemon [d], and then nothing. *)
Definition control_wire (heard : list Frame) : Wire :=
  mkWire ((1, inr (Frame_HelloAck (mkHelloAck "1.0" 3 "linux" 2 3 2 [] false None None (Some "d") None))) ::
          map (λ f, (2, inr f)) heard) true [] None "broken pipe".

Definition control_endpoint (heard : list Frame) : Endpoint := {|
  ep_bin_path := "/ade/daemon"; ep_address := Socket "/run/ade.sock"; ep_open := λ _, Ok (control_wire heard);
  ep_local_run := λ _, Err "no such command"; ep_exec := {| host_run := λ _ _, Err "unreachable"; host_upload := λ _ _ _, Err "unreachable" |}; ep_debug := λ s, s; ep_destination := "h";
  ep_local_binary := λ _, Err "no binary"; ep_daemon_version := mkVersion 1 0 0; ep_establish := λ _, Ok ();
  ep_forward_alive := λ _, true; ep_shutdown := λ _, ChannelFailed "not asked" |}.

Lemma control_endpoint_fresh heard : fresh_wires (control_endpoint heard).
Proof. by intros n w [= <-]. Qed.

Definition control_session (id workspace : string) (status : SessionStatus) : SessionInfo :=
  mkSessionInfo id workspace "shell" workspace "/repo" 5 status.

(** The workspace [w] has a session that ended; its replacement is [new]. A listing for
    somebody else comes first. *)
Definition heard_replacing : list Frame :=
  [Frame_SessionList [] (Some 9);
   Frame_SessionList [control_session "old" "w" Exited; control_session "other" "v" Working] (Some 1);
   Frame_Removed "old"; Frame_Created (control_session "new" "w" Idle) true (Some 3)].

Definition control_spec : SessionSpec := mkSessionSpec "w" "/repo" (Some "p") (Some "/repo").

Definition written_replacing : list (option string * Frame) :=
  [(Some "d", Frame_ListSessions (Some 1)); (Some "d", Frame_Kill "old" (Some 2));
   (Some "d", Frame_CreateSession "w" "/repo" (Some "p") (Some "/repo") "" [] 80 24 "shell" "w" None (Some 3))].

(** What the daemon of [h] says to a cleanup. *)
Definition heard_cleaning : list Frame :=
  let record id := mkWorkspaceInfo id "name" (Some "p") (Some "/repo") "/repo" 4 10 1 layout_empty in
  let live := [control_session "s-1" "s" Working; control_session "z-1" "z" Exited] in
  [Frame_WorkspaceList (map record ["s"; "z"; "new"]) (Some 1); Frame_WorkspaceList (map record ["s"; "z"; "new"]) (Some 2);
   Frame_SessionList live (Some 3); Frame_SessionList live (Some 4); Frame_WorkspaceRemoved "z" true (Some 5)].


(** The one session of the workspace has ended, and it alone is ended and replaced. *)
Lemma only_the_gone_are_replaced_witness :
  let ep := control_endpoint heard_replacing in
  let '(res, b') := create_session ep control_spec (Some "d") (backend_new Proxied 0) in
  res = Ok (control_session "new" "w" Idle, Some "d") ∧ requests b' = written_replacing ∧
  ∃ past f, written_replacing = past ++ [(Some "d", f)] ∧ creates control_spec f.
Proof.
  intros ep. destruct (only_the_gone_are_replaced ep (control_endpoint_fresh _) [] Proxied 0) as [H _].
  specialize (H control_spec (Some "d")). cbn [replay] in H.
  assert (Hrun : ((create_session ep control_spec (Some "d") (backend_new Proxied 0)).1,
    requests (create_session ep control_spec (Some "d") (backend_new Proxied 0)).2) =
    (Ok (control_session "new" "w" Idle, Some "d"), written_replacing)) by (vm_compute; reflexivity).
  destruct (create_session ep _ _ _) as [res b']. cbn [fst snd] in Hrun. injection Hrun as Hres Hreq.
  split; [exact Hres|]. split; [exact Hreq|]. rewrite <- Hreq. destruct H as [_ H]. eapply H. exact Hres.
Defined.

(** Another request's answer and a session's output come first. *)
Lemma a_wait_for_an_answer_ends_witness :
  let l := mkLine (mkWire (as_arrivals [(5, Frame_Removed "x"); (7000, Frame_SessionList [] (Some 1))] ++
    [(9000, inr (Frame_SessionList [] (Some 2))); (9001, inr (Frame_Removed "y"))]) true [] None "closed") 0 in
  let want := λ f, match f with Frame_SessionList sessions rid => if_ours 2 rid sessions | _ => None end in
  let '(r, l') := answer_to ANSWER_TIMEOUT 2 want l in
  r = Ok (Ok []) ∧ wr_arrivals (ln_wire l') = [(9001, inr (Frame_Removed "y"))].
Proof.
  intros l want. pose proof (a_wait_for_an_answer_ends 2 want l) as H.
  destruct (answer_to ANSWER_TIMEOUT 2 want l) as [r l']. destruct H as (_ & _ & H).
  eapply (H _ 9000 (Frame_SessionList [] (Some 2)) _ (Ok [])); [reflexivity..| |].
  - repeat constructor.
  - intros t0 f [= <- <-]. unfold ANSWER_TIMEOUT. cbn. split; [lia|]. repeat constructor; lia.
Defined.

